(** * Math Blaster 3D: the gameplay core, embedded and verified

    The repository ships two builds of one browser game.  [Enhanced] is the
    module build (question modes, health pickups, wave heal, ad gate,
    pause); [Basic] is the earlier single-script build.  Both are embedded
    here as functions over an explicit [World]: every global variable the
    game logic reads or writes is a field of it.

    Conventions of the embedding.
    - JavaScript integers that stay integers (score, kills, wave, combo,
      health, quiz arithmetic) are [Z]; positions, times and speeds are
      exact rationals [Q], so rounding of IEEE doubles is idealised away
      there.  The health percentage of the display is the one quotient
      whose rounding reaches an integer on screen: it is computed in
      binary64, as the script computes it.
    - [Math.sqrt], [Math.sin], [Math.cos] and [Math.PI] belong to the
      JavaScript runtime, not to the repository: they are the fields of
      [MathLib] and every result holds for any such library.
    - [Math.random] reads an explicit supply of draws.  Draws that only feed
      presentation of a part of the scene that is not modelled (mesh jitter
      of a dying robot, the choice of a voice sample) are not taken from it.
    - audio, meshes and materials are left out; the Three.js vector
      operations that the logic relies on are written out on [Vec3].
    - the page layer wraps the [World] in a [Page]: the look and joystick
      globals, the ad session of [adManager.js], the pending ad timers and
      the part of the document the handlers write to.  The listeners the
      script registers are the events of [step]; [Math.atan2] and the
      camera's view direction are the fields of [Browser].
    - a while loop gets fuel, and a computation is [None] when the fuel ran
      out or the script would have stopped on a TypeError.
    - an error that nothing catches undoes nothing.  A function that can
      end in one hands back the state it leaves together with a
      [Completion], and each caller stops where the script would: the
      enhanced build's [showFinalGameOver] calls a function that is out of
      scope, and the frame in which that happens is cut short. *)

From Stdlib Require Import ZArith QArith Qround Qabs List String Bool Lia Lqa.
From Stdlib Require Import Permutation DecimalString SpecFloat.
Import ListNotations.

Local Open Scope string_scope.
Local Open Scope list_scope.
Local Open Scope Z_scope.

(** ** The JavaScript runtime *)

Class MathLib := mkMathLib {
  Math_sqrt : Q -> Q;
  Math_sin : Q -> Q;
  Math_cos : Q -> Q;
  Math_PI : Q
}.

(** How a call ends: it returns, or an error that nothing catches ends it
    and, with it, every caller up to the event loop.  What was written to
    the globals before the error stays written. *)
Inductive Completion := Returns | Throws.

Definition Qlt_bool (x y : Q) : bool := negb (Qle_bool y x).

Definition Math_max (x y : Q) : Q := if Qle_bool x y then y else x.
Definition Math_min (x y : Q) : Q := if Qle_bool x y then x else y.
Definition Math_floor (x : Q) : Z := Qfloor x.
Definition Math_ceil (x : Q) : Z := Qceiling x.
Definition Math_abs (x : Q) : Q := Qabs x.

(** [Math.random()]: the supply and the position of the next draw. *)
Record Rng := mkRng { source : nat -> Q; cursor : nat }.

Definition Math_random (g : Rng) : Q * Rng :=
  (source g (cursor g), mkRng (source g) (S (cursor g))).

(** Every draw lies in [0, 1), as the language guarantees. *)
Definition unit_draws (g : Rng) : Prop :=
  forall n : nat, (0 <= source g n /\ source g n < 1)%Q.

(** [Math.floor(Math.random() * n)] *)
Definition randomIndex (n : Z) (g : Rng) : Z * Rng :=
  let '(r, g) := Math_random g in (Math_floor (r * inject_Z n), g).

(** A supply read off a finite list, then constant. *)
Definition drawsOf (l : list Q) : Rng := mkRng (fun n => nth n l 0%Q) 0.

(** Values that sit in an answer slot: numbers in math mode, strings in the
    quiz modes, [undefined] before assignment. *)
Inductive Value := VUndefined | VNum (n : Z) | VStr (s : string).

(** [===] *)
Definition strict_eq (x y : Value) : bool :=
  match x, y with
  | VUndefined, VUndefined => true
  | VNum n, VNum m => n =? m
  | VStr s, VStr t => String.eqb s t
  | _, _ => false
  end.

(** [Array.prototype.includes] on the decoy array *)
Definition includes (l : list Z) (x : Z) : bool := existsb (Z.eqb x) l.

Definition string_of_Z (n : Z) : string := NilZero.string_of_int (Z.to_int n).

(** ** Game state *)

Inductive Build := Basic | Enhanced.

Inductive Mode := math | quiz | english.

Record GameState := mkGameState {
  score : Z;
  wave : Z;
  health : Z;
  maxHealth : Z;
  combo : Z;
  kills : Z;
  isRunning : bool;
  isPaused : bool;
  mode : Mode
}.

(** The object literal of each build.  The basic build has no [mode] field
    and only ever asks sums, which is what [math] selects. *)
Definition initialGameState (b : Build) : GameState :=
  match b with
  | Basic => mkGameState 0 1 150 150 1 0 false false math
  | Enhanced => mkGameState 0 1 100 100 1 0 false false math
  end.

Definition set_score (v : Z) (s : GameState) : GameState :=
  mkGameState v (wave s) (health s) (maxHealth s) (combo s) (kills s)
    (isRunning s) (isPaused s) (mode s).
Definition set_wave (v : Z) (s : GameState) : GameState :=
  mkGameState (score s) v (health s) (maxHealth s) (combo s) (kills s)
    (isRunning s) (isPaused s) (mode s).
Definition set_health (v : Z) (s : GameState) : GameState :=
  mkGameState (score s) (wave s) v (maxHealth s) (combo s) (kills s)
    (isRunning s) (isPaused s) (mode s).
Definition set_combo (v : Z) (s : GameState) : GameState :=
  mkGameState (score s) (wave s) (health s) (maxHealth s) v (kills s)
    (isRunning s) (isPaused s) (mode s).
Definition set_kills (v : Z) (s : GameState) : GameState :=
  mkGameState (score s) (wave s) (health s) (maxHealth s) (combo s) v
    (isRunning s) (isPaused s) (mode s).
Definition set_isRunning (v : bool) (s : GameState) : GameState :=
  mkGameState (score s) (wave s) (health s) (maxHealth s) (combo s) (kills s)
    v (isPaused s) (mode s).
Definition set_isPaused (v : bool) (s : GameState) : GameState :=
  mkGameState (score s) (wave s) (health s) (maxHealth s) (combo s) (kills s)
    (isRunning s) v (mode s).
Definition set_mode (v : Mode) (s : GameState) : GameState :=
  mkGameState (score s) (wave s) (health s) (maxHealth s) (combo s) (kills s)
    (isRunning s) (isPaused s) v.

(** ** Vectors *)

Record Vec3 := mkVec3 { vx : Q; vy : Q; vz : Q }.

Definition Vec3_sub (u v : Vec3) : Vec3 :=
  mkVec3 (vx u - vx v)%Q (vy u - vy v)%Q (vz u - vz v)%Q.
Definition Vec3_add (u v : Vec3) : Vec3 :=
  mkVec3 (vx u + vx v)%Q (vy u + vy v)%Q (vz u + vz v)%Q.
Definition Vec3_multiplyScalar (v : Vec3) (k : Q) : Vec3 :=
  mkVec3 (vx v * k)%Q (vy v * k)%Q (vz v * k)%Q.
Definition Vec3_addScaledVector (u v : Vec3) (k : Q) : Vec3 :=
  Vec3_add u (Vec3_multiplyScalar v k).
Definition Vec3_set_x (x : Q) (v : Vec3) : Vec3 := mkVec3 x (vy v) (vz v).
Definition Vec3_set_y (y : Q) (v : Vec3) : Vec3 := mkVec3 (vx v) y (vz v).
Definition Vec3_set_z (z : Q) (v : Vec3) : Vec3 := mkVec3 (vx v) (vy v) z.

(** [new Vector3().crossVectors(u, v)] *)
Definition Vec3_crossVectors (u v : Vec3) : Vec3 :=
  mkVec3 (vy u * vz v - vz u * vy v)%Q
         (vz u * vx v - vx u * vz v)%Q
         (vx u * vy v - vy u * vx v)%Q.

(** ** Robots *)

Inductive RobotType := normal | fast | heavy.

Inductive Part := part_head | part_chest | part_knee.

Record Answers := mkAnswers { head : Value; chest : Value; knee : Value }.

(** [this.answers[part]] *)
Definition answerAt (a : Answers) (p : Part) : Value :=
  match p with
  | part_head => head a
  | part_chest => chest a
  | part_knee => knee a
  end.

Record Robot := mkRobot {
  rtype : RobotType;
  baseSpeed : Q;
  damage : Z;
  scale : Q;
  position : Vec3;
  speed : Q;
  alive : bool;
  dying : bool;
  dyingTimer : Q;
  walkTime : Q;
  attackCooldown : Q;
  question : string;
  correctAnswer : Value;
  answers : Answers
}.

Definition set_position (v : Vec3) (r : Robot) : Robot :=
  mkRobot (rtype r) (baseSpeed r) (damage r) (scale r) v (speed r) (alive r)
    (dying r) (dyingTimer r) (walkTime r) (attackCooldown r) (question r)
    (correctAnswer r) (answers r).
Definition set_alive (v : bool) (r : Robot) : Robot :=
  mkRobot (rtype r) (baseSpeed r) (damage r) (scale r) (position r) (speed r) v
    (dying r) (dyingTimer r) (walkTime r) (attackCooldown r) (question r)
    (correctAnswer r) (answers r).
Definition set_dying (v : bool) (r : Robot) : Robot :=
  mkRobot (rtype r) (baseSpeed r) (damage r) (scale r) (position r) (speed r)
    (alive r) v (dyingTimer r) (walkTime r) (attackCooldown r) (question r)
    (correctAnswer r) (answers r).
Definition set_dyingTimer (v : Q) (r : Robot) : Robot :=
  mkRobot (rtype r) (baseSpeed r) (damage r) (scale r) (position r) (speed r)
    (alive r) (dying r) v (walkTime r) (attackCooldown r) (question r)
    (correctAnswer r) (answers r).
Definition set_walkTime (v : Q) (r : Robot) : Robot :=
  mkRobot (rtype r) (baseSpeed r) (damage r) (scale r) (position r) (speed r)
    (alive r) (dying r) (dyingTimer r) v (attackCooldown r) (question r)
    (correctAnswer r) (answers r).
Definition set_attackCooldown (v : Q) (r : Robot) : Robot :=
  mkRobot (rtype r) (baseSpeed r) (damage r) (scale r) (position r) (speed r)
    (alive r) (dying r) (dyingTimer r) (walkTime r) v (question r)
    (correctAnswer r) (answers r).
Definition set_question (q : string) (r : Robot) : Robot :=
  mkRobot (rtype r) (baseSpeed r) (damage r) (scale r) (position r) (speed r)
    (alive r) (dying r) (dyingTimer r) (walkTime r) (attackCooldown r) q
    (correctAnswer r) (answers r).
Definition set_correctAnswer (c : Value) (r : Robot) : Robot :=
  mkRobot (rtype r) (baseSpeed r) (damage r) (scale r) (position r) (speed r)
    (alive r) (dying r) (dyingTimer r) (walkTime r) (attackCooldown r)
    (question r) c (answers r).
Definition set_answers (a : Answers) (r : Robot) : Robot :=
  mkRobot (rtype r) (baseSpeed r) (damage r) (scale r) (position r) (speed r)
    (alive r) (dying r) (dyingTimer r) (walkTime r) (attackCooldown r)
    (question r) (correctAnswer r) a.

(** ** Question generators *)

Inductive Operation := op_add | op_sub | op_mul | op_div | op_sq.

Definition Operation_symbol (o : Operation) : string :=
  match o with
  | op_add => "+"
  | op_sub => "-"
  | op_mul => "×"
  | op_div => "÷"
  | op_sq => "²"
  end.

(** What a generator hands back: [{ answer, wrongAnswers }]. *)
Record Generated := mkGenerated { answer : Value; wrongAnswers : list Value }.

(** The operation set and operand bound the enhanced build unlocks by wave:
    four [if]s in sequence, each overriding the previous one. *)
Definition MathGenerator_difficulty (w : Z) : list Operation * Z :=
  let d := ([op_add], 10) in
  let d := if 2 <=? w then ([op_add; op_sub], 20) else d in
  let d := if 3 <=? w then ([op_add; op_sub; op_mul], 30) else d in
  let d := if 6 <=? w then ([op_add; op_sub; op_mul; op_div], 50) else d in
  let d := if 10 <=? w
           then ([op_add; op_sub; op_mul; op_div; op_sq], 100) else d in
  d.

(** The [switch (operation)]: operands [a], [b] and the answer. *)
Definition MathGenerator_operands (o : Operation) (maxNum : Z) (g : Rng)
  : (Z * Z * Z) * Rng :=
  match o with
  | op_add =>
      let '(x, g) := randomIndex maxNum g in
      let a := x + 1 in
      let '(y, g) := randomIndex maxNum g in
      let b := y + 1 in
      ((a, b, a + b), g)
  | op_sub =>
      let '(x, g) := randomIndex maxNum g in
      let a := x + 10 in
      let '(b, g) := randomIndex a g in
      ((a, b, a - b), g)
  | op_mul =>
      let multMax := Z.min 15 (Math_ceil (inject_Z maxNum / 2)) in
      let '(x, g) := randomIndex multMax g in
      let a := x + 2 in
      let '(y, g) := randomIndex 10 g in
      let b := y + 2 in
      ((a, b, a * b), g)
  | op_div =>
      let '(y, g) := randomIndex 12 g in
      let b := y + 2 in
      let '(z, g) := randomIndex 12 g in
      let ans := z + 2 in
      ((b * ans, b, ans), g)
  | op_sq =>
      let '(x, g) := randomIndex 15 g in
      let a := x + 2 in
      ((a, 2, a * a), g)
  end.

(** The basic build's [switch]: three operations, fixed ranges. *)
Definition basic_operands (o : Operation) (g : Rng) : (Z * Z * Z) * Rng :=
  match o with
  | op_sub =>
      let '(x, g) := randomIndex 30 g in
      let a := x + 10 in
      let '(b, g) := randomIndex a g in
      ((a, b, a - b), g)
  | op_mul =>
      let '(x, g) := randomIndex 12 g in
      let a := x + 1 in
      let '(y, g) := randomIndex 12 g in
      let b := y + 1 in
      ((a, b, a * b), g)
  | _ =>
      let '(x, g) := randomIndex 20 g in
      let a := x + 1 in
      let '(y, g) := randomIndex 20 g in
      let b := y + 1 in
      ((a, b, a + b), g)
  end.

(** One candidate decoy: [answer + offset] with the offset drawn from -5..4,
    a zero offset being replaced by 1 or -1 on a second draw. *)
Definition drawWrong (ans : Z) (g : Rng) : Z * Rng :=
  let '(x, g) := randomIndex 10 g in
  let offset := x - 5 in
  let '(delta, g) :=
    if offset =? 0
    then let '(r, g) := Math_random g in
         ((if Qlt_bool (1 # 2) r then 1 else -1), g)
    else (offset, g) in
  (ans + delta, g).

(** [while (wrongAnswers.length < 2) { ... }]: a candidate is kept when it
    differs from the answer, is positive and is not there yet. *)
Fixpoint wrongAnswers_loop (fuel : nat) (ans : Z) (acc : list Z) (g : Rng)
  : option (list Z * Rng) :=
  if (List.length acc <? 2)%nat then
    match fuel with
    | O => None
    | S fuel =>
        let '(wrong, g) := drawWrong ans g in
        if negb (wrong =? ans) && (0 <? wrong) && negb (includes acc wrong)
        then wrongAnswers_loop fuel ans (acc ++ [wrong]) g
        else wrongAnswers_loop fuel ans acc g
    end
  else Some (acc, g).

Definition mathQuestion (o : Operation) (a b : Z) : string :=
  match o with
  | op_sq => (string_of_Z a ++ "² = ?")%string
  | _ => (string_of_Z a ++ " " ++ Operation_symbol o ++ " " ++ string_of_Z b
          ++ " = ?")%string
  end.

Definition MathGenerator_generate (fuel : nat) (gs : GameState) (robot : Robot)
  (g : Rng) : option (Robot * Generated * Rng) :=
  let '(operations, maxNum) := MathGenerator_difficulty (wave gs) in
  let '(i, g) := randomIndex (Z.of_nat (List.length operations)) g in
  if i <? 0 then None else
  match nth_error operations (Z.to_nat i) with
  | None => None
  | Some operation =>
      let '((a, b, ans), g) := MathGenerator_operands operation maxNum g in
      match wrongAnswers_loop fuel ans [] g with
      | None => None
      | Some (wrongs, g) =>
          let robot := set_question (mathQuestion operation a b) robot in
          let robot := set_correctAnswer (VNum ans) robot in
          Some (robot, mkGenerated (VNum ans) (map VNum wrongs), g)
      end
  end.

(** A pool entry [{ q, a, w }]. *)
Record QData := mkQData { qd_q : string; qd_a : string; qd_w : list string }.
Definition QuizGenerator_easy : list QData :=
  [ mkQData "Capital of France?" "Paris" ["London"; "Berlin"];
    mkQData "H2O is?" "Water" ["Iron"; "Gold"];
    mkQData "Red Planet?" "Mars" ["Venus"; "Jupiter"];
    mkQData "Largest Ocean?" "Pacific" ["Atlantic"; "Indian"];
    mkQData "Fastest Animal?" "Cheetah" ["Lion"; "Horse"];
    mkQData "Is the sun a star?" "Yes" ["No"; "Maybe"];
    mkQData "King of Jungle?" "Lion" ["Tiger"; "Bear"];
    mkQData "Color of Emerald?" "Green" ["Red"; "Blue"];
    mkQData "Opposite of Cold?" "Hot" ["Warm"; "Cool"];
    mkQData "Freezing point of water?" "0°C" ["-10°C"; "10°C"];
    mkQData "Color of banana?" "Yellow" ["Green"; "Red"];
    mkQData "Bat is a bird?" "No" ["Yes"; "Maybe"];
    mkQData "A shape with 3 sides?" "Triangle" ["Square"; "Circle"];
    mkQData "Ice is?" "Frozen Water" ["Gas"; "Steam"];
    mkQData "Number of fingers?" "5" ["4"; "6"] ].

Definition QuizGenerator_medium : list QData :=
  [ mkQData "Capital of Japan?" "Tokyo" ["Kyoto"; "Osaka"];
    mkQData "Hardest material?" "Diamond" ["Steel"; "Iron"];
    mkQData "3.14 is?" "Pi" ["Phi"; "E"];
    mkQData "Smallest planet?" "Mercury" ["Mars"; "Pluto"];
    mkQData "Number of continents?" "7" ["5"; "6"];
    mkQData "Identify: Verb" "Run" ["Blue"; "Sky"];
    mkQData "Capital of USA?" "Washington D.C." ["New York"; "Chicago"];
    mkQData "Currency of UK?" "Pound" ["Euro"; "Dollar"];
    mkQData "Symbol for Gold?" "Au" ["Ag"; "Fe"];
    mkQData "Programming language?" "JavaScript" ["HTML"; "CSS"];
    mkQData "Planet with rings?" "Saturn" ["Mars"; "Venus"];
    mkQData "Largest desert?" "Antarctica" ["Sahara"; "Gobi"];
    mkQData "Closest star?" "Sun" ["Proxima"; "Sirius"];
    mkQData "Spider legs count?" "8" ["6"; "10"];
    mkQData "Capital of Spain?" "Madrid" ["Barcelona"; "Seville"] ].

Definition QuizGenerator_hard : list QData :=
  [ mkQData "CPU stands for?" "Central Processing Unit" ["Computer Personal Unit"; "Central Power Unit"];
    mkQData "Boiling point of water?" "100°C" ["90°C"; "120°C"];
    mkQData "Speed of light used in?" "Optics" ["Acoustics"; "Mechanics"];
    mkQData "Who painted Mona Lisa?" "Da Vinci" ["Picasso"; "Van Gogh"];
    mkQData "Force that pulls down?" "Gravity" ["Magnetism"; "Friction"];
    mkQData "Largest mammal?" "Blue Whale" ["Elephant"; "Giraffe"];
    mkQData "Square root of 64?" "8" ["6"; "12"];
    mkQData "Author of Harry Potter?" "J.K. Rowling" ["Tolkien"; "Martin"];
    mkQData "Which gas do we breath?" "Oxygen" ["Helium"; "Nitrogen"];
    mkQData "Fastest bird?" "Peregrine Falcon" ["Eagle"; "Hawk"];
    mkQData "Tallest mountain?" "Everest" ["K2"; "Kilimanjaro"];
    mkQData "Capital of Italy?" "Rome" ["Milan"; "Venice"];
    mkQData "Number of bones in ear?" "3" ["2"; "4"];
    mkQData "Where are pyramids?" "Egypt" ["Mexico"; "Peru"];
    mkQData "Symbol for Iron?" "Fe" ["Ir"; "In"];
    mkQData "Primary colors?" "R, G, B" ["O, P, G"; "B, W, G"];
    mkQData "Start of WWI?" "1914" ["1918"; "1939"];
    mkQData "Inventor of Phone?" "Bell" ["Edison"; "Tesla"];
    mkQData "Most spoken language?" "English" ["Spanish"; "Mandarin"];
    mkQData "Frozen water is?" "Ice" ["Steam"; "Liquid"];
    mkQData "Value of a dozen?" "12" ["10"; "6"];
    mkQData "Humans breathe out?" "CO2" ["Oxygen"; "Nitrogen"];
    mkQData "Capital of China?" "Beijing" ["Shanghai"; "Hong Kong"] ].

Definition EnglishGenerator_easy : list QData :=
  [ mkQData "Opposite of HOT?" "Cold" ["Warm"; "Soft"];
    mkQData "Synonym of HAPPY?" "Joyful" ["Sad"; "Angry"];
    mkQData "Past tense of RUN?" "Ran" ["Runned"; "Running"];
    mkQData "Opposite of BIG?" "Small" ["Huge"; "Tall"];
    mkQData "Synonym of FAST?" "Quick" ["Slow"; "Lazy"];
    mkQData "Rhymes with CAT?" "Hat" ["Dog"; "Fish"];
    mkQData "Which is a noun?" "Apple" ["Eat"; "Red"];
    mkQData "Opposite of DAY?" "Night" ["Sun"; "Moon"];
    mkQData "Homophone of SEA?" "See" ["Say"; "Saw"];
    mkQData "Past tense of EAT?" "Ate" ["Eated"; "Eating"];
    mkQData "Plural of MAN?" "Men" ["Mans"; "Mens"];
    mkQData "Color of Sky?" "Blue" ["Green"; "Red"];
    mkQData "Antonym of UP?" "Down" ["Left"; "Right"] ].

Definition EnglishGenerator_medium : list QData :=
  [ mkQData "Plural of CHILD?" "Children" ["Childs"; "Childrens"];
    mkQData "Which is a verb?" "Jump" ["Blue"; "Table"];
    mkQData "Plural of MOUSE?" "Mice" ["Mouses"; "Mees"];
    mkQData "Which is an adjective?" "Fast" ["Car"; "Drive"];
    mkQData "Opposite of TRUE?" "False" ["Right"; "Correct"];
    mkQData "Antonym of RICH?" "Poor" ["Wealthy"; "Gold"];
    mkQData "Past tense of GO?" "Went" ["Goed"; "Going"];
    mkQData "Plural of TOOTH?" "Teeth" ["Tooths"; "Teethes"];
    mkQData "Rhymes with MOON?" "Spoon" ["Sun"; "Star"];
    mkQData "Which is a Pronoun?" "He" ["Run"; "Boy"];
    mkQData "Past tense of SEE?" "Saw" ["Seen"; "Seed"];
    mkQData "Plural of FOOT?" "Feet" ["Foots"; "Feets"];
    mkQData "Homophone of TWO?" "Too" ["To"; "Tow"] ].

Definition EnglishGenerator_hard : list QData :=
  [ mkQData "Synonym of SMART?" "Clever" ["Dumb"; "Slow"];
    mkQData "Synonym of ANGRY?" "Mad" ["Calm"; "Happy"];
    mkQData "Antonym of NEAR?" "Far" ["Close"; "Here"];
    mkQData "Synonym of BEGIN?" "Start" ["End"; "Finish"];
    mkQData "Antonym of HARD?" "Soft" ["Easy"; "Solid"];
    mkQData "Past tense of DO?" "Did" ["Done"; "Doed"];
    mkQData "Rhymes with SKY?" "Fly" ["Blue"; "Bird"];
    mkQData "Which is an Adverb?" "Slowly" ["Fast"; "Run"];
    mkQData "Synonym of BIG?" "Large" ["Tiny"; "Small"];
    mkQData "Antonym of LOVE?" "Hate" ["Like"; "Friend"];
    mkQData "Past tense of BUY?" "Bought" ["Buyed"; "Bring"];
    mkQData "Plural of GOOSE?" "Geese" ["Gooses"; "Geeses"];
    mkQData "Homophone of PAIR?" "Pear" ["Pare"; "Peel"];
    mkQData "Synonym of SCARED?" "Afraid" ["Brave"; "Bold"];
    mkQData "Past tense of COME?" "Came" ["Comed"; "Coming"];
    mkQData "Plural of WOMAN?" "Women" ["Womans"; "Womens"];
    mkQData "Rhymes with LIGHT?" "Bright" ["Dark"; "Sun"];
    mkQData "Which is a Preposition?" "Under" ["Cat"; "Jump"];
    mkQData "Synonym of TIRED?" "Sleepy" ["Awake"; "Walk"];
    mkQData "Antonym of RIGHT?" "Wrong" ["Left"; "Correct"] ].

(** [pool = this.easy; if (wave >= 4) ...; if (wave >= 8) ...]: the pool is
    cumulative. *)
Definition unlockedPool (easy medium hard : list QData) (w : Z) : list QData :=
  let pool := easy in
  let pool := if 4 <=? w then pool ++ medium else pool in
  let pool := if 8 <=? w then pool ++ hard else pool in
  pool.

(** [pool[Math.floor(Math.random() * pool.length)]] and the three
    assignments that follow; reading [.q] of [undefined] is a TypeError. *)
Definition pickFromPool (pool : list QData) (robot : Robot) (g : Rng)
  : option (Robot * Generated * Rng) :=
  let '(i, g) := randomIndex (Z.of_nat (List.length pool)) g in
  if i <? 0 then None else
  match nth_error pool (Z.to_nat i) with
  | None => None
  | Some qData =>
      let robot := set_question (qd_q qData) robot in
      let robot := set_correctAnswer (VStr (qd_a qData)) robot in
      Some (robot, mkGenerated (VStr (qd_a qData)) (map VStr (qd_w qData)), g)
  end.

Definition QuizGenerator_generate (gs : GameState) (robot : Robot) (g : Rng)
  : option (Robot * Generated * Rng) :=
  pickFromPool
    (unlockedPool QuizGenerator_easy QuizGenerator_medium QuizGenerator_hard
       (wave gs)) robot g.

Definition EnglishGenerator_generate (gs : GameState) (robot : Robot) (g : Rng)
  : option (Robot * Generated * Rng) :=
  pickFromPool
    (unlockedPool EnglishGenerator_easy EnglishGenerator_medium
       EnglishGenerator_hard (wave gs)) robot g.

(** [l[i] = v] for an index inside the array. *)
Fixpoint assignAt (i : nat) (v : Value) (l : list Value) : list Value :=
  match l, i with
  | [], _ => []
  | _ :: t, O => v :: t
  | x :: t, S i => x :: assignAt i v t
  end.

(** [[l[i], l[j]] = [l[j], l[i]]]: both reads come before both writes. *)
Definition swap (i j : nat) (l : list Value) : list Value :=
  let li := nth i l VUndefined in
  let lj := nth j l VUndefined in
  assignAt j li (assignAt i lj l).

(** [for (let i = ...; i > 0; i--) { j = Math.floor(Math.random() * (i + 1)); swap }]
    entered with [i = allAnswers.length - 1]. *)
Fixpoint shuffle_from (i : nat) (l : list Value) (g : Rng)
  : list Value * Rng :=
  match i with
  | O => (l, g)
  | S i' =>
      let '(j, g) := randomIndex (Z.of_nat i + 1) g in
      shuffle_from i' (swap i (Z.to_nat j) l) g
  end.

(** The tail both builds share: shuffle, then bind the zones. *)
Definition bindZones (result : Generated) (robot : Robot) (g : Rng)
  : Robot * Rng :=
  let allAnswers := answer result :: wrongAnswers result in
  let '(allAnswers, g) :=
    shuffle_from (List.length allAnswers - 1) allAnswers g in
  (set_answers
     (mkAnswers (nth 0 allAnswers VUndefined) (nth 1 allAnswers VUndefined)
        (nth 2 allAnswers VUndefined)) robot, g).

(** Enhanced build: [Robot.generateQuestion]. *)
Definition Robot_generateQuestion (fuel : nat) (gs : GameState) (this : Robot)
  (g : Rng) : option (Robot * Rng) :=
  let result :=
    match mode gs with
    | quiz => QuizGenerator_generate gs this g
    | english => EnglishGenerator_generate gs this g
    | math => MathGenerator_generate fuel gs this g
    end in
  match result with
  | None => None
  | Some (this, result, g) => Some (bindZones result this g)
  end.

(** Basic build: [Robot.generateMathQuestion]. *)
Definition Robot_generateMathQuestion (fuel : nat) (this : Robot) (g : Rng)
  : option (Robot * Rng) :=
  let operations := [op_add; op_sub; op_mul] in
  let '(i, g) := randomIndex (Z.of_nat (List.length operations)) g in
  if i <? 0 then None else
  match nth_error operations (Z.to_nat i) with
  | None => None
  | Some operation =>
      let '((a, b, ans), g) := basic_operands operation g in
      match wrongAnswers_loop fuel ans [] g with
      | None => None
      | Some (wrongs, g) =>
          let this := set_question (mathQuestion operation a b) this in
          let this := set_correctAnswer (VNum ans) this in
          Some (bindZones (mkGenerated (VNum ans) (map VNum wrongs)) this g)
      end
  end.

Definition generateQuestion (b : Build) (fuel : nat) (gs : GameState)
  (this : Robot) (g : Rng) : option (Robot * Rng) :=
  match b with
  | Basic => Robot_generateMathQuestion fuel this g
  | Enhanced => Robot_generateQuestion fuel gs this g
  end.

(** ** Arena *)

(** [const boundaryLimit = 45] of the robot code (constructor, [update],
    [attackPlayer]) and [const boundaryLimit = 35] of
    [updatePlayerMovement]. *)
Definition Robot_boundaryLimit : Q := 45.
Definition player_boundaryLimit : Q := 35.

(** [Math.max(-limit, Math.min(limit, x))] *)
Definition clamp (limit x : Q) : Q :=
  Math_max (- limit) (Math_min limit x).

Definition keepWithin (limit : Q) (p : Vec3) : Vec3 :=
  let p := Vec3_set_x (clamp limit (vx p)) p in
  let p := Vec3_set_z (clamp limit (vz p)) p in
  p.

Definition within (limit : Q) (p : Vec3) : Prop :=
  (- limit <= vx p /\ vx p <= limit /\ - limit <= vz p /\ vz p <= limit)%Q.

Definition inArena (r : Robot) : Prop := within Robot_boundaryLimit (position r).

(** The camera: where the player stands and the direction the view points
    in, that is [(0, 0, -1)] turned by [camera.quaternion]. *)
Record Camera := mkCamera { cam_position : Vec3; cam_direction : Vec3 }.

Definition set_cam_position (p : Vec3) (c : Camera) : Camera :=
  mkCamera p (cam_direction c).

Definition playerInArena (c : Camera) : Prop :=
  within player_boundaryLimit (cam_position c).

(** ** Robot construction *)

(** [typePool]: what the enhanced build may spawn at a wave. *)
Definition typePool (w : Z) : list RobotType :=
  if (3 <=? w) && (w <=? 5) then
    [normal; normal; normal; normal; normal; normal; normal; fast; fast; fast]
  else if (6 <=? w) && (w <=? 9) then
    [normal; normal; normal; normal; normal; fast; fast; fast; heavy; heavy]
  else if 10 <=? w then
    [normal; normal; normal; normal; fast; fast; fast; fast; heavy; heavy]
  else [normal].

Definition spawnTypes (b : Build) (w : Z) : list RobotType :=
  match b with
  | Basic => [normal; fast; heavy]
  | Enhanced => typePool w
  end.

(** The [switch (this.type)]: base speed, damage, scale. *)
Definition Robot_stats (b : Build) (t : RobotType) : Q * Z * Q :=
  match b, t with
  | Enhanced, fast => (3%Q, 10, (85 # 100)%Q)
  | Enhanced, heavy => (1%Q, 25, (13 # 10)%Q)
  | Enhanced, normal => ((18 # 10)%Q, 12, 1%Q)
  | Basic, fast => (4%Q, 10, (85 # 100)%Q)
  | Basic, heavy => ((15 # 10)%Q, 25, (13 # 10)%Q)
  | Basic, normal => ((25 # 10)%Q, 12, 1%Q)
  end.

(** [speed = baseSpeed + wave * factor] *)
Definition waveSpeedFactor (b : Build) : Q :=
  match b with Basic => 2 # 10 | Enhanced => 1 # 10 end.

Section Geometry.
Context {M : MathLib}.

Definition Vec3_length (v : Vec3) : Q :=
  Math_sqrt (vx v * vx v + vy v * vy v + vz v * vz v)%Q.

(** [divideScalar(this.length() || 1)] *)
Definition Vec3_normalize (v : Vec3) : Vec3 :=
  let len := Vec3_length v in
  Vec3_multiplyScalar v (1 / (if Qeq_bool len 0 then 1 else len))%Q.

(** [applyAxisAngle(new Vector3(0, 1, 0), angle)]: the turn about the
    vertical axis that Three.js carries out through a quaternion. *)
Definition Vec3_applyAxisAngleY (v : Vec3) (angle : Q) : Vec3 :=
  mkVec3 (vx v * Math_cos angle + vz v * Math_sin angle)%Q
         (vy v)
         (vz v * Math_cos angle - vx v * Math_sin angle)%Q.

Definition Vec3_distanceTo (u v : Vec3) : Q := Vec3_length (Vec3_sub u v).

(** A point on the full circle around the player, 35 to 50 away. *)
Definition aroundPlayer (cam : Camera) (g : Rng) : Vec3 * Rng :=
  let '(r, g) := Math_random g in
  let angle := (r * Math_PI * 2)%Q in
  let '(r, g) := Math_random g in
  let distance := (35 + r * 15)%Q in
  (mkVec3 (vx (cam_position cam) + Math_sin angle * distance)%Q 0
          (vz (cam_position cam) - Math_cos angle * distance)%Q, g).

(** Where a new robot is put, before clamping.  The enhanced build aims
    within 135 degrees of the view direction, the basic one anywhere
    around the player. *)
Definition spawnPoint (b : Build) (cam : Camera) (g : Rng) : Vec3 * Rng :=
  match b with
  | Enhanced =>
      let '(r, g) := Math_random g in
      let distance := (35 + r * 15)%Q in
      let spawnDir := Vec3_normalize (Vec3_set_y 0 (cam_direction cam)) in
      let '(r, g) := Math_random g in
      let angleOffset := ((r - (1 # 2)) * (Math_PI * (15 # 10)))%Q in
      let spawnDir := Vec3_applyAxisAngleY spawnDir angleOffset in
      (mkVec3 (vx (cam_position cam) + vx spawnDir * distance)%Q 0
              (vz (cam_position cam) + vz spawnDir * distance)%Q, g)
  | Basic => aroundPlayer cam g
  end.

(** [new Robot(type)].  [type || pool[...]] draws only without a type; an
    index outside the pool would leave the type [undefined], which the
    [switch] and every later test treat like [normal]. *)
Definition Robot_new (b : Build) (fuel : nat) (type : option RobotType)
  (gs : GameState) (cam : Camera) (g : Rng) : option (Robot * Rng) :=
  let pool := spawnTypes b (wave gs) in
  let '(t, g) :=
    match type with
    | Some t => (t, g)
    | None =>
        let '(i, g) := randomIndex (Z.of_nat (List.length pool)) g in
        ((if i <? 0 then normal else nth (Z.to_nat i) pool normal), g)
    end in
  let '(base, dmg, sc) := Robot_stats b t in
  let '(p, g) := spawnPoint b cam g in
  let p := keepWithin Robot_boundaryLimit p in
  let '(r, g) := Math_random g in
  let this :=
    mkRobot t base dmg sc p
      (base + inject_Z (wave gs) * waveSpeedFactor b)%Q
      true false 0 (r * Math_PI * 2)%Q 0
      EmptyString VUndefined (mkAnswers VUndefined VUndefined VUndefined) in
  generateQuestion b fuel gs this g.

End Geometry.

(** ** Short-lived entities *)

Record ExplosionParticle := mkExplosionParticle {
  ep_position : Vec3;
  ep_velocity : Vec3;
  ep_life : Q;
  ep_decay : Q
}.

Record BulletTrail := mkBulletTrail {
  bt_start : Vec3;
  bt_end : Vec3;
  bt_life : Q
}.

Record HealthPickup := mkHealthPickup {
  pk_position : Vec3;
  pk_scale : Q;
  pk_targetScale : Q;
  pk_time : Q;
  collected : bool
}.

Definition ExplosionParticle_new (p : Vec3) (g : Rng)
  : ExplosionParticle * Rng :=
  let '(rx, g) := Math_random g in
  let '(ry, g) := Math_random g in
  let '(rz, g) := Math_random g in
  let velocity :=
    mkVec3 ((rx - (1 # 2)) * 10)%Q (ry * 8 + 2)%Q ((rz - (1 # 2)) * 10)%Q in
  let '(rd, g) := Math_random g in
  (mkExplosionParticle p velocity 1 ((15 # 10) + rd)%Q, g).

Definition ExplosionParticle_update (dt : Q) (p : ExplosionParticle)
  : ExplosionParticle :=
  let pos := Vec3_add (ep_position p) (Vec3_multiplyScalar (ep_velocity p) dt) in
  let vel := Vec3_set_y (vy (ep_velocity p) - 15 * dt)%Q (ep_velocity p) in
  mkExplosionParticle pos vel (ep_life p - ep_decay p * dt)%Q (ep_decay p).

Definition BulletTrail_new (s e : Vec3) : BulletTrail := mkBulletTrail s e (2 # 10).

Definition BulletTrail_update (dt : Q) (t : BulletTrail) : BulletTrail :=
  mkBulletTrail (bt_start t) (bt_end t) (bt_life t - dt)%Q.

(** [new HealthPickup(position)]: [collected] is unset, hence falsy. *)
Definition HealthPickup_new (p : Vec3) (g : Rng) : HealthPickup * Rng :=
  let '(r, g) := Math_random g in
  (mkHealthPickup (Vec3_set_y (15 # 10) p) 0 (4 # 10) (r * 100)%Q false, g).

Definition set_collected (v : bool) (p : HealthPickup) : HealthPickup :=
  mkHealthPickup (pk_position p) (pk_scale p) (pk_targetScale p) (pk_time p) v.

(** ** The world: every global the game logic touches *)

Record Keys := mkKeys {
  key_forward : bool;
  key_backward : bool;
  key_left : bool;
  key_right : bool;
  key_sprint : bool
}.

Record Physics := mkPhysics {
  playerY : Q;
  velocityY : Q;
  isGrounded : bool;
  headBobTime : Q;
  isMoving : bool;
  currentBobOffset : Q;
  currentSideOffset : Q
}.

Record World := mkWorld {
  gameState : GameState;
  robots : list Robot;
  pickups : list HealthPickup;
  particles : list ExplosionParticle;
  bullets : list BulletTrail;
  spawnTimer : Q;
  spawnInterval : Q;
  camera : Camera;
  physics : Physics;
  keys : Keys;
  joystickX : Q;
  joystickY : Q;
  isMobile : bool;
  rng : Rng
}.

Definition set_gameState (v : GameState) (w : World) : World :=
  mkWorld v (robots w) (pickups w) (particles w) (bullets w) (spawnTimer w)
    (spawnInterval w) (camera w) (physics w) (keys w) (joystickX w)
    (joystickY w) (isMobile w) (rng w).
Definition set_robots (v : list Robot) (w : World) : World :=
  mkWorld (gameState w) v (pickups w) (particles w) (bullets w) (spawnTimer w)
    (spawnInterval w) (camera w) (physics w) (keys w) (joystickX w)
    (joystickY w) (isMobile w) (rng w).
Definition set_pickups (v : list HealthPickup) (w : World) : World :=
  mkWorld (gameState w) (robots w) v (particles w) (bullets w) (spawnTimer w)
    (spawnInterval w) (camera w) (physics w) (keys w) (joystickX w)
    (joystickY w) (isMobile w) (rng w).
Definition set_particles (v : list ExplosionParticle) (w : World) : World :=
  mkWorld (gameState w) (robots w) (pickups w) v (bullets w) (spawnTimer w)
    (spawnInterval w) (camera w) (physics w) (keys w) (joystickX w)
    (joystickY w) (isMobile w) (rng w).
Definition set_bullets (v : list BulletTrail) (w : World) : World :=
  mkWorld (gameState w) (robots w) (pickups w) (particles w) v (spawnTimer w)
    (spawnInterval w) (camera w) (physics w) (keys w) (joystickX w)
    (joystickY w) (isMobile w) (rng w).
Definition set_spawnTimer (v : Q) (w : World) : World :=
  mkWorld (gameState w) (robots w) (pickups w) (particles w) (bullets w) v
    (spawnInterval w) (camera w) (physics w) (keys w) (joystickX w)
    (joystickY w) (isMobile w) (rng w).
Definition set_spawnInterval (v : Q) (w : World) : World :=
  mkWorld (gameState w) (robots w) (pickups w) (particles w) (bullets w)
    (spawnTimer w) v (camera w) (physics w) (keys w) (joystickX w)
    (joystickY w) (isMobile w) (rng w).
Definition set_camera (v : Camera) (w : World) : World :=
  mkWorld (gameState w) (robots w) (pickups w) (particles w) (bullets w)
    (spawnTimer w) (spawnInterval w) v (physics w) (keys w) (joystickX w)
    (joystickY w) (isMobile w) (rng w).
Definition set_physics (v : Physics) (w : World) : World :=
  mkWorld (gameState w) (robots w) (pickups w) (particles w) (bullets w)
    (spawnTimer w) (spawnInterval w) (camera w) v (keys w) (joystickX w)
    (joystickY w) (isMobile w) (rng w).
Definition set_rng (v : Rng) (w : World) : World :=
  mkWorld (gameState w) (robots w) (pickups w) (particles w) (bullets w)
    (spawnTimer w) (spawnInterval w) (camera w) (physics w) (keys w)
    (joystickX w) (joystickY w) (isMobile w) v.

(** The globals as the script initialises them, over a given supply. *)
Definition initialWorld (b : Build) (g : Rng) : World :=
  mkWorld (initialGameState b) [] [] [] [] 0 2
    (mkCamera (mkVec3 0 2 0) (mkVec3 0 0 (-1)))
    (mkPhysics 2 0 true 0 false 0 0)
    (mkKeys false false false false false) 0 0 false g.

(** Player constants. *)
Definition moveSpeed : Q := 8.
Definition sprintMultiplier : Q := 15 # 10.
Definition gravity : Q := -25.
Definition headBobSpeed : Q := 14.
Definition headBobAmount : Q := 6 # 100.
Definition headBobSideAmount : Q := 3 # 100.

(** [spawnInterval = Math.max(floor, spawnInterval - 0.2)]: the floor of
    each build. *)
Definition spawnFloor (b : Build) : Q :=
  match b with Basic => 8 # 10 | Enhanced => 6 # 10 end.

(** adManager.js: the ad session and its limits. *)

(** [AD_CONFIG]: the limits of a session. *)
Definition AD_CONFIG_maxRevives : Z := 1.
Definition AD_CONFIG_maxExtraLives : Z := 1.
Definition AD_CONFIG_reviveAdCount : Z := 2.

(** [adSession] *)
Record AdSession := mkAdSession {
  revivesUsed : Z;
  extraLivesUsed : Z;
  adsWatched : Z;
  currentReviveAdCount : Z
}.

(** [resetSessionLimits()] *)
Definition resetSessionLimits : AdSession := mkAdSession 0 0 0 0.

(** [canShowAd(type)] *)
Definition canShowAd (type : string) (s : AdSession) : bool :=
  if String.eqb type "revive" then revivesUsed s <? AD_CONFIG_maxRevives
  else if String.eqb type "extraLife"
       then extraLivesUsed s <? AD_CONFIG_maxExtraLives
  else if String.eqb type "interstitial" then true
  else false.

(** [waveNumber > 1 && waveNumber % AD_CONFIG.waveAdInterval === 0]
    with [waveAdInterval: 3]. *)
Definition shouldShowWaveAd (waveNumber : Z) : bool :=
  (1 <? waveNumber) && (Z.rem waveNumber 3 =? 0).

(** [endGame()].  The basic build clears [isRunning] and puts up its
    game-over screen.  The enhanced build returns at once when the run is
    already over; otherwise it clears [isRunning] and calls
    [showReviveModal()], which clears it again and shows the modal, or,
    with no revive left, hands over to [showFinalGameOver()].  That
    function clears [isRunning] once more, fills the game-over screen and
    ends in a call of [preGenerateScreenshot], which is declared inside
    [createUI] and is not in scope here: a ReferenceError.  [ads] is the
    ad session, which the frame loop reads and never writes. *)
Definition endGame (b : Build) (ads : AdSession) (gs : GameState)
  : GameState * Completion :=
  match b with
  | Enhanced =>
      if negb (isRunning gs) then (gs, Returns)
      else
        let gs := set_isRunning false gs in
        if negb (canShowAd "revive" ads)
        then (set_isRunning false gs, Throws)
        else (set_isRunning false gs, Returns)
  | Basic => (set_isRunning false gs, Returns)
  end.

(** ** Shooting *)

(** One entry of [raycaster.intersectObjects(...)]: the [userData.part] of
    the nearest tagged ancestor of the object struck, if any, and the
    point struck. *)
Record Intersection := mkIntersection {
  int_part : option Part;
  int_point : Vec3
}.

(** The ray of one shot: for each robot, what it intersects in that
    robot's scene graph, nearest first. *)
Definition Raycaster := Robot -> list Intersection.

Record Hit := mkHit { hit_part : Part; hit_answer : Value; hit_point : Vec3 }.

(** [for (const intersect of intersects) { ... if (obj && obj.userData.part) return ... }] *)
Fixpoint firstTagged (l : list Intersection) : option (Part * Vec3) :=
  match l with
  | [] => None
  | i :: rest =>
      match int_part i with
      | Some p => Some (p, int_point i)
      | None => firstTagged rest
      end
  end.

(** [Robot.checkHit]: chest when nothing struck carries a tag. *)
Definition Robot_checkHit (rc : Raycaster) (this : Robot) : option Hit :=
  match rc this with
  | [] => None
  | first :: _ =>
      match firstTagged (rc this) with
      | Some (p, pt) => Some (mkHit p (answerAt (answers this) p) pt)
      | None =>
          Some (mkHit part_chest (chest (answers this)) (int_point first))
      end
  end.

Fixpoint createParticles (n : nat) (p : Vec3) (acc : list ExplosionParticle)
  (g : Rng) : list ExplosionParticle * Rng :=
  match n with
  | O => (acc, g)
  | S n =>
      let '(e, g) := ExplosionParticle_new p g in
      createParticles n p (acc ++ [e]) g
  end.

(** [createExplosion(position, color, count)]: the enhanced build halves
    the count on mobile devices. *)
Definition createExplosion (b : Build) (p : Vec3) (count : Z) (w : World)
  : World :=
  let actualCount :=
    match b with
    | Enhanced =>
        if isMobile w then Math_floor (inject_Z count / 2) else count
    | Basic => count
    end in
  let '(ps, g) := createParticles (Z.to_nat actualCount) p (particles w) (rng w) in
  set_rng g (set_particles ps w).

(** [if (Math.random() < 0.3) pickups.push(new HealthPickup(...))] *)
Definition dropPickup (robot : Robot) (w : World) : World :=
  let '(r, g) := Math_random (rng w) in
  if Qlt_bool r (3 # 10) then
    let '(p, g) := HealthPickup_new (position robot) g in
    set_rng g (set_pickups (pickups w ++ [p]) w)
  else set_rng g w.

(** The body of [if (gameState.kills % 5 === 0)]. *)
Definition waveAdvance (b : Build) (w : World) : World :=
  let gs := gameState w in
  let gs := set_wave (wave gs + 1) gs in
  let gs :=
    match b with
    | Enhanced => set_health (Z.min (maxHealth gs) (health gs + 20)) gs
    | Basic => gs
    end in
  let w := set_gameState gs w in
  let w := set_spawnInterval
             (Math_max (spawnFloor b) (spawnInterval w - (2 # 10))%Q) w in
  match b with
  | Enhanced =>
      if shouldShowWaveAd (wave (gameState w))
      then set_gameState (set_isPaused true (gameState w)) w
      else w
  | Basic => w
  end.

(** The callback of the wave interstitial, run when the ad is over. *)
Definition waveAdDone (w : World) : World :=
  set_gameState (set_isPaused false (gameState w)) w.

(** [points = 100 * combo; score += points; kills++;
    combo = Math.min(combo + 1, 10)] *)
Definition tallyKill (gs : GameState) : GameState :=
  let points := 100 * combo gs in
  let gs := set_score (score gs + points) gs in
  let gs := set_kills (kills gs + 1) gs in
  set_combo (Z.min (combo gs + 1) 10) gs.

(** The pickup drop exists in the enhanced build only. *)
Definition maybeDrop (b : Build) (robot : Robot) (w : World) : World :=
  match b with Enhanced => dropPickup robot w | Basic => w end.

(** [if (gameState.kills % 5 === 0) { ... }] *)
Definition waveCheck (b : Build) (w : World) : World :=
  if Z.rem (kills (gameState w)) 5 =? 0 then waveAdvance b w else w.

(** The body of [if (hit)], up to its [return]. *)
Definition resolveHit (b : Build) (robot : Robot) (hit : Hit) (w : World)
  : Robot * World :=
  let isCorrect := strict_eq (hit_answer hit) (correctAnswer robot) in
  let w := set_bullets
             (bullets w ++
              [BulletTrail_new (cam_position (camera w)) (hit_point hit)]) w in
  if isCorrect then
    let robot := set_dying true robot in
    let w := set_gameState (tallyKill (gameState w)) w in
    let w := createExplosion b (hit_point hit) 40 w in
    let w := maybeDrop b robot w in
    (robot, waveCheck b w)
  else
    let w := set_gameState (set_combo 1 (gameState w)) w in
    let w := createExplosion b (hit_point hit) 15 w in
    (robot, w).

(** [for (const robot of robots) { if (robot.dying) continue; ... return; }] *)
Fixpoint shootRobots (b : Build) (rc : Raycaster) (rs : list Robot) (w : World)
  : list Robot * World :=
  match rs with
  | [] => ([], w)
  | robot :: rest =>
      if dying robot then
        let '(rest, w) := shootRobots b rc rest w in (robot :: rest, w)
      else
        match Robot_checkHit rc robot with
        | Some hit =>
            let '(robot, w) := resolveHit b robot hit w in (robot :: rest, w)
        | None =>
            let '(rest, w) := shootRobots b rc rest w in (robot :: rest, w)
        end
  end.

(** The guard of [onShoot]: the enhanced build also refuses while paused. *)
Definition canFire (b : Build) (gs : GameState) : bool :=
  match b with
  | Enhanced => negb (negb (isRunning gs) || isPaused gs)
  | Basic => negb (negb (isRunning gs))
  end.

Definition onShoot (b : Build) (rc : Raycaster) (w : World) : World :=
  if canFire b (gameState w) then
    let '(rs, w) := shootRobots b rc (robots w) w in
    set_robots rs w
  else w.

(** ** Robot behaviour, player movement and the frame loop *)

Section Game.
Context {M : MathLib}.

(** [Robot.attackPlayer]: the enhanced build opens with
    [if (!gameState.isRunning) return].  The call ends the way its
    [endGame()] ends. *)
Definition Robot_attackPlayer (b : Build) (ads : AdSession) (this : Robot)
  (w : World) : Robot * World * Completion :=
  if match b with
     | Enhanced => negb (isRunning (gameState w))
     | Basic => false
     end
  then (this, w, Returns)
  else
    let this := set_attackCooldown (15 # 10) this in
    let gs := gameState w in
    let gs := set_health (health gs - damage this) gs in
    if health gs <=? 0 then
      let '(gs, c) := endGame b ads gs in
      (this, set_gameState gs w, c)
    else
      let w := set_gameState gs w in
      let '(p, g) := aroundPlayer (camera w) (rng w) in
      let this := set_position (keepWithin Robot_boundaryLimit p) this in
      (this, set_rng g w, Returns).

Definition attackRange (t : RobotType) : Q :=
  match t with heavy => 4 | _ => 3 end.

Definition walkSpeedMultiplier (t : RobotType) : Q :=
  match t with fast => 15 # 10 | heavy => 7 # 10 | normal => 1 end.

(** [Robot.update(deltaTime)]; the attack is its last statement. *)
Definition Robot_update (b : Build) (ads : AdSession) (dt : Q) (this : Robot)
  (w : World) : Robot * World * Completion :=
  if dying this then
    let this := set_dyingTimer (dyingTimer this + dt)%Q this in
    let this :=
      if Qlt_bool 1 (dyingTimer this) then set_alive false this else this in
    (this, w, Returns)
  else
    let this :=
      if Qlt_bool 0 (attackCooldown this)
      then set_attackCooldown (attackCooldown this - dt)%Q this
      else this in
    let playerPos :=
      mkVec3 (vx (cam_position (camera w))) 0 (vz (cam_position (camera w))) in
    let direction := Vec3_set_y 0 (Vec3_sub playerPos (position this)) in
    let distanceToPlayer := Vec3_length direction in
    let direction := Vec3_normalize direction in
    let this :=
      set_position
        (Vec3_add (position this)
           (Vec3_multiplyScalar direction (speed this * dt)%Q)) this in
    let this :=
      set_position (keepWithin Robot_boundaryLimit (position this)) this in
    let this :=
      set_walkTime
        (walkTime this + dt * 8 * walkSpeedMultiplier (rtype this))%Q this in
    let this :=
      set_position
        (Vec3_set_y (Math_abs (Math_sin (walkTime this * 2)) * (1 # 10))%Q
           (position this)) this in
    if Qlt_bool distanceToPlayer (attackRange (rtype this))
       && Qle_bool (attackCooldown this) 0
    then Robot_attackPlayer b ads this w
    else (this, w, Returns).

(** [for (const robot of robots) robot.update(deltaTime)]: an update that
    throws ends the loop, and the robots after it are not updated. *)
Fixpoint updateRobots (b : Build) (ads : AdSession) (dt : Q)
  (rs : list Robot) (w : World) : list Robot * World * Completion :=
  match rs with
  | [] => ([], w, Returns)
  | r :: rest =>
      match Robot_update b ads dt r w with
      | (r, w, Throws) => (r :: rest, w, Throws)
      | (r, w, Returns) =>
          let '(rest, w, c) := updateRobots b ads dt rest w in
          (r :: rest, w, c)
      end
  end.

(** [spawnRobot()]: [robots.push(new Robot())] *)
Definition spawnRobot (b : Build) (fuel : nat) (w : World) : option World :=
  match Robot_new b fuel None (gameState w) (camera w) (rng w) with
  | None => None
  | Some (r, g) => Some (set_rng g (set_robots (robots w ++ [r]) w))
  end.

(** [startGame()] *)
Definition startGame (b : Build) (fuel : nat) (w : World) : option World :=
  let w := set_camera (mkCamera (mkVec3 0 2 0) (mkVec3 0 0 (-1))) w in
  let w := set_physics
             (mkPhysics 2 0 true 0 (isMoving (physics w)) 0 0) w in
  let gs := gameState w in
  let gs := set_score 0 gs in
  let gs := set_wave 1 gs in
  let gs := set_health (maxHealth gs) gs in
  let gs := set_combo 1 gs in
  let gs := set_kills 0 gs in
  let gs := set_isRunning true gs in
  let w := set_gameState gs w in
  let w := set_robots [] w in
  let w := match b with Enhanced => set_pickups [] w | Basic => w end in
  let w := set_particles [] w in
  let w := set_bullets [] w in
  let w := set_spawnTimer 0 w in
  let w := set_spawnInterval 2 w in
  spawnRobot b fuel w.

Definition boolQ (x : bool) : Q := if x then 1 else 0.

(** [updatePlayerMovement(deltaTime)] *)
Definition updatePlayerMovement (dt : Q) (w : World) : World :=
  let k := keys w in
  let ph := physics w in
  let moveX := (boolQ (key_right k) - boolQ (key_left k) + joystickX w)%Q in
  let moveZ :=
    (boolQ (key_forward k) - boolQ (key_backward k) - joystickY w)%Q in
  let wantsMove := negb (Qeq_bool moveX 0) || negb (Qeq_bool moveZ 0) in
  let moving := wantsMove && isGrounded ph in
  let vY := (velocityY ph + gravity * dt)%Q in
  let pY := (playerY ph + vY * dt)%Q in
  let groundLevel := 2%Q in
  let '(pY, vY, grounded) :=
    if Qle_bool pY groundLevel then (groundLevel, 0%Q, true)
    else (pY, vY, isGrounded ph) in
  let currentSpeed :=
    if key_sprint k then (moveSpeed * sprintMultiplier)%Q else moveSpeed in
  let '(bobTime, bob, side) :=
    if moving then
      let bobSpeedMultiplier := if key_sprint k then (14 # 10)%Q else 1%Q in
      let t := (headBobTime ph + dt * headBobSpeed * bobSpeedMultiplier)%Q in
      let targetBobOffset := (Math_sin t * headBobAmount)%Q in
      let targetSideOffset :=
        (Math_cos (t * (1 # 2)) * headBobSideAmount)%Q in
      (t,
       (currentBobOffset ph
        + (targetBobOffset - currentBobOffset ph) * (3 # 10))%Q,
       (currentSideOffset ph
        + (targetSideOffset - currentSideOffset ph) * (3 # 10))%Q)
    else
      let bob := (currentBobOffset ph * (9 # 10))%Q in
      let side := (currentSideOffset ph * (9 # 10))%Q in
      (headBobTime ph,
       (if Qlt_bool (Math_abs bob) (1 # 1000) then 0%Q else bob),
       (if Qlt_bool (Math_abs side) (1 # 1000) then 0%Q else side)) in
  let pos := cam_position (camera w) in
  let pos :=
    if wantsMove then
      let forward :=
        Vec3_normalize (Vec3_set_y 0 (cam_direction (camera w))) in
      let right :=
        Vec3_normalize (Vec3_crossVectors forward (mkVec3 0 1 0)) in
      let movement := Vec3_addScaledVector (mkVec3 0 0 0) forward moveZ in
      let movement := Vec3_addScaledVector movement right moveX in
      let movement :=
        Vec3_multiplyScalar (Vec3_normalize movement) (currentSpeed * dt)%Q in
      mkVec3 (vx pos + vx movement)%Q (vy pos) (vz pos + vz movement)%Q
    else pos in
  let pos := keepWithin player_boundaryLimit pos in
  let pos := Vec3_set_y (pY + bob)%Q pos in
  set_physics (mkPhysics pY vY grounded bobTime moving bob side)
    (set_camera (set_cam_position pos (camera w)) w).

(** [HealthPickup.update(deltaTime)]: bobbing and the grow-in animation. *)
Definition HealthPickup_update (dt : Q) (p : HealthPickup) : HealthPickup :=
  let t := (pk_time p + dt * 3)%Q in
  let pos :=
    Vec3_set_y ((15 # 10) + Math_sin t * (3 # 10))%Q (pk_position p) in
  let sc :=
    if Qlt_bool (pk_scale p) (pk_targetScale p) then
      let s := (pk_scale p + dt * 2)%Q in
      if Qlt_bool (pk_targetScale p) s then pk_targetScale p else s
    else pk_scale p in
  mkHealthPickup pos sc (pk_targetScale p) t (collected p).

(** Is the pickup within the collection radius of the player? *)
Definition inReach (cam : Camera) (p : HealthPickup) : bool :=
  Qlt_bool (Vec3_distanceTo (cam_position cam) (pk_position p)) 3.

(** The collision test of the pickup loop and what it does on success. *)
Definition collectPickup (pickup : HealthPickup) (w : World)
  : HealthPickup * World :=
  if inReach (camera w) pickup then
    let gs := gameState w in
    let gs := set_health (Z.min (maxHealth gs) (health gs + 20)) gs in
    (set_collected true pickup, set_gameState gs w)
  else (pickup, w).

(** [for (const pickup of pickups) { pickup.update(deltaTime); ... }] *)
Fixpoint updatePickups (dt : Q) (ps : list HealthPickup) (w : World)
  : list HealthPickup * World :=
  match ps with
  | [] => ([], w)
  | p :: rest =>
      let '(p, w) := collectPickup (HealthPickup_update dt p) w in
      let '(rest, w) := updatePickups dt rest w in
      (p :: rest, w)
  end.

(** The blocks of the frame loop, in the order [animate] runs them. *)

(** [spawnTimer += deltaTime; if (spawnTimer >= spawnInterval) { ... }] *)
Definition spawnTick (b : Build) (fuel : nat) (dt : Q) (w : World)
  : option World :=
  let w := set_spawnTimer (spawnTimer w + dt)%Q w in
  if Qle_bool (spawnInterval w) (spawnTimer w) then
    match spawnRobot b fuel w with
    | None => None
    | Some w => Some (set_spawnTimer 0 w)
    end
  else Some w.

(** The robot loop, then [robots = robots.filter(r => r.alive)], which a
    loop that throws does not get to: the robots then stay in the array as
    the loop left them. *)
Definition robotPass (b : Build) (ads : AdSession) (dt : Q) (w : World)
  : World * Completion :=
  match updateRobots b ads dt (robots w) w with
  | (rs, w, Throws) => (set_robots rs w, Throws)
  | (rs, w, Returns) => (set_robots (filter alive rs) w, Returns)
  end.

(** [particles.filter(p => p.update(dt))] and the same for bullets:
    [update] returns false once [life <= 0]. *)
Definition purgeEffects (dt : Q) (w : World) : World :=
  let w :=
    set_particles
      (filter (fun p => Qlt_bool 0 (ep_life p))
         (map (ExplosionParticle_update dt) (particles w))) w in
  set_bullets
    (filter (fun t => Qlt_bool 0 (bt_life t))
       (map (BulletTrail_update dt) (bullets w))) w.

(** The pickup loop, then [pickups = pickups.filter(p => !p.collected)]:
    enhanced build only. *)
Definition pickupPass (b : Build) (dt : Q) (w : World) : World :=
  match b with
  | Enhanced =>
      let '(ps, w) := updatePickups dt (pickups w) w in
      set_pickups (filter (fun p => negb (collected p)) ps) w
  | Basic => w
  end.

(** Does a frame run the simulation in this state?  The enhanced build
    returns at once while paused; both skip the simulation when no run is on. *)
Definition frameRuns (b : Build) (gs : GameState) : bool :=
  negb (match b with Enhanced => isPaused gs | Basic => false end)
  && isRunning gs.

(** One frame: [animate()] with [clock.getDelta()] returning [dt], the
    world it leaves and the way it ends.  When the robot loop throws, the
    frame is over: effects and pickups are not looked at. *)
Definition animate (b : Build) (ads : AdSession) (fuel : nat) (dt : Q)
  (w : World) : option (World * Completion) :=
  if frameRuns b (gameState w) then
    match spawnTick b fuel dt (updatePlayerMovement dt w) with
    | None => None
    | Some w =>
        match robotPass b ads dt w with
        | (w, Throws) => Some (w, Throws)
        | (w, Returns) =>
            Some (pickupPass b dt (purgeEffects dt w), Returns)
        end
    end
  else Some (w, Returns).

End Game.

(** ** Concrete inputs, used to run the model *)

(** A runtime to compute with: square roots to three decimals, sine and
    cosine frozen at their value in 0. *)
Definition sampleMath : MathLib :=
  mkMathLib
    (fun x => (inject_Z (Z.sqrt (Qfloor (x * 1000000))) / 1000)%Q)
    (fun _ => 0%Q) (fun _ => 1%Q) (355 # 113).

Definition sampleDraws : Rng :=
  drawsOf [1 # 2; 3 # 10; 7 # 10; 1 # 10; 9 # 10; 2 # 10; 6 # 10; 4 # 10;
           8 # 10; 5 # 10; 1 # 3; 2 # 3]%Q.

(** A robot asking "3 + 4 = ?" with the answer on its chest, standing ten
    units in front of the start position. *)
Definition sampleRobot : Robot :=
  mkRobot normal (18 # 10) 12 1 (mkVec3 0 0 (-10)) (19 # 10) true false 0 0 0
    "3 + 4 = ?" (VNum 7) (mkAnswers (VNum 9) (VNum 7) (VNum 5)).

(** A ray that strikes the given zone of whatever robot it is tested on. *)
Definition rayAt (p : Part) : Raycaster :=
  fun _ => [mkIntersection (Some p) (mkVec3 0 2 (-10))].

(** A run in progress: [k] kills so far, health [hp], robots [rs]. *)
Definition sampleWorld (b : Build) (k hp : Z) (rs : list Robot) : World :=
  set_robots rs
    (set_gameState
       (set_health hp (set_kills k (set_isRunning true (initialGameState b))))
       (initialWorld b sampleDraws)).

(** ** Vocabulary of the statements *)

(** The first robot in list order that is not dying and that the ray
    strikes, with the hit [checkHit] reports. *)
Fixpoint firstLiveHit (rc : Raycaster) (rs : list Robot)
  : option (Robot * Hit) :=
  match rs with
  | [] => None
  | r :: rest =>
      if dying r then firstLiveHit rc rest
      else match Robot_checkHit rc r with
           | Some h => Some (r, h)
           | None => firstLiveHit rc rest
           end
  end.

(** What a fire event amounts to: [Some true] a correct hit, [Some false]
    a wrong hit, [None] no hit at all (or a shot that is refused). *)
Definition hitOutcome (b : Build) (rc : Raycaster) (w : World) : option bool :=
  if canFire b (gameState w) then
    match firstLiveHit rc (robots w) with
    | Some (r, h) => Some (strict_eq (hit_answer h) (correctAnswer r))
    | None => None
    end
  else None.

(** The robots the robot pass leaves, given those the loop leaves: the
    filter runs only when the loop has returned. *)
Definition robotsLeft (c : Completion) (rs : list Robot) : list Robot :=
  match c with Returns => filter alive rs | Throws => rs end.

(** Two game states that differ at most in [health] and [isRunning]. *)
Definition vitalsOnly (gs gs' : GameState) : Prop :=
  score gs' = score gs /\ wave gs' = wave gs
  /\ maxHealth gs' = maxHealth gs /\ combo gs' = combo gs
  /\ kills gs' = kills gs /\ isPaused gs' = isPaused gs /\ mode gs' = mode gs.


(** [health = Math.min(maxHealth, health + 20)], the heal of a pickup. *)
Definition healStep (cap hp : Z) : Z := Z.min cap (hp + 20).

(** Does an attack land?  The enhanced build's [attackPlayer] returns at
    once when the run is over, the basic build's has no such guard. *)
Definition attackLands (b : Build) (gs : GameState) : bool :=
  match b with Enhanced => isRunning gs | Basic => true end.

(** The invariant behind the death flow: a run never goes on with no
    health left. *)
Definition deadMeansOver (gs : GameState) : Prop :=
  health gs <= 0 -> isRunning gs = false.

(** A robot standing where the player stands, ready to strike. *)
Definition closeRobot : Robot :=
  set_position (mkVec3 0 0 0) sampleRobot.

(** An ad session in which the one revive has been used. *)
Definition spentSession : AdSession := mkAdSession 1 0 2 0.

(** A robot shot dead whose death animation is about to run out. *)
Definition fadingRobot : Robot :=
  set_dyingTimer (99 # 100) (set_dying true sampleRobot).

(** A pickup lying at the player's feet and one far away. *)
Definition nearPickup : HealthPickup :=
  mkHealthPickup (mkVec3 0 (15 # 10) 0) (4 # 10) (4 # 10) 0 false.


(** The last stand: 10 health left, a robot on the player that is about
    to strike, before it a robot whose death animation is about to run
    out, after it a robot far away, and a pickup at the player's feet. *)
Definition lastStand : World :=
  set_pickups [nearPickup]
    (sampleWorld Enhanced 0 10 [fadingRobot; closeRobot; sampleRobot]).

(** Did the world lose health between two states? *)
Definition damageApplied (w w' : World) : bool :=
  negb (health (gameState w') =? health (gameState w)).

(** One frame in the life of a robot: the time step, the world and the ad
    session the frame finds (whatever the rest of the game made of them)
    and whether the player has shot the robot dead since the frame
    before. *)
Record Frame := mkFrame {
  f_dt : Q;
  f_world : World;
  f_ads : AdSession;
  f_shot : bool
}.

Definition sumQ (l : list Q) : Q := fold_right Qplus 0%Q l.

(** In a log of frames [(dt, attacked)], every attack comes at least 1.5
    after the one before, [since] being the time since that one when the
    log begins. *)
Fixpoint spaced (since : Q) (log : list (Q * bool)) : Prop :=
  match log with
  | [] => True
  | (dt, attacked) :: rest =>
      (attacked = true -> (15 # 10 <= since + dt)%Q)
      /\ spaced (if attacked then 0%Q else (since + dt)%Q) rest
  end.

Section RobotLife.
Context {M : MathLib}.

(** The robot through a run of frames: the log says, frame by frame, how
    long the frame was and whether the robot took health off the player. *)
Fixpoint robotLife (b : Build) (fs : list Frame) (r : Robot)
  : list (Q * bool) * Robot :=
  match fs with
  | [] => ([], r)
  | f :: rest =>
      let r := if f_shot f then set_dying true r else r in
      let '(r', w', _) := Robot_update b (f_ads f) (f_dt f) r (f_world f) in
      let '(log, r'') := robotLife b rest r' in
      ((f_dt f, damageApplied (f_world f) w') :: log, r'')
  end.

End RobotLife.

(** A frame of one second in which the player, 100 health, stands at the
    start position. *)
Definition secondFrame : Frame :=
  mkFrame 1 (sampleWorld Enhanced 0 100 []) resetSessionLimits false.


(** The question mode a build asks in: the basic build knows sums only. *)
Definition askedMode (b : Build) (gs : GameState) : Mode :=
  match b with Basic => math | Enhanced => mode gs end.

Definition positiveNumber (v : Value) : Prop :=
  match v with VNum n => 0 < n | _ => False end.

Definition isString (v : Value) : Prop :=
  match v with VStr _ => True | _ => False end.

(** The three zone slots of a robot, head first. *)
Definition zones (r : Robot) : list Value :=
  [head (answers r); chest (answers r); knee (answers r)].

(** What a robot asks and where the answers sit. *)
Definition bindingOf (r : Robot) : string * Value * Answers :=
  (question r, correctAnswer r, answers r).

(** A pool entry is sound when it has two decoys, different from each
    other and from the answer. *)
Definition entryOk (q : QData) : bool :=
  match qd_w q with
  | [w1; w2] =>
      negb (String.eqb (qd_a q) w1) && negb (String.eqb (qd_a q) w2)
      && negb (String.eqb w1 w2)
  | _ => false
  end.

(** A game state of the enhanced build set to quiz mode. *)
Definition quizState : GameState := set_mode quiz (initialGameState Enhanced).


(** The hit a ray at the chest of [sampleRobot] reports. *)
Definition chestHit : Hit := mkHit part_chest (VNum 7) (mkVec3 0 2 (-10)).

(** Four robots in a row, all asking the same sum. *)
Definition squad : World :=
  sampleWorld Enhanced 0 100
    [sampleRobot; sampleRobot; sampleRobot; sampleRobot].

(** The camera as [startGame] leaves it. *)
Definition startCamera : Camera := mkCamera (mkVec3 0 2 0) (mkVec3 0 0 (-1)).

(** A one-second frame that finds the player next to where the robot of
    [secondFrame] has walked to after its respawn. *)
Definition chaseFrame : Frame :=
  mkFrame 1
    (set_camera (mkCamera (mkVec3 0 2 (-37)) (mkVec3 0 0 (-1)))
       (sampleWorld Enhanced 0 100 [])) resetSessionLimits false.


(** What the zones of a generated robot are made of. *)
Definition wellBound (m : Mode) (r : Robot) : Prop :=
  exists a w1 w2,
    correctAnswer r = a
    /\ NoDup [a; w1; w2]
    /\ Permutation [a; w1; w2] (zones r)
    /\ match m with
       | math => positiveNumber w1 /\ positiveNumber w2
       | _ => isString a /\ isString w1 /\ isString w2
       end.

(** ** Sums: what a question asks for *)

(** The value a question [a o b = ?] asks for: a division asks for nothing
    when it is by zero or leaves a remainder. *)
Definition evalOp (o : Operation) (a b : Z) : option Z :=
  match o with
  | op_add => Some (a + b)
  | op_sub => Some (a - b)
  | op_mul => Some (a * b)
  | op_div =>
      if (b =? 0) || negb (Z.rem a b =? 0) then None else Some (Z.quot a b)
  | op_sq => Some (a * a)
  end.

(** The operations a build draws from at a wave, and the operands it
    draws for one of them. *)
Definition operationsAt (b : Build) (w : Z) : list Operation :=
  match b with
  | Basic => [op_add; op_sub; op_mul]
  | Enhanced => fst (MathGenerator_difficulty w)
  end.

Definition operandsAt (b : Build) (w : Z) (o : Operation) (g : Rng)
  : (Z * Z * Z) * Rng :=
  match b with
  | Basic => basic_operands o g
  | Enhanced => MathGenerator_operands o (snd (MathGenerator_difficulty w)) g
  end.

(** The largest answer a build can ask for. *)
Definition answerCap (b : Build) : Z :=
  match b with Basic => 144 | Enhanced => 256 end.

(** ** adManager.js: showing ads *)

(** [getReviveAdCount()] and [getCurrentReviveProgress()] *)
Definition getReviveAdCount : Z := AD_CONFIG_reviveAdCount.
Definition getCurrentReviveProgress (s : AdSession) : Z :=
  currentReviveAdCount s.

(** What [onComplete] is called with: nothing, or
    [{ partial: true, current, total }]. *)
Inductive AdResult := adComplete | adPartial (current total : Z).

(** [showRewardedAd(type, onComplete, onCancel)] either calls [onCancel]
    at once or puts up the ad, [useRealAds] or not: the real path falls
    back to the mock one. *)
Inductive AdStart := adRefused | adShown.

Definition showRewardedAd (type : string) (s : AdSession) : AdStart :=
  if negb (canShowAd type s) then adRefused else adShown.

(** The body of the [setTimeout] of [showMockRewardedAd], run when the ad
    is over: the session it leaves and what [onComplete] is called with,
    if it is called. *)
Definition showMockRewardedAd_over (type : string) (s : AdSession)
  : AdSession * option AdResult :=
  let s := mkAdSession (revivesUsed s) (extraLivesUsed s) (adsWatched s + 1)
             (currentReviveAdCount s) in
  if String.eqb type "revive" then
    let s := mkAdSession (revivesUsed s) (extraLivesUsed s) (adsWatched s)
               (currentReviveAdCount s + 1) in
    if AD_CONFIG_reviveAdCount <=? currentReviveAdCount s then
      (mkAdSession (revivesUsed s + 1) (extraLivesUsed s) (adsWatched s) 0,
       Some adComplete)
    else
      (s, Some (adPartial (currentReviveAdCount s) AD_CONFIG_reviveAdCount))
  else if String.eqb type "extraLife" then
    (mkAdSession (revivesUsed s) (extraLivesUsed s + 1) (adsWatched s)
       (currentReviveAdCount s),
     Some adComplete)
  else (s, None).

(** The body of the [setTimeout] of [showMockInterstitialAd]; [onComplete]
    is always called. *)
Definition showMockInterstitialAd_over (s : AdSession) : AdSession :=
  mkAdSession (revivesUsed s) (extraLivesUsed s) (adsWatched s + 1)
    (currentReviveAdCount s).

(** ** The page around the simulation *)

(** The part of the document the game writes to.  Elements are named by
    the string the script looks them up with.  Left out are the transient
    elements (damage numbers, hit marker, muzzle flash, damage overlay,
    screen shake, announcements, the mobile hint), the knob of the
    joystick and the overlay [adManager.js] builds for a mock ad. *)
Record Dom := mkDom {
  classList : string -> string -> bool;
  textContent : string -> string;
  style : string -> string -> string;
  disabled : string -> bool;
  threatOpacity : Q;
  threatArrow : Q
}.

Definition classList_set (el cls : string) (v : bool) (d : Dom) : Dom :=
  mkDom (fun e c => if String.eqb e el && String.eqb c cls then v
                    else classList d e c)
    (textContent d) (style d) (disabled d) (threatOpacity d) (threatArrow d).

(** [el.classList.add(cls)] and [el.classList.remove(cls)] *)
Definition classList_add (el cls : string) (d : Dom) : Dom :=
  classList_set el cls true d.
Definition classList_remove (el cls : string) (d : Dom) : Dom :=
  classList_set el cls false d.

(** [el.textContent = s] *)
Definition set_textContent (el s : string) (d : Dom) : Dom :=
  mkDom (classList d)
    (fun e => if String.eqb e el then s else textContent d e)
    (style d) (disabled d) (threatOpacity d) (threatArrow d).

(** [el.style.prop = s] *)
Definition set_style (el prop s : string) (d : Dom) : Dom :=
  mkDom (classList d) (textContent d)
    (fun e q => if String.eqb e el && String.eqb q prop then s
                else style d e q)
    (disabled d) (threatOpacity d) (threatArrow d).

(** [el.disabled = v] *)
Definition set_disabled (el : string) (v : bool) (d : Dom) : Dom :=
  mkDom (classList d) (textContent d) (style d)
    (fun e => if String.eqb e el then v else disabled d e)
    (threatOpacity d) (threatArrow d).

Definition set_threatOpacity (v : Q) (d : Dom) : Dom :=
  mkDom (classList d) (textContent d) (style d) (disabled d) v (threatArrow d).

Definition set_threatArrow (v : Q) (d : Dom) : Dom :=
  mkDom (classList d) (textContent d) (style d) (disabled d)
    (threatOpacity d) v.

(** The globals of mouse and touch look. *)
Record Look := mkLook {
  yaw : Q;
  pitch : Q;
  isPointerLocked : bool;
  lookTouchId : option Z;
  touchStartX : Q;
  touchStartY : Q;
  lastTouchX : Q;
  lastTouchY : Q;
  touchStartTime : Z
}.

(** The globals of the joystick besides [joystickX] and [joystickY]. *)
Record Stick := mkStick {
  joystickTouchId : option Z;
  joystickCenterX : Q;
  joystickCenterY : Q;
  joystickActive : bool
}.

(** A pending [setTimeout] that game logic hangs on: the end of a rewarded
    ad (with the callbacks of [attemptRevive] or of [claimExtraLife]), the
    end of the wave interstitial, and the half-second pause before
    [attemptRevive] asks for the next ad. *)
Inductive AdCaller := forRevive | forExtraLife.
Inductive Timer :=
| rewardedAdOver (c : AdCaller)
| interstitialAdOver
| nextReviveAd.

Record Page := mkPage {
  world : World;
  look : Look;
  stick : Stick;
  adSession : AdSession;
  extraLifeOfferShown : bool;
  threatUpdateFrame : Z;
  timers : list Timer;
  dom : Dom
}.

Definition set_world (v : World) (p : Page) : Page :=
  mkPage v (look p) (stick p) (adSession p) (extraLifeOfferShown p)
    (threatUpdateFrame p) (timers p) (dom p).
Definition set_look (v : Look) (p : Page) : Page :=
  mkPage (world p) v (stick p) (adSession p) (extraLifeOfferShown p)
    (threatUpdateFrame p) (timers p) (dom p).
Definition set_stick (v : Stick) (p : Page) : Page :=
  mkPage (world p) (look p) v (adSession p) (extraLifeOfferShown p)
    (threatUpdateFrame p) (timers p) (dom p).
Definition set_adSession (v : AdSession) (p : Page) : Page :=
  mkPage (world p) (look p) (stick p) v (extraLifeOfferShown p)
    (threatUpdateFrame p) (timers p) (dom p).
Definition set_extraLifeOfferShown (v : bool) (p : Page) : Page :=
  mkPage (world p) (look p) (stick p) (adSession p) v
    (threatUpdateFrame p) (timers p) (dom p).
Definition set_threatUpdateFrame (v : Z) (p : Page) : Page :=
  mkPage (world p) (look p) (stick p) (adSession p) (extraLifeOfferShown p)
    v (timers p) (dom p).
Definition set_timers (v : list Timer) (p : Page) : Page :=
  mkPage (world p) (look p) (stick p) (adSession p) (extraLifeOfferShown p)
    (threatUpdateFrame p) v (dom p).
Definition set_dom (v : Dom) (p : Page) : Page :=
  mkPage (world p) (look p) (stick p) (adSession p) (extraLifeOfferShown p)
    (threatUpdateFrame p) (timers p) v.

(** Shorthands: a change to the game state, to the document, a new timer. *)
Definition onGameState (f : GameState -> GameState) (p : Page) : Page :=
  set_world (set_gameState (f (gameState (world p))) (world p)) p.
Definition onDom (f : Dom -> Dom) (p : Page) : Page := set_dom (f (dom p)) p.
Definition setTimeout (t : Timer) (p : Page) : Page :=
  set_timers (timers p ++ [t]) p.

(** What Three.js and the JavaScript runtime add for the page:
    [Math.atan2], and the view direction [camera.getWorldDirection] that
    belongs to a camera rotation of order YXZ with [x = pitch], [y = yaw]. *)
Class Browser := mkBrowser {
  Math_atan2 : Q -> Q -> Q;
  Camera_direction : Q -> Q -> Vec3
}.

(** *** The heads-up display *)

(** The numbers of JavaScript are IEEE 754 doubles (binary64): 53 bits of
    precision, exponents below 1024, round to nearest, ties to even. *)
Definition double_of_Z (n : Z) : spec_float :=
  binary_normalize 53 1024 n 0 false.
Definition double_div (x y : spec_float) : spec_float := SFdiv 53 1024 x y.
Definition double_mul (x y : spec_float) : spec_float := SFmul 53 1024 x y.

(** [(gameState.health / gameState.maxHealth) * 100] *)
Definition healthPercent (gs : GameState) : spec_float :=
  double_mul (double_div (double_of_Z (health gs)) (double_of_Z (maxHealth gs)))
    (double_of_Z 100).

(** [Math.ceil] of a finite double that is not zero: sign, mantissa and
    exponent stand for [(-1)^neg * m * 2^e]. *)
Definition ceilFinite (neg : bool) (m : positive) (e : Z) : Z :=
  let n := if neg then Z.neg m else Z.pos m in
  if 0 <=? e then n * 2 ^ e else - ((- n) / 2 ^ (- e)).

(** [Math.max(0, Math.min(100, Math.ceil(x)))].  NaN goes through all
    three and comes out as NaN, which is [None]; an infinity is clamped
    like any other number. *)
Definition clampPercentage (x : spec_float) : option Z :=
  match x with
  | S754_nan => None
  | S754_infinity neg => Some (if neg then 0 else 100)
  | S754_zero _ => Some 0
  | S754_finite neg m e => Some (Z.max 0 (Z.min 100 (ceilFinite neg m e)))
  end.

(** [percentage] of [updateHealthBar] *)
Definition healthPercentage (gs : GameState) : option Z :=
  clampPercentage (healthPercent gs).

(** [percentage + '%'] and [percentage < 30] *)
Definition percentText (percentage : option Z) : string :=
  match percentage with
  | Some n => (string_of_Z n ++ "%")%string
  | None => "NaN%"
  end.

Definition belowThirty (percentage : option Z) : bool :=
  match percentage with Some n => n <? 30 | None => false end.

(** [updateHealthBar()] *)
Definition updateHealthBar (p : Page) : Page :=
  let percentage := healthPercentage (gameState (world p)) in
  let p := onDom (set_style "health-fill" "width" (percentText percentage)) p in
  let p := onDom (set_textContent "health-val" (percentText percentage)) p in
  if belowThirty percentage
  then onDom (set_style ".health-container" "animation"
                "pulse-red 1s infinite") p
  else onDom (set_style ".health-container" "animation" "none") p.

(** The first robot, not dying, that the ray from the screen centre meets
    at all. *)
Fixpoint aimedRobot (rc : Raycaster) (rs : list Robot) : option Robot :=
  match rs with
  | [] => None
  | robot :: rest =>
      if dying robot then aimedRobot rc rest
      else match rc robot with
           | [] => aimedRobot rc rest
           | _ :: _ => Some robot
           end
  end.

(** The loops that look for the closest robot that is not dying: [best]
    is [None] while [minDist] is still [Infinity]. *)
Fixpoint closestRobot (dist : Robot -> Q) (rs : list Robot)
  (best : option (Q * Robot)) : option (Q * Robot) :=
  match rs with
  | [] => best
  | robot :: rest =>
      if dying robot then closestRobot dist rest best
      else
        let d := dist robot in
        match best with
        | Some (minDist, _) =>
            if Qlt_bool d minDist
            then closestRobot dist rest (Some (d, robot))
            else closestRobot dist rest best
        | None => closestRobot dist rest (Some (d, robot))
        end
  end.

Section Display.
Context {M : MathLib} {B : Browser}.

Definition showQuestion (q : string) (p : Page) : Page :=
  let p := onDom (set_textContent "current-question" q) p in
  let p := onDom (set_style "current-question" "color" "var(--accent)") p in
  onDom (set_style "current-question" "textShadow"
           "0 0 20px var(--accent)") p.

(** [updateQuestionDisplay()]: the question of the robot aimed at; failing
    that the enhanced build asks to aim, the basic one shows the question
    of the closest robot. *)
Definition updateQuestionDisplay (b : Build) (rc : Raycaster) (p : Page)
  : Page :=
  match robots (world p) with
  | [] =>
      let p := onDom (set_textContent "current-question" "INCOMING...") p in
      onDom (set_style "current-question" "color" "var(--accent)") p
  | _ :: _ =>
      match aimedRobot rc (robots (world p)) with
      | Some robot => showQuestion (question robot) p
      | None =>
          match b with
          | Enhanced =>
              let p :=
                onDom (set_textContent "current-question" "AIM TO SCAN") p in
              let p :=
                onDom (set_style "current-question" "color"
                         "rgba(255, 255, 255, 0.5)") p in
              onDom (set_style "current-question" "textShadow" "none") p
          | Basic =>
              match closestRobot
                      (fun r =>
                         Vec3_distanceTo (position r)
                           (cam_position (camera (world p))))
                      (robots (world p)) None with
              | Some (_, closest) => showQuestion (question closest) p
              | None => p
              end
          end
      end
  end.

Definition MAX_DETECT_RANGE : Q := 25.
Definition HIGH_DANGER_RANGE : Q := 8.

(** [updateThreatIndicator()], enhanced build: every tenth call it points
    the arrow at the closest robot within range and fades it by distance. *)
Definition updateThreatIndicator (p : Page) : Page :=
  let p := set_threatUpdateFrame (threatUpdateFrame p + 1) p in
  if negb (Z.rem (threatUpdateFrame p) 10 =? 0) then p
  else
    let w := world p in
    if negb (isRunning (gameState w))
       || (match robots w with [] => true | _ :: _ => false end)
    then onDom (set_threatOpacity 0) p
    else
      let cam := cam_position (camera w) in
      let playerPos := mkVec3 (vx cam) 0 (vz cam) in
      match closestRobot
              (fun r =>
                 Vec3_distanceTo playerPos
                   (mkVec3 (vx (position r)) 0 (vz (position r))))
              (robots w) None with
      | Some (minDistance, closest) =>
          if Qlt_bool minDistance MAX_DETECT_RANGE then
            let p :=
              onDom (set_threatOpacity
                       (Math_min 1
                          (1 - (minDistance - HIGH_DANGER_RANGE)
                               / (MAX_DETECT_RANGE - HIGH_DANGER_RANGE))))
                p in
            let robotPos := Vec3_set_y (vy cam) (position closest) in
            let relPos := Vec3_sub robotPos cam in
            let angle := Math_atan2 (vx relPos) (vz relPos) in
            let camAngle :=
              Math_atan2 (vx (cam_direction (camera w)))
                (vz (cam_direction (camera w))) in
            let bearing := (camAngle - angle)%Q in
            onDom (set_threatArrow (- bearing)) p
          else onDom (set_threatOpacity 0) p
      | None => onDom (set_threatOpacity 0) p
      end.

End Display.

(** *** Death, revive and extra life *)

(** [showFinalGameOver()].  Its last statement is the call
    [preGenerateScreenshot()]; that function is declared inside [createUI]
    and is not in scope here, so the call throws a ReferenceError once the
    game-over screen is filled. *)
Definition showFinalGameOver (p : Page) : Page * Completion :=
  let p := onGameState (set_isRunning false) p in
  let p := onDom (classList_remove "revive-modal" "show") p in
  let p := onDom (classList_add "gameover-screen" "show") p in
  let gs := gameState (world p) in
  let p := onDom (set_textContent "final-score" (string_of_Z (score gs))) p in
  let p := onDom (set_textContent "final-waves" (string_of_Z (wave gs))) p in
  let p := onDom (set_textContent "final-kills" (string_of_Z (kills gs))) p in
  (p, Throws).

(** [showReviveModal()] *)
Definition showReviveModal (p : Page) : Page * Completion :=
  if negb (canShowAd "revive" (adSession p)) then showFinalGameOver p
  else
    let p := onGameState (set_isRunning false) p in
    let p := onDom (classList_add "hud" "hidden") p in
    let p := onDom (classList_add "crosshair" "hidden") p in
    let p :=
      if isMobile (world p)
      then onDom (classList_remove "mobile-controls" "show") p
      else p in
    let p := onDom (set_disabled "revive-btn" false) p in
    let p :=
      onDom (set_textContent "revive-btn" "▶ REVIVE (Watch 2 Ads)") p in
    (onDom (classList_add "revive-modal" "show") p, Returns).

(** [endGame()] with what it does to the page. *)
Definition Page_endGame (b : Build) (p : Page) : Page * Completion :=
  match b with
  | Enhanced =>
      if negb (isRunning (gameState (world p))) then (p, Returns)
      else
        let p := onGameState (set_isRunning false) p in
        showReviveModal p
  | Basic =>
      let p := onGameState (set_isRunning false) p in
      let p := onDom (classList_add "hud" "hidden") p in
      let p := onDom (classList_add "crosshair" "hidden") p in
      let p := onDom (classList_add "gameover-screen" "show") p in
      let p :=
        if isMobile (world p)
        then
          let p := onDom (classList_remove "mobile-controls" "show") p in
          onDom (classList_remove "mobile-aim" "show") p
        else p in
      let gs := gameState (world p) in
      let p :=
        onDom (set_textContent "final-score" (string_of_Z (score gs))) p in
      let p :=
        onDom (set_textContent "final-waves" (string_of_Z (wave gs))) p in
      (onDom (set_textContent "final-kills" (string_of_Z (kills gs))) p,
       Returns)
  end.

(** [executeRevive()] *)
Definition executeRevive (p : Page) : Page :=
  let p := onDom (classList_remove "revive-modal" "show") p in
  let p :=
    onGameState
      (fun gs =>
         set_health (Math_floor (inject_Z (maxHealth gs) * (5 # 10))) gs) p in
  let p := updateHealthBar p in
  let p := onGameState (set_isRunning true) p in
  let p := onDom (classList_remove "hud" "hidden") p in
  let p := onDom (classList_remove "crosshair" "hidden") p in
  if isMobile (world p)
  then onDom (classList_add "mobile-controls" "show") p
  else p.

(** [attemptRevive()] up to the moment the ad is on screen; when no
    revive is left [showRewardedAd] calls the cancel callback at once. *)
Definition attemptRevive (p : Page) : Page :=
  let p := onDom (set_disabled "revive-btn" true) p in
  let p := onDom (set_textContent "revive-btn" "Loading...") p in
  match showRewardedAd "revive" (adSession p) with
  | adRefused =>
      let p := onDom (set_disabled "revive-btn" false) p in
      onDom (set_textContent "revive-btn" "▶ REVIVE (Watch 2 Ads)") p
  | adShown => setTimeout (rewardedAdOver forRevive) p
  end.

(** The end of a revive ad: the mock ad's timeout, then the completion
    callback of [attemptRevive]. *)
Definition reviveAdOver (p : Page) : Page :=
  let '(s, result) := showMockRewardedAd_over "revive" (adSession p) in
  let p := set_adSession s p in
  match result with
  | Some (adPartial current total) =>
      let p := onDom (set_disabled "revive-btn" false) p in
      let p :=
        onDom (set_textContent "revive-btn"
                 ("▶ REVIVE (Ad " ++ string_of_Z current ++ "/"
                  ++ string_of_Z total ++ " done)")%string) p in
      setTimeout nextReviveAd p
  | Some adComplete => executeRevive p
  | None => p
  end.

(** [claimExtraLife()] up to the moment the ad is on screen. *)
Definition claimExtraLife (p : Page) : Page :=
  let p := onDom (classList_remove "extra-life-btn" "show") p in
  match showRewardedAd "extraLife" (adSession p) with
  | adRefused => onDom (classList_add "extra-life-btn" "show") p
  | adShown => setTimeout (rewardedAdOver forExtraLife) p
  end.

(** The end of an extra-life ad: the mock ad's timeout, then the
    completion callback of [claimExtraLife]. *)
Definition extraLifeAdOver (p : Page) : Page :=
  let '(s, result) := showMockRewardedAd_over "extraLife" (adSession p) in
  let p := set_adSession s p in
  match result with
  | Some _ =>
      let healAmount := 50 in
      let p :=
        onGameState
          (fun gs =>
             set_health (Z.min (maxHealth gs) (health gs + healAmount)) gs)
          p in
      let p := updateHealthBar p in
      let p := onDom (classList_add "extra-life-btn" "hidden") p in
      set_extraLifeOfferShown false p
  | None => p
  end.

(** [checkExtraLifeOffer()] *)
Definition checkExtraLifeOffer (p : Page) : Page :=
  let healthPercent := healthPercent (gameState (world p)) in
  if SFltb healthPercent (double_of_Z 25)
     && SFltb (double_of_Z 0) healthPercent
     && negb (extraLifeOfferShown p) && canShowAd "extraLife" (adSession p)
  then
    let p := onDom (classList_remove "extra-life-btn" "hidden") p in
    let p := onDom (classList_add "extra-life-btn" "show") p in
    set_extraLifeOfferShown true p
  else p.

(** [showWaveTransitionAd(waveNumber, callback)] up to the moment the ad
    is on screen. *)
Definition showWaveTransitionAd (waveNumber : Z) (p : Page) : Page :=
  let p :=
    onDom (set_textContent ".wave-transition-text"
             ("WAVE " ++ string_of_Z (waveNumber - 1) ++ " COMPLETE")%string)
      p in
  let p := onDom (classList_add "wave-ad-overlay" "show") p in
  setTimeout interstitialAdOver p.

(** The end of the wave interstitial: the mock ad's timeout, then the
    callbacks of [showWaveTransitionAd] and of [onShoot]. *)
Definition waveAdOver (p : Page) : Page :=
  let p := set_adSession (showMockInterstitialAd_over (adSession p)) p in
  let p := onDom (classList_remove "wave-ad-overlay" "show") p in
  onGameState (set_isPaused false) p.

(** [togglePause()], enhanced build *)
Definition togglePause (p : Page) : Page :=
  if negb (isRunning (gameState (world p))) then p
  else
    let p := onGameState (fun gs => set_isPaused (negb (isPaused gs)) gs) p in
    if isPaused (gameState (world p))
    then onDom (classList_remove "pause-menu" "hidden") p
    else onDom (classList_add "pause-menu" "hidden") p.

(** [setGameMode(mode)] with the marking of the mode cards. *)
Definition modeName (m : Mode) : string :=
  match m with math => "math" | quiz => "quiz" | english => "english" end.

Definition setGameMode (m : Mode) (p : Page) : Page :=
  let p := onGameState (set_mode m) p in
  fold_left
    (fun p card =>
       if String.eqb (modeName card) (modeName m)
       then onDom (classList_add ("mode-" ++ modeName card) "selected") p
       else onDom (classList_remove ("mode-" ++ modeName card) "selected") p)
    [math; quiz; english] p.

(** *** The game functions, with what they do to the page *)

(** The body of [if (gameState.kills % 5 === 0)] with the heads-up display
    and the wave ad. *)
Definition Page_waveAdvance (b : Build) (p : Page) : Page :=
  let p := onGameState (fun gs => set_wave (wave gs + 1) gs) p in
  let p :=
    onDom (set_textContent "wave" (string_of_Z (wave (gameState (world p)))))
      p in
  let p :=
    match b with
    | Enhanced =>
        let healAmount := 20 in
        let oldHealth := health (gameState (world p)) in
        let p :=
          onGameState
            (fun gs =>
               set_health (Z.min (maxHealth gs) (health gs + healAmount)) gs)
            p in
        if oldHealth <? health (gameState (world p))
        then updateHealthBar p else p
    | Basic => p
    end in
  let p :=
    set_world
      (set_spawnInterval
         (Math_max (spawnFloor b) (spawnInterval (world p) - (2 # 10))%Q)
         (world p)) p in
  match b with
  | Enhanced =>
      if shouldShowWaveAd (wave (gameState (world p))) then
        let p := onGameState (set_isPaused true) p in
        showWaveTransitionAd (wave (gameState (world p))) p
      else p
  | Basic => p
  end.

Definition Page_waveCheck (b : Build) (p : Page) : Page :=
  if Z.rem (kills (gameState (world p))) 5 =? 0
  then Page_waveAdvance b p else p.

(** The body of [if (hit)] in [onShoot], up to its [return]. *)
Definition Page_resolveHit (b : Build) (robot : Robot) (hit : Hit) (p : Page)
  : Robot * Page :=
  let isCorrect := strict_eq (hit_answer hit) (correctAnswer robot) in
  let p :=
    set_world
      (set_bullets
         (bullets (world p) ++
          [BulletTrail_new (cam_position (camera (world p))) (hit_point hit)])
         (world p)) p in
  if isCorrect then
    let robot := set_dying true robot in
    let p := onGameState tallyKill p in
    let p := set_world (createExplosion b (hit_point hit) 40 (world p)) p in
    let gs := gameState (world p) in
    let p := onDom (set_textContent "score" (string_of_Z (score gs))) p in
    let p :=
      onDom (set_textContent "combo" ("x" ++ string_of_Z (combo gs))%string)
        p in
    let p := set_world (maybeDrop b robot (world p)) p in
    (robot, Page_waveCheck b p)
  else
    let p := onGameState (set_combo 1) p in
    let p := set_world (createExplosion b (hit_point hit) 15 (world p)) p in
    let p := onDom (set_textContent "combo" "x1") p in
    (robot, p).

Fixpoint Page_shootRobots (b : Build) (rc : Raycaster) (rs : list Robot)
  (p : Page) : list Robot * Page :=
  match rs with
  | [] => ([], p)
  | robot :: rest =>
      if dying robot then
        let '(rest, p) := Page_shootRobots b rc rest p in (robot :: rest, p)
      else
        match Robot_checkHit rc robot with
        | Some hit =>
            let '(robot, p) := Page_resolveHit b robot hit p in
            (robot :: rest, p)
        | None =>
            let '(rest, p) := Page_shootRobots b rc rest p in
            (robot :: rest, p)
        end
  end.

(** [onShoot()] *)
Definition Page_onShoot (b : Build) (rc : Raycaster) (p : Page) : Page :=
  if canFire b (gameState (world p)) then
    let '(rs, p) := Page_shootRobots b rc (robots (world p)) p in
    set_world (set_robots rs (world p)) p
  else p.

Section PageGame.
Context {M : MathLib} {B : Browser}.

(** [Robot.attackPlayer] *)
Definition Page_attackPlayer (b : Build) (this : Robot) (p : Page)
  : Robot * Page * Completion :=
  if match b with
     | Enhanced => negb (isRunning (gameState (world p)))
     | Basic => false
     end
  then (this, p, Returns)
  else
    let this := set_attackCooldown (15 # 10) this in
    let p :=
      onGameState (fun gs => set_health (health gs - damage this) gs) p in
    let p := updateHealthBar p in
    let p := match b with Enhanced => checkExtraLifeOffer p | Basic => p end in
    if health (gameState (world p)) <=? 0 then
      let '(p, c) := Page_endGame b p in (this, p, c)
    else
      let '(pt, g) := aroundPlayer (camera (world p)) (rng (world p)) in
      let this := set_position (keepWithin Robot_boundaryLimit pt) this in
      (this, set_world (set_rng g (world p)) p, Returns).

(** [Robot.update(deltaTime)] *)
Definition Page_Robot_update (b : Build) (dt : Q) (this : Robot) (p : Page)
  : Robot * Page * Completion :=
  if dying this then
    let this := set_dyingTimer (dyingTimer this + dt)%Q this in
    let this :=
      if Qlt_bool 1 (dyingTimer this) then set_alive false this else this in
    (this, p, Returns)
  else
    let this :=
      if Qlt_bool 0 (attackCooldown this)
      then set_attackCooldown (attackCooldown this - dt)%Q this
      else this in
    let cam := cam_position (camera (world p)) in
    let playerPos := mkVec3 (vx cam) 0 (vz cam) in
    let direction := Vec3_set_y 0 (Vec3_sub playerPos (position this)) in
    let distanceToPlayer := Vec3_length direction in
    let direction := Vec3_normalize direction in
    let this :=
      set_position
        (Vec3_add (position this)
           (Vec3_multiplyScalar direction (speed this * dt)%Q)) this in
    let this :=
      set_position (keepWithin Robot_boundaryLimit (position this)) this in
    let this :=
      set_walkTime
        (walkTime this + dt * 8 * walkSpeedMultiplier (rtype this))%Q this in
    let this :=
      set_position
        (Vec3_set_y (Math_abs (Math_sin (walkTime this * 2)) * (1 # 10))%Q
           (position this)) this in
    if Qlt_bool distanceToPlayer (attackRange (rtype this))
       && Qle_bool (attackCooldown this) 0
    then Page_attackPlayer b this p
    else (this, p, Returns).

Fixpoint Page_updateRobots (b : Build) (dt : Q) (rs : list Robot) (p : Page)
  : list Robot * Page * Completion :=
  match rs with
  | [] => ([], p, Returns)
  | r :: rest =>
      match Page_Robot_update b dt r p with
      | (r, p, Throws) => (r :: rest, p, Throws)
      | (r, p, Returns) =>
          let '(rest, p, c) := Page_updateRobots b dt rest p in
          (r :: rest, p, c)
      end
  end.

(** The collision test of the pickup loop and what it does on success. *)
Definition Page_collectPickup (pickup : HealthPickup) (p : Page)
  : HealthPickup * Page :=
  if inReach (camera (world p)) pickup then
    let oldHealth := health (gameState (world p)) in
    let p :=
      onGameState
        (fun gs => set_health (Z.min (maxHealth gs) (health gs + 20)) gs) p in
    let p :=
      if oldHealth <? health (gameState (world p))
      then updateHealthBar p else p in
    (set_collected true pickup, p)
  else (pickup, p).

Fixpoint Page_updatePickups (dt : Q) (ps : list HealthPickup) (p : Page)
  : list HealthPickup * Page :=
  match ps with
  | [] => ([], p)
  | pk :: rest =>
      let '(pk, p) := Page_collectPickup (HealthPickup_update dt pk) p in
      let '(rest, p) := Page_updatePickups dt rest p in
      (pk :: rest, p)
  end.

(** The blocks of the frame loop, in the order [animate] runs them. *)

(** The robot loop, then [robots = robots.filter(r => r.alive)] unless the
    loop threw. *)
Definition Page_robotPass (b : Build) (dt : Q) (p : Page)
  : Page * Completion :=
  match Page_updateRobots b dt (robots (world p)) p with
  | (rs, p, Throws) => (set_world (set_robots rs (world p)) p, Throws)
  | (rs, p, Returns) =>
      (set_world (set_robots (filter alive rs) (world p)) p, Returns)
  end.

(** The pickup loop, then [pickups = pickups.filter(p => !p.collected)]:
    enhanced build only. *)
Definition Page_pickupPass (b : Build) (dt : Q) (p : Page) : Page :=
  match b with
  | Enhanced =>
      let '(ps, p) := Page_updatePickups dt (pickups (world p)) p in
      set_world
        (set_pickups (filter (fun k => negb (collected k)) ps) (world p)) p
  | Basic => p
  end.

(** [updateQuestionDisplay()], then [updateThreatIndicator()] in the
    enhanced build. *)
Definition refreshDisplay (b : Build) (rc : Raycaster) (p : Page) : Page :=
  let p := updateQuestionDisplay b rc p in
  match b with Enhanced => updateThreatIndicator p | Basic => p end.

(** One frame, [animate()], with [clock.getDelta()] returning [dt] and
    [rc] the ray of the question display.  When the robot loop throws,
    the frame is over: effects, pickups and the displays are not looked
    at. *)
Definition Page_animate (b : Build) (fuel : nat) (dt : Q) (rc : Raycaster)
  (p : Page) : option (Page * Completion) :=
  if match b with
     | Enhanced => isPaused (gameState (world p))
     | Basic => false
     end
  then Some (p, Returns)
  else if isRunning (gameState (world p)) then
    match spawnTick b fuel dt (updatePlayerMovement dt (world p)) with
    | None => None
    | Some w =>
        let p := set_world w p in
        match Page_robotPass b dt p with
        | (p, Throws) => Some (p, Throws)
        | (p, Returns) =>
            let p := set_world (purgeEffects dt (world p)) p in
            let p := Page_pickupPass b dt p in
            Some (refreshDisplay b rc p, Returns)
        end
    end
  else Some (p, Returns).

(** The opening of [startGame()]: screens and controls. *)
Definition showGameScreen (p : Page) : Page :=
  let p := onDom (classList_add "start-screen" "hidden") p in
  let p := onDom (classList_remove "gameover-screen" "show") p in
  let p := onDom (classList_remove "hud" "hidden") p in
  if isMobile (world p)
  then
    let p := onDom (classList_add "mobile-controls" "show") p in
    onDom (classList_remove "crosshair" "hidden") p
  else onDom (classList_remove "crosshair" "hidden") p.

(** [yaw = 0; pitch = 0] *)
Definition resetLook (p : Page) : Page :=
  let l := look p in
  set_look
    (mkLook 0 0 (isPointerLocked l) (lookTouchId l) (touchStartX l)
       (touchStartY l) (lastTouchX l) (lastTouchY l) (touchStartTime l)) p.

(** The close of [startGame()] in the enhanced build: a new ad session. *)
Definition resetAds (p : Page) : Page :=
  let p := set_adSession resetSessionLimits p in
  let p := set_extraLifeOfferShown false p in
  let p := onDom (classList_add "extra-life-btn" "hidden") p in
  let p := onDom (classList_remove "extra-life-btn" "show") p in
  onDom (classList_remove "revive-modal" "show") p.

(** [startGame()]: the world is reset as by [startGame] of the simulation,
    the rest is what the function does to the page. *)
Definition Page_startGame (b : Build) (fuel : nat) (p : Page) : option Page :=
  let p := showGameScreen p in
  let p := resetLook p in
  match startGame b fuel (world p) with
  | None => None
  | Some w =>
      let p := set_world w p in
      let p := onDom (set_textContent "score" "0") p in
      let p := onDom (set_textContent "wave" "1") p in
      let p := onDom (set_textContent "combo" "x1") p in
      let p := updateHealthBar p in
      Some (match b with Enhanced => resetAds p | Basic => p end)
  end.

End PageGame.

(** *** Input handlers *)

Definition mouseSensitivity : Q := 2 # 1000.
Definition touchSensitivity : Q := 5 # 1000.
Definition jumpForce : Q := 10.
Definition joystickMaxDistance : Q := 45.
Definition TAP_THRESHOLD : Z := 200.
Definition TAP_MOVE_THRESHOLD : Q := 10.

(** The guard most handlers open with: [!gameState.isRunning], to which
    the enhanced build adds [|| gameState.isPaused]. *)
Definition inputOff (b : Build) (gs : GameState) : bool :=
  match b with
  | Enhanced => negb (isRunning gs) || isPaused gs
  | Basic => negb (isRunning gs)
  end.

Definition set_key (code : string) (v : bool) (k : Keys) : Keys :=
  if String.eqb code "KeyW" || String.eqb code "ArrowUp"
  then mkKeys v (key_backward k) (key_left k) (key_right k) (key_sprint k)
  else if String.eqb code "KeyS" || String.eqb code "ArrowDown"
  then mkKeys (key_forward k) v (key_left k) (key_right k) (key_sprint k)
  else if String.eqb code "KeyA" || String.eqb code "ArrowLeft"
  then mkKeys (key_forward k) (key_backward k) v (key_right k) (key_sprint k)
  else if String.eqb code "KeyD" || String.eqb code "ArrowRight"
  then mkKeys (key_forward k) (key_backward k) (key_left k) v (key_sprint k)
  else if String.eqb code "ShiftLeft" || String.eqb code "ShiftRight"
  then mkKeys (key_forward k) (key_backward k) (key_left k) (key_right k) v
  else k.

Definition set_keys (k : Keys) (w : World) : World :=
  mkWorld (gameState w) (robots w) (pickups w) (particles w) (bullets w)
    (spawnTimer w) (spawnInterval w) (camera w) (physics w) k (joystickX w)
    (joystickY w) (isMobile w) (rng w).

Definition set_joystick (x y : Q) (w : World) : World :=
  mkWorld (gameState w) (robots w) (pickups w) (particles w) (bullets w)
    (spawnTimer w) (spawnInterval w) (camera w) (physics w) (keys w) x y
    (isMobile w) (rng w).

(** [onKeyDown(event)] and [onKeyUp(event)] *)
Definition onKeyDown (b : Build) (code : string) (p : Page) : Page :=
  if inputOff b (gameState (world p)) then p
  else set_world (set_keys (set_key code true (keys (world p))) (world p)) p.

Definition onKeyUp (code : string) (p : Page) : Page :=
  set_world (set_keys (set_key code false (keys (world p))) (world p)) p.

(** [onJumpButtonPress(event)] *)
Definition onJumpButtonPress (b : Build) (p : Page) : Page :=
  if inputOff b (gameState (world p)) then p
  else
    let ph := physics (world p) in
    if isGrounded ph then
      set_world
        (set_physics
           (mkPhysics (playerY ph) jumpForce false (headBobTime ph)
              (isMoving ph) (currentBobOffset ph) (currentSideOffset ph))
           (world p)) p
    else p.

Record Touch := mkTouch { identifier : Z; clientX : Q; clientY : Q }.

Definition sameTouch (t : Touch) (id : option Z) : bool :=
  match id with Some i => identifier t =? i | None => false end.

Section Input.
Context {M : MathLib} {B : Browser}.

(** The four lines both look handlers share: clamp the pitch and turn the
    camera. *)
Definition turnCamera (y x : Q) (p : Page) : Page :=
  let x :=
    Math_max (- Math_PI / 2 + (1 # 10))
      (Math_min (Math_PI / 2 - (1 # 10)) x) in
  let l := look p in
  let p :=
    set_look
      (mkLook y x (isPointerLocked l) (lookTouchId l) (touchStartX l)
         (touchStartY l) (lastTouchX l) (lastTouchY l) (touchStartTime l)) p in
  set_world
    (set_camera
       (mkCamera (cam_position (camera (world p))) (Camera_direction y x))
       (world p)) p.

(** [onMouseMove(event)] *)
Definition onMouseMove (b : Build) (movementX movementY : Q) (p : Page)
  : Page :=
  if negb (isPointerLocked (look p)) || inputOff b (gameState (world p))
  then p
  else
    turnCamera (yaw (look p) - movementX * mouseSensitivity)
      (pitch (look p) - movementY * mouseSensitivity) p.

(** [onPointerLockChange()], [locked] being
    [document.pointerLockElement === renderer.domElement]. *)
Definition onPointerLockChange (locked : bool) (p : Page) : Page :=
  let l := look p in
  set_look
    (mkLook (yaw l) (pitch l) locked (lookTouchId l) (touchStartX l)
       (touchStartY l) (lastTouchX l) (lastTouchY l) (touchStartTime l)) p.

(** [onCanvasClick(event)]: asking for the pointer lock changes nothing
    until the browser reports it. *)
Definition onCanvasClick (b : Build) (rc : Raycaster) (p : Page) : Page :=
  if inputOff b (gameState (world p)) then p
  else if negb (isPointerLocked (look p)) then p
  else Page_onShoot b rc p.

(** [onFireButtonPress(event)] *)
Definition onFireButtonPress (b : Build) (rc : Raycaster) (p : Page) : Page :=
  if negb (isRunning (gameState (world p))) then p else Page_onShoot b rc p.

(** [onTouchStart(event)], [now] being [Date.now()]. *)
Definition onTouchStart (b : Build) (changedTouches : list Touch) (now : Z)
  (p : Page) : Page :=
  if inputOff b (gameState (world p)) then p
  else
    fold_left
      (fun p touch =>
         let l := look p in
         match lookTouchId l with
         | None =>
             set_look
               (mkLook (yaw l) (pitch l) (isPointerLocked l)
                  (Some (identifier touch)) (clientX touch) (clientY touch)
                  (clientX touch) (clientY touch) now) p
         | Some _ => p
         end)
      changedTouches p.

(** [onTouchMove(event)] *)
Definition onTouchMove (b : Build) (changedTouches : list Touch) (p : Page)
  : Page :=
  if inputOff b (gameState (world p)) then p
  else
    fold_left
      (fun p touch =>
         if sameTouch touch (lookTouchId (look p)) then
           let deltaX := (clientX touch - lastTouchX (look p))%Q in
           let deltaY := (clientY touch - lastTouchY (look p))%Q in
           let p :=
             turnCamera (yaw (look p) - deltaX * touchSensitivity)
               (pitch (look p) - deltaY * touchSensitivity) p in
           let l := look p in
           set_look
             (mkLook (yaw l) (pitch l) (isPointerLocked l) (lookTouchId l)
                (touchStartX l) (touchStartY l) (clientX touch)
                (clientY touch) (touchStartTime l)) p
         else p)
      changedTouches p.

(** [onTouchEnd(event)]: a short touch that has hardly moved fires. *)
Definition onTouchEnd (b : Build) (changedTouches : list Touch) (now : Z)
  (rc : Raycaster) (p : Page) : Page :=
  fold_left
    (fun p touch =>
       if sameTouch touch (lookTouchId (look p)) then
         let l := look p in
         let timeDiff := now - touchStartTime l in
         let dx := (clientX touch - touchStartX l)%Q in
         let dy := (clientY touch - touchStartY l)%Q in
         let distDiff := Math_sqrt (dx * dx + dy * dy) in
         let p :=
           if (timeDiff <? TAP_THRESHOLD)
              && Qlt_bool distDiff TAP_MOVE_THRESHOLD
           then Page_onShoot b rc p else p in
         let l := look p in
         set_look
           (mkLook (yaw l) (pitch l) (isPointerLocked l) None
              (touchStartX l) (touchStartY l) (lastTouchX l) (lastTouchY l)
              (touchStartTime l)) p
       else p)
    changedTouches p.

(** [updateJoystick(clientX, clientY)] *)
Definition updateJoystick (x y : Q) (p : Page) : Page :=
  let deltaX := (x - joystickCenterX (stick p))%Q in
  let deltaY := (y - joystickCenterY (stick p))%Q in
  let distance := Math_sqrt (deltaX * deltaX + deltaY * deltaY) in
  let '(deltaX, deltaY) :=
    if Qlt_bool joystickMaxDistance distance
    then ((deltaX / distance * joystickMaxDistance)%Q,
          (deltaY / distance * joystickMaxDistance)%Q)
    else (deltaX, deltaY) in
  set_world
    (set_joystick (deltaX / joystickMaxDistance) (deltaY / joystickMaxDistance)
       (world p)) p.

(** The bounding rectangle of the joystick container. *)
Record Rect := mkRect { left : Q; top : Q; width : Q; height : Q }.

(** [onJoystickStart(event)] *)
Definition onJoystickStart (b : Build) (rect : Rect)
  (changedTouches : list Touch) (p : Page) : Page :=
  if inputOff b (gameState (world p)) then p
  else
    let s := stick p in
    let p :=
      set_stick
        (mkStick (joystickTouchId s) (left rect + width rect / 2)
           (top rect + height rect / 2) (joystickActive s)) p in
    match changedTouches, joystickTouchId (stick p) with
    | touch :: _, None =>
        let s := stick p in
        let p :=
          set_stick
            (mkStick (Some (identifier touch)) (joystickCenterX s)
               (joystickCenterY s) true) p in
        updateJoystick (clientX touch) (clientY touch) p
    | _, _ => p
    end.

(** [onJoystickMove(event)] *)
Definition onJoystickMove (b : Build) (changedTouches : list Touch) (p : Page)
  : Page :=
  if inputOff b (gameState (world p)) || negb (joystickActive (stick p))
  then p
  else
    match find (fun t => sameTouch t (joystickTouchId (stick p)))
            changedTouches with
    | Some touch => updateJoystick (clientX touch) (clientY touch) p
    | None => p
    end.

Definition releaseJoystick (p : Page) : Page :=
  let s := stick p in
  let p :=
    set_stick
      (mkStick None (joystickCenterX s) (joystickCenterY s) false) p in
  set_world (set_joystick 0 0 (world p)) p.

(** [onJoystickEnd(event)]: the enhanced build also lets go when no touch
    is left on the screen. *)
Definition onJoystickEnd (b : Build) (changedTouches touches : list Touch)
  (p : Page) : Page :=
  let p :=
    if existsb (fun t => sameTouch t (joystickTouchId (stick p)))
         changedTouches
    then releaseJoystick p else p in
  match b, touches with
  | Enhanced, [] => releaseJoystick p
  | _, _ => p
  end.

End Input.

(** *** Events *)

(** What the browser can deliver to the listeners the script registers.
    A click and the touch that stands in for it are one event, and so are
    the end and the cancellation of a joystick touch.  The handlers
    [onFireButtonPress] and [onJumpButtonPress] are attached to nothing
    and so have no event; the resize listener, the share buttons and the
    quit button, which reloads the page, are left out. *)
Inductive Event :=
| animationFrame (dt : Q) (rc : Raycaster)
| keydown (code : string)
| keyup (code : string)
| canvasClick (rc : Raycaster)
| mousemove (movementX movementY : Q)
| pointerlockchange (locked : bool)
| lookTouchstart (changedTouches : list Touch) (now : Z)
| lookTouchmove (changedTouches : list Touch)
| lookTouchend (changedTouches : list Touch) (now : Z) (rc : Raycaster)
| joystickTouchstart (rect : Rect) (changedTouches : list Touch)
| joystickTouchmove (changedTouches : list Touch)
| joystickTouchend (changedTouches touches : list Touch)
| startClick
| modeClick (m : Mode)
| resumeClick
| reviveClick
| giveUpClick
| extraLifeClick
| timeout (n : nat).

Fixpoint removeNth {A : Type} (n : nat) (l : list A) : list A :=
  match l, n with
  | [], _ => []
  | _ :: t, O => t
  | x :: t, S n => x :: removeNth n t
  end.

(** The callback a pending timer stands for. *)
Definition fire (t : Timer) (p : Page) : Page :=
  match t with
  | rewardedAdOver forRevive => reviveAdOver p
  | rewardedAdOver forExtraLife => extraLifeAdOver p
  | interstitialAdOver => waveAdOver p
  | nextReviveAd => attemptRevive p
  end.

Section Events.
Context {M : MathLib} {B : Browser}.

(** One event delivered to the page.  Mouse listeners are registered on
    desktop only, touch listeners on mobile only; the ad, pause and mode
    controls exist in the enhanced build only.  A handler that throws
    leaves the page as it is at the throw. *)
Definition step (b : Build) (fuel : nat) (e : Event) (p : Page)
  : option Page :=
  let mobile := isMobile (world p) in
  let enhanced := match b with Enhanced => true | Basic => false end in
  match e with
  | animationFrame dt rc => option_map fst (Page_animate b fuel dt rc p)
  | keydown code =>
      let p := onKeyDown b code p in
      Some (if enhanced && String.eqb code "Escape" then togglePause p else p)
  | keyup code => Some (onKeyUp code p)
  | canvasClick rc => Some (if mobile then p else onCanvasClick b rc p)
  | mousemove x y => Some (if mobile then p else onMouseMove b x y p)
  | pointerlockchange locked =>
      Some (if mobile then p else onPointerLockChange locked p)
  | lookTouchstart ts now =>
      Some (if mobile then onTouchStart b ts now p else p)
  | lookTouchmove ts => Some (if mobile then onTouchMove b ts p else p)
  | lookTouchend ts now rc =>
      Some (if mobile then onTouchEnd b ts now rc p else p)
  | joystickTouchstart rect ts =>
      Some (if mobile then onJoystickStart b rect ts p else p)
  | joystickTouchmove ts =>
      Some (if mobile then onJoystickMove b ts p else p)
  | joystickTouchend ts all =>
      Some (if mobile then onJoystickEnd b ts all p else p)
  | startClick => Page_startGame b fuel p
  | modeClick m => Some (if enhanced then setGameMode m p else p)
  | resumeClick => Some (if enhanced then togglePause p else p)
  | reviveClick => Some (if enhanced then attemptRevive p else p)
  | giveUpClick => Some (if enhanced then fst (showFinalGameOver p) else p)
  | extraLifeClick => Some (if enhanced then claimExtraLife p else p)
  | timeout n =>
      match nth_error (timers p) n with
      | Some t => Some (fire t (set_timers (removeNth n (timers p)) p))
      | None => Some p
      end
  end.

(** A run of events, in order. *)
Fixpoint run (b : Build) (fuel : nat) (es : list Event) (p : Page)
  : option Page :=
  match es with
  | [] => Some p
  | e :: rest =>
      match step b fuel e p with
      | Some p => run b fuel rest p
      | None => None
      end
  end.

End Events.

(** ** Vocabulary of the page properties *)

(** The books of a run: the wave counts the fives of the kills, the score
    is made of hundreds, between one and ten for each kill, and the spawn
    interval follows from the wave. *)
Definition runBooks (b : Build) (w : World) : Prop :=
  let gs := gameState w in
  0 <= kills gs
  /\ wave gs = 1 + kills gs / 5
  /\ 1 <= combo gs <= 10
  /\ 100 * kills gs <= score gs <= 1000 * kills gs
  /\ (100 | score gs)
  /\ (spawnInterval w
      == Math_max (spawnFloor b) (2 - (2 # 10) * inject_Z (wave gs - 1)))%Q.

(** Two worlds with the same books. *)
Definition sameBooks (w w' : World) : Prop :=
  score (gameState w') = score (gameState w)
  /\ wave (gameState w') = wave (gameState w)
  /\ combo (gameState w') = combo (gameState w)
  /\ kills (gameState w') = kills (gameState w)
  /\ spawnInterval w' = spawnInterval w.

(** Two worlds with the same books, vertical physics, health cap and
    robots. *)
Definition sameRun (w w' : World) : Prop :=
  sameBooks w w'
  /\ maxHealth (gameState w') = maxHealth (gameState w)
  /\ physics w' = physics w
  /\ robots w' = robots w.

(** The player standing on the ground, at rest. *)
Definition onGround (w : World) : Prop :=
  playerY (physics w) = 2%Q /\ velocityY (physics w) = 0%Q
  /\ isGrounded (physics w) = true.

(** Jump presses ([None]) and frames of player movement ([Some dt]), in
    order. *)
Section Hops.
Context {M : MathLib}.

Fixpoint hops (b : Build) (ms : list (option Q)) (p : Page) : Page :=
  match ms with
  | [] => p
  | None :: rest => hops b rest (onJumpButtonPress b p)
  | Some dt :: rest =>
      hops b rest (set_world (updatePlayerMovement dt (world p)) p)
  end.

End Hops.

(** The energy bound behind a jump: height above the ground is paid for
    by velocity lost. *)
Definition inFlight (w : World) : Prop :=
  let ph := physics w in
  (2 <= playerY ph
   /\ 50 * (playerY ph - 2) <= 100 - velocityY ph * velocityY ph)%Q
  /\ (isGrounded ph = true -> playerY ph == 2 /\ velocityY ph == 0)%Q.


(** What the heads-up display should read, and what it reads. *)
Definition healthShown (gs : GameState) : list string :=
  let percentage := healthPercentage gs in
  [percentText percentage; percentText percentage;
   if belowThirty percentage then "pulse-red 1s infinite" else "none"].

Definition healthView (d : Dom) : list string :=
  [style d "health-fill" "width"; textContent d "health-val";
   style d ".health-container" "animation"].

Definition talliesShown (gs : GameState) : list string :=
  [string_of_Z (score gs); string_of_Z (wave gs);
   ("x" ++ string_of_Z (combo gs))%string].

Definition talliesView (d : Dom) : list string :=
  [textContent d "score"; textContent d "wave"; textContent d "combo"].

(** The display is up to date, and health is within its cap. *)
Definition hudInv (p : Page) : Prop :=
  let gs := gameState (world p) in
  talliesView (dom p) = talliesShown gs
  /\ healthView (dom p) = healthShown gs
  /\ 0 <= maxHealth gs /\ health gs <= maxHealth gs.

(** Two pages that agree on what the display is about. *)
Definition sameHud (p q : Page) : Prop :=
  talliesView (dom q) = talliesView (dom p)
  /\ healthView (dom q) = healthView (dom p)
  /\ talliesShown (gameState (world q)) = talliesShown (gameState (world p))
  /\ health (gameState (world q)) = health (gameState (world p))
  /\ maxHealth (gameState (world q)) = maxHealth (gameState (world p)).

(** What a robot is given at construction and keeps for life. *)
Definition statsOf (r : Robot) : RobotType * Q * Z * Q * Q :=
  (rtype r, baseSpeed r, damage r, scale r, speed r).

(** Every robot in play carries the stats of its type. *)
Definition robotSound (b : Build) (r : Robot) : Prop :=
  (baseSpeed r, damage r, scale r) = Robot_stats b (rtype r).

(** A robot whose death animation has run for more than a second by the
    end of a frame of length [dt]. *)
Definition expiring (dt : Q) (r : Robot) : bool :=
  dying r && Qlt_bool 1 (dyingTimer r + dt).

(** Has the run reached the wave from which a build may spawn a type? *)
Definition reached (b : Build) (t : RobotType) (w : Z) : Prop :=
  match b, t with
  | Enhanced, fast => 3 <= w
  | Enhanced, heavy => 6 <= w
  | _, _ => True
  end.

(** The robots in the list carry the stats of their type and are of a
    type the run has reached. *)
Definition fleetInv (b : Build) (w : World) : Prop :=
  Forall (robotSound b) (robots w)
  /\ Forall (fun r => reached b (rtype r) (wave (gameState w))) (robots w).

(** A robot in the list is alive; the one exception is a dying robot
    left behind by a frame that was cut short, which takes the enhanced
    build and a session whose revive is used up. *)
Definition standing (b : Build) (ads : AdSession) (r : Robot) : Prop :=
  alive r = true
  \/ (b = Enhanced /\ canShowAd "revive" ads = false /\ dying r = true).

Definition ranksInv (b : Build) (p : Page) : Prop :=
  Forall (standing b (adSession p)) (robots (world p)).

(** What one [update] may do to a robot, as far as stats and life go: it
    keeps the stats and the dying flag, and takes the life of none but a
    dying robot whose death animation has run out. *)
Definition sameRobot (dt : Q) (r r' : Robot) : Prop :=
  statsOf r' = statsOf r /\ dying r' = dying r
  /\ (alive r' = alive r \/ (expiring dt r = true /\ alive r' = false)).

(** What a page-level routine of the robot loop does, seen from the
    simulation: the same robots, the same world, the same ending, and the
    ad session is left alone. *)
Definition projects {A : Type} (x : A * Page * Completion) (p : Page)
  (y : A * World * Completion) : Prop :=
  fst (fst x) = fst (fst y)
  /\ world (snd (fst x)) = snd (fst y)
  /\ snd x = snd y
  /\ adSession (snd (fst x)) = adSession p.

(** Two pages with the same ad session, look state and joystick state. *)
Definition sameInner (p q : Page) : Prop :=
  adSession q = adSession p /\ look q = look p /\ stick q = stick p.

(** The ad session adds up: revive progress is short of a full revive, and
    every revive and extra life granted has been paid for with watched
    ads. *)
Definition adInv (s : AdSession) : Prop :=
  0 <= currentReviveAdCount s < AD_CONFIG_reviveAdCount
  /\ 0 <= revivesUsed s /\ 0 <= extraLivesUsed s
  /\ AD_CONFIG_reviveAdCount * revivesUsed s + currentReviveAdCount s
     + extraLivesUsed s <= adsWatched s.


(** The events whose handlers open with the guard on [isRunning] (and
    [isPaused]): frames, shots, look and joystick touches going down or
    moving, and the keys other than Escape going down. *)
Definition guarded (e : Event) : bool :=
  match e with
  | animationFrame _ _ | canvasClick _ | mousemove _ _ | lookTouchstart _ _
  | lookTouchmove _ | joystickTouchstart _ _ | joystickTouchmove _ => true
  | keydown code => negb (String.eqb code "Escape")
  | _ => false
  end.

Section PitchRange.
Context {M : MathLib}.

(** The range the look handlers clamp the pitch to. *)
Definition pitchInRange (p : Page) : Prop :=
  (- Math_PI / 2 + (1 # 10) <= pitch (look p)
   /\ pitch (look p) <= Math_PI / 2 - (1 # 10))%Q.

End PitchRange.

(** Two pages with the same ad session and look state. *)
Definition aside (p q : Page) : Prop :=
  adSession q = adSession p /\ look q = look p.


(** The three pools of a mode that draws from pools. *)
Definition poolsOf (m : Mode) : list QData * list QData * list QData :=
  match m with
  | english =>
      (EnglishGenerator_easy, EnglishGenerator_medium, EnglishGenerator_hard)
  | _ => (QuizGenerator_easy, QuizGenerator_medium, QuizGenerator_hard)
  end.


(** What the game-over screen should read, and what it reads. *)
Definition finalsShown (gs : GameState) : list string :=
  [string_of_Z (score gs); string_of_Z (wave gs); string_of_Z (kills gs)].

Definition finalsView (d : Dom) : list string :=
  [textContent d "final-score"; textContent d "final-waves";
   textContent d "final-kills"].

(** Which of the two death screens are up. *)
Definition screensView (d : Dom) : list bool :=
  [classList d "revive-modal" "show"; classList d "gameover-screen" "show"].

(** A game that is not running has a death screen up: the revive modal of
    the enhanced build, or the game-over screen with the tallies of the
    run. *)
Definition overInv (b : Build) (p : Page) : Prop :=
  isRunning (gameState (world p)) = false ->
  (b = Enhanced /\ classList (dom p) "revive-modal" "show" = true)
  \/ (classList (dom p) "gameover-screen" "show" = true
      /\ finalsView (dom p) = finalsShown (gameState (world p))).

(** Two pages that agree on what the death screens are about. *)
Definition sameOver (p q : Page) : Prop :=
  isRunning (gameState (world q)) = isRunning (gameState (world p))
  /\ finalsShown (gameState (world q)) = finalsShown (gameState (world p))
  /\ finalsView (dom q) = finalsView (dom p)
  /\ screensView (dom q) = screensView (dom p).


(** An explosion particle on its way out: life left in (0, 1], fading at
    1.5 to 2.5 per second; a bullet trail with life left in (0, 0.2]. *)
Definition particleOk (e : ExplosionParticle) : Prop :=
  (0 < ep_life e /\ ep_life e <= 1
   /\ 15 # 10 <= ep_decay e /\ ep_decay e < 25 # 10)%Q.

Definition bulletOk (t : BulletTrail) : Prop :=
  (0 < bt_life t /\ bt_life t <= 2 # 10)%Q.

(** The effects in flight are all on their way out, and the random supply
    draws in [0, 1). *)
Definition fxInv (w : World) : Prop :=
  Forall particleOk (particles w) /\ Forall bulletOk (bullets w)
  /\ unit_draws (rng w).

(** Two worlds with the same effects and the same supply of draws. *)
Definition sameFx (w w' : World) : Prop :=
  particles w' = particles w /\ bullets w' = bullets w
  /\ source (rng w') = source (rng w).

(** A frame whose clock has not run backwards. *)
Definition clockForward (e : Event) : Prop :=
  match e with animationFrame dt _ => (0 <= dt)%Q | _ => True end.


(** A robot's speed is the base speed of its type plus the wave factor of
    the build for each wave up to the one it was built in, a wave between
    1 and [w]. *)
Definition paceOk (b : Build) (w : Z) (r : Robot) : Prop :=
  exists k,
    1 <= k <= w
    /\ speed r = (baseSpeed r + inject_Z k * waveSpeedFactor b)%Q.

(** The run is in wave 1 or later and every robot in the list moves at
    the pace of a wave the run has seen. *)
Definition paceInv (b : Build) (w : World) : Prop :=
  1 <= wave (gameState w)
  /\ Forall (paceOk b (wave (gameState w))) (robots w).


(** ** Concrete pages, used to run the page layer *)

(** A browser to compute with: [atan2] frozen at 0 and the view frozen
    in the start direction. *)
Definition sampleBrowser : Browser :=
  mkBrowser (fun _ _ => 0%Q) (fun _ _ => mkVec3 0 0 (-1)).

(** A document in which nothing is set yet. *)
Definition blankDom : Dom :=
  mkDom (fun _ _ => false) (fun _ => EmptyString) (fun _ _ => EmptyString)
    (fun _ => false) 0 0.

(** The page as loaded on a desktop: no game started, nothing pending. *)
Definition loadedPage (b : Build) : Page :=
  mkPage (initialWorld b sampleDraws) (mkLook 0 0 false None 0 0 0 0 0)
    (mkStick None 0 0 false) resetSessionLimits false 0 [] blankDom.

(** The page in the middle of a run against [squad]. *)
Definition squadPage : Page := set_world squad (loadedPage Enhanced).

(** A short desktop session: the pointer is locked, the player looks
    around, walks, lets a frame pass, shoots the chest of the robot in
    front, pauses, resumes, stops walking and lets another frame pass. *)
Definition sampleSession : list Event :=
  [pointerlockchange true; mousemove 10 (-5); keydown "KeyW";
   animationFrame (1 # 60) (rayAt part_chest); canvasClick (rayAt part_chest);
   keydown "Escape"; resumeClick; keyup "KeyW";
   animationFrame (1 # 60) (rayAt part_head)].

(** The sample page after [startGame], and after the sample session. *)
Definition startedPage (b : Build) : Page :=
  match @Page_startGame sampleMath b 10 (loadedPage b) with
  | Some p => p
  | None => loadedPage b
  end.

Definition playedPage (b : Build) : Page :=
  match @run sampleMath sampleBrowser b 10 sampleSession (startedPage b) with
  | Some p => p
  | None => startedPage b
  end.

(** A jump, three frames in the air, a jump that comes too early, and a
    long frame that lands the player. *)
Definition sampleHops : list (option Q) :=
  [None; Some (1 # 10); Some (1 # 10); None; Some (1 # 10); Some 2]%Q.

(** The sample session ended by a click on the give-up button. *)
Definition quitSession : list Event := (sampleSession ++ [giveUpClick])%list.

Definition quitPage : Page :=
  match @run sampleMath sampleBrowser Enhanced 10 quitSession
          (startedPage Enhanced) with
  | Some p => p
  | None => startedPage Enhanced
  end.

(** A supply that never runs dry: 0.1 and 0.2 in turn. *)
Definition steadyDraws : Rng :=
  mkRng (fun n => if Nat.even n then 1 # 10 else 2 # 10)%Q 0.

(** The page as loaded on a desktop, drawing from that supply. *)
Definition arenaPage : Page :=
  set_world (initialWorld Enhanced steadyDraws) (loadedPage Enhanced).

(** A frame after nineteen seconds in the background, in which every
    robot walks up to the player, and the frame a tenth of a second later,
    in which the robots in range strike; a shot at the knee, where the
    robots of this run carry the answer. *)
Definition longFrame : Event := animationFrame 19 (rayAt part_chest).
Definition shortFrame : Event := animationFrame (1 # 10) (rayAt part_chest).
Definition kneeShot : Event := canvasClick (rayAt part_knee).

(** A rough start: two robots strike, then three; the player shoots the
    three, and the one spawned next strikes: six hits of 12. *)
Definition roughSession : list Event :=
  [pointerlockchange true; longFrame; shortFrame; longFrame; shortFrame;
   kneeShot; kneeShot; kneeShot; longFrame; shortFrame].

(** The run to its end: two more hits, an extra life, five hits and the
    first death, the revive, three hits, a robot shot next to the player,
    and two seconds later the hits that end the run for good. *)
Definition fatalSession : list Event :=
  (roughSession
   ++ [longFrame; shortFrame; extraLifeClick; timeout 0;
       longFrame; shortFrame; longFrame; shortFrame;
       reviveClick; timeout 0; timeout 0; timeout 0;
       shortFrame; longFrame; kneeShot;
       animationFrame 2 (rayAt part_chest)])%list.

Definition arenaStart : Page :=
  match @Page_startGame sampleMath Enhanced 10 arenaPage with
  | Some p => p
  | None => arenaPage
  end.

Definition bruisedPage : Page :=
  match @run sampleMath sampleBrowser Enhanced 10 roughSession arenaStart with
  | Some p => p
  | None => arenaStart
  end.

Definition fallenPage : Page :=
  match @run sampleMath sampleBrowser Enhanced 10 fatalSession arenaStart with
  | Some p => p
  | None => arenaStart
  end.

(** A frame's worth of traffic: a robot whose death animation is about
    to run out, a robot on its way, and a spawn that is due. *)
Definition busyWorld : World :=
  set_spawnTimer 2 (sampleWorld Enhanced 0 100 [fadingRobot; sampleRobot]).

(** What a player may try while the pause menu is up. *)
Definition pausedEvents : list Event :=
  [animationFrame (1 # 60) (rayAt part_chest); canvasClick (rayAt part_chest);
   keydown "KeyW"; mousemove 3 4].

(** ** What the clamps guarantee *)

Lemma Qle_bool_false (x y : Q) : Qle_bool x y = false <-> (y < x)%Q.
Proof.
  split; intro H.
  - apply Qnot_le_lt. intro L. apply Qle_bool_iff in L. congruence.
  - destruct (Qle_bool x y) eqn:E; [|reflexivity].
    apply Qle_bool_iff in E. lra.
Qed.

Lemma Qlt_bool_iff (x y : Q) : Qlt_bool x y = true <-> (x < y)%Q.
Proof.
  unfold Qlt_bool. rewrite negb_true_iff. apply Qle_bool_false.
Qed.

Lemma Qlt_bool_false (x y : Q) : Qlt_bool x y = false <-> (y <= x)%Q.
Proof.
  unfold Qlt_bool. rewrite negb_false_iff. apply Qle_bool_iff.
Qed.

(** Case analysis on every comparison of rationals in sight. *)
Ltac qcases :=
  repeat match goal with
    | |- context [Qle_bool ?x ?y] =>
        let E := fresh "E" in
        destruct (Qle_bool x y) eqn:E;
        [apply Qle_bool_iff in E | apply Qle_bool_false in E]
    | |- context [Qlt_bool ?x ?y] =>
        let E := fresh "E" in
        destruct (Qlt_bool x y) eqn:E;
        [apply Qlt_bool_iff in E | apply Qlt_bool_false in E]
    end.

Lemma Math_min_cases (x y : Q) :
  ((x <= y)%Q /\ Math_min x y = x) \/ ((y < x)%Q /\ Math_min x y = y).
Proof. unfold Math_min. qcases; auto. Qed.

Lemma Math_max_cases (x y : Q) :
  ((x <= y)%Q /\ Math_max x y = y) \/ ((y < x)%Q /\ Math_max x y = x).
Proof. unfold Math_max. qcases; auto. Qed.

Lemma clamp_bounds (limit x : Q) :
  (0 <= limit -> - limit <= clamp limit x /\ clamp limit x <= limit)%Q.
Proof.
  intro H. unfold clamp.
  destruct (Math_min_cases limit x) as [[? ->]|[? ->]];
    match goal with
    | |- context [Math_max ?a ?b] =>
        destruct (Math_max_cases a b) as [[? ->]|[? ->]]
    end; lra.
Qed.

Lemma keepWithin_within (limit : Q) (p : Vec3) :
  (0 <= limit)%Q -> within limit (keepWithin limit p).
Proof.
  intro H. unfold within, keepWithin. simpl.
  pose proof (clamp_bounds limit (vx p) H).
  pose proof (clamp_bounds limit (vz p) H). tauto.
Qed.

Lemma within_set_y (limit y : Q) (p : Vec3) :
  within limit p -> within limit (Vec3_set_y y p).
Proof. exact (fun H => H). Qed.

Lemma Robot_limit_nonneg : (0 <= Robot_boundaryLimit)%Q.
Proof. unfold Robot_boundaryLimit. lra. Qed.

Lemma player_limit_nonneg : (0 <= player_boundaryLimit)%Q.
Proof. unfold player_boundaryLimit. lra. Qed.

Create HintDb arena.

#[local] Hint Resolve keepWithin_within within_set_y Robot_limit_nonneg
  player_limit_nonneg : arena.

(** Unfolding the options and pairs a hypothesis is built from. *)
Ltac break_hyp :=
  repeat match goal with
    | H : Some _ = Some _ |- _ => inversion H; subst; clear H
    | H : None = Some _ |- _ => discriminate H
    | H : (_, _) = (_, _) |- _ => inversion H; subst; clear H
    | H : context [match ?e with _ => _ end] |- _ => destruct e eqn:?
    end.

(** ** Question generation only writes the question fields *)

Lemma bindZones_shape (result : Generated) (this : Robot) (g : Rng) :
  exists a, fst (bindZones result this g) = set_answers a this.
Proof.
  unfold bindZones. destruct (shuffle_from _ _ _) as [l g']. simpl. eauto.
Qed.

Lemma generateQuestion_shape (b : Build) (fuel : nat) (gs : GameState)
  (this r : Robot) (g g' : Rng) :
  generateQuestion b fuel gs this g = Some (r, g') ->
  exists q c a, r = set_answers a (set_correctAnswer c (set_question q this)).
Proof.
  intro H. destruct b; simpl in H.
  - unfold Robot_generateMathQuestion in H. break_hyp.
    match goal with
    | H : bindZones ?x ?y ?z = _ |- _ =>
        destruct (bindZones_shape x y z) as [a Ha]; rewrite H in Ha
    end.
    simpl in Ha. subst. eauto.
  - unfold Robot_generateQuestion, QuizGenerator_generate,
      EnglishGenerator_generate, pickFromPool, MathGenerator_generate in H.
    destruct (mode gs); break_hyp;
      match goal with
      | H : bindZones ?x ?y ?z = _ |- _ =>
          destruct (bindZones_shape x y z) as [a Ha]; rewrite H in Ha
      end;
      simpl in Ha; subst; eauto.
Qed.

Section ArenaFacts.
Context {M : MathLib}.

Lemma Robot_new_inArena (b : Build) (fuel : nat) (ty : option RobotType)
  (gs : GameState) (cam : Camera) (g g' : Rng) (r : Robot) :
  Robot_new b fuel ty gs cam g = Some (r, g') -> inArena r.
Proof.
  unfold Robot_new. intro H.
  destruct (match ty with Some t => _ | None => _ end) as [t g1].
  destruct (Robot_stats b t) as [[base dmg] sc].
  destruct (spawnPoint b cam g1) as [p g2].
  destruct (Math_random g2) as [x g3].
  apply generateQuestion_shape in H. destruct H as (q & c & a & ->).
  unfold inArena. simpl. auto with arena.
Qed.

Lemma Robot_attackPlayer_inArena (b : Build) (ads : AdSession) (r : Robot)
  (w : World) :
  inArena r -> inArena (fst (fst (Robot_attackPlayer b ads r w))).
Proof.
  intro H. unfold Robot_attackPlayer.
  destruct (match b with Enhanced => _ | Basic => _ end); [exact H|].
  cbv zeta.
  destruct (health _ <=? 0); [destruct (endGame _ _ _); exact H|].
  destruct (aroundPlayer _ _) as [p g]. unfold inArena. simpl.
  auto with arena.
Qed.

(** A robot that is not dying is clamped by [update] wherever it was. *)
Lemma Robot_update_clamps (b : Build) (ads : AdSession) (dt : Q) (r : Robot)
  (w : World) :
  dying r = false -> inArena (fst (fst (Robot_update b ads dt r w))).
Proof.
  intro D. unfold Robot_update. rewrite D. cbv zeta.
  match goal with
  | |- context [if ?c then Robot_attackPlayer _ _ ?x _ else _] =>
      assert (A : inArena x) by (unfold inArena; simpl; auto with arena);
      destruct c; [apply Robot_attackPlayer_inArena; exact A | exact A]
  end.
Qed.

Lemma Robot_update_inArena (b : Build) (ads : AdSession) (dt : Q) (r : Robot)
  (w : World) :
  inArena r -> inArena (fst (fst (Robot_update b ads dt r w))).
Proof.
  intro H. destruct (dying r) eqn:D.
  - unfold Robot_update. rewrite D. cbv zeta.
    destruct (Qlt_bool _ _); exact H.
  - apply Robot_update_clamps, D.
Qed.

Lemma updatePlayerMovement_inArena (dt : Q) (w : World) :
  playerInArena (camera (updatePlayerMovement dt w)).
Proof.
  unfold updatePlayerMovement. cbv zeta.
  destruct (if Qle_bool _ _ then _ else _) as [[pY vY] grounded].
  destruct (if _ && _ then _ else _) as [[bobTime bob] side].
  unfold playerInArena. simpl. auto with arena.
Qed.

End ArenaFacts.

(** ** What each routine leaves alone in the world *)

Lemma world_eta (w : World) :
  set_rng (rng w) (set_gameState (gameState w) w) = w.
Proof. destruct w; reflexivity. Qed.

Section Frames.
Context {M : MathLib}.

(** An attack touches the game state and the random supply, nothing else. *)
Lemma Robot_attackPlayer_world (b : Build) (ads : AdSession) (r : Robot)
  (w : World) :
  exists gs g,
    snd (fst (Robot_attackPlayer b ads r w)) = set_rng g (set_gameState gs w).
Proof.
  unfold Robot_attackPlayer.
  destruct (match b with Enhanced => _ | Basic => _ end).
  - exists (gameState w), (rng w). symmetry. apply world_eta.
  - cbv zeta. destruct (health _ <=? 0).
    + destruct (endGame _ _ _) as [gs c]. exists gs, (rng w).
      destruct w; reflexivity.
    + destruct (aroundPlayer _ _) as [p g]. eexists _, g. reflexivity.
Qed.

Lemma Robot_update_world (b : Build) (ads : AdSession) (dt : Q) (r : Robot)
  (w : World) :
  exists gs g,
    snd (fst (Robot_update b ads dt r w)) = set_rng g (set_gameState gs w).
Proof.
  unfold Robot_update. destruct (dying r).
  - exists (gameState w), (rng w). symmetry. apply world_eta.
  - cbv zeta. destruct (_ && _).
    + apply Robot_attackPlayer_world.
    + exists (gameState w), (rng w). symmetry. apply world_eta.
Qed.

(** The robot loop, one step unfolded: it stops at an update that throws. *)
Lemma updateRobots_cons (b : Build) (ads : AdSession) (dt : Q) (r : Robot)
  (rs : list Robot) (w : World) :
  updateRobots b ads dt (r :: rs) w
  = let u := Robot_update b ads dt r w in
    match snd u with
    | Throws => (fst (fst u) :: rs, snd (fst u), Throws)
    | Returns =>
        let v := updateRobots b ads dt rs (snd (fst u)) in
        (fst (fst u) :: fst (fst v), snd (fst v), snd v)
    end.
Proof.
  simpl. destruct (Robot_update b ads dt r w) as [[r' w1] [|]]; simpl;
    [|reflexivity].
  destruct (updateRobots b ads dt rs w1) as [[rs' w2] c]. reflexivity.
Qed.

(** A property of the world that every single update keeps is kept by
    the loop, however it ends. *)
Lemma updateRobots_keeps (P : World -> Prop) (b : Build) (ads : AdSession)
  (dt : Q) :
  (forall r w, P w -> P (snd (fst (Robot_update b ads dt r w)))) ->
  forall rs w, P w -> P (snd (fst (updateRobots b ads dt rs w))).
Proof.
  intros K rs. induction rs as [|r rs IH]; intros w H; [exact H|].
  rewrite updateRobots_cons. cbv zeta.
  pose proof (K r w H) as H1.
  destruct (snd (Robot_update b ads dt r w)); cbn [fst snd]; [|exact H1].
  apply IH, H1.
Qed.

(** A relation between a robot and its update carries over to the list,
    provided it holds of a robot left alone. *)
Lemma updateRobots_each (R : Robot -> Robot -> Prop) (b : Build)
  (ads : AdSession) (dt : Q) :
  (forall r, R r r) ->
  (forall r w, R r (fst (fst (Robot_update b ads dt r w)))) ->
  forall rs w, Forall2 R rs (fst (fst (updateRobots b ads dt rs w))).
Proof.
  intros Rr K rs. induction rs as [|r rs IH]; intro w; [constructor|].
  rewrite updateRobots_cons. cbv zeta.
  pose proof (K r w) as H1.
  destruct (snd (Robot_update b ads dt r w)); cbn [fst snd].
  - constructor; [exact H1|apply IH].
  - constructor; [exact H1|].
    clear - Rr. induction rs; constructor; auto.
Qed.

Lemma updateRobots_world (b : Build) (ads : AdSession) (dt : Q)
  (rs : list Robot) (w : World) :
  exists gs g,
    snd (fst (updateRobots b ads dt rs w)) = set_rng g (set_gameState gs w).
Proof.
  apply (updateRobots_keeps
           (fun x => exists gs g, x = set_rng g (set_gameState gs w))).
  - intros r x (gs & g & ->).
    destruct (Robot_update_world b ads dt r (set_rng g (set_gameState gs w)))
      as (gs1 & g1 & ->).
    exists gs1, g1. reflexivity.
  - exists (gameState w), (rng w). symmetry. apply world_eta.
Qed.

Lemma updateRobots_inArena (b : Build) (ads : AdSession) (dt : Q)
  (rs : list Robot) (w : World) :
  Forall inArena rs -> Forall inArena (fst (fst (updateRobots b ads dt rs w))).
Proof.
  revert w. induction rs as [|r rs IH]; intros w H; [constructor|].
  rewrite updateRobots_cons. cbv zeta.
  inversion H as [|? ? Hr Hrs]; subst.
  pose proof (Robot_update_inArena b ads dt r w Hr) as H1.
  destruct (snd (Robot_update b ads dt r w)); cbn [fst snd];
    constructor; auto.
Qed.

Lemma collectPickup_world (p : HealthPickup) (w : World) :
  exists gs, snd (collectPickup p w) = set_gameState gs w.
Proof.
  unfold collectPickup. destruct (inReach _ _).
  - eexists. reflexivity.
  - exists (gameState w). destruct w; reflexivity.
Qed.

Lemma updatePickups_world (dt : Q) (ps : list HealthPickup) (w : World) :
  exists gs, snd (updatePickups dt ps w) = set_gameState gs w.
Proof.
  revert w. induction ps as [|p ps IH]; intro w; simpl.
  - exists (gameState w). destruct w; reflexivity.
  - destruct (collectPickup_world (HealthPickup_update dt p) w) as (gs1 & E1).
    destruct (collectPickup _ w) as [p' w1]. simpl in E1. subst w1.
    destruct (IH (set_gameState gs1 w)) as (gs2 & E2).
    destruct (updatePickups dt ps _) as [ps' w2]. simpl in *. subst w2.
    exists gs2. reflexivity.
Qed.

Lemma spawnRobot_world (b : Build) (fuel : nat) (w w' : World) :
  spawnRobot b fuel w = Some w' ->
  exists r g,
    Robot_new b fuel None (gameState w) (camera w) (rng w) = Some (r, g)
    /\ w' = set_rng g (set_robots (robots w ++ [r]) w).
Proof.
  unfold spawnRobot. intro H.
  destruct (Robot_new _ _ _ _ _ _) as [[r g]|]; [|discriminate].
  inversion H. eauto.
Qed.

(** The spawn block adds at most one robot, built by the constructor, and
    leaves game state, camera and the other collections alone. *)
Lemma spawnTick_world (b : Build) (fuel : nat) (dt : Q) (w w' : World) :
  spawnTick b fuel dt w = Some w' ->
  exists t rs g,
    w' = set_rng g (set_robots (robots w ++ rs) (set_spawnTimer t w))
    /\ (rs = [] /\ g = rng w
        \/ exists r, rs = [r]
             /\ Robot_new b fuel None (gameState w) (camera w) (rng w)
                = Some (r, g)).
Proof.
  unfold spawnTick. cbv zeta. intro H.
  destruct (Qle_bool _ _).
  - destruct (spawnRobot _ _ _) as [w1|] eqn:S; [|discriminate].
    apply spawnRobot_world in S. destruct S as (r & g & N & ->).
    inversion H. exists 0%Q, [r], g. split; [reflexivity|]. right. eauto.
  - inversion H. exists (spawnTimer w + dt)%Q, [], (rng w).
    split; [|auto]. rewrite app_nil_r. destruct w; reflexivity.
Qed.

Lemma robotPass_eq (b : Build) (ads : AdSession) (dt : Q) (w : World) :
  robotPass b ads dt w
  = let u := updateRobots b ads dt (robots w) w in
    (set_robots (robotsLeft (snd u) (fst (fst u))) (snd (fst u)), snd u).
Proof.
  unfold robotPass.
  destruct (updateRobots b ads dt (robots w) w) as [[rs w1] [|]]; reflexivity.
Qed.

Lemma robotPass_world (b : Build) (ads : AdSession) (dt : Q) (w : World) :
  exists gs g,
    fst (robotPass b ads dt w)
    = set_rng g (set_gameState gs
        (set_robots
           (robotsLeft (snd (robotPass b ads dt w))
              (fst (fst (updateRobots b ads dt (robots w) w)))) w)).
Proof.
  rewrite robotPass_eq. cbv zeta. cbn [fst snd].
  destruct (updateRobots_world b ads dt (robots w) w) as (gs & g & E).
  rewrite E. exists gs, g. reflexivity.
Qed.

Lemma robotsLeft_incl (c : Completion) (rs : list Robot) :
  incl (robotsLeft c rs) rs.
Proof.
  destruct c; simpl; [|apply incl_refl].
  intros x Hx. apply filter_In in Hx. apply Hx.
Qed.

Lemma pickupPass_world (b : Build) (dt : Q) (w : World) :
  exists gs ps, pickupPass b dt w = set_gameState gs (set_pickups ps w).
Proof.
  unfold pickupPass. destruct b.
  - exists (gameState w), (pickups w). destruct w; reflexivity.
  - destruct (updatePickups_world dt (pickups w) w) as (gs & E).
    destruct (updatePickups dt (pickups w) w) as [ps w1]. simpl in E. subst w1.
    eexists gs, _. reflexivity.
Qed.

Lemma animate_idle (b : Build) (ads : AdSession) (fuel : nat) (dt : Q)
  (w : World) :
  frameRuns b (gameState w) = false ->
  animate b ads fuel dt w = Some (w, Returns).
Proof. unfold animate. intros ->. reflexivity. Qed.

(** A frame that runs: the player moves, the spawn block and the robot
    pass run, and when that one has returned the effects and the pickups
    follow. *)
Lemma animate_runs (b : Build) (ads : AdSession) (fuel : nat) (dt : Q)
  (w w' : World) (c : Completion) :
  frameRuns b (gameState w) = true ->
  animate b ads fuel dt w = Some (w', c) ->
  exists w1,
    spawnTick b fuel dt (updatePlayerMovement dt w) = Some w1
    /\ snd (robotPass b ads dt w1) = c
    /\ w' = match c with
            | Returns =>
                pickupPass b dt (purgeEffects dt (fst (robotPass b ads dt w1)))
            | Throws => fst (robotPass b ads dt w1)
            end.
Proof.
  unfold animate. intros -> H.
  destruct (spawnTick _ _ _ _) as [w1|]; [|discriminate].
  exists w1. split; [reflexivity|].
  destruct (robotPass b ads dt w1) as [w2 [|]]; inversion H; subst;
    split; reflexivity.
Qed.

End Frames.

(** ** Arena bounds *)

Section Arena.
Context {M : MathLib}.

Lemma updatePlayerMovement_world (dt : Q) (w : World) :
  exists ph c, updatePlayerMovement dt w = set_physics ph (set_camera c w).
Proof.
  unfold updatePlayerMovement. cbv zeta.
  destruct (if Qle_bool _ _ then _ else _) as [[pY vY] grounded].
  destruct (if _ && _ then _ else _) as [[bobTime bob] side].
  eexists _, _. reflexivity.
Qed.

Lemma animate_inArena (b : Build) (ads : AdSession) (fuel : nat) (dt : Q)
  (w w' : World) (c : Completion) :
  Forall inArena (robots w) -> playerInArena (camera w) ->
  animate b ads fuel dt w = Some (w', c) ->
  Forall inArena (robots w') /\ playerInArena (camera w').
Proof.
  intros HR HP H.
  destruct (frameRuns b (gameState w)) eqn:F.
  - destruct (animate_runs b ads fuel dt w w' c F H) as (w1 & S & C & ->).
    pose proof (updatePlayerMovement_inArena dt w) as HP1.
    destruct (updatePlayerMovement_world dt w) as (ph & cm & E).
    rewrite E in S, HP1.
    apply spawnTick_world in S. destruct S as (t & rs & g & -> & S).
    destruct (robotPass_world b ads dt
                (set_rng g (set_robots (robots (set_physics ph (set_camera cm w))
                   ++ rs) (set_spawnTimer t (set_physics ph (set_camera cm w))))))
      as (gs2 & g2 & E2).
    rewrite E2, C.
    assert (G : Forall inArena
                  (robotsLeft c
                     (fst (fst (updateRobots b ads dt (robots w ++ rs)
                        (set_rng g (set_robots (robots w ++ rs)
                           (set_spawnTimer t
                              (set_physics ph (set_camera cm w)))))))))).
    { eapply incl_Forall; [apply robotsLeft_incl|].
      apply updateRobots_inArena. apply Forall_app. split; [exact HR|].
      destruct S as [[-> _]|(r & -> & N)]; [constructor|].
      constructor; [|constructor]. eapply Robot_new_inArena, N. }
    destruct c.
    + match goal with
      | |- context [pickupPass b dt ?x] =>
          destruct (pickupPass_world b dt x) as (gs3 & ps & ->)
      end.
      simpl. split; [exact G|exact HP1].
    + simpl. split; [exact G|exact HP1].
  - rewrite (animate_idle b ads fuel dt w F) in H. inversion H. subst. auto.
Qed.

(** C6.  After the constructor, [Robot.update], [Robot.attackPlayer],
    [updatePlayerMovement] and a whole frame, every robot lies within the
    robot clamp bound and the player within the player clamp bound, on both
    ground axes. *)
Theorem C6_positions_stay_in_bounds (b : Build) :
  (forall fuel ty gs cam g r g',
      Robot_new b fuel ty gs cam g = Some (r, g') -> inArena r)
  /\ (forall ads dt r w,
        inArena r -> inArena (fst (fst (Robot_update b ads dt r w))))
  /\ (forall ads r w,
        inArena r -> inArena (fst (fst (Robot_attackPlayer b ads r w))))
  /\ (forall dt w, playerInArena (camera (updatePlayerMovement dt w)))
  /\ (forall ads fuel dt w w' c,
        Forall inArena (robots w) -> playerInArena (camera w) ->
        animate b ads fuel dt w = Some (w', c) ->
        Forall inArena (robots w') /\ playerInArena (camera w')).
Proof.
  split; [|split; [|split; [|split]]].
  - intros. eapply Robot_new_inArena; eassumption.
  - intros. apply Robot_update_inArena; assumption.
  - intros. apply Robot_attackPlayer_inArena; assumption.
  - intros. apply updatePlayerMovement_inArena.
  - intros. eapply animate_inArena; eassumption.
Qed.

(** C5, as the code has it.  The player's clamp bound (35) is the smaller
    one: whatever the player clamp returns lies strictly inside the robot
    clamp interval, which robots do reach, so it is the robots that can get
    closer to the walls. *)
Theorem C5_player_bound_is_the_smaller :
  (player_boundaryLimit < Robot_boundaryLimit)%Q
  /\ (forall x : Q,
        (- Robot_boundaryLimit < clamp player_boundaryLimit x)%Q
        /\ (clamp player_boundaryLimit x < Robot_boundaryLimit)%Q)
  /\ (forall dt w,
        let p := cam_position (camera (updatePlayerMovement dt w)) in
        (- Robot_boundaryLimit < vx p < Robot_boundaryLimit)%Q
        /\ (- Robot_boundaryLimit < vz p < Robot_boundaryLimit)%Q)
  /\ (clamp Robot_boundaryLimit 50 == Robot_boundaryLimit)%Q
  /\ (clamp Robot_boundaryLimit (-50) == - Robot_boundaryLimit)%Q.
Proof.
  assert (L : forall x : Q,
             (- Robot_boundaryLimit < clamp player_boundaryLimit x)%Q
             /\ (clamp player_boundaryLimit x < Robot_boundaryLimit)%Q).
  { intro x.
    pose proof (clamp_bounds player_boundaryLimit x player_limit_nonneg) as B.
    unfold player_boundaryLimit, Robot_boundaryLimit in *. lra. }
  split; [unfold player_boundaryLimit, Robot_boundaryLimit; lra|].
  split; [exact L|]. split; [|split; reflexivity].
  intros dt w p. subst p.
  pose proof (updatePlayerMovement_inArena dt w) as (B1 & B2 & B3 & B4).
  unfold player_boundaryLimit, Robot_boundaryLimit in *. lra.
Qed.

(** C5 as stated fails: the player bound is not the larger one, and the
    player interval does not contain a robot clamped at the robot bound. *)
Lemma C5_counterexample :
  ~ (Robot_boundaryLimit < player_boundaryLimit)%Q
  /\ ~ (- player_boundaryLimit <= clamp Robot_boundaryLimit 50
        <= player_boundaryLimit)%Q.
Proof.
  split.
  - unfold player_boundaryLimit, Robot_boundaryLimit. lra.
  - assert (E : (clamp Robot_boundaryLimit 50 == 45)%Q) by reflexivity.
    unfold player_boundaryLimit. rewrite E. lra.
Qed.

End Arena.

(** ** Shooting: which robot is resolved, and what resolution does *)

#[local] Arguments Z.mul : simpl never.
#[local] Arguments Z.add : simpl never.
#[local] Arguments Z.sub : simpl never.
#[local] Arguments Z.min : simpl never.
#[local] Arguments Z.rem : simpl never.
#[local] Arguments Z.eqb : simpl never.
#[local] Arguments Z.leb : simpl never.
#[local] Arguments Z.ltb : simpl never.

Lemma Robot_checkHit_None (rc : Raycaster) (r : Robot) :
  Robot_checkHit rc r = None <-> rc r = [].
Proof.
  unfold Robot_checkHit. destruct (rc r) as [|i l]; [tauto|].
  destruct (firstTagged (i :: l)) as [[p pt]|]; split; discriminate.
Qed.

(** The loop leaves the list alone when every robot is dying or missed. *)
Lemma shootRobots_miss (b : Build) (rc : Raycaster) (rs : list Robot)
  (w : World) :
  Forall (fun x => dying x = true \/ rc x = []) rs ->
  shootRobots b rc rs w = (rs, w).
Proof.
  induction 1 as [|x l Hx _ IH]; simpl; [reflexivity|].
  destruct (dying x) eqn:D.
  - rewrite IH. reflexivity.
  - destruct Hx as [Hx|Hx]; [discriminate|].
    apply Robot_checkHit_None in Hx. rewrite Hx, IH. reflexivity.
Qed.

(** The loop resolves the first robot that is neither dying nor missed,
    and returns. *)
Lemma shootRobots_target (b : Build) (rc : Raycaster)
  (before after : list Robot) (r : Robot) (h : Hit) (w : World) :
  Forall (fun x => dying x = true \/ rc x = []) before ->
  dying r = false ->
  Robot_checkHit rc r = Some h ->
  shootRobots b rc (before ++ r :: after) w
  = (before ++ fst (resolveHit b r h w) :: after, snd (resolveHit b r h w)).
Proof.
  intros HB D C. induction HB as [|x l Hx _ IH]; simpl.
  - rewrite D, C. destruct (resolveHit b r h w). reflexivity.
  - destruct (dying x) eqn:Dx.
    + rewrite IH. reflexivity.
    + destruct Hx as [Hx|Hx]; [discriminate|].
      apply Robot_checkHit_None in Hx. rewrite Hx, IH. reflexivity.
Qed.

Lemma onShoot_target (b : Build) (rc : Raycaster) (w : World)
  (before after : list Robot) (r : Robot) (h : Hit) :
  canFire b (gameState w) = true ->
  robots w = before ++ r :: after ->
  Forall (fun x => dying x = true \/ rc x = []) before ->
  dying r = false ->
  Robot_checkHit rc r = Some h ->
  onShoot b rc w
  = set_robots (before ++ fst (resolveHit b r h w) :: after)
      (snd (resolveHit b r h w)).
Proof.
  intros F E HB D C. unfold onShoot. rewrite F, E.
  rewrite (shootRobots_target b rc before after r h w HB D C). reflexivity.
Qed.

Lemma onShoot_miss (b : Build) (rc : Raycaster) (w : World) :
  Forall (fun x => dying x = true \/ rc x = []) (robots w) ->
  onShoot b rc w = w.
Proof.
  intro H. unfold onShoot. destruct (canFire b (gameState w)); [|reflexivity].
  rewrite (shootRobots_miss b rc (robots w) w H). destruct w; reflexivity.
Qed.

Lemma onShoot_held (b : Build) (rc : Raycaster) (w : World) :
  canFire b (gameState w) = false -> onShoot b rc w = w.
Proof. unfold onShoot. intros ->. reflexivity. Qed.

Lemma createExplosion_world (b : Build) (p : Vec3) (n : Z) (w : World) :
  exists ps g, createExplosion b p n w = set_rng g (set_particles ps w).
Proof.
  unfold createExplosion. destruct (createParticles _ _ _ _) as [ps g]. eauto.
Qed.

Lemma createExplosion_fields (b : Build) (p : Vec3) (n : Z) (w : World) :
  gameState (createExplosion b p n w) = gameState w
  /\ spawnInterval (createExplosion b p n w) = spawnInterval w
  /\ robots (createExplosion b p n w) = robots w
  /\ pickups (createExplosion b p n w) = pickups w
  /\ camera (createExplosion b p n w) = camera w.
Proof.
  destruct (createExplosion_world b p n w) as (ps & g & ->).
  repeat split; reflexivity.
Qed.

Lemma maybeDrop_world (b : Build) (r : Robot) (w : World) :
  exists ps g, maybeDrop b r w = set_rng g (set_pickups ps w).
Proof.
  destruct b; simpl.
  - exists (pickups w), (rng w). destruct w; reflexivity.
  - unfold dropPickup. destruct (Math_random (rng w)) as [x g].
    destruct (Qlt_bool x (3 # 10)).
    + destruct (HealthPickup_new (position r) g) as [p g']. eauto.
    + exists (pickups w), g. destruct w; reflexivity.
Qed.

Lemma maybeDrop_fields (b : Build) (r : Robot) (w : World) :
  gameState (maybeDrop b r w) = gameState w
  /\ spawnInterval (maybeDrop b r w) = spawnInterval w
  /\ robots (maybeDrop b r w) = robots w
  /\ camera (maybeDrop b r w) = camera w.
Proof.
  destruct (maybeDrop_world b r w) as (ps & g & ->).
  repeat split; reflexivity.
Qed.

(** A wave advance keeps score, combo and kills; it moves the wave, the
    spawn interval and, in the enhanced build, health and the pause flag. *)
Lemma waveAdvance_spec (b : Build) (w : World) :
  let gs := gameState w in
  let gs' := gameState (waveAdvance b w) in
  score gs' = score gs /\ combo gs' = combo gs /\ kills gs' = kills gs
  /\ maxHealth gs' = maxHealth gs /\ isRunning gs' = isRunning gs
  /\ mode gs' = mode gs
  /\ wave gs' = wave gs + 1
  /\ health gs'
     = match b with
       | Enhanced => Z.min (maxHealth gs) (health gs + 20)
       | Basic => health gs
       end
  /\ spawnInterval (waveAdvance b w)
     = Math_max (spawnFloor b) (spawnInterval w - (2 # 10))%Q.
Proof.
  unfold waveAdvance. destruct b; cbv zeta; simpl.
  - repeat split; reflexivity.
  - destruct (shouldShowWaveAd (wave (gameState w) + 1)); simpl;
      repeat split; reflexivity.
Qed.

Lemma waveCheck_tally (b : Build) (w : World) :
  score (gameState (waveCheck b w)) = score (gameState w)
  /\ combo (gameState (waveCheck b w)) = combo (gameState w)
  /\ kills (gameState (waveCheck b w)) = kills (gameState w)
  /\ maxHealth (gameState (waveCheck b w)) = maxHealth (gameState w)
  /\ isRunning (gameState (waveCheck b w)) = isRunning (gameState w)
  /\ mode (gameState (waveCheck b w)) = mode (gameState w).
Proof.
  unfold waveCheck. destruct (Z.rem (kills (gameState w)) 5 =? 0).
  - pose proof (waveAdvance_spec b w) as S. cbv zeta in S. tauto.
  - repeat split; reflexivity.
Qed.

(** What a correct hit and a wrong hit reduce to. *)
Lemma resolveHit_correct_eq (b : Build) (r : Robot) (h : Hit) (w : World) :
  strict_eq (hit_answer h) (correctAnswer r) = true ->
  resolveHit b r h w
  = (set_dying true r,
     waveCheck b
       (maybeDrop b (set_dying true r)
          (createExplosion b (hit_point h) 40
             (set_gameState (tallyKill (gameState w))
                (set_bullets
                   (bullets w ++
                    [BulletTrail_new (cam_position (camera w)) (hit_point h)])
                   w))))).
Proof. intro C. unfold resolveHit. rewrite C. reflexivity. Qed.

Lemma resolveHit_wrong_eq (b : Build) (r : Robot) (h : Hit) (w : World) :
  strict_eq (hit_answer h) (correctAnswer r) = false ->
  resolveHit b r h w
  = (r,
     createExplosion b (hit_point h) 15
       (set_gameState (set_combo 1 (gameState w))
          (set_bullets
             (bullets w ++
              [BulletTrail_new (cam_position (camera w)) (hit_point h)])
             w))).
Proof. intro C. unfold resolveHit. rewrite C. reflexivity. Qed.

(** The game state and spawn interval on entry to the wave check of a
    correct hit. *)
Lemma beforeWaveCheck (b : Build) (r : Robot) (p : Vec3) (bs : list BulletTrail)
  (w : World) :
  let w1 := maybeDrop b r
              (createExplosion b p 40
                 (set_gameState (tallyKill (gameState w)) (set_bullets bs w))) in
  gameState w1 = tallyKill (gameState w)
  /\ spawnInterval w1 = spawnInterval w.
Proof.
  intro w1. subst w1.
  match goal with
  | |- context [maybeDrop b r ?x] =>
      destruct (maybeDrop_fields b r x) as (-> & -> & _)
  end.
  match goal with
  | |- context [createExplosion b p 40 ?x] =>
      destruct (createExplosion_fields b p 40 x) as (-> & -> & _)
  end.
  split; reflexivity.
Qed.

(** The tally after a correct hit. *)
Lemma resolveHit_correct (b : Build) (r : Robot) (h : Hit) (w : World) :
  strict_eq (hit_answer h) (correctAnswer r) = true ->
  let gs := gameState w in
  let gs' := gameState (snd (resolveHit b r h w)) in
  fst (resolveHit b r h w) = set_dying true r
  /\ score gs' = score gs + 100 * combo gs
  /\ kills gs' = kills gs + 1
  /\ combo gs' = Z.min (combo gs + 1) 10
  /\ maxHealth gs' = maxHealth gs
  /\ isRunning gs' = isRunning gs.
Proof.
  intros C gs gs'. subst gs gs'.
  rewrite (resolveHit_correct_eq b r h w C). cbn [fst snd].
  split; [reflexivity|].
  match goal with
  | |- context [waveCheck b ?x] =>
      destruct (waveCheck_tally b x) as (-> & -> & -> & -> & -> & _)
  end.
  destruct (beforeWaveCheck b (set_dying true r) (hit_point h)
              (bullets w ++
               [BulletTrail_new (cam_position (camera w)) (hit_point h)]) w)
    as (-> & _).
  repeat split; reflexivity.
Qed.

(** The wave side of a correct hit: what happens on every fifth kill, and
    that nothing of it happens otherwise. *)
Lemma resolveHit_wave (b : Build) (r : Robot) (h : Hit) (w : World) :
  strict_eq (hit_answer h) (correctAnswer r) = true ->
  let gs := gameState w in
  let w' := snd (resolveHit b r h w) in
  if Z.rem (kills gs + 1) 5 =? 0
  then wave (gameState w') = wave gs + 1
       /\ health (gameState w')
          = match b with
            | Enhanced => Z.min (maxHealth gs) (health gs + 20)
            | Basic => health gs
            end
       /\ spawnInterval w'
          = Math_max (spawnFloor b) (spawnInterval w - (2 # 10))%Q
  else wave (gameState w') = wave gs /\ health (gameState w') = health gs
       /\ spawnInterval w' = spawnInterval w.
Proof.
  intros C gs w'. subst gs w'.
  rewrite (resolveHit_correct_eq b r h w C). cbn [fst snd].
  pose proof (beforeWaveCheck b (set_dying true r) (hit_point h)
                (bullets w ++
                 [BulletTrail_new (cam_position (camera w)) (hit_point h)]) w)
    as B.
  cbv zeta in B. destruct B as (G & S).
  match goal with
  | |- context [waveCheck b ?x] => set (w1 := x) in *
  end.
  unfold waveCheck. rewrite G.
  replace (kills (tallyKill (gameState w))) with (kills (gameState w) + 1)
    by reflexivity.
  destruct (Z.rem (kills (gameState w) + 1) 5 =? 0).
  - pose proof (waveAdvance_spec b w1) as A. cbv zeta in A.
    destruct A as (_ & _ & _ & _ & _ & _ & A1 & A2 & A3).
    rewrite A1, A2, A3, G, S. repeat split; reflexivity.
  - rewrite G, S. repeat split; reflexivity.
Qed.

(** The tally after a wrong hit: only the combo moves. *)
Lemma resolveHit_wrong (b : Build) (r : Robot) (h : Hit) (w : World) :
  strict_eq (hit_answer h) (correctAnswer r) = false ->
  fst (resolveHit b r h w) = r
  /\ gameState (snd (resolveHit b r h w)) = set_combo 1 (gameState w)
  /\ spawnInterval (snd (resolveHit b r h w)) = spawnInterval w.
Proof.
  intro C. rewrite (resolveHit_wrong_eq b r h w C). cbn [fst snd].
  match goal with
  | |- context [createExplosion b ?p ?n ?x] =>
      destruct (createExplosion_fields b p n x) as (-> & -> & _)
  end.
  repeat split; reflexivity.
Qed.

Lemma firstLiveHit_split (rc : Raycaster) (rs : list Robot) (r : Robot)
  (h : Hit) :
  firstLiveHit rc rs = Some (r, h) ->
  exists before after,
    rs = before ++ r :: after
    /\ Forall (fun x => dying x = true \/ rc x = []) before
    /\ dying r = false /\ Robot_checkHit rc r = Some h.
Proof.
  induction rs as [|x l IH]; simpl; [discriminate|].
  destruct (dying x) eqn:D.
  - intro H. destruct (IH H) as (bf & af & -> & F & R).
    exists (x :: bf), af. split; [reflexivity|]. split; [|exact R].
    constructor; auto.
  - destruct (Robot_checkHit rc x) as [h'|] eqn:C.
    + intro H. inversion H. subst. exists [], l. auto.
    + intro H. destruct (IH H) as (bf & af & -> & F & R).
      exists (x :: bf), af. split; [reflexivity|]. split; [|exact R].
      constructor; [|exact F]. right. apply Robot_checkHit_None, C.
Qed.

Lemma firstLiveHit_none (rc : Raycaster) (rs : list Robot) :
  firstLiveHit rc rs = None ->
  Forall (fun x => dying x = true \/ rc x = []) rs.
Proof.
  induction rs as [|x l IH]; simpl; [constructor|].
  destruct (dying x) eqn:D.
  - intro H. constructor; auto.
  - destruct (Robot_checkHit rc x) as [h'|] eqn:C; [discriminate|].
    intro H. constructor; [|auto]. right. apply Robot_checkHit_None, C.
Qed.

(** C4.  A fire event resolves the first robot in list order that is
    neither dying nor missed by the ray, and only that one: the robots
    before and after it stay as they are, whatever the ray passes through
    further down the list.  When every robot the ray strikes is dying
    (removed robots have left the list), the event changes nothing. *)
Theorem C4_one_robot_per_fire_event (b : Build) (rc : Raycaster) (w : World) :
  (forall before r after h,
      canFire b (gameState w) = true ->
      robots w = before ++ r :: after ->
      Forall (fun x => dying x = true \/ rc x = []) before ->
      dying r = false ->
      Robot_checkHit rc r = Some h ->
      onShoot b rc w
      = set_robots (before ++ fst (resolveHit b r h w) :: after)
          (snd (resolveHit b r h w)))
  /\ (Forall (fun x => dying x = true \/ rc x = []) (robots w) ->
      onShoot b rc w = w)
  /\ (onShoot b rc w = w
      \/ exists before r r' after,
           robots w = before ++ r :: after
           /\ robots (onShoot b rc w) = before ++ r' :: after).
Proof.
  split; [intros; apply onShoot_target; assumption|].
  split; [apply onShoot_miss|].
  destruct (canFire b (gameState w)) eqn:F.
  - destruct (firstLiveHit rc (robots w)) as [[r h]|] eqn:L.
    + apply firstLiveHit_split in L.
      destruct L as (bf & af & E & HB & D & C).
      right. exists bf, r, (fst (resolveHit b r h w)), af.
      rewrite (onShoot_target b rc w bf af r h F E HB D C). auto.
    + apply firstLiveHit_none in L. left. apply onShoot_miss, L.
  - left. apply onShoot_held, F.
Qed.

(** C2, as the code has it.  A correct hit that makes [kills] a multiple
    of 5 raises the wave by one and lowers the spawn interval by 0.2,
    stopping at the floor of the build (0.8 basic, 0.6 enhanced).  The
    enhanced build also heals by 20 up to [maxHealth]; the basic build
    leaves health alone. *)
Theorem C2_every_fifth_kill (b : Build) (rc : Raycaster) (w : World)
  (before after : list Robot) (r : Robot) (h : Hit) :
  canFire b (gameState w) = true ->
  robots w = before ++ r :: after ->
  Forall (fun x => dying x = true \/ rc x = []) before ->
  dying r = false ->
  Robot_checkHit rc r = Some h ->
  strict_eq (hit_answer h) (correctAnswer r) = true ->
  Z.rem (kills (gameState w) + 1) 5 = 0 ->
  let gs := gameState w in
  let w' := onShoot b rc w in
  let gs' := gameState w' in
  kills gs' = kills gs + 1
  /\ wave gs' = wave gs + 1
  /\ spawnInterval w'
     = Math_max (spawnFloor b) (spawnInterval w - (2 # 10))%Q
  /\ (spawnFloor b <= spawnInterval w')%Q
  /\ (0 < spawnInterval w')%Q
  /\ (spawnInterval w' == spawnInterval w - (2 # 10)
      \/ spawnInterval w' == spawnFloor b)%Q
  /\ (spawnFloor b == match b with Basic => 8 # 10 | Enhanced => 6 # 10 end)%Q
  /\ health gs'
     = match b with
       | Enhanced => Z.min (maxHealth gs) (health gs + 20)
       | Basic => health gs
       end.
Proof.
  intros F E HB D C A K gs w' gs'. subst gs w' gs'.
  rewrite (onShoot_target b rc w before after r h F E HB D C). simpl.
  destruct (resolveHit_correct b r h w A) as (_ & _ & K1 & _).
  pose proof (resolveHit_wave b r h w A) as W. cbv zeta in W.
  rewrite K in W. simpl in W. destruct W as (W1 & W2 & W3).
  rewrite W3.
  assert (P : (0 < spawnFloor b)%Q) by (destruct b; reflexivity).
  destruct (Math_max_cases (spawnFloor b) (spawnInterval w - (2 # 10))%Q)
    as [[L ->]|[L ->]].
  - assert (Fl : (spawnFloor b
                  == match b with Basic => 8 # 10 | Enhanced => 6 # 10 end)%Q)
      by (destruct b; reflexivity).
    repeat split; try assumption; lra.
  - assert (Fl : (spawnFloor b
                  == match b with Basic => 8 # 10 | Enhanced => 6 # 10 end)%Q)
      by (destruct b; reflexivity).
    repeat split; try assumption; lra.
Qed.

(** C2 as stated fails in the basic build: the fifth kill moves the wave
    and leaves health at 100 of 150. *)
Lemma C2_counterexample :
  let w := sampleWorld Basic 4 100 [sampleRobot] in
  let w' := onShoot Basic (rayAt part_chest) w in
  hitOutcome Basic (rayAt part_chest) w = Some true
  /\ kills (gameState w') = 5
  /\ wave (gameState w') = 2
  /\ health (gameState w') = 100
  /\ health (gameState w')
     <> Z.min (maxHealth (gameState w)) (health (gameState w) + 20).
Proof. vm_compute. repeat split; congruence. Qed.

(** ** The frame loop moves nothing of the game state but health and
    [isRunning] *)

Lemma vitalsOnly_refl (gs : GameState) : vitalsOnly gs gs.
Proof. repeat split; reflexivity. Qed.

Lemma vitalsOnly_trans (a b c : GameState) :
  vitalsOnly a b -> vitalsOnly b c -> vitalsOnly a c.
Proof.
  unfold vitalsOnly. intros (A1 & A2 & A3 & A4 & A5 & A6 & A7)
    (B1 & B2 & B3 & B4 & B5 & B6 & B7).
  repeat split; congruence.
Qed.

Lemma endGame_vitals (b : Build) (ads : AdSession) (gs : GameState) :
  vitalsOnly gs (fst (endGame b ads gs)).
Proof.
  unfold endGame. destruct b; [|destruct (negb (isRunning gs))];
    [| |cbv zeta; destruct (negb (canShowAd _ _))];
    repeat split; reflexivity.
Qed.

Section Vitals.
Context {M : MathLib}.

Lemma Robot_attackPlayer_vitals (b : Build) (ads : AdSession) (r : Robot)
  (w : World) :
  vitalsOnly (gameState w)
    (gameState (snd (fst (Robot_attackPlayer b ads r w)))).
Proof.
  unfold Robot_attackPlayer.
  destruct (match b with Enhanced => _ | Basic => _ end);
    [apply vitalsOnly_refl|].
  cbv zeta.
  match goal with
  | |- context [if ?c then _ else _] => destruct c
  end.
  - match goal with
    | |- context [endGame b ads ?x] =>
        pose proof (endGame_vitals b ads x) as V;
        destruct (endGame b ads x) as [gs c]
    end.
    cbn [fst snd] in *. simpl.
    eapply vitalsOnly_trans; [|exact V].
    repeat split; reflexivity.
  - destruct (aroundPlayer (camera _) (rng _)) as [p g].
    repeat split; reflexivity.
Qed.

Lemma Robot_update_vitals (b : Build) (ads : AdSession) (dt : Q) (r : Robot)
  (w : World) :
  vitalsOnly (gameState w) (gameState (snd (fst (Robot_update b ads dt r w)))).
Proof.
  unfold Robot_update. destruct (dying r); [apply vitalsOnly_refl|].
  cbv zeta. destruct (_ && _).
  - apply Robot_attackPlayer_vitals.
  - apply vitalsOnly_refl.
Qed.

Lemma updateRobots_vitals (b : Build) (ads : AdSession) (dt : Q)
  (rs : list Robot) (w : World) :
  vitalsOnly (gameState w)
    (gameState (snd (fst (updateRobots b ads dt rs w)))).
Proof.
  apply (updateRobots_keeps
           (fun x => vitalsOnly (gameState w) (gameState x)));
    [|apply vitalsOnly_refl].
  intros r x H. eapply vitalsOnly_trans; [exact H|].
  apply Robot_update_vitals.
Qed.

Lemma collectPickup_vitals (p : HealthPickup) (w : World) :
  vitalsOnly (gameState w) (gameState (snd (collectPickup p w))).
Proof.
  unfold collectPickup. destruct (inReach (camera w) p);
    repeat split; reflexivity.
Qed.

Lemma updatePickups_vitals (dt : Q) (ps : list HealthPickup) (w : World) :
  vitalsOnly (gameState w) (gameState (snd (updatePickups dt ps w))).
Proof.
  revert w. induction ps as [|p ps IH]; intro w; simpl.
  - apply vitalsOnly_refl.
  - pose proof (collectPickup_vitals (HealthPickup_update dt p) w) as H1.
    destruct (collectPickup (HealthPickup_update dt p) w) as [p' w1].
    specialize (IH w1).
    destruct (updatePickups dt ps w1) as [ps' w2]. simpl in *.
    eapply vitalsOnly_trans; eassumption.
Qed.

Lemma robotPass_gameState (b : Build) (ads : AdSession) (dt : Q) (w : World) :
  gameState (fst (robotPass b ads dt w))
  = gameState (snd (fst (updateRobots b ads dt (robots w) w))).
Proof. rewrite robotPass_eq. reflexivity. Qed.

Lemma robotPass_vitals (b : Build) (ads : AdSession) (dt : Q) (w : World) :
  vitalsOnly (gameState w) (gameState (fst (robotPass b ads dt w))).
Proof. rewrite robotPass_gameState. apply updateRobots_vitals. Qed.

Lemma pickupPass_vitals (b : Build) (dt : Q) (w : World) :
  vitalsOnly (gameState w) (gameState (pickupPass b dt w)).
Proof.
  unfold pickupPass. destruct b; [apply vitalsOnly_refl|].
  pose proof (updatePickups_vitals dt (pickups w) w) as H.
  destruct (updatePickups dt (pickups w) w) as [ps w1]. exact H.
Qed.

Lemma spawnTick_gameState (b : Build) (fuel : nat) (dt : Q) (w w' : World) :
  spawnTick b fuel dt w = Some w' -> gameState w' = gameState w.
Proof.
  intro H. apply spawnTick_world in H. destruct H as (t & rs & g & -> & _).
  reflexivity.
Qed.

Lemma updatePlayerMovement_gameState (dt : Q) (w : World) :
  gameState (updatePlayerMovement dt w) = gameState w.
Proof.
  destruct (updatePlayerMovement_world dt w) as (ph & c & ->). reflexivity.
Qed.

Lemma animate_vitals (b : Build) (ads : AdSession) (fuel : nat) (dt : Q)
  (w w' : World) (c : Completion) :
  animate b ads fuel dt w = Some (w', c) ->
  vitalsOnly (gameState w) (gameState w').
Proof.
  intro H. destruct (frameRuns b (gameState w)) eqn:F.
  - destruct (animate_runs b ads fuel dt w w' c F H) as (w1 & S & _ & ->).
    apply spawnTick_gameState in S.
    rewrite updatePlayerMovement_gameState in S. rewrite <- S.
    eapply vitalsOnly_trans; [apply (robotPass_vitals b ads dt)|].
    destruct c; [|apply vitalsOnly_refl].
    eapply vitalsOnly_trans; [|apply pickupPass_vitals].
    apply vitalsOnly_refl.
  - rewrite (animate_idle b ads fuel dt w F) in H. inversion H.
    apply vitalsOnly_refl.
Qed.

(** What [startGame] has reset once it returns; the robot list then holds
    the one robot the constructor has just built. *)
Lemma startGame_spec (b : Build) (fuel : nat) (w w' : World) :
  startGame b fuel w = Some w' ->
  gameState w'
  = mkGameState 0 1 (maxHealth (gameState w)) (maxHealth (gameState w)) 1 0
      true (isPaused (gameState w)) (mode (gameState w))
  /\ (exists r g, robots w' = [r] /\
        Robot_new b fuel None (gameState w')
          (mkCamera (mkVec3 0 2 0) (mkVec3 0 0 (-1))) (rng w) = Some (r, g)
        /\ rng w' = g)
  /\ pickups w' = match b with Enhanced => [] | Basic => pickups w end
  /\ particles w' = [] /\ bullets w' = []
  /\ spawnTimer w' = 0%Q /\ spawnInterval w' = 2%Q
  /\ camera w' = mkCamera (mkVec3 0 2 0) (mkVec3 0 0 (-1))
  /\ physics w' = mkPhysics 2 0 true 0 (isMoving (physics w)) 0 0.
Proof.
  unfold startGame. cbv zeta. intro H.
  apply spawnRobot_world in H. destruct H as (r & g & N & ->).
  destruct b; simpl in *; (split; [reflexivity|]);
    (split; [exists r, g; auto|]); repeat split; reflexivity.
Qed.

End Vitals.

(** ** Fire events by outcome *)

Lemma onShoot_correct (b : Build) (rc : Raycaster) (w : World) :
  hitOutcome b rc w = Some true ->
  let gs := gameState w in
  let gs' := gameState (onShoot b rc w) in
  score gs' = score gs + 100 * combo gs
  /\ kills gs' = kills gs + 1
  /\ combo gs' = Z.min (combo gs + 1) 10.
Proof.
  unfold hitOutcome. intro H.
  destruct (canFire b (gameState w)) eqn:F; [|discriminate].
  destruct (firstLiveHit rc (robots w)) as [[r h]|] eqn:L; [|discriminate].
  inversion H as [C].
  apply firstLiveHit_split in L. destruct L as (bf & af & E & HB & D & K).
  cbv zeta. rewrite (onShoot_target b rc w bf af r h F E HB D K). simpl.
  destruct (resolveHit_correct b r h w C) as (_ & S1 & S2 & S3 & _).
  auto.
Qed.

Lemma onShoot_wrong (b : Build) (rc : Raycaster) (w : World) :
  hitOutcome b rc w = Some false ->
  gameState (onShoot b rc w) = set_combo 1 (gameState w).
Proof.
  unfold hitOutcome. intro H.
  destruct (canFire b (gameState w)) eqn:F; [|discriminate].
  destruct (firstLiveHit rc (robots w)) as [[r h]|] eqn:L; [|discriminate].
  inversion H as [C].
  apply firstLiveHit_split in L. destruct L as (bf & af & E & HB & D & K).
  rewrite (onShoot_target b rc w bf af r h F E HB D K). simpl.
  apply (resolveHit_wrong b r h w C).
Qed.

Lemma onShoot_nothing (b : Build) (rc : Raycaster) (w : World) :
  hitOutcome b rc w = None -> onShoot b rc w = w.
Proof.
  unfold hitOutcome. intro H.
  destruct (canFire b (gameState w)) eqn:F; [|apply onShoot_held, F].
  destruct (firstLiveHit rc (robots w)) as [[r h]|] eqn:L; [discriminate|].
  apply onShoot_miss, firstLiveHit_none, L.
Qed.

Section Scoring.
Context {M : MathLib}.

(** C1.  A hit on the zone that holds the robot's correct answer sends the
    robot into the dying state, adds 100 times the combo it found to the
    score, counts a kill and raises the combo by one up to 10; a hit on
    another zone resets the combo to 1 and touches neither score nor
    kills.  Three correct hits then a wrong one, from combo 1, take the
    combo through 2, 3, 4, 1 and earn 100, 200, 300, 0.  No fire event,
    frame or restart takes the combo out of 1..10. *)
Theorem C1_combo_and_score (b : Build) :
  (forall rc w before r after h,
      canFire b (gameState w) = true ->
      robots w = before ++ r :: after ->
      Forall (fun x => dying x = true \/ rc x = []) before ->
      dying r = false ->
      Robot_checkHit rc r = Some h ->
      let gs := gameState w in
      let w' := onShoot b rc w in
      let gs' := gameState w' in
      if strict_eq (hit_answer h) (correctAnswer r)
      then robots w' = before ++ set_dying true r :: after
           /\ score gs' = score gs + 100 * combo gs
           /\ kills gs' = kills gs + 1
           /\ combo gs' = Z.min (combo gs + 1) 10
      else robots w' = robots w
           /\ combo gs' = 1 /\ score gs' = score gs /\ kills gs' = kills gs)
  /\ (forall rc1 rc2 rc3 rc4 w0,
        let w1 := onShoot b rc1 w0 in
        let w2 := onShoot b rc2 w1 in
        let w3 := onShoot b rc3 w2 in
        let w4 := onShoot b rc4 w3 in
        combo (gameState w0) = 1 ->
        hitOutcome b rc1 w0 = Some true ->
        hitOutcome b rc2 w1 = Some true ->
        hitOutcome b rc3 w2 = Some true ->
        hitOutcome b rc4 w3 = Some false ->
        combo (gameState w1) = 2 /\ combo (gameState w2) = 3
        /\ combo (gameState w3) = 4 /\ combo (gameState w4) = 1
        /\ score (gameState w1) = score (gameState w0) + 100 * 1
        /\ score (gameState w2) = score (gameState w1) + 100 * 2
        /\ score (gameState w3) = score (gameState w2) + 100 * 3
        /\ score (gameState w4) = score (gameState w3))
  /\ (forall rc w,
        1 <= combo (gameState w) <= 10 ->
        1 <= combo (gameState (onShoot b rc w)) <= 10)
  /\ (forall ads fuel dt w w' c,
        animate b ads fuel dt w = Some (w', c) ->
        combo (gameState w') = combo (gameState w))
  /\ (forall fuel w w',
        startGame b fuel w = Some w' -> combo (gameState w') = 1).
Proof.
  split; [|split; [|split; [|split]]].
  - intros rc w bf r af h F E HB D K gs w' gs'. subst gs w' gs'.
    rewrite (onShoot_target b rc w bf af r h F E HB D K). simpl.
    destruct (strict_eq (hit_answer h) (correctAnswer r)) eqn:C.
    + destruct (resolveHit_correct b r h w C) as (-> & S1 & S2 & S3 & _).
      auto.
    + destruct (resolveHit_wrong b r h w C) as (-> & -> & _).
      rewrite E. repeat split; reflexivity.
  - intros rc1 rc2 rc3 rc4 w0 w1 w2 w3 w4 C0 H1 H2 H3 H4.
    pose proof (onShoot_correct b rc1 w0 H1) as (A1 & _ & B1).
    pose proof (onShoot_correct b rc2 w1 H2) as (A2 & _ & B2).
    pose proof (onShoot_correct b rc3 w2 H3) as (A3 & _ & B3).
    pose proof (onShoot_wrong b rc4 w3 H4) as A4.
    fold w1 in A1, B1, A2, B2. fold w2 in A2, B2, A3, B3.
    fold w3 in A3, B3, A4. fold w4 in A4.
    rewrite A4. simpl. lia.
  - intros rc w R. destruct (hitOutcome b rc w) as [[|]|] eqn:O.
    + pose proof (onShoot_correct b rc w O) as (_ & _ & C). rewrite C. lia.
    + rewrite (onShoot_wrong b rc w O). simpl. lia.
    + rewrite (onShoot_nothing b rc w O). exact R.
  - intros ads fuel dt w w' c H. apply animate_vitals in H. apply H.
  - intros fuel w w' H. apply startGame_spec in H.
    destruct H as (-> & _). reflexivity.
Qed.

Lemma Robot_new_fresh (b : Build) (fuel : nat) (ty : option RobotType)
  (gs : GameState) (cam : Camera) (g g' : Rng) (r : Robot) :
  Robot_new b fuel ty gs cam g = Some (r, g') ->
  alive r = true /\ dying r = false /\ dyingTimer r = 0%Q
  /\ attackCooldown r = 0%Q.
Proof.
  unfold Robot_new. intro H.
  destruct (match ty with Some t => _ | None => _ end) as [t g1].
  destruct (Robot_stats b t) as [[base dmg] sc].
  destruct (spawnPoint b cam g1) as [p g2].
  destruct (Math_random g2) as [x g3].
  apply generateQuestion_shape in H. destruct H as (q & c & a & ->).
  repeat split; reflexivity.
Qed.

(** C9, as the code has it.  [startGame] sets score 0, wave 1, health to
    [maxHealth], combo 1, kills 0 and [isRunning] true; it does not write
    [isPaused], [mode] or [maxHealth].  Particles and bullets are emptied,
    and so are pickups in the build that has them; the robot list is
    emptied and then receives the first robot of the run, freshly built and
    inside the arena.  The spawn timer is 0 and the spawn interval 2. *)
Theorem C9_startGame_resets (b : Build) (fuel : nat) (w w' : World) :
  startGame b fuel w = Some w' ->
  let gs := gameState w in
  let gs' := gameState w' in
  score gs' = 0 /\ wave gs' = 1 /\ health gs' = maxHealth gs'
  /\ combo gs' = 1 /\ kills gs' = 0 /\ isRunning gs' = true
  /\ maxHealth gs' = maxHealth gs /\ isPaused gs' = isPaused gs
  /\ mode gs' = mode gs
  /\ (exists r, robots w' = [r]
        /\ alive r = true /\ dying r = false /\ attackCooldown r = 0%Q
        /\ inArena r)
  /\ pickups w' = match b with Enhanced => [] | Basic => pickups w end
  /\ particles w' = [] /\ bullets w' = []
  /\ spawnTimer w' = 0%Q /\ spawnInterval w' = 2%Q.
Proof.
  intros H gs gs'. subst gs gs'.
  apply startGame_spec in H.
  destruct H as (G & (r & g & R & N & _) & P & Pa & Bu & T & I & _).
  rewrite G. simpl.
  repeat (split; [reflexivity|]).
  split.
  - exists r. split; [exact R|].
    destruct (Robot_new_fresh _ _ _ _ _ _ _ _ N) as (A1 & A2 & _ & A4).
    repeat (split; [assumption|]). eapply Robot_new_inArena, N.
  - auto.
Qed.

End Scoring.

(** C9 as stated fails: after [startGame] on the freshly loaded page the
    list of robots is not empty, it holds the first robot of the run. *)
Lemma C9_counterexample :
  exists w',
    @startGame sampleMath Enhanced 10 (initialWorld Enhanced sampleDraws)
    = Some w'
    /\ List.length (robots w') = 1%nat
    /\ robots w' <> [].
Proof.
  eexists. split; [vm_compute; reflexivity|].
  split; [reflexivity|discriminate].
Qed.

(** ** How a frame ends *)

Section Endings.
Context {M : MathLib}.

(** Only the enhanced [endGame] throws: on a run that was on, with no
    revive left.  It always leaves the run over. *)
Lemma endGame_ends (b : Build) (ads : AdSession) (gs : GameState) :
  snd (endGame b ads gs)
  = (if match b with
        | Enhanced => isRunning gs && negb (canShowAd "revive" ads)
        | Basic => false
        end
     then Throws else Returns)
  /\ isRunning (fst (endGame b ads gs)) = false
  /\ health (fst (endGame b ads gs)) = health gs.
Proof.
  unfold endGame. destruct b; [auto|].
  destruct (isRunning gs) eqn:R; simpl; [|auto].
  destruct (canShowAd "revive" ads); simpl; auto.
Qed.

(** One attack in the enhanced build: it throws only when it ends a run
    for which no revive is left, and with no revive left an attack that
    returns has not ended the run. *)
Lemma Robot_attackPlayer_ends (ads : AdSession) (r : Robot) (w : World) :
  let u := Robot_attackPlayer Enhanced ads r w in
  match snd u with
  | Throws =>
      canShowAd "revive" ads = false
      /\ isRunning (gameState w) = true
      /\ isRunning (gameState (snd (fst u))) = false
  | Returns =>
      canShowAd "revive" ads = false ->
      isRunning (gameState (snd (fst u))) = isRunning (gameState w)
  end.
Proof.
  cbv zeta. unfold Robot_attackPlayer.
  destruct (isRunning (gameState w)) eqn:R; [|simpl; auto].
  cbn [negb]. cbv zeta.
  destruct (_ <=? 0).
  - match goal with
    | |- context [endGame Enhanced ads ?x] =>
        destruct (endGame_ends Enhanced ads x) as (E1 & E2 & _);
        destruct (endGame Enhanced ads x) as [gs c]
    end.
    cbn [fst snd] in *. cbn [isRunning set_health] in E1. rewrite R in E1.
    subst c. destruct (canShowAd "revive" ads); simpl.
    + intro. discriminate.
    + auto.
  - destruct (aroundPlayer (camera _) (rng _)) as [p g]. simpl. auto.
Qed.

Lemma Robot_update_ends (ads : AdSession) (dt : Q) (r : Robot) (w : World) :
  let u := Robot_update Enhanced ads dt r w in
  match snd u with
  | Throws =>
      canShowAd "revive" ads = false
      /\ isRunning (gameState w) = true
      /\ isRunning (gameState (snd (fst u))) = false
  | Returns =>
      canShowAd "revive" ads = false ->
      isRunning (gameState (snd (fst u))) = isRunning (gameState w)
  end.
Proof.
  cbv zeta. unfold Robot_update. destruct (dying r); [simpl; auto|].
  cbv zeta. destruct (_ && _); [|simpl; auto].
  apply Robot_attackPlayer_ends.
Qed.

Lemma updateRobots_ends (ads : AdSession) (dt : Q) (rs : list Robot)
  (w : World) :
  let u := updateRobots Enhanced ads dt rs w in
  match snd u with
  | Throws =>
      canShowAd "revive" ads = false
      /\ isRunning (gameState w) = true
      /\ isRunning (gameState (snd (fst u))) = false
  | Returns =>
      canShowAd "revive" ads = false ->
      isRunning (gameState (snd (fst u))) = isRunning (gameState w)
  end.
Proof.
  cbv zeta. revert w. induction rs as [|r rs IH]; intro w; [simpl; auto|].
  rewrite updateRobots_cons. cbv zeta.
  pose proof (Robot_update_ends ads dt r w) as H1. cbv zeta in H1.
  destruct (snd (Robot_update Enhanced ads dt r w)); cbn [fst snd];
    [|exact H1].
  specialize (IH (snd (fst (Robot_update Enhanced ads dt r w)))).
  destruct (snd (updateRobots Enhanced ads dt rs _)).
  - intro C. rewrite (IH C). exact (H1 C).
  - destruct IH as (C & R1 & R2). rewrite (H1 C) in R1. auto.
Qed.

(** The basic build has nothing that throws. *)
Lemma Robot_update_basic (ads : AdSession) (dt : Q) (r : Robot) (w : World) :
  snd (Robot_update Basic ads dt r w) = Returns.
Proof.
  unfold Robot_update. destruct (dying r); [reflexivity|].
  cbv zeta. destruct (_ && _); [|reflexivity].
  unfold Robot_attackPlayer. cbv zeta.
  destruct (_ <=? 0); [reflexivity|].
  destruct (aroundPlayer (camera _) (rng _)) as [p g]. reflexivity.
Qed.

Lemma updateRobots_basic (ads : AdSession) (dt : Q) (rs : list Robot)
  (w : World) :
  snd (updateRobots Basic ads dt rs w) = Returns.
Proof.
  revert w. induction rs as [|r rs IH]; intro w; [reflexivity|].
  rewrite updateRobots_cons. cbv zeta.
  rewrite Robot_update_basic. cbn [fst snd]. apply IH.
Qed.

End Endings.

(** ** Health: heals, damage and the death flow *)

Section Health.
Context {M : MathLib}.

Lemma collectPickup_spec (p : HealthPickup) (w : World) :
  if inReach (camera w) p
  then collectPickup p w
       = (set_collected true p,
          set_gameState
            (set_health
               (healStep (maxHealth (gameState w)) (health (gameState w)))
               (gameState w)) w)
  else collectPickup p w = (p, w).
Proof. unfold collectPickup. destruct (inReach (camera w) p); reflexivity. Qed.



Lemma updatePickups_health (dt : Q) (ps : list HealthPickup) (w : World) :
  health (gameState (snd (updatePickups dt ps w)))
  = Nat.iter
      (List.length
         (filter (inReach (camera w)) (map (HealthPickup_update dt) ps)))
      (healStep (maxHealth (gameState w))) (health (gameState w))
  /\ maxHealth (gameState (snd (updatePickups dt ps w)))
     = maxHealth (gameState w)
  /\ isRunning (gameState (snd (updatePickups dt ps w)))
     = isRunning (gameState w).
Proof.
  revert w. induction ps as [|p ps IH]; intro w; simpl; [auto|].
  pose proof (collectPickup_spec (HealthPickup_update dt p) w) as S.
  destruct (inReach (camera w) (HealthPickup_update dt p)); rewrite S.
  - match goal with
    | |- context [updatePickups dt ps ?x] =>
        specialize (IH x); destruct (updatePickups dt ps x) as [ps' w2]
    end.
    simpl in *. destruct IH as (I1 & I2 & I3). rewrite I1, I2, I3.
    split; [|auto]. rewrite <- Nat.iter_succ_r. reflexivity.
  - specialize (IH w). destruct (updatePickups dt ps w) as [ps' w2].
    exact IH.
Qed.


(** A running frame of the enhanced build is cut short exactly when it
    ends the run with no revive left. *)
Lemma animate_cut (ads : AdSession) (fuel : nat) (dt : Q) (w w' : World)
  (c : Completion) :
  frameRuns Enhanced (gameState w) = true ->
  animate Enhanced ads fuel dt w = Some (w', c) ->
  (c = Throws
   <-> canShowAd "revive" ads = false /\ isRunning (gameState w') = false).
Proof.
  intros F H.
  destruct (animate_runs Enhanced ads fuel dt w w' c F H) as (w1 & S & C & E).
  apply spawnTick_gameState in S.
  rewrite updatePlayerMovement_gameState in S.
  assert (R : isRunning (gameState w1) = true).
  { rewrite S. unfold frameRuns in F. apply andb_true_iff in F. apply F. }
  pose proof (updateRobots_ends ads dt (robots w1) w1) as U. cbv zeta in U.
  rewrite robotPass_eq in C, E. cbv zeta in C, E. cbn [fst snd] in C, E.
  rewrite C in U, E. destruct c.
  - split; [discriminate|]. intros (N & O). exfalso.
    specialize (U N). rewrite R in U. subst w'.
    unfold pickupPass in O.
    match type of O with
    | context [updatePickups dt ?ps ?x] =>
        pose proof (updatePickups_health dt ps x) as (_ & _ & P3);
        destruct (updatePickups dt ps x) as [ps' w3]
    end.
    cbn [snd] in P3. cbn in O, P3. congruence.
  - split; [|reflexivity]. intros _. destruct U as (N & _ & O).
    subst w'. split; [exact N|exact O].
Qed.


End Health.

Section Damage.
Context {M : MathLib}.

(** An attack that goes through: the damage is subtracted as it is, and
    the run ends at once when nothing is left. *)
Lemma Robot_attackPlayer_lands (b : Build) (ads : AdSession) (r : Robot)
  (w : World) :
  attackLands b (gameState w) = true ->
  let gs := gameState w in
  let gs' := gameState (snd (fst (Robot_attackPlayer b ads r w))) in
  health gs' = health gs - damage r
  /\ (if health gs' <=? 0 then isRunning gs' = false
      else isRunning gs' = isRunning gs).
Proof.
  intros R gs gs'. subst gs gs'. unfold Robot_attackPlayer.
  replace (match b with
           | Basic => false
           | Enhanced => negb (isRunning (gameState w))
           end)
    with false by (destruct b; simpl in R; [|rewrite R]; reflexivity).
  cbv zeta.
  match goal with
  | |- context [if ?c then _ else _] =>
      change c with (health (gameState w) - damage r <=? 0)
  end.
  destruct (health (gameState w) - damage r <=? 0) eqn:H.
  - match goal with
    | |- context [endGame b ads ?x] =>
        destruct (endGame_ends b ads x) as (_ & E1 & E2);
        destruct (endGame b ads x) as [gs c]
    end.
    cbn [fst snd] in *. simpl. rewrite E2. simpl. rewrite H. auto.
  - destruct (aroundPlayer (camera _) (rng _)) as [p g]. simpl.
    rewrite H. auto.
Qed.

(** In the enhanced build an attack on a run that is over does nothing. *)
Lemma Robot_attackPlayer_held (ads : AdSession) (r : Robot) (w : World) :
  isRunning (gameState w) = false ->
  Robot_attackPlayer Enhanced ads r w = (r, w, Returns).
Proof. intro R. unfold Robot_attackPlayer. rewrite R. reflexivity. Qed.

Lemma Robot_attackPlayer_health (b : Build) (ads : AdSession) (r : Robot)
  (w : World) :
  isRunning (gameState w) = true ->
  let gs := gameState w in
  let gs' := gameState (snd (fst (Robot_attackPlayer b ads r w))) in
  health gs' = health gs - damage r
  /\ (if health gs' <=? 0 then isRunning gs' = false
      else isRunning gs' = true).
Proof.
  intros R.
  assert (L : attackLands b (gameState w) = true)
    by (destruct b; [reflexivity|exact R]).
  pose proof (Robot_attackPlayer_lands b ads r w L) as (H1 & H2).
  cbv zeta in *. split; [exact H1|].
  destruct (_ <=? 0); [exact H2|]. rewrite H2. exact R.
Qed.

Lemma Robot_attackPlayer_over (b : Build) (ads : AdSession) (r : Robot)
  (w : World) :
  deadMeansOver (gameState w) ->
  deadMeansOver (gameState (snd (fst (Robot_attackPlayer b ads r w)))).
Proof.
  intro D. destruct (attackLands b (gameState w)) eqn:L.
  - pose proof (Robot_attackPlayer_lands b ads r w L) as (_ & H).
    cbv zeta in H. unfold deadMeansOver.
    destruct (health (gameState (snd (fst (Robot_attackPlayer b ads r w))))
              <=? 0) eqn:E; [auto|].
    apply Z.leb_gt in E. lia.
  - destruct b; [discriminate|]. simpl in L.
    rewrite (Robot_attackPlayer_held ads r w L). exact D.
Qed.

Lemma Robot_update_over (b : Build) (ads : AdSession) (dt : Q) (r : Robot)
  (w : World) :
  deadMeansOver (gameState w) ->
  deadMeansOver (gameState (snd (fst (Robot_update b ads dt r w)))).
Proof.
  intro D. unfold Robot_update. destruct (dying r); [exact D|].
  cbv zeta. destruct (_ && _); [|exact D].
  apply Robot_attackPlayer_over, D.
Qed.

Lemma updateRobots_over (b : Build) (ads : AdSession) (dt : Q)
  (rs : list Robot) (w : World) :
  deadMeansOver (gameState w) ->
  deadMeansOver (gameState (snd (fst (updateRobots b ads dt rs w)))).
Proof.
  apply (updateRobots_keeps (fun x => deadMeansOver (gameState x))).
  intros r x. apply Robot_update_over.
Qed.

(** In the enhanced build attacks land on a run that is on, so on health
    above 0: the robots of one frame leave health above minus the largest
    damage among them. *)
Lemma Robot_update_floor (ads : AdSession) (dt : Q) (d : Z) (r : Robot)
  (w : World) :
  damage r <= d ->
  deadMeansOver (gameState w) /\ - d < health (gameState w) ->
  deadMeansOver (gameState (snd (fst (Robot_update Enhanced ads dt r w))))
  /\ - d < health (gameState (snd (fst (Robot_update Enhanced ads dt r w)))).
Proof.
  intros Dm (D & H). split; [apply Robot_update_over, D|].
  unfold Robot_update. destruct (dying r); [exact H|].
  cbv zeta. destruct (_ && _); [|exact H].
  match goal with
  | |- context [Robot_attackPlayer Enhanced ads ?x w] => set (r1 := x)
  end.
  assert (D1 : damage r1 = damage r)
    by (subst r1; destruct (Qlt_bool 0 (attackCooldown r)); reflexivity).
  destruct (isRunning (gameState w)) eqn:R.
  - pose proof (Robot_attackPlayer_health Enhanced ads r1 w R) as (E & _).
    cbv zeta in E. rewrite E, D1.
    unfold deadMeansOver in D.
    destruct (Z_le_gt_dec (health (gameState w)) 0) as [N|N];
      [rewrite (D N) in R; discriminate|lia].
  - rewrite (Robot_attackPlayer_held ads r1 w R). exact H.
Qed.

Lemma updateRobots_floor (ads : AdSession) (dt : Q) (d : Z) (rs : list Robot)
  (w : World) :
  Forall (fun r => damage r <= d) rs ->
  deadMeansOver (gameState w) -> - d < health (gameState w) ->
  - d < health (gameState (snd (fst (updateRobots Enhanced ads dt rs w)))).
Proof.
  intros F D H.
  assert (G : deadMeansOver
                (gameState (snd (fst (updateRobots Enhanced ads dt rs w))))
              /\ - d < health
                         (gameState
                            (snd (fst (updateRobots Enhanced ads dt rs w)))));
    [|apply G].
  revert w D H. induction F as [|r rs Fr _ IH]; intros w D H; [auto|].
  rewrite updateRobots_cons. cbv zeta.
  destruct (Robot_update_floor ads dt d r w Fr (conj D H)) as (D1 & H1).
  destruct (snd (Robot_update Enhanced ads dt r w)); cbn [fst snd]; auto.
Qed.

Lemma healStep_bound (cap hp : Z) : healStep cap hp <= cap.
Proof. unfold healStep. lia. Qed.

Lemma iter_healStep_positive (n : nat) (cap hp : Z) :
  0 < cap -> 0 < hp -> 0 < Nat.iter n (healStep cap) hp.
Proof.
  intros C H. induction n as [|n IH]; simpl; [exact H|].
  unfold healStep at 1. lia.
Qed.

Lemma animate_over (b : Build) (ads : AdSession) (fuel : nat) (dt : Q)
  (w w' : World) (c : Completion) :
  0 < maxHealth (gameState w) ->
  deadMeansOver (gameState w) ->
  animate b ads fuel dt w = Some (w', c) ->
  deadMeansOver (gameState w').
Proof.
  intros C D H. destruct (frameRuns b (gameState w)) eqn:F.
  - destruct (animate_runs b ads fuel dt w w' c F H) as (w1 & S & _ & ->).
    apply spawnTick_gameState in S.
    rewrite updatePlayerMovement_gameState in S.
    assert (D1 : deadMeansOver (gameState (fst (robotPass b ads dt w1)))).
    { rewrite robotPass_gameState. apply updateRobots_over.
      rewrite S. exact D. }
    destruct c; [|exact D1].
    assert (C1 : maxHealth (gameState (fst (robotPass b ads dt w1)))
                 = maxHealth (gameState w)).
    { rewrite <- S. apply (robotPass_vitals b ads dt w1). }
    set (w2 := purgeEffects dt (fst (robotPass b ads dt w1))).
    assert (G2 : gameState w2 = gameState (fst (robotPass b ads dt w1)))
      by reflexivity.
    rewrite <- G2 in D1, C1. clearbody w2.
    unfold pickupPass. destruct b; [exact D1|].
    pose proof (updatePickups_health dt (pickups w2) w2) as (P1 & P2 & P3).
    destruct (updatePickups dt (pickups w2) w2) as [ps w3]. simpl in *.
    unfold deadMeansOver in *. rewrite P1, P3. intro L.
    destruct (Z_le_gt_dec (health (gameState w2)) 0) as [N|N]; [auto|].
    pose proof (iter_healStep_positive
                  (List.length (filter (inReach (camera w2))
                     (map (HealthPickup_update dt) (pickups w2))))
                  (maxHealth (gameState w2)) (health (gameState w2))) as Q.
    lia.
  - rewrite (animate_idle b ads fuel dt w F) in H. inversion H. subst.
    exact D.
Qed.

Lemma onShoot_health (b : Build) (rc : Raycaster) (w : World) :
  let gs := gameState w in
  let gs' := gameState (onShoot b rc w) in
  maxHealth gs' = maxHealth gs
  /\ (health gs' = health gs
      \/ health gs' = Z.min (maxHealth gs) (health gs + 20)).
Proof.
  cbv zeta. destruct (hitOutcome b rc w) as [[|]|] eqn:O.
  - unfold hitOutcome in O.
    destruct (canFire b (gameState w)) eqn:F; [|discriminate].
    destruct (firstLiveHit rc (robots w)) as [[r h]|] eqn:L; [|discriminate].
    inversion O as [C].
    apply firstLiveHit_split in L. destruct L as (bf & af & E & HB & D & K).
    rewrite (onShoot_target b rc w bf af r h F E HB D K). simpl.
    destruct (resolveHit_correct b r h w C) as (_ & _ & _ & _ & Mx & _).
    split; [exact Mx|].
    pose proof (resolveHit_wave b r h w C) as W. cbv zeta in W.
    destruct (Z.rem (kills (gameState w) + 1) 5 =? 0).
    + destruct W as (_ & W & _). destruct b; auto.
    + destruct W as (_ & W & _). auto.
  - rewrite (onShoot_wrong b rc w O). auto.
  - rewrite (onShoot_nothing b rc w O). auto.
Qed.

(** C8, as the code has it.  A heal (pickup, wave bonus) never takes
    health above [maxHealth].  An attack that lands subtracts the robot's
    damage without clamping, so health may end below 0: by less than that
    damage when the attack found health above 0.  In the enhanced build
    an attack lands only while the run is on: when no run is going on
    with no health left, the robots of one frame leave health above minus
    the largest damage among them if they found it there.  In the basic
    build every attack lands, whatever health is left.  When an attack
    leaves health at 0 or below, the same call ends the run ([isRunning]
    false), and no frame leaves a run going with no health left. *)
Theorem C8_health_bounds (b : Build) :
  (forall p w,
      health (gameState w) <= maxHealth (gameState w) ->
      health (gameState (snd (collectPickup p w)))
      <= maxHealth (gameState (snd (collectPickup p w))))
  /\ (forall rc w,
        health (gameState w) <= maxHealth (gameState w) ->
        health (gameState (onShoot b rc w))
        <= maxHealth (gameState (onShoot b rc w)))
  /\ (forall ads r w,
        isRunning (gameState w) = true ->
        let gs := gameState w in
        let gs' := gameState (snd (fst (Robot_attackPlayer b ads r w))) in
        health gs' = health gs - damage r
        /\ (if health gs' <=? 0 then isRunning gs' = false
            else isRunning gs' = true))
  /\ (forall ads fuel dt w w' c,
        0 < maxHealth (gameState w) ->
        deadMeansOver (gameState w) ->
        animate b ads fuel dt w = Some (w', c) ->
        deadMeansOver (gameState w'))
  /\ (forall ads r w,
        let gs := gameState w in
        let gs' := gameState (snd (fst (Robot_attackPlayer b ads r w))) in
        if attackLands b gs
        then health gs' = health gs - damage r
             /\ (0 < health gs -> - damage r < health gs')
             /\ (health gs' <= 0 -> isRunning gs' = false)
        else Robot_attackPlayer b ads r w = (r, w, Returns))
  /\ (forall ads dt d rs w,
        Forall (fun r => damage r <= d) rs ->
        deadMeansOver (gameState w) ->
        - d < health (gameState w) ->
        - d < health
                (gameState (snd (fst (updateRobots Enhanced ads dt rs w))))).
Proof.
  split; [|split; [|split; [|split; [|split]]]].
  - intros p w H. pose proof (collectPickup_spec p w) as S.
    destruct (inReach (camera w) p); rewrite S; simpl; [|exact H].
    apply healStep_bound.
  - intros rc w H. pose proof (onShoot_health b rc w) as (E & D).
    cbv zeta in E, D. rewrite E. destruct D as [-> | ->]; lia.
  - intros ads r w R. apply Robot_attackPlayer_health, R.
  - intros. eapply animate_over; eassumption.
  - intros ads r w gs gs'. subst gs gs'.
    destruct (attackLands b (gameState w)) eqn:L.
    + pose proof (Robot_attackPlayer_lands b ads r w L) as (E & R).
      cbv zeta in E, R. split; [exact E|]. split; [lia|].
      intro N. apply Z.leb_le in N. rewrite N in R. exact R.
    + destruct b; [discriminate|]. apply Robot_attackPlayer_held, L.
  - intros. apply updateRobots_floor; assumption.
Qed.

End Damage.

(** C8 as stated fails: with 10 health left, a robot of damage 12 standing
    on the player takes health to -2 in its [update].  In the basic build
    a second such robot, updated in the same frame, takes it on to -14. *)
Lemma C8_counterexample :
  let w := sampleWorld Enhanced 0 10 [closeRobot] in
  let w' :=
    snd (fst (@Robot_update sampleMath Enhanced resetSessionLimits (1 # 60)
                closeRobot w)) in
  let wb := sampleWorld Basic 0 10 [closeRobot; closeRobot] in
  let wb' :=
    snd (fst (@updateRobots sampleMath Basic resetSessionLimits (1 # 60)
                (robots wb) wb)) in
  health (gameState w') = -2
  /\ health (gameState w') < 0
  /\ isRunning (gameState w') = false
  /\ health (gameState wb') = -14
  /\ isRunning (gameState wb') = false.
Proof. vm_compute. repeat split; reflexivity. Qed.

(** ** The attack cooldown *)

Section Cooldown.
Context {M : MathLib}.

Lemma Robot_attackPlayer_cooldown (b : Build) (ads : AdSession) (r : Robot)
  (w : World) :
  let r' := fst (fst (Robot_attackPlayer b ads r w)) in
  let w' := snd (fst (Robot_attackPlayer b ads r w)) in
  (attackCooldown r' = (15 # 10)%Q \/ attackCooldown r' = attackCooldown r)
  /\ (damageApplied w w' = true -> attackCooldown r' = (15 # 10)%Q).
Proof.
  cbv zeta. unfold Robot_attackPlayer.
  destruct (match b with Enhanced => _ | Basic => _ end).
  - simpl. split; [auto|]. unfold damageApplied.
    rewrite Z.eqb_refl. discriminate.
  - cbv zeta.
    destruct (_ <=? 0).
    + destruct (endGame _ _ _) as [gs c]. simpl. auto.
    + destruct (aroundPlayer (camera _) (rng _)) as [p g]. simpl. auto.
Qed.

(** What one [update] does to the cooldown. *)
Lemma Robot_update_cooldown (b : Build) (ads : AdSession) (dt : Q)
  (r : Robot) (w : World) :
  let r' := fst (fst (Robot_update b ads dt r w)) in
  let w' := snd (fst (Robot_update b ads dt r w)) in
  let ticked :=
    if Qlt_bool 0 (attackCooldown r) then (attackCooldown r - dt)%Q
    else attackCooldown r in
  (if dying r then attackCooldown r' = attackCooldown r /\ w' = w
   else attackCooldown r' = (15 # 10)%Q /\ (ticked <= 0)%Q
        \/ attackCooldown r' = ticked /\ damageApplied w w' = false)
  /\ (damageApplied w w' = true ->
      dying r = false /\ (ticked <= 0)%Q
      /\ attackCooldown r' = (15 # 10)%Q).
Proof.
  cbv zeta. unfold Robot_update. destruct (dying r) eqn:D.
  - cbv zeta. simpl.
    assert (N : damageApplied w w = false)
      by (unfold damageApplied; rewrite Z.eqb_refl; reflexivity).
    rewrite N. split; [|discriminate].
    destruct (Qlt_bool 1 (dyingTimer r + dt)); auto.
  - cbv zeta.
    match goal with
    | |- context [Robot_attackPlayer b ads ?x w] => set (r1 := x)
    end.
    assert (C1 : attackCooldown r1
                 = if Qlt_bool 0 (attackCooldown r)
                   then (attackCooldown r - dt)%Q else attackCooldown r).
    { subst r1. simpl. destruct (Qlt_bool 0 (attackCooldown r)); reflexivity. }
    match goal with
    | |- context [if ?c then Robot_attackPlayer b ads r1 w else _] =>
        destruct c eqn:G
    end.
    + apply andb_true_iff in G. destruct G as (_ & G).
      apply Qle_bool_iff in G. rewrite C1 in G.
      pose proof (Robot_attackPlayer_cooldown b ads r1 w) as (A1 & A2).
      cbv zeta in A1, A2. rewrite C1 in A1. split.
      * destruct A1 as [A1|A1]; [left; auto|].
        destruct (damageApplied w
                    (snd (fst (Robot_attackPlayer b ads r1 w)))) eqn:DA.
        -- left. auto.
        -- right. auto.
      * intro DA. auto.
    + simpl.
      assert (N : damageApplied w w = false)
        by (unfold damageApplied; rewrite Z.eqb_refl; reflexivity).
      rewrite N. split; [|discriminate]. right. auto.
Qed.

Lemma robotLife_dts (b : Build) (fs : list Frame) (r : Robot) :
  map fst (fst (robotLife b fs r)) = map f_dt fs.
Proof.
  revert r. induction fs as [|f fs IH]; intro r; simpl; [reflexivity|].
  destruct (Robot_update b (f_ads f) (f_dt f) _ (f_world f)) as [[r' w'] c].
  specialize (IH r'). destruct (robotLife b fs r') as [log r''].
  simpl in *. rewrite IH. reflexivity.
Qed.

(** Along a run of frames with non-negative steps, a robot whose cooldown
    accounts for the time since its last attack spaces its attacks. *)
Lemma robotLife_spaced (b : Build) (fs : list Frame) (r : Robot) (since : Q) :
  Forall (fun f => (0 <= f_dt f)%Q) fs ->
  ((15 # 10) - since <= attackCooldown r)%Q ->
  spaced since (fst (robotLife b fs r)).
Proof.
  intro HF. revert r since.
  induction HF as [|f fs Hf _ IH]; intros r since HC; simpl; [exact I|].
  set (r0 := if f_shot f then set_dying true r else r).
  assert (C0 : attackCooldown r0 = attackCooldown r)
    by (subst r0; destruct (f_shot f); reflexivity).
  pose proof (Robot_update_cooldown b (f_ads f) (f_dt f) r0 (f_world f))
    as (U1 & U2).
  cbv zeta in U1, U2. rewrite C0 in U1, U2.
  destruct (Robot_update b (f_ads f) (f_dt f) r0 (f_world f)) as [[r' w'] c].
  simpl in U1, U2.
  assert (T : (attackCooldown r - f_dt f
               <= (if Qlt_bool 0 (attackCooldown r)
                   then attackCooldown r - f_dt f else attackCooldown r))%Q)
    by (destruct (Qlt_bool 0 (attackCooldown r)); lra).
  destruct (damageApplied (f_world f) w') eqn:DA.
  - destruct (U2 eq_refl) as (_ & L & E).
    assert (S : spaced 0 (fst (robotLife b fs r')))
      by (apply IH; rewrite E; lra).
    destruct (robotLife b fs r') as [log r'']. simpl in *.
    split; [intros _; lra|exact S].
  - assert (S : spaced (since + f_dt f) (fst (robotLife b fs r'))).
    { apply IH. destruct (dying r0).
      - destruct U1 as (E & _). rewrite E. lra.
      - destruct U1 as [(E & L)|(E & _)]; rewrite E; lra. }
    destruct (robotLife b fs r') as [log r'']. simpl in *.
    split; [discriminate|exact S].
Qed.

Lemma spaced_after_attack (since d : Q) (before rest : list (Q * bool)) :
  spaced since (before ++ (d, true) :: rest) -> spaced 0 rest.
Proof.
  revert since. induction before as [|[dt a] l IH]; intros since H; simpl in H.
  - apply H.
  - destruct H as (_ & H). eapply IH, H.
Qed.

Lemma spaced_gap (since d : Q) (mid rest : list (Q * bool)) :
  (0 <= since)%Q ->
  Forall (fun x => (0 <= fst x)%Q) mid ->
  spaced since (mid ++ (d, true) :: rest) ->
  (15 # 10 <= since + sumQ (map fst mid) + d)%Q.
Proof.
  intros HS HM. revert since HS.
  induction HM as [|[dt a] l Hx _ IH]; intros since HS H; simpl in *.
  - destruct H as (H & _). specialize (H eq_refl). lra.
  - destruct H as (_ & H). destruct a.
    + specialize (IH 0%Q (Qle_refl 0) H). lra.
    + assert (P : (0 <= since + dt)%Q) by lra.
      specialize (IH (since + dt)%Q P H). lra.
Qed.

(** C7, as the code has it.  [update] leaves the cooldown of a dying
    robot alone and takes [dt] off a positive cooldown of any other, so the
    cooldown can end a frame below zero; it stays above [-dt] when it was
    positive.  Damage is applied only when the cooldown, after that
    decrement, is at most zero, and the cooldown is then 1.5.  Hence in any
    run of frames two damage applications by one robot are at least 1.5 of
    simulated time apart. *)
Theorem C7_attack_cooldown (b : Build) :
  (forall ads dt r w,
      (0 <= dt)%Q ->
      let r' := fst (fst (Robot_update b ads dt r w)) in
      let w' := snd (fst (Robot_update b ads dt r w)) in
      let ticked :=
        if Qlt_bool 0 (attackCooldown r) then (attackCooldown r - dt)%Q
        else attackCooldown r in
      (if dying r then attackCooldown r' = attackCooldown r
       else attackCooldown r' = (15 # 10)%Q /\ (ticked <= 0)%Q
            \/ attackCooldown r' = ticked /\ damageApplied w w' = false)
      /\ (damageApplied w w' = true ->
          dying r = false /\ (ticked <= 0)%Q
          /\ attackCooldown r' = (15 # 10)%Q)
      /\ ((attackCooldown r <= 15 # 10)%Q -> (attackCooldown r' <= 15 # 10)%Q)
      /\ ((0 < attackCooldown r)%Q -> (- dt < attackCooldown r')%Q))
  /\ (forall fs r before d1 mid d2 after,
        Forall (fun f => (0 <= f_dt f)%Q) fs ->
        fst (robotLife b fs r)
        = before ++ (d1, true) :: mid ++ (d2, true) :: after ->
        (15 # 10 <= sumQ (map fst mid) + d2)%Q).
Proof.
  split.
  - intros ads dt r w Hdt r' w' ticked.
    pose proof (Robot_update_cooldown b ads dt r w) as (U1 & U2).
    cbv zeta in U1, U2. fold r' w' ticked in U1, U2.
    assert (T : (ticked <= attackCooldown r)%Q
                /\ ((0 < attackCooldown r)%Q -> (- dt < ticked)%Q)).
    { subst ticked. destruct (Qlt_bool 0 (attackCooldown r)) eqn:E.
      - apply Qlt_bool_iff in E. split; intros; lra.
      - apply Qlt_bool_false in E. split; intros; lra. }
    destruct T as (T1 & T2).
    split; [|split; [exact U2|split]].
    + destruct (dying r); [apply U1|exact U1].
    + intro L. destruct (dying r).
      * destruct U1 as (-> & _). exact L.
      * destruct U1 as [(-> & _)|(-> & _)]; lra.
    + intro P. specialize (T2 P). destruct (dying r).
      * destruct U1 as (-> & _). lra.
      * destruct U1 as [(-> & _)|(-> & _)]; lra.
  - intros fs r before d1 mid d2 after HF E.
    set (since := Math_max 0 ((15 # 10) - attackCooldown r)%Q).
    assert (HS : ((15 # 10) - since <= attackCooldown r)%Q).
    { subst since.
      destruct (Math_max_cases 0 ((15 # 10) - attackCooldown r)%Q)
        as [[L ->]|[L ->]]; lra. }
    pose proof (robotLife_spaced b fs r since HF HS) as S.
    rewrite E in S. apply spaced_after_attack in S.
    assert (D : Forall (fun x : Q * bool => (0 <= fst x)%Q) mid).
    { pose proof (robotLife_dts b fs r) as Dt. rewrite E in Dt.
      apply Forall_forall. intros x Hx.
      assert (I : In (fst x) (map f_dt fs)).
      { rewrite <- Dt. apply in_map.
        apply in_or_app. right. right. apply in_or_app. left. exact Hx. }
      apply in_map_iff in I. destruct I as (f & <- & Hf).
      rewrite Forall_forall in HF. apply HF, Hf. }
    pose proof (spaced_gap 0 d2 mid after (Qle_refl 0) D S). lra.
Qed.

End Cooldown.

(** C7 as stated fails: three frames of one second each take the cooldown
    of a robot that has just struck from 1.5 to -0.5, far from the player. *)
Lemma C7_counterexample :
  let run := @robotLife sampleMath Enhanced
               [secondFrame; secondFrame; secondFrame] closeRobot in
  map snd (fst run) = [true; false; false]
  /\ (attackCooldown (snd run) == - (1 # 2))%Q
  /\ ~ (0 <= attackCooldown (snd run))%Q.
Proof.
  vm_compute. split; [reflexivity|]. split; [reflexivity|].
  intro H. apply H. reflexivity.
Qed.

(** ** Question generation *)

Lemma unit_draws_source (g g' : Rng) :
  source g' = source g -> unit_draws g -> unit_draws g'.
Proof. unfold unit_draws. intros -> H. exact H. Qed.

Lemma randomIndex_range (n : Z) (g : Rng) :
  unit_draws g -> 0 < n ->
  0 <= fst (randomIndex n g) < n /\ source (snd (randomIndex n g)) = source g.
Proof.
  intros U N. unfold randomIndex, Math_random, Math_floor.
  cbn [fst snd source cursor].
  destruct (U (cursor g)) as (L & H).
  set (r := source g (cursor g)) in *.
  assert (P : (0 < inject_Z n)%Q)
    by (change (inject_Z 0 < inject_Z n)%Q; rewrite <- Zlt_Qlt; exact N).
  split; [|reflexivity]. split.
  - apply (Qfloor_resp_le 0 (r * inject_Z n)). nra.
  - rewrite Zlt_Qlt.
    apply Qle_lt_trans with (y := (r * inject_Z n)%Q); [apply Qfloor_le|nra].
Qed.

Lemma drawWrong_source (ans : Z) (g : Rng) :
  source (snd (drawWrong ans g)) = source g.
Proof.
  unfold drawWrong, randomIndex, Math_random. cbn [fst snd].
  match goal with
  | |- context [if ?c then _ else _] => destruct c
  end; reflexivity.
Qed.

Lemma includes_false (l : list Z) (x : Z) : includes l x = false -> ~ In x l.
Proof.
  unfold includes. intros H I.
  assert (E : existsb (Z.eqb x) l = true)
    by (apply existsb_exists; exists x; split; [exact I|apply Z.eqb_refl]).
  congruence.
Qed.

(** When the decoy loop ends it holds two decoys, distinct, positive and
    different from the answer. *)
Lemma wrongAnswers_loop_spec (fuel : nat) (ans : Z) :
  forall (acc : list Z) (g : Rng) (res : list Z) (g' : Rng),
    wrongAnswers_loop fuel ans acc g = Some (res, g') ->
    (List.length acc <= 2)%nat -> NoDup acc ->
    Forall (fun x => x <> ans /\ 0 < x) acc ->
    List.length res = 2%nat /\ NoDup res
    /\ Forall (fun x => x <> ans /\ 0 < x) res
    /\ source g' = source g.
Proof.
  induction fuel as [|fuel IH]; intros acc g res g' H L N F.
  - cbn [wrongAnswers_loop] in H.
    destruct (List.length acc <? 2)%nat eqn:E; [discriminate|].
    apply Nat.ltb_ge in E. inversion H. subst.
    repeat split; try assumption. lia.
  - cbn [wrongAnswers_loop] in H.
    destruct (List.length acc <? 2)%nat eqn:E.
    + apply Nat.ltb_lt in E.
      pose proof (drawWrong_source ans g) as S1.
      destruct (drawWrong ans g) as [wrong g1]. simpl in S1.
      destruct (negb (wrong =? ans) && (0 <? wrong)
                && negb (includes acc wrong)) eqn:C.
      * apply andb_true_iff in C. destruct C as (C & C3).
        apply andb_true_iff in C. destruct C as (C1 & C2).
        apply negb_true_iff, Z.eqb_neq in C1. apply Z.ltb_lt in C2.
        apply negb_true_iff, includes_false in C3.
        apply IH in H.
        -- destruct H as (H1 & H2 & H3 & H4).
           repeat split; try assumption. congruence.
        -- rewrite length_app. simpl. lia.
        -- apply NoDup_app; [exact N| |].
           ++ constructor; [intros []|constructor].
           ++ intros a Ia [<-|[]]. exact (C3 Ia).
        -- apply Forall_app. split; [exact F|]. repeat constructor; auto.
      * apply IH in H; try assumption.
        destruct H as (H1 & H2 & H3 & H4).
        repeat split; try assumption. congruence.
    + apply Nat.ltb_ge in E. inversion H. subst.
      repeat split; try assumption. lia.
Qed.

(** The shuffle of three answers under draws in [0, 1) is one of their six
    arrangements. *)
Lemma shuffle_three (x y z : Value) (g : Rng) :
  unit_draws g ->
  Permutation [x; y; z] (fst (shuffle_from 2 [x; y; z] g))
  /\ source (snd (shuffle_from 2 [x; y; z] g)) = source g.
Proof.
  intro U. unfold shuffle_from.
  destruct (randomIndex_range 3 g U) as (R1 & S1); [lia|].
  change (Z.of_nat 2 + 1) with 3.
  destruct (randomIndex 3 g) as [j g1]. simpl in R1, S1.
  assert (U1 : unit_draws g1) by (eapply unit_draws_source; eassumption).
  destruct (randomIndex_range 2 g1 U1) as (R2 & S2); [lia|].
  change (Z.of_nat 1 + 1) with 2.
  destruct (randomIndex 2 g1) as [k g2]. simpl in R2, S2.
  split; [|simpl; congruence].
  assert (J : j = 0 \/ j = 1 \/ j = 2) by lia.
  assert (K : k = 0 \/ k = 1) by lia.
  destruct J as [-> | [-> | ->]]; destruct K as [-> | ->]; cbv;
    solve
      [ apply Permutation_refl
      | apply perm_swap
      | apply perm_skip, perm_swap
      | eapply perm_trans; [apply perm_swap|apply perm_skip, perm_swap]
      | eapply perm_trans; [apply perm_skip, perm_swap|apply perm_swap]
      | eapply perm_trans;
        [apply perm_swap
        |eapply perm_trans; [apply perm_skip, perm_swap|apply perm_swap]] ].
Qed.

Lemma three_of_length (l : list Z) :
  List.length l = 2%nat -> exists x y, l = [x; y].
Proof.
  destruct l as [|x [|y [|z l]]]; simpl; try discriminate. eauto.
Qed.

(** Binding the zones: the three slots are an arrangement of the answer
    and the two decoys. *)
Lemma bindZones_spec (a w1 w2 : Value) (this : Robot) (g : Rng) :
  unit_draws g ->
  let r := fst (bindZones (mkGenerated a [w1; w2]) this g) in
  Permutation [a; w1; w2] (zones r)
  /\ correctAnswer r = correctAnswer this
  /\ question r = question this.
Proof.
  intros U. cbv zeta. unfold bindZones.
  change (answer (mkGenerated a [w1; w2])
          :: wrongAnswers (mkGenerated a [w1; w2])) with [a; w1; w2].
  change (List.length [a; w1; w2] - 1)%nat with 2%nat.
  destruct (shuffle_three a w1 w2 g U) as (P & _).
  destruct (shuffle_from 2 [a; w1; w2] g) as [l g']. cbn [fst snd] in *.
  pose proof (Permutation_length P) as L.
  destruct l as [|h [|c [|k [|? ?]]]]; simpl in L; try discriminate.
  unfold zones. cbn. auto.
Qed.

Lemma unlockedPool_incl (easy medium hard : list QData) (w : Z) (q : QData) :
  In q (unlockedPool easy medium hard w) -> In q (easy ++ medium ++ hard).
Proof.
  unfold unlockedPool. intro H.
  destruct (4 <=? w); destruct (8 <=? w);
    repeat (apply in_app_or in H; destruct H as [H|H]);
    repeat (apply in_or_app; auto; right); auto.
Qed.

Lemma entryOk_spec (q : QData) :
  entryOk q = true ->
  exists w1 w2,
    qd_w q = [w1; w2] /\ NoDup [VStr (qd_a q); VStr w1; VStr w2].
Proof.
  unfold entryOk. destruct (qd_w q) as [|w1 [|w2 [|? ?]]]; try discriminate.
  intro H. apply andb_true_iff in H. destruct H as (H & H3).
  apply andb_true_iff in H. destruct H as (H1 & H2).
  apply negb_true_iff, String.eqb_neq in H1.
  apply negb_true_iff, String.eqb_neq in H2.
  apply negb_true_iff, String.eqb_neq in H3.
  exists w1, w2. split; [reflexivity|].
  repeat constructor; simpl; intuition congruence.
Qed.

Lemma randomIndex_source (n : Z) (g g' : Rng) (i : Z) :
  randomIndex n g = (i, g') -> source g' = source g.
Proof. unfold randomIndex, Math_random. intro H. inversion H. reflexivity. Qed.

Lemma MathGenerator_operands_source (o : Operation) (maxNum : Z) (g g' : Rng)
  (t : Z * Z * Z) :
  MathGenerator_operands o maxNum g = (t, g') -> source g' = source g.
Proof.
  intro H. apply (f_equal snd) in H. cbn [snd] in H. rewrite <- H.
  destruct o; reflexivity.
Qed.

Lemma basic_operands_source (o : Operation) (g g' : Rng) (t : Z * Z * Z) :
  basic_operands o g = (t, g') -> source g' = source g.
Proof.
  intro H. apply (f_equal snd) in H. cbn [snd] in H. rewrite <- H.
  destruct o; reflexivity.
Qed.

(** The end both sum generators share: decoys from the loop, then the
    binding of the zones. *)
Lemma mathTail (fuel : nat) (ans : Z) (g2 g3 g' : Rng) (wrongs : list Z)
  (this r : Robot) :
  unit_draws g2 ->
  wrongAnswers_loop fuel ans [] g2 = Some (wrongs, g3) ->
  correctAnswer this = VNum ans ->
  bindZones (mkGenerated (VNum ans) (map VNum wrongs)) this g3 = (r, g') ->
  wellBound math r.
Proof.
  intros U L C B.
  apply wrongAnswers_loop_spec in L;
    [|simpl; lia|constructor|constructor].
  destruct L as (L1 & L2 & L3 & L4).
  destruct (three_of_length wrongs L1) as (x & y & ->).
  assert (U3 : unit_draws g3) by (eapply unit_draws_source; eassumption).
  pose proof (bindZones_spec (VNum ans) (VNum x) (VNum y) this g3 U3)
    as (P & CA & _).
  cbv zeta in P, CA. simpl map in B. rewrite B in P, CA. cbn [fst] in P, CA.
  inversion L3 as [|? ? (X1 & X2) L3']; subst.
  inversion L3' as [|? ? (Y1 & Y2) _]; subst.
  inversion L2 as [|? ? NI _]; subst.
  exists (VNum ans), (VNum x), (VNum y).
  split; [congruence|]. split; [|split; [exact P|simpl; auto]].
  assert (XY : x <> y) by (intro E; apply NI; left; auto).
  clear NI L2 L3 L3'.
  apply NoDup_cons; [simpl; intuition congruence|].
  apply NoDup_cons; [simpl; intuition congruence|].
  apply NoDup_cons; [simpl; tauto|apply NoDup_nil].
Qed.

Lemma pickFromPool_bound (easy medium hard : list QData) (w : Z) (this r : Robot)
  (g g1 : Rng) (res : Generated) :
  forallb entryOk (easy ++ medium ++ hard) = true ->
  unit_draws g ->
  pickFromPool (unlockedPool easy medium hard w) this g = Some (r, res, g1) ->
  unit_draws g1
  /\ exists a w1 w2,
       res = mkGenerated (VStr a) [VStr w1; VStr w2]
       /\ correctAnswer r = VStr a
       /\ NoDup [VStr a; VStr w1; VStr w2].
Proof.
  intros OK U H. unfold pickFromPool in H.
  destruct (randomIndex _ g) as [i g0] eqn:R.
  apply randomIndex_source in R.
  destruct (i <? 0); [discriminate|].
  destruct (nth_error _ (Z.to_nat i)) as [q|] eqn:N; [|discriminate].
  inversion H. subst.
  split; [eapply unit_draws_source; eassumption|].
  apply nth_error_In, unlockedPool_incl in N.
  rewrite forallb_forall in OK. specialize (OK q N).
  apply entryOk_spec in OK. destruct OK as (w1 & w2 & E & D).
  exists (qd_a q), w1, w2. rewrite E. auto.
Qed.

Lemma quiz_pools_sound :
  forallb entryOk
    (QuizGenerator_easy ++ QuizGenerator_medium ++ QuizGenerator_hard) = true.
Proof. vm_compute. reflexivity. Qed.

Lemma english_pools_sound :
  forallb entryOk
    (EnglishGenerator_easy ++ EnglishGenerator_medium
     ++ EnglishGenerator_hard) = true.
Proof. vm_compute. reflexivity. Qed.

Lemma pooledTail (a w1 w2 : string) (this r : Robot) (g g' : Rng) :
  unit_draws g ->
  correctAnswer this = VStr a ->
  NoDup [VStr a; VStr w1; VStr w2] ->
  bindZones (mkGenerated (VStr a) [VStr w1; VStr w2]) this g = (r, g') ->
  wellBound quiz r.
Proof.
  intros U C D B.
  pose proof (bindZones_spec (VStr a) (VStr w1) (VStr w2) this g U)
    as (P & CA & _).
  cbv zeta in P, CA. rewrite B in P, CA. cbn [fst] in P, CA.
  exists (VStr a), (VStr w1), (VStr w2).
  split; [congruence|]. split; [exact D|]. split; [exact P|].
  simpl. auto.
Qed.

Lemma Some_inj {A : Type} (x y : A) : Some x = Some y -> x = y.
Proof. congruence. Qed.

Lemma generateQuestion_bound (b : Build) (fuel : nat) (gs : GameState)
  (this r : Robot) (g g' : Rng) :
  unit_draws g ->
  generateQuestion b fuel gs this g = Some (r, g') ->
  wellBound (askedMode b gs) r.
Proof.
  intros U H. destruct b; simpl in H.
  - unfold Robot_generateMathQuestion in H.
    destruct (randomIndex _ g) as [i g1] eqn:R1.
    apply randomIndex_source in R1.
    destruct (i <? 0); [discriminate|].
    destruct (nth_error _ (Z.to_nat i)) as [o|]; [|discriminate].
    destruct (basic_operands o g1) as [[[x y] ans] g2] eqn:R2.
    apply basic_operands_source in R2.
    destruct (wrongAnswers_loop fuel ans [] g2) as [[wrongs g3]|] eqn:L;
      [|discriminate].
    inversion H as [B]. simpl askedMode.
    eapply mathTail; [|exact L| |exact B]; [|reflexivity].
    eapply unit_draws_source; [|exact U]. congruence.
  - unfold Robot_generateQuestion in H. simpl askedMode.
    destruct (mode gs).
    + unfold MathGenerator_generate in H.
      destruct (MathGenerator_difficulty (wave gs)) as [ops maxNum].
      destruct (randomIndex _ g) as [i g1] eqn:R1.
      apply randomIndex_source in R1.
      destruct (i <? 0); [discriminate|].
      destruct (nth_error ops (Z.to_nat i)) as [o|]; [|discriminate].
      destruct (MathGenerator_operands o maxNum g1) as [[[x y] ans] g2] eqn:R2.
      apply MathGenerator_operands_source in R2.
      destruct (wrongAnswers_loop fuel ans [] g2) as [[wrongs g3]|] eqn:L;
        [|discriminate].
      inversion H as [B].
      eapply mathTail; [|exact L| |exact B]; [|reflexivity].
      eapply unit_draws_source; [|exact U]. congruence.
    + unfold QuizGenerator_generate in H.
      destruct (pickFromPool _ this g) as [[[r1 res] g1]|] eqn:Pk;
        [|discriminate].
      apply (pickFromPool_bound _ _ _ _ _ _ _ _ _ quiz_pools_sound U) in Pk.
      destruct Pk as (U1 & a & w1 & w2 & -> & C & D).
      apply Some_inj in H.
      apply (pooledTail a w1 w2 r1 r g1 g'); assumption.
    + unfold EnglishGenerator_generate in H.
      destruct (pickFromPool _ this g) as [[[r1 res] g1]|] eqn:Pk;
        [|discriminate].
      apply (pickFromPool_bound _ _ _ _ _ _ _ _ _ english_pools_sound U) in Pk.
      destruct Pk as (U1 & a & w1 & w2 & -> & C & D).
      apply Some_inj in H. change (wellBound quiz r).
      apply (pooledTail a w1 w2 r1 r g1 g'); assumption.
Qed.

(** ** Fuel and termination of robot construction *)

(** Fuel only bounds the decoy loop: once the loop has returned, more fuel
    returns the same decoys. *)
Lemma wrongAnswers_loop_more_fuel (fuel : nat) (ans : Z) :
  forall (acc : list Z) (g : Rng) (x : list Z * Rng),
    wrongAnswers_loop fuel ans acc g = Some x ->
    wrongAnswers_loop (S fuel) ans acc g = Some x.
Proof.
  induction fuel as [|fuel IH]; intros acc g x H.
  - cbn [wrongAnswers_loop] in *.
    destruct (List.length acc <? 2)%nat; [discriminate|exact H].
  - change (wrongAnswers_loop (S (S fuel)) ans acc g)
      with (if (List.length acc <? 2)%nat
            then let '(wrong, g0) := drawWrong ans g in
                 if negb (wrong =? ans) && (0 <? wrong)
                    && negb (includes acc wrong)
                 then wrongAnswers_loop (S fuel) ans (acc ++ [wrong]) g0
                 else wrongAnswers_loop (S fuel) ans acc g0
            else Some (acc, g)).
    cbn [wrongAnswers_loop] in H.
    destruct (List.length acc <? 2)%nat; [|exact H].
    destruct (drawWrong ans g) as [wrong g0].
    destruct (negb (wrong =? ans) && (0 <? wrong)
              && negb (includes acc wrong)); apply IH, H.
Qed.

Lemma generateQuestion_more_fuel (b : Build) (fuel : nat) (gs : GameState)
  (this : Robot) (g : Rng) (x : Robot * Rng) :
  generateQuestion b fuel gs this g = Some x ->
  generateQuestion b (S fuel) gs this g = Some x.
Proof.
  destruct b; unfold generateQuestion.
  - unfold Robot_generateMathQuestion.
    destruct (randomIndex _ g) as [i g1].
    destruct (i <? 0); [discriminate|].
    destruct (nth_error _ (Z.to_nat i)) as [o|]; [|discriminate].
    destruct (basic_operands o g1) as [[[a c] ans] g2].
    destruct (wrongAnswers_loop fuel ans [] g2) as [[wrongs g3]|] eqn:L;
      [|discriminate].
    rewrite (wrongAnswers_loop_more_fuel fuel ans [] g2 _ L). auto.
  - unfold Robot_generateQuestion. destruct (mode gs); [|auto|auto].
    unfold MathGenerator_generate.
    destruct (MathGenerator_difficulty (wave gs)) as [ops maxNum].
    destruct (randomIndex _ g) as [i g1].
    destruct (i <? 0); [discriminate|].
    destruct (nth_error ops (Z.to_nat i)) as [o|]; [|discriminate].
    destruct (MathGenerator_operands o maxNum g1) as [[[a c] ans] g2].
    destruct (wrongAnswers_loop fuel ans [] g2) as [[wrongs g3]|] eqn:L;
      [|discriminate].
    rewrite (wrongAnswers_loop_more_fuel fuel ans [] g2 _ L). auto.
Qed.

(** The pooled generators have no loop: under draws in [0, 1) they return
    whatever the fuel. *)
Lemma pickFromPool_returns (easy medium hard : list QData) (w : Z)
  (this : Robot) (g : Rng) :
  unit_draws g -> easy <> [] ->
  exists x, pickFromPool (unlockedPool easy medium hard w) this g = Some x.
Proof.
  intros U NE. unfold pickFromPool.
  set (pool := unlockedPool easy medium hard w).
  assert (P : 0 < Z.of_nat (List.length pool)).
  { subst pool. unfold unlockedPool.
    destruct easy as [|q easy]; [congruence|].
    destruct (4 <=? w); destruct (8 <=? w);
      rewrite ?length_app; simpl; lia. }
  destruct (randomIndex_range _ g U P) as (R & _).
  destruct (randomIndex (Z.of_nat (List.length pool)) g) as [i g1].
  simpl in R.
  destruct (i <? 0) eqn:N; [apply Z.ltb_lt in N; lia|].
  destruct (nth_error pool (Z.to_nat i)) as [q|] eqn:E; [eauto|].
  apply nth_error_None in E. lia.
Qed.

Section Binding.
Context {M : MathLib}.

Lemma spawnPoint_source (b : Build) (cam : Camera) (g : Rng) :
  source (snd (spawnPoint b cam g)) = source g.
Proof. destruct b; reflexivity. Qed.

(** The constructor ends in the question generator, run on a supply that
    still draws in [0, 1). *)
Lemma Robot_new_question (b : Build) (fuel : nat) (ty : option RobotType)
  (gs : GameState) (cam : Camera) (g g' : Rng) (r : Robot) :
  Robot_new b fuel ty gs cam g = Some (r, g') ->
  exists this g1,
    source g1 = source g /\ generateQuestion b fuel gs this g1 = Some (r, g').
Proof.
  unfold Robot_new. intro H.
  destruct (match ty with Some t => _ | None => _ end) as [t g1] eqn:T.
  assert (S1 : source g1 = source g).
  { destruct ty as [t'|].
    - inversion T. reflexivity.
    - unfold randomIndex, Math_random in T. inversion T. reflexivity. }
  destruct (Robot_stats b t) as [[base dmg] sc].
  pose proof (spawnPoint_source b cam g1) as S2.
  destruct (spawnPoint b cam g1) as [p g2]. simpl in S2.
  destruct (Math_random g2) as [x g3] eqn:R.
  assert (S3 : source g3 = source g2)
    by (unfold Math_random in R; inversion R; reflexivity).
  eexists _, g3. split; [|exact H]. congruence.
Qed.

Lemma Robot_new_more_fuel (b : Build) (fuel : nat) (ty : option RobotType)
  (gs : GameState) (cam : Camera) (g : Rng) (x : Robot * Rng) :
  Robot_new b fuel ty gs cam g = Some x ->
  Robot_new b (S fuel) ty gs cam g = Some x.
Proof.
  unfold Robot_new.
  destruct (match ty with Some t => _ | None => _ end) as [t g1].
  destruct (Robot_stats b t) as [[base dmg] sc].
  destruct (spawnPoint b cam g1) as [p g2].
  destruct (Math_random g2) as [y g3].
  apply generateQuestion_more_fuel.
Qed.

(** In quiz and english mode the constructor always returns. *)
Lemma Robot_new_pooled_returns (fuel : nat) (ty : option RobotType)
  (gs : GameState) (cam : Camera) (g : Rng) :
  unit_draws g -> mode gs <> math ->
  exists x, Robot_new Enhanced fuel ty gs cam g = Some x.
Proof.
  intros U NM. unfold Robot_new.
  destruct (match ty with Some t => _ | None => _ end) as [t g1] eqn:T.
  assert (S1 : source g1 = source g).
  { destruct ty as [t'|].
    - inversion T. reflexivity.
    - unfold randomIndex, Math_random in T. inversion T. reflexivity. }
  destruct (Robot_stats Enhanced t) as [[base dmg] sc].
  pose proof (spawnPoint_source Enhanced cam g1) as S2.
  destruct (spawnPoint Enhanced cam g1) as [p g2]. simpl in S2.
  destruct (Math_random g2) as [y g3] eqn:R.
  assert (S3 : source g3 = source g2)
    by (unfold Math_random in R; inversion R; reflexivity).
  assert (U3 : unit_draws g3)
    by (eapply unit_draws_source; [|exact U]; congruence).
  unfold generateQuestion, Robot_generateQuestion.
  destruct (mode gs); [congruence| |].
  - unfold QuizGenerator_generate.
    match goal with
    | |- context [pickFromPool (unlockedPool ?e ?m ?h ?w) ?t ?g] =>
        destruct (pickFromPool_returns e m h w t g U3) as ([[r res] g4] & ->);
        [discriminate|]
    end.
    eauto.
  - unfold EnglishGenerator_generate.
    match goal with
    | |- context [pickFromPool (unlockedPool ?e ?m ?h ?w) ?t ?g] =>
        destruct (pickFromPool_returns e m h w t g U3) as ([[r res] g4] & ->);
        [discriminate|]
    end.
    eauto.
Qed.

(** [startGame] inherits both facts from the constructor. *)
Lemma startGame_more_fuel (b : Build) (fuel : nat) (w w' : World) :
  startGame b fuel w = Some w' -> startGame b (S fuel) w = Some w'.
Proof.
  unfold startGame, spawnRobot. cbv zeta.
  match goal with
  | |- match Robot_new b fuel ?t ?gs ?c ?g with _ => _ end = _ -> _ =>
      destruct (Robot_new b fuel t gs c g) as [[r g']|] eqn:N;
      [rewrite (Robot_new_more_fuel b fuel t gs c g _ N); auto|discriminate]
  end.
Qed.

Lemma startGame_pooled_returns (fuel : nat) (w : World) :
  unit_draws (rng w) -> mode (gameState w) <> math ->
  exists w', startGame Enhanced fuel w = Some w'.
Proof.
  intros U NM. unfold startGame, spawnRobot. cbv zeta.
  match goal with
  | |- context [Robot_new Enhanced fuel ?t ?gs ?c ?g] =>
      destruct (Robot_new_pooled_returns fuel t gs c g U NM)
        as ([r g'] & ->)
  end.
  eauto.
Qed.

Lemma zones_unique (r : Robot) :
  NoDup (zones r) -> In (correctAnswer r) (zones r) ->
  exists! p, answerAt (answers r) p = correctAnswer r.
Proof.
  unfold zones. intros N I.
  inversion N as [|? ? N1 N']; subst. inversion N' as [|? ? N2 _]; subst.
  simpl in N1, N2, I.
  destruct I as [I|[I|[I|[]]]].
  - exists part_head. split; [exact I|].
    intros [] E; simpl in E; try reflexivity; exfalso; apply N1;
      first [left; congruence|right; left; congruence].
  - exists part_chest. split; [exact I|].
    intros [] E; simpl in E; try reflexivity; exfalso.
    + apply N1. left. congruence.
    + apply N2. left. congruence.
  - exists part_knee. split; [exact I|].
    intros [] E; simpl in E; try reflexivity; exfalso.
    + apply N1. right. left. congruence.
    + apply N2. left. congruence.
Qed.

Lemma wellBound_zones (m : Mode) (r : Robot) :
  wellBound m r ->
  (exists! p, answerAt (answers r) p = correctAnswer r)
  /\ NoDup (zones r)
  /\ match m with
     | math =>
         Forall (fun v => v = correctAnswer r \/ positiveNumber v) (zones r)
     | _ => Forall isString (zones r)
     end.
Proof.
  intros (a & w1 & w2 & C & D & P & K).
  assert (N : NoDup (zones r)) by (eapply Permutation_NoDup; eassumption).
  assert (I : In (correctAnswer r) (zones r)).
  { eapply Permutation_in; [exact P|]. rewrite C. left. reflexivity. }
  split; [apply zones_unique; assumption|]. split; [exact N|].
  destruct m.
  - eapply Permutation_Forall; [exact P|].
    destruct K as (K1 & K2).
    constructor; [left; congruence|].
    constructor; [right; exact K1|].
    constructor; [right; exact K2|constructor].
  - eapply Permutation_Forall; [exact P|].
    destruct K as (K0 & K1 & K2). repeat constructor; auto.
  - eapply Permutation_Forall; [exact P|].
    destruct K as (K0 & K1 & K2). repeat constructor; auto.
Qed.

Lemma Robot_attackPlayer_binding (b : Build) (ads : AdSession) (r : Robot)
  (w : World) :
  bindingOf (fst (fst (Robot_attackPlayer b ads r w))) = bindingOf r.
Proof.
  unfold Robot_attackPlayer.
  destruct (match b with Enhanced => _ | Basic => _ end); [reflexivity|].
  cbv zeta.
  destruct (_ <=? 0); [destruct (endGame _ _ _); reflexivity|].
  destruct (aroundPlayer (camera _) (rng _)) as [p g]. reflexivity.
Qed.

Lemma Robot_update_binding (b : Build) (ads : AdSession) (dt : Q) (r : Robot)
  (w : World) :
  bindingOf (fst (fst (Robot_update b ads dt r w))) = bindingOf r.
Proof.
  unfold Robot_update. destruct (dying r).
  - cbv zeta. destruct (Qlt_bool 1 _); reflexivity.
  - cbv zeta.
    match goal with
    | |- context [if ?c then Robot_attackPlayer b ads ?x w else _] =>
        assert (E : bindingOf x = bindingOf r)
          by (destruct (Qlt_bool 0 (attackCooldown r)); reflexivity);
        destruct c; [rewrite Robot_attackPlayer_binding|]; exact E
    end.
Qed.

Lemma updateRobots_binding (b : Build) (ads : AdSession) (dt : Q)
  (rs : list Robot) (w : World) :
  map bindingOf (fst (fst (updateRobots b ads dt rs w))) = map bindingOf rs.
Proof.
  revert w. induction rs as [|r rs IH]; intro w; [reflexivity|].
  rewrite updateRobots_cons. cbv zeta.
  pose proof (Robot_update_binding b ads dt r w) as H.
  destruct (snd (Robot_update b ads dt r w)); cbn [fst snd map];
    rewrite H, ?IH; reflexivity.
Qed.

Lemma resolveHit_binding (b : Build) (r : Robot) (h : Hit) (w : World) :
  bindingOf (fst (resolveHit b r h w)) = bindingOf r.
Proof.
  destruct (strict_eq (hit_answer h) (correctAnswer r)) eqn:C.
  - rewrite (resolveHit_correct_eq b r h w C). reflexivity.
  - rewrite (resolveHit_wrong_eq b r h w C). reflexivity.
Qed.

Lemma onShoot_binding (b : Build) (rc : Raycaster) (w : World) :
  map bindingOf (robots (onShoot b rc w)) = map bindingOf (robots w).
Proof.
  destruct (canFire b (gameState w)) eqn:F;
    [|rewrite (onShoot_held b rc w F); reflexivity].
  destruct (firstLiveHit rc (robots w)) as [[r h]|] eqn:L.
  - apply firstLiveHit_split in L. destruct L as (bf & af & E & HB & D & C).
    rewrite (onShoot_target b rc w bf af r h F E HB D C), E. simpl.
    rewrite !map_app. simpl. rewrite resolveHit_binding. reflexivity.
  - apply firstLiveHit_none in L. rewrite (onShoot_miss b rc w L).
    reflexivity.
Qed.

(** C3, as the code has it.  A robot leaves its constructor with exactly
    one of head, chest and knee holding its correct answer and with three
    different values in the three slots; in math mode the two decoys are
    positive integers, in quiz and english mode all three values are
    strings.  Nothing that runs later ([update], [attackPlayer], the robot
    loop of a frame, a fire event) changes the question, the correct answer
    or the slots.  This holds for every mode and every wave. *)
Theorem C3_answer_zones (b : Build) :
  (forall fuel ty gs cam g r g',
      unit_draws g ->
      Robot_new b fuel ty gs cam g = Some (r, g') ->
      (exists! p, answerAt (answers r) p = correctAnswer r)
      /\ NoDup (zones r)
      /\ match askedMode b gs with
         | math =>
             Forall (fun v => v = correctAnswer r \/ positiveNumber v)
               (zones r)
         | _ => Forall isString (zones r)
         end)
  /\ (forall ads dt r w,
        bindingOf (fst (fst (Robot_update b ads dt r w))) = bindingOf r)
  /\ (forall ads r w,
        bindingOf (fst (fst (Robot_attackPlayer b ads r w))) = bindingOf r)
  /\ (forall ads dt rs w,
        map bindingOf (fst (fst (updateRobots b ads dt rs w)))
        = map bindingOf rs)
  /\ (forall rc w,
        map bindingOf (robots (onShoot b rc w)) = map bindingOf (robots w)).
Proof.
  split; [|split; [|split; [|split]]].
  - intros fuel ty gs cam g r g' U H.
    apply Robot_new_question in H. destruct H as (this & g1 & S & H).
    apply wellBound_zones.
    eapply generateQuestion_bound; [|exact H].
    eapply unit_draws_source; eassumption.
  - intros. apply Robot_update_binding.
  - intros. apply Robot_attackPlayer_binding.
  - intros. apply updateRobots_binding.
  - intros. apply onShoot_binding.
Qed.

End Binding.

(** C3 as stated fails in quiz mode: the robot asking "Ice is?" carries
    the decoy "Gas" on its chest, which is no positive number. *)
Lemma C3_counterexample :
  exists r g',
    @Robot_new sampleMath Enhanced 10 None quizState
      (mkCamera (mkVec3 0 2 0) (mkVec3 0 0 (-1))) sampleDraws = Some (r, g')
    /\ correctAnswer r = VStr "Frozen Water"
    /\ chest (answers r) = VStr "Gas"
    /\ chest (answers r) <> correctAnswer r
    /\ ~ positiveNumber (chest (answers r)).
Proof.
  eexists _, _. split; [vm_compute; reflexivity|]. simpl.
  split; [reflexivity|]. split; [reflexivity|]. split; [discriminate|].
  intros [].
Qed.

(** ** The theorems at work on concrete inputs *)

Lemma drawsOf_unit (l : list Q) :
  Forall (fun q => (0 <= q /\ q < 1)%Q) l -> unit_draws (drawsOf l).
Proof.
  intros H n. unfold drawsOf. simpl. revert n.
  induction H as [|q l Hq _ IH]; intros [|n]; simpl;
    try (split; [apply Qle_refl|reflexivity]); auto.
Defined.

Lemma sampleDraws_unit : unit_draws sampleDraws.
Proof.
  apply drawsOf_unit.
  repeat (constructor; [split; [discriminate|reflexivity]|]). constructor.
Defined.

(** Reading off the branch of a conditional statement that applies. *)
Ltac take_branch H :=
  lazymatch type of H with
  | if _ then ?A else ?B =>
      first [ let H' := fresh in assert (H' : A) by exact H; clear H;
              rename H' into H
            | let H' := fresh in assert (H' : B) by exact H; clear H;
              rename H' into H ]
  end.

Lemma C1_witness :
  let w0 := squad in
  let w1 := onShoot Enhanced (rayAt part_chest) w0 in
  let w2 := onShoot Enhanced (rayAt part_chest) w1 in
  let w3 := onShoot Enhanced (rayAt part_chest) w2 in
  let w4 := onShoot Enhanced (rayAt part_head) w3 in
  (canFire Enhanced (gameState w0) = true
   /\ Robot_checkHit (rayAt part_chest) sampleRobot = Some chestHit
   /\ strict_eq (hit_answer chestHit) (correctAnswer sampleRobot) = true
   /\ if strict_eq (hit_answer chestHit) (correctAnswer sampleRobot)
      then robots w1
           = [] ++ set_dying true sampleRobot
                :: [sampleRobot; sampleRobot; sampleRobot]
           /\ score (gameState w1)
              = score (gameState w0) + 100 * combo (gameState w0)
           /\ kills (gameState w1) = kills (gameState w0) + 1
           /\ combo (gameState w1) = Z.min (combo (gameState w0) + 1) 10
      else robots w1 = robots w0
           /\ combo (gameState w1) = 1
           /\ score (gameState w1) = score (gameState w0)
           /\ kills (gameState w1) = kills (gameState w0))
  /\ (combo (gameState w0) = 1
      /\ hitOutcome Enhanced (rayAt part_chest) w2 = Some true
      /\ hitOutcome Enhanced (rayAt part_head) w3 = Some false
      /\ combo (gameState w1) = 2 /\ combo (gameState w2) = 3
      /\ combo (gameState w3) = 4 /\ combo (gameState w4) = 1
      /\ score (gameState w1) = score (gameState w0) + 100 * 1
      /\ score (gameState w2) = score (gameState w1) + 100 * 2
      /\ score (gameState w3) = score (gameState w2) + 100 * 3
      /\ score (gameState w4) = score (gameState w3))
  /\ (1 <= combo (gameState w3) <= 10
      /\ 1 <= combo (gameState (onShoot Enhanced (rayAt part_head) w3)) <= 10)
  /\ (exists w' c,
        @animate sampleMath Enhanced resetSessionLimits 10 (1 # 60) w3
        = Some (w', c)
        /\ combo (gameState w') = combo (gameState w3))
  /\ (exists w', @startGame sampleMath Enhanced 10 w0 = Some w'
                 /\ combo (gameState w') = 1).
Proof.
  intros w0 w1 w2 w3 w4.
  destruct (@C1_combo_and_score sampleMath Enhanced)
    as (P1 & P2 & P3 & P4 & P5).
  split; [|split; [|split; [|split]]].
  - split; [reflexivity|]. split; [reflexivity|]. split; [reflexivity|].
    exact (P1 (rayAt part_chest) squad [] sampleRobot
             [sampleRobot; sampleRobot; sampleRobot] chestHit
             eq_refl eq_refl (Forall_nil _) eq_refl eq_refl).
  - assert (H1 : hitOutcome Enhanced (rayAt part_chest) w0 = Some true)
      by (vm_compute; reflexivity).
    assert (H2 : hitOutcome Enhanced (rayAt part_chest) w1 = Some true)
      by (vm_compute; reflexivity).
    assert (H3 : hitOutcome Enhanced (rayAt part_chest) w2 = Some true)
      by (vm_compute; reflexivity).
    assert (H4 : hitOutcome Enhanced (rayAt part_head) w3 = Some false)
      by (vm_compute; reflexivity).
    split; [reflexivity|]. split; [exact H3|]. split; [exact H4|].
    exact (P2 (rayAt part_chest) (rayAt part_chest) (rayAt part_chest)
             (rayAt part_head) squad eq_refl H1 H2 H3 H4).
  - assert (R3 : 1 <= combo (gameState w3) <= 10)
      by (vm_compute; split; discriminate).
    split; [exact R3|]. exact (P3 (rayAt part_head) w3 R3).
  - destruct (@animate sampleMath Enhanced resetSessionLimits 10 (1 # 60) w3)
      as [[w' c]|] eqn:E; [|vm_compute in E; discriminate].
    exists w', c. split; [reflexivity|].
    exact (P4 resetSessionLimits 10%nat (1 # 60)%Q w3 w' c E).
  - destruct (@startGame sampleMath Enhanced 10 w0) as [w'|] eqn:E;
      [|vm_compute in E; discriminate].
    exists w'. split; [reflexivity|]. exact (P5 10%nat w0 w' E).
Defined.

Lemma C2_witness :
  let w := sampleWorld Enhanced 4 90 [sampleRobot] in
  let gs := gameState w in
  let w' := onShoot Enhanced (rayAt part_chest) w in
  let gs' := gameState w' in
  (wave gs = 1 /\ kills gs = 4 /\ health gs = 90
   /\ Z.rem (kills gs + 1) 5 = 0)
  /\ kills gs' = kills gs + 1
  /\ wave gs' = wave gs + 1
  /\ spawnInterval w'
     = Math_max (spawnFloor Enhanced) (spawnInterval w - (2 # 10))%Q
  /\ (spawnFloor Enhanced <= spawnInterval w')%Q
  /\ (0 < spawnInterval w')%Q
  /\ (spawnInterval w' == spawnInterval w - (2 # 10)
      \/ spawnInterval w' == spawnFloor Enhanced)%Q
  /\ (spawnFloor Enhanced == 6 # 10)%Q
  /\ health gs' = Z.min (maxHealth gs) (health gs + 20).
Proof.
  intros w gs w' gs'.
  split; [repeat split; reflexivity|].
  exact (C2_every_fifth_kill Enhanced (rayAt part_chest)
           (sampleWorld Enhanced 4 90 [sampleRobot]) [] [] sampleRobot
           chestHit eq_refl eq_refl (Forall_nil _) eq_refl eq_refl
           eq_refl eq_refl).
Defined.

Lemma C3_witness :
  unit_draws sampleDraws
  /\ exists r g',
       @Robot_new sampleMath Enhanced 10 None (initialGameState Enhanced)
         startCamera sampleDraws = Some (r, g')
       /\ (exists! p, answerAt (answers r) p = correctAnswer r)
       /\ NoDup (zones r)
       /\ Forall (fun v => v = correctAnswer r \/ positiveNumber v) (zones r).
Proof.
  split; [exact sampleDraws_unit|].
  destruct (@Robot_new sampleMath Enhanced 10 None (initialGameState Enhanced)
              startCamera sampleDraws) as [[r g']|] eqn:E;
    [|vm_compute in E; discriminate].
  exists r, g'. split; [reflexivity|].
  destruct (@C3_answer_zones sampleMath Enhanced) as (P1 & _).
  exact (P1 10%nat None (initialGameState Enhanced) startCamera sampleDraws
           r g' sampleDraws_unit E).
Defined.

Lemma C4_witness :
  let w := squad in
  let downed := sampleWorld Enhanced 0 100 [set_dying true sampleRobot] in
  (robots w = [] ++ sampleRobot :: [sampleRobot; sampleRobot; sampleRobot]
   /\ onShoot Enhanced (rayAt part_chest) w
      = set_robots
          ([] ++ fst (resolveHit Enhanced sampleRobot chestHit w)
              :: [sampleRobot; sampleRobot; sampleRobot])
          (snd (resolveHit Enhanced sampleRobot chestHit w)))
  /\ (Forall (fun x => dying x = true \/ rayAt part_chest x = [])
        (robots downed)
      /\ onShoot Enhanced (rayAt part_chest) downed = downed).
Proof.
  intros w downed. split.
  - split; [reflexivity|].
    destruct (C4_one_robot_per_fire_event Enhanced (rayAt part_chest) squad)
      as (P1 & _).
    exact (P1 [] sampleRobot [sampleRobot; sampleRobot; sampleRobot] chestHit
             eq_refl eq_refl (Forall_nil _) eq_refl eq_refl).
  - assert (F : Forall (fun x => dying x = true \/ rayAt part_chest x = [])
                  (robots downed))
      by (repeat constructor).
    split; [exact F|].
    destruct (C4_one_robot_per_fire_event Enhanced (rayAt part_chest) downed)
      as (_ & P2 & _).
    exact (P2 F).
Defined.

Lemma C6_witness :
  (exists r g',
      @Robot_new sampleMath Enhanced 10 None (initialGameState Enhanced)
        startCamera sampleDraws = Some (r, g')
      /\ inArena r)
  /\ (inArena closeRobot
      /\ inArena
           (fst (fst (@Robot_update sampleMath Enhanced resetSessionLimits
                        (1 # 60) closeRobot squad)))
      /\ inArena
           (fst (fst (@Robot_attackPlayer sampleMath Enhanced
                        resetSessionLimits closeRobot squad))))
  /\ (Forall inArena (robots lastStand) /\ playerInArena (camera lastStand)
      /\ exists w' c,
           @animate sampleMath Enhanced spentSession 10 (1 # 60) lastStand
           = Some (w', c)
           /\ Forall inArena (robots w') /\ playerInArena (camera w')).
Proof.
  destruct (@C6_positions_stay_in_bounds sampleMath Enhanced)
    as (P1 & P2 & P3 & _ & P5).
  assert (A : inArena closeRobot)
    by (vm_compute; repeat split; discriminate).
  assert (S : inArena sampleRobot)
    by (vm_compute; repeat split; discriminate).
  assert (F : Forall inArena (robots lastStand))
    by (repeat (apply Forall_cons; [first [exact S|exact A]|]);
        apply Forall_nil).
  assert (C : playerInArena (camera lastStand))
    by (vm_compute; repeat split; discriminate).
  split; [|split].
  - destruct (@Robot_new sampleMath Enhanced 10 None
                (initialGameState Enhanced) startCamera sampleDraws)
      as [[r g']|] eqn:E; [|vm_compute in E; discriminate].
    exists r, g'. split; [reflexivity|].
    exact (P1 10%nat None (initialGameState Enhanced) startCamera sampleDraws
             r g' E).
  - split; [exact A|]. split.
    + exact (P2 resetSessionLimits (1 # 60)%Q closeRobot squad A).
    + exact (P3 resetSessionLimits closeRobot squad A).
  - split; [exact F|]. split; [exact C|].
    destruct (@animate sampleMath Enhanced spentSession 10 (1 # 60) lastStand)
      as [[w' c]|] eqn:E; [|vm_compute in E; discriminate].
    exists w', c. split; [reflexivity|].
    exact (P5 spentSession 10%nat (1 # 60)%Q lastStand w' c F C E).
Defined.

Lemma C7_witness :
  let w := sampleWorld Enhanced 0 100 [] in
  let cooling := set_attackCooldown (1 # 2) closeRobot in
  let r' :=
    fst (fst (@Robot_update sampleMath Enhanced resetSessionLimits 1
                closeRobot w)) in
  let w' :=
    snd (fst (@Robot_update sampleMath Enhanced resetSessionLimits 1
                closeRobot w)) in
  let frames := [secondFrame; secondFrame; chaseFrame] in
  (damageApplied w w' = true
   /\ dying closeRobot = false
   /\ attackCooldown r' = (15 # 10)%Q
   /\ (attackCooldown r' <= 15 # 10)%Q)
  /\ ((0 < attackCooldown cooling)%Q
      /\ (- (1) < attackCooldown
                    (fst (fst (@Robot_update sampleMath Enhanced
                                 resetSessionLimits 1 cooling w))))%Q)
  /\ (Forall (fun f => (0 <= f_dt f)%Q) frames
      /\ fst (@robotLife sampleMath Enhanced frames closeRobot)
         = [] ++ (1%Q, true) :: [(1%Q, false)] ++ (1%Q, true) :: []
      /\ (15 # 10 <= sumQ (map fst [(1%Q, false)]) + 1)%Q).
Proof.
  intros w cooling r' w' frames.
  destruct (@C7_attack_cooldown sampleMath Enhanced) as (P1 & P2).
  assert (Z1 : (0 <= 1)%Q) by discriminate.
  assert (D : damageApplied w w' = true) by (vm_compute; reflexivity).
  assert (L : (attackCooldown closeRobot <= 15 # 10)%Q) by discriminate.
  assert (C : (0 < attackCooldown cooling)%Q) by reflexivity.
  assert (F : Forall (fun f => (0 <= f_dt f)%Q) frames)
    by (repeat constructor; discriminate).
  assert (E : fst (@robotLife sampleMath Enhanced frames closeRobot)
              = [] ++ (1%Q, true) :: [(1%Q, false)] ++ (1%Q, true) :: [])
    by (vm_compute; reflexivity).
  split; [|split].
  - destruct (P1 resetSessionLimits 1%Q closeRobot w Z1) as (_ & U2 & U3 & _).
    destruct (U2 D) as (A1 & _ & A3).
    split; [exact D|]. split; [exact A1|]. split; [exact A3|exact (U3 L)].
  - destruct (P1 resetSessionLimits 1%Q cooling w Z1) as (_ & _ & _ & U4).
    split; [exact C|exact (U4 C)].
  - split; [exact F|]. split; [exact E|].
    exact (P2 frames closeRobot [] 1%Q [(1%Q, false)] 1%Q [] F E).
Defined.

Lemma C8_witness :
  let w := sampleWorld Enhanced 4 90 [sampleRobot] in
  let hurt := sampleWorld Enhanced 0 10 [closeRobot] in
  (health (gameState w) <= maxHealth (gameState w)
   /\ health (gameState (snd (@collectPickup sampleMath nearPickup w)))
      <= maxHealth (gameState (snd (@collectPickup sampleMath nearPickup w)))
   /\ health (gameState (onShoot Enhanced (rayAt part_chest) w))
      <= maxHealth (gameState (onShoot Enhanced (rayAt part_chest) w)))
  /\ (isRunning (gameState hurt) = true
      /\ let gs := gameState hurt in
         let gs' :=
           gameState (snd (fst (@Robot_attackPlayer sampleMath Enhanced
                                  spentSession closeRobot hurt))) in
         health gs' = health gs - damage closeRobot
         /\ (if health gs' <=? 0 then isRunning gs' = false
             else isRunning gs' = true))
  /\ (0 < maxHealth (gameState hurt) /\ deadMeansOver (gameState hurt)
      /\ exists w' c,
           @animate sampleMath Enhanced spentSession 10 (1 # 60) hurt
           = Some (w', c)
           /\ deadMeansOver (gameState w'))
  /\ (Forall (fun r => damage r <= 12) [closeRobot; closeRobot]
      /\ - (12) < health (gameState hurt)
      /\ - (12) < health
                    (gameState
                       (snd (fst (@updateRobots sampleMath Enhanced
                                    resetSessionLimits (1 # 60)
                                    [closeRobot; closeRobot] hurt))))).
Proof.
  intros w hurt.
  destruct (@C8_health_bounds sampleMath Enhanced)
    as (P1 & P2 & P3 & P4 & _ & P6).
  assert (H : health (gameState w) <= maxHealth (gameState w))
    by (vm_compute; discriminate).
  assert (R : isRunning (gameState hurt) = true) by reflexivity.
  assert (M0 : 0 < maxHealth (gameState hurt)) by reflexivity.
  assert (D : deadMeansOver (gameState hurt))
    by (intro N; vm_compute in N; exfalso; apply N; reflexivity).
  assert (F : Forall (fun r => damage r <= 12) [closeRobot; closeRobot])
    by (repeat constructor; discriminate).
  assert (L : - (12) < health (gameState hurt)) by reflexivity.
  split; [|split; [|split]].
  - split; [exact H|]. split.
    + exact (P1 nearPickup w H).
    + exact (P2 (rayAt part_chest) w H).
  - split; [exact R|]. exact (P3 spentSession closeRobot hurt R).
  - split; [exact M0|]. split; [exact D|].
    destruct (@animate sampleMath Enhanced spentSession 10 (1 # 60) hurt)
      as [[w' c]|] eqn:E; [|vm_compute in E; discriminate].
    exists w', c. split; [reflexivity|].
    exact (P4 spentSession 10%nat (1 # 60)%Q hurt w' c M0 D E).
  - split; [exact F|]. split; [exact L|].
    exact (P6 resetSessionLimits (1 # 60)%Q 12 [closeRobot; closeRobot] hurt
             F D L).
Defined.

Lemma C9_witness :
  exists w',
    @startGame sampleMath Enhanced 10 squad = Some w'
    /\ let gs := gameState squad in
       let gs' := gameState w' in
       score gs' = 0 /\ wave gs' = 1 /\ health gs' = maxHealth gs'
       /\ combo gs' = 1 /\ kills gs' = 0 /\ isRunning gs' = true
       /\ maxHealth gs' = maxHealth gs /\ isPaused gs' = isPaused gs
       /\ mode gs' = mode gs
       /\ (exists r, robots w' = [r]
             /\ alive r = true /\ dying r = false /\ attackCooldown r = 0%Q
             /\ inArena r)
       /\ pickups w' = []
       /\ particles w' = [] /\ bullets w' = []
       /\ spawnTimer w' = 0%Q /\ spawnInterval w' = 2%Q.
Proof.
  destruct (@startGame sampleMath Enhanced 10 squad) as [w'|] eqn:E;
    [|vm_compute in E; discriminate].
  exists w'. split; [reflexivity|].
  exact (@C9_startGame_resets sampleMath Enhanced 10%nat squad w' E).
Defined.



(** ** Sums: what is asked and what is offered *)

Lemma randomIndex_spec (n : Z) (g g1 : Rng) (i : Z) :
  unit_draws g -> 0 < n -> randomIndex n g = (i, g1) ->
  0 <= i < n /\ unit_draws g1.
Proof.
  intros U N R. destruct (randomIndex_range n g U N) as (I & S).
  rewrite R in I, S. cbn [fst snd] in I, S.
  split; [exact I|]. eapply unit_draws_source; eassumption.
Qed.

Lemma Math_ceil_pos (q : Q) : (0 < q)%Q -> 0 < Math_ceil q.
Proof.
  intro H. unfold Math_ceil. rewrite Zlt_Qlt.
  apply Qlt_le_trans with (y := q); [exact H|apply Qle_ceiling].
Qed.

Lemma difficulty_maxNum (w : Z) :
  1 <= snd (MathGenerator_difficulty w) <= 100.
Proof.
  unfold MathGenerator_difficulty.
  destruct (2 <=? w), (3 <=? w), (6 <=? w), (10 <=? w); cbn; lia.
Qed.

(** What the enhanced build draws for an operation is a true instance of
    it, with an answer between 1 and 256. *)
Lemma MathGenerator_operands_true (o : Operation) (maxNum : Z) (g g' : Rng)
  (x y ans : Z) :
  unit_draws g -> 1 <= maxNum <= 100 ->
  MathGenerator_operands o maxNum g = ((x, y, ans), g') ->
  evalOp o x y = Some ans /\ 1 <= ans <= 256 /\ unit_draws g'.
Proof.
  intros U N H. destruct o; cbn [MathGenerator_operands] in H.
  - destruct (randomIndex maxNum g) as [i g1] eqn:R1.
    apply randomIndex_spec in R1; [|exact U|lia]. destruct R1 as (I1 & U1).
    destruct (randomIndex maxNum g1) as [j g2] eqn:R2.
    apply randomIndex_spec in R2; [|exact U1|lia]. destruct R2 as (I2 & U2).
    inversion H; subst. cbn [evalOp]. split; [reflexivity|split; [lia|assumption]].
  - destruct (randomIndex maxNum g) as [i g1] eqn:R1.
    apply randomIndex_spec in R1; [|exact U|lia]. destruct R1 as (I1 & U1).
    destruct (randomIndex (i + 10) g1) as [j g2] eqn:R2.
    apply randomIndex_spec in R2; [|exact U1|lia]. destruct R2 as (I2 & U2).
    inversion H; subst. cbn [evalOp]. split; [reflexivity|split; [lia|assumption]].
  - set (multMax := Z.min 15 (Math_ceil (inject_Z maxNum / 2))) in H.
    assert (M : 1 <= multMax <= 15).
    { assert (0 < Math_ceil (inject_Z maxNum / 2)).
      { apply Math_ceil_pos.
        assert (0 < inject_Z maxNum)%Q
          by (change (inject_Z 0 < inject_Z maxNum)%Q; rewrite <- Zlt_Qlt; lia).
        apply Qlt_shift_div_l; lra. }
      subst multMax. lia. }
    destruct (randomIndex multMax g) as [i g1] eqn:R1.
    apply randomIndex_spec in R1; [|exact U|lia]. destruct R1 as (I1 & U1).
    destruct (randomIndex 10 g1) as [j g2] eqn:R2.
    apply randomIndex_spec in R2; [|exact U1|lia]. destruct R2 as (I2 & U2).
    inversion H; subst. cbn [evalOp]. split; [reflexivity|split; [nia|assumption]].
  - destruct (randomIndex 12 g) as [i g1] eqn:R1.
    apply randomIndex_spec in R1; [|exact U|lia]. destruct R1 as (I1 & U1).
    destruct (randomIndex 12 g1) as [j g2] eqn:R2.
    apply randomIndex_spec in R2; [|exact U1|lia]. destruct R2 as (I2 & U2).
    inversion H; subst. cbn [evalOp].
    assert (B : i + 2 <> 0) by lia.
    rewrite (Z.mul_comm (i + 2) (j + 2)), Z.rem_mul, Z.quot_mul by exact B.
    apply Z.eqb_neq in B. rewrite B. rewrite Z.eqb_refl. cbn [orb negb].
    split; [reflexivity|split; [lia|assumption]].
  - destruct (randomIndex 15 g) as [i g1] eqn:R1.
    apply randomIndex_spec in R1; [|exact U|lia]. destruct R1 as (I1 & U1).
    inversion H; subst. cbn [evalOp]. split; [reflexivity|split; [nia|assumption]].
Qed.

(** The same for the three operations of the basic build. *)
Lemma basic_operands_true (o : Operation) (g g' : Rng) (x y ans : Z) :
  unit_draws g -> In o [op_add; op_sub; op_mul] ->
  basic_operands o g = ((x, y, ans), g') ->
  evalOp o x y = Some ans /\ 1 <= ans <= 144 /\ unit_draws g'.
Proof.
  intros U I H.
  destruct o; cbn [basic_operands] in H;
    try (exfalso; simpl in I; intuition discriminate).
  - destruct (randomIndex 20 g) as [i g1] eqn:R1.
    apply randomIndex_spec in R1; [|exact U|lia]. destruct R1 as (I1 & U1).
    destruct (randomIndex 20 g1) as [j g2] eqn:R2.
    apply randomIndex_spec in R2; [|exact U1|lia]. destruct R2 as (I2 & U2).
    inversion H; subst. cbn [evalOp]. split; [reflexivity|split; [lia|assumption]].
  - destruct (randomIndex 30 g) as [i g1] eqn:R1.
    apply randomIndex_spec in R1; [|exact U|lia]. destruct R1 as (I1 & U1).
    destruct (randomIndex (i + 10) g1) as [j g2] eqn:R2.
    apply randomIndex_spec in R2; [|exact U1|lia]. destruct R2 as (I2 & U2).
    inversion H; subst. cbn [evalOp]. split; [reflexivity|split; [lia|assumption]].
  - destruct (randomIndex 12 g) as [i g1] eqn:R1.
    apply randomIndex_spec in R1; [|exact U|lia]. destruct R1 as (I1 & U1).
    destruct (randomIndex 12 g1) as [j g2] eqn:R2.
    apply randomIndex_spec in R2; [|exact U1|lia]. destruct R2 as (I2 & U2).
    inversion H; subst. cbn [evalOp]. split; [reflexivity|split; [nia|assumption]].
Qed.

Lemma operandsAt_true (b : Build) (w : Z) (o : Operation) (g g' : Rng)
  (x y ans : Z) :
  unit_draws g -> In o (operationsAt b w) ->
  operandsAt b w o g = ((x, y, ans), g') ->
  evalOp o x y = Some ans /\ 1 <= ans <= answerCap b /\ unit_draws g'.
Proof.
  intros U I H. destruct b; simpl in *.
  - apply (basic_operands_true o g g'); assumption.
  - apply (MathGenerator_operands_true o _ g g' x y ans U
             (difficulty_maxNum w) H).
Qed.

Lemma drawWrong_near (ans : Z) (g g1 : Rng) (d : Z) :
  unit_draws g -> drawWrong ans g = (d, g1) ->
  ans - 5 <= d <= ans + 4 /\ d <> ans /\ unit_draws g1.
Proof.
  intros U H. unfold drawWrong in H.
  destruct (randomIndex 10 g) as [i g0] eqn:R.
  apply randomIndex_spec in R; [|exact U|lia]. destruct R as (I & U0).
  destruct (i - 5 =? 0) eqn:Z0.
  - destruct (Math_random g0) as [r g2] eqn:R2.
    assert (U2 : unit_draws g2).
    { unfold Math_random in R2. inversion R2.
      eapply unit_draws_source; [|exact U0]. reflexivity. }
    destruct (Qlt_bool (1 # 2) r); inversion H; subst;
      (split; [lia|split; [lia|exact U2]]).
  - apply Z.eqb_neq in Z0. inversion H; subst.
    split; [lia|split; [lia|exact U0]].
Qed.

(** Every decoy the loop keeps lies within five of the answer. *)
Lemma wrongAnswers_loop_near (fuel : nat) (ans : Z) :
  forall (acc : list Z) (g : Rng) (res : list Z) (g' : Rng),
    unit_draws g ->
    wrongAnswers_loop fuel ans acc g = Some (res, g') ->
    Forall (fun d => ans - 5 <= d <= ans + 4) acc ->
    Forall (fun d => ans - 5 <= d <= ans + 4) res.
Proof.
  induction fuel as [|fuel IH]; intros acc g res g' U H F;
    cbn [wrongAnswers_loop] in H;
    destruct (List.length acc <? 2)%nat;
    try discriminate; try (inversion H; subst; exact F).
  destruct (drawWrong ans g) as [d g1] eqn:D.
  apply drawWrong_near in D; [|exact U]. destruct D as (N & _ & U1).
  destruct (negb (d =? ans) && (0 <? d) && negb (includes acc d)).
  - apply (IH _ _ _ _ U1 H). apply Forall_app. split; [exact F|].
    constructor; [exact N|constructor].
  - apply (IH _ _ _ _ U1 H F).
Qed.

(** How a sum comes about, in either build: an unlocked operation, its
    operands, two decoys from the loop, the three values shuffled over the
    zones. *)
Lemma sum_anatomy (b : Build) (fuel : nat) (gs : GameState) (this r : Robot)
  (g g' : Rng) :
  unit_draws g -> askedMode b gs = math ->
  generateQuestion b fuel gs this g = Some (r, g') ->
  exists o x y ans d1 d2 g1 g2 g3,
    In o (operationsAt b (wave gs))
    /\ unit_draws g1
    /\ operandsAt b (wave gs) o g1 = ((x, y, ans), g2)
    /\ wrongAnswers_loop fuel ans [] g2 = Some ([d1; d2], g3)
    /\ question r = mathQuestion o x y
    /\ correctAnswer r = VNum ans
    /\ Permutation [VNum ans; VNum d1; VNum d2] (zones r).
Proof.
  intros U A H.
  assert (T : forall ops o x y ans g1 g2 g3 wrongs i,
             randomIndex (Z.of_nat (List.length ops)) g = (i, g1) ->
             nth_error ops (Z.to_nat i) = Some o ->
             ops = operationsAt b (wave gs) ->
             operandsAt b (wave gs) o g1 = ((x, y, ans), g2) ->
             wrongAnswers_loop fuel ans [] g2 = Some (wrongs, g3) ->
             bindZones (mkGenerated (VNum ans) (map VNum wrongs))
               (set_correctAnswer (VNum ans)
                  (set_question (mathQuestion o x y) this)) g3 = (r, g') ->
             exists o x y ans d1 d2 g1 g2 g3,
               In o (operationsAt b (wave gs))
               /\ unit_draws g1
               /\ operandsAt b (wave gs) o g1 = ((x, y, ans), g2)
               /\ wrongAnswers_loop fuel ans [] g2 = Some ([d1; d2], g3)
               /\ question r = mathQuestion o x y
               /\ correctAnswer r = VNum ans
               /\ Permutation [VNum ans; VNum d1; VNum d2] (zones r)).
  { intros ops o x y ans g1 g2 g3 wrongs i R N E O L B.
    assert (U1 : unit_draws g1)
      by (eapply unit_draws_source; [eapply randomIndex_source; exact R|exact U]).
    assert (I : In o (operationsAt b (wave gs)))
      by (rewrite <- E; eapply nth_error_In; exact N).
    destruct (operandsAt_true b (wave gs) o g1 g2 x y ans U1 I O)
      as (_ & _ & U2).
    pose proof L as L'.
    apply wrongAnswers_loop_spec in L';
      [|simpl; lia|constructor|constructor].
    destruct L' as (L1 & _ & _ & S3).
    destruct (three_of_length wrongs L1) as (d1 & d2 & ->).
    assert (U3 : unit_draws g3) by (eapply unit_draws_source; eassumption).
    pose proof (bindZones_spec (VNum ans) (VNum d1) (VNum d2)
                  (set_correctAnswer (VNum ans)
                     (set_question (mathQuestion o x y) this)) g3 U3)
      as (P & CA & Q).
    cbv zeta in P, CA, Q. simpl map in B. rewrite B in P, CA, Q.
    cbn [fst] in P, CA, Q.
    exists o, x, y, ans, d1, d2, g1, g2, g3. auto 10. }
  destruct b; simpl in H.
  - unfold Robot_generateMathQuestion in H.
    destruct (randomIndex _ g) as [i g1] eqn:R1.
    destruct (i <? 0); [discriminate|].
    destruct (nth_error _ (Z.to_nat i)) as [o|] eqn:N; [|discriminate].
    destruct (basic_operands o g1) as [[[x y] ans] g2] eqn:R2.
    destruct (wrongAnswers_loop fuel ans [] g2) as [[wrongs g3]|] eqn:L;
      [|discriminate].
    apply Some_inj in H.
    exact (T _ o x y ans g1 g2 g3 wrongs i R1 N eq_refl R2 L H).
  - unfold Robot_generateQuestion in H. simpl in A. rewrite A in H.
    unfold MathGenerator_generate in H.
    remember (MathGenerator_difficulty (wave gs)) as d eqn:D.
    destruct d as [ops maxNum].
    destruct (randomIndex _ g) as [i g1] eqn:R1.
    destruct (i <? 0); [discriminate|].
    destruct (nth_error ops (Z.to_nat i)) as [o|] eqn:N; [|discriminate].
    destruct (MathGenerator_operands o maxNum g1) as [[[x y] ans] g2] eqn:R2.
    destruct (wrongAnswers_loop fuel ans [] g2) as [[wrongs g3]|] eqn:L;
      [|discriminate].
    apply Some_inj in H.
    apply (T ops o x y ans g1 g2 g3 wrongs i R1 N); auto.
    + unfold operationsAt. rewrite <- D. reflexivity.
    + unfold operandsAt. rewrite <- D. exact R2.
Qed.

(** X1.  In math mode the robot's correct answer is the true value of the
    question it shows, in both builds and under draws in [0, 1): the
    question reads [x o y = ?] for an operation [o] unlocked at the current
    wave, and the correct answer is what [x o y] evaluates to; a division
    is exact and never by zero. *)
Theorem X1_sum_answer_is_true (b : Build) (fuel : nat) (gs : GameState)
  (this r : Robot) (g g' : Rng) :
  unit_draws g -> askedMode b gs = math ->
  generateQuestion b fuel gs this g = Some (r, g') ->
  exists o x y ans,
    In o (operationsAt b (wave gs))
    /\ question r = mathQuestion o x y
    /\ correctAnswer r = VNum ans
    /\ evalOp o x y = Some ans.
Proof.
  intros U A H.
  destruct (sum_anatomy b fuel gs this r g g' U A H)
    as (o & x & y & ans & d1 & d2 & g1 & g2 & g3 & I & U1 & O & _ & Q & C & _).
  destruct (operandsAt_true b (wave gs) o g1 g2 x y ans U1 I O) as (E & _).
  exists o, x, y, ans. auto.
Qed.

(** X2.  In math mode, under draws in [0, 1), every number a robot carries
    is a positive integer close to the answer: the answer lies between 1
    and the cap of the build (144 basic, 256 enhanced) and each of the
    three zone values is at least 1 and lies between answer - 5 and
    answer + 4. *)
Theorem X2_sum_values_near (b : Build) (fuel : nat) (gs : GameState)
  (this r : Robot) (g g' : Rng) :
  unit_draws g -> askedMode b gs = math ->
  generateQuestion b fuel gs this g = Some (r, g') ->
  exists ans,
    correctAnswer r = VNum ans
    /\ 1 <= ans <= answerCap b
    /\ Forall (fun v => exists n, v = VNum n /\ 1 <= n
                                  /\ ans - 5 <= n <= ans + 4) (zones r).
Proof.
  intros U A H.
  destruct (sum_anatomy b fuel gs this r g g' U A H)
    as (o & x & y & ans & d1 & d2 & g1 & g2 & g3 & I & U1 & O & L & _ & C & P).
  destruct (operandsAt_true b (wave gs) o g1 g2 x y ans U1 I O)
    as (_ & B & U2).
  exists ans. split; [exact C|]. split; [exact B|].
  pose proof (wrongAnswers_loop_near fuel ans [] g2 _ g3 U2 L (Forall_nil _))
    as F.
  apply wrongAnswers_loop_spec in L; [|simpl; lia|constructor|constructor].
  destruct L as (_ & _ & F2 & _).
  inversion F as [|? ? N1 F']; subst. inversion F' as [|? ? N2 _]; subst.
  inversion F2 as [|? ? (_ & P1) F2']; subst.
  inversion F2' as [|? ? (_ & P2) _]; subst.
  eapply Permutation_Forall; [exact P|].
  repeat constructor.
  - exists ans. split; [reflexivity|lia].
  - exists d1. split; [reflexivity|lia].
  - exists d2. split; [reflexivity|lia].
Qed.

(** ** The page and the simulation *)

(** The page-level functions only add to the simulation: what they do to
    the world is what the simulation's functions do. *)

(** Case analysis on the guards of a handler. *)
Ltac guards :=
  repeat match goal with
    | |- context [if ?c then _ else _] => destruct c
    | |- context [match ?c with Some _ => _ | None => _ end] => destruct c
    end.

Ltac keeps := unfold sameRun, sameBooks; guards; repeat split; reflexivity.

Lemma set_gameState_same (w : World) : set_gameState (gameState w) w = w.
Proof. destruct w; reflexivity. Qed.

Lemma world_updateHealthBar (p : Page) : world (updateHealthBar p) = world p.
Proof.
  unfold updateHealthBar. cbv zeta. destruct (belowThirty _); reflexivity.
Qed.

Lemma adSession_updateHealthBar (p : Page) :
  adSession (updateHealthBar p) = adSession p.
Proof.
  unfold updateHealthBar. cbv zeta. destruct (belowThirty _); reflexivity.
Qed.

Lemma world_checkExtraLifeOffer (p : Page) :
  world (checkExtraLifeOffer p) = world p.
Proof.
  unfold checkExtraLifeOffer. cbv zeta. destruct (_ && _); reflexivity.
Qed.

Lemma adSession_checkExtraLifeOffer (p : Page) :
  adSession (checkExtraLifeOffer p) = adSession p.
Proof.
  unfold checkExtraLifeOffer. cbv zeta. destruct (_ && _); reflexivity.
Qed.

Lemma world_showFinalGameOver (p : Page) :
  world (fst (showFinalGameOver p))
  = set_gameState (set_isRunning false (gameState (world p))) (world p)
  /\ adSession (fst (showFinalGameOver p)) = adSession p
  /\ snd (showFinalGameOver p) = Throws.
Proof. auto. Qed.

Lemma world_showReviveModal (p : Page) :
  world (fst (showReviveModal p))
  = set_gameState (set_isRunning false (gameState (world p))) (world p)
  /\ adSession (fst (showReviveModal p)) = adSession p
  /\ snd (showReviveModal p)
     = (if canShowAd "revive" (adSession p) then Returns else Throws).
Proof.
  unfold showReviveModal. destruct (canShowAd _ _); [|auto].
  cbv zeta. cbn [negb]. destruct (isMobile _); auto.
Qed.

Lemma world_Page_endGame (b : Build) (p : Page) :
  world (fst (Page_endGame b p))
  = set_gameState (fst (endGame b (adSession p) (gameState (world p))))
      (world p)
  /\ adSession (fst (Page_endGame b p)) = adSession p
  /\ snd (Page_endGame b p)
     = snd (endGame b (adSession p) (gameState (world p))).
Proof.
  destruct b; simpl.
  - destruct (isMobile _); auto.
  - destruct (negb (isRunning (gameState (world p)))) eqn:R.
    + split; [symmetry; apply set_gameState_same|auto].
    + destruct (world_showReviveModal
                  (onGameState (set_isRunning false) p)) as (W & A & C).
      rewrite W, A, C. change (adSession (onGameState _ p)) with (adSession p).
      destruct (canShowAd "revive" (adSession p)); auto.
Qed.

Section Projection.
Context {M : MathLib} {B : Browser}.

Lemma world_updateQuestionDisplay (b : Build) (rc : Raycaster) (p : Page) :
  world (updateQuestionDisplay b rc p) = world p.
Proof.
  unfold updateQuestionDisplay. destruct (robots (world p)); [reflexivity|].
  destruct (aimedRobot rc _); [reflexivity|].
  destruct b; [|reflexivity].
  destruct (closestRobot _ _ _) as [[d r']|]; reflexivity.
Qed.

Lemma world_updateThreatIndicator (p : Page) :
  world (updateThreatIndicator p) = world p.
Proof.
  unfold updateThreatIndicator. cbv zeta.
  destruct (negb (Z.rem _ 10 =? 0)); [reflexivity|].
  destruct (_ || _); [reflexivity|].
  destruct (closestRobot _ _ _) as [[d r']|]; [|reflexivity].
  destruct (Qlt_bool d MAX_DETECT_RANGE); reflexivity.
Qed.

Lemma Page_attackPlayer_world (b : Build) (r : Robot) (p : Page) :
  projects (Page_attackPlayer b r p) p
    (Robot_attackPlayer b (adSession p) r (world p)).
Proof.
  unfold projects, Page_attackPlayer, Robot_attackPlayer.
  destruct (match b with Enhanced => _ | Basic => _ end); [auto|].
  cbv zeta.
  change (damage (set_attackCooldown (15 # 10) r)) with (damage r).
  set (p1 := onGameState _ p).
  set (p2 := match b with
             | Enhanced => checkExtraLifeOffer (updateHealthBar p1)
             | Basic => updateHealthBar p1
             end).
  assert (W : world p2 = world p1 /\ adSession p2 = adSession p1).
  { subst p2. destruct b.
    - split; [apply world_updateHealthBar|apply adSession_updateHealthBar].
    - rewrite world_checkExtraLifeOffer, adSession_checkExtraLifeOffer.
      split; [apply world_updateHealthBar|apply adSession_updateHealthBar]. }
  destruct W as (W & A). change (adSession p1) with (adSession p) in A.
  assert (H : health (gameState (world p2))
              = health (gameState (world p)) - damage r)
    by (rewrite W; reflexivity).
  rewrite H.
  change (health (set_health (health (gameState (world p)) - damage r)
                    (gameState (world p))))
    with (health (gameState (world p)) - damage r).
  destruct (health (gameState (world p)) - damage r <=? 0).
  - destruct (world_Page_endGame b p2) as (W2 & A2 & C2).
    destruct (Page_endGame b p2) as [p3 c3]. cbn [fst snd] in W2, A2, C2.
    rewrite A, W in *. subst c3.
    change (gameState (world p1))
      with (set_health (health (gameState (world p)) - damage r)
              (gameState (world p))) in W2.
    destruct (endGame b (adSession p) _) as [gs c]. cbn [fst snd] in *.
    split; [reflexivity|]. split; [|split; [reflexivity|exact A2]].
    rewrite W2. reflexivity.
  - rewrite W.
    change (camera (world p1)) with (camera (world p)).
    change (rng (world p1)) with (rng (world p)).
    change (camera (set_gameState
                      (set_health (health (gameState (world p)) - damage r)
                         (gameState (world p))) (world p)))
      with (camera (world p)).
    change (rng (set_gameState
                   (set_health (health (gameState (world p)) - damage r)
                      (gameState (world p))) (world p)))
      with (rng (world p)).
    destruct (aroundPlayer _ _) as [pt g]. cbn [fst snd].
    repeat split; exact A.
Qed.

Lemma Page_Robot_update_world (b : Build) (dt : Q) (r : Robot) (p : Page) :
  projects (Page_Robot_update b dt r p) p
    (Robot_update b (adSession p) dt r (world p)).
Proof.
  unfold Page_Robot_update, Robot_update.
  destruct (dying r); [repeat split|].
  cbv zeta. destruct (_ && _); [|repeat split].
  apply Page_attackPlayer_world.
Qed.

Lemma Page_updateRobots_cons (b : Build) (dt : Q) (r : Robot)
  (rs : list Robot) (p : Page) :
  Page_updateRobots b dt (r :: rs) p
  = let u := Page_Robot_update b dt r p in
    match snd u with
    | Throws => (fst (fst u) :: rs, snd (fst u), Throws)
    | Returns =>
        let v := Page_updateRobots b dt rs (snd (fst u)) in
        (fst (fst u) :: fst (fst v), snd (fst v), snd v)
    end.
Proof.
  simpl. destruct (Page_Robot_update b dt r p) as [[r' p1] [|]]; simpl;
    [|reflexivity].
  destruct (Page_updateRobots b dt rs p1) as [[rs' p2] c]. reflexivity.
Qed.

Lemma Page_updateRobots_world (b : Build) (dt : Q) (rs : list Robot)
  (p : Page) :
  projects (Page_updateRobots b dt rs p) p
    (updateRobots b (adSession p) dt rs (world p)).
Proof.
  revert p. induction rs as [|r rs IH]; intro p; [repeat split|].
  rewrite Page_updateRobots_cons, updateRobots_cons. cbv zeta.
  destruct (Page_Robot_update_world b dt r p) as (F & W & C & A).
  rewrite <- C.
  destruct (snd (Page_Robot_update b dt r p)); unfold projects; cbn [fst snd].
  - destruct (IH (snd (fst (Page_Robot_update b dt r p))))
      as (F1 & W1 & C1 & A1).
    rewrite A, W in *. rewrite F, F1, W1, C1. repeat split. congruence.
  - rewrite F, W. repeat split. exact A.
Qed.

Lemma Page_collectPickup_world (k : HealthPickup) (p : Page) :
  fst (Page_collectPickup k p) = fst (collectPickup k (world p))
  /\ world (snd (Page_collectPickup k p)) = snd (collectPickup k (world p)).
Proof.
  unfold Page_collectPickup, collectPickup.
  destruct (inReach _ k); [|auto]. cbv zeta. cbn [fst snd].
  split; [reflexivity|].
  match goal with |- context [if ?c then _ else _] => destruct c end;
    [rewrite world_updateHealthBar|]; reflexivity.
Qed.

Lemma Page_updatePickups_world (dt : Q) (ks : list HealthPickup) (p : Page) :
  fst (Page_updatePickups dt ks p) = fst (updatePickups dt ks (world p))
  /\ world (snd (Page_updatePickups dt ks p))
     = snd (updatePickups dt ks (world p)).
Proof.
  revert p. induction ks as [|k ks IH]; intro p; simpl; [auto|].
  destruct (Page_collectPickup_world (HealthPickup_update dt k) p) as (F & W).
  destruct (Page_collectPickup _ p) as [k1 p1].
  destruct (collectPickup _ (world p)) as [k2 w2].
  cbn [fst snd] in F, W. subst k2 w2.
  destruct (IH p1) as (F & W).
  destruct (Page_updatePickups dt ks p1) as [ks1 p2].
  destruct (updatePickups dt ks (world p1)) as [ks2 w2].
  cbn [fst snd] in *. subst. auto.
Qed.

End Projection.

Lemma world_showWaveTransitionAd (n : Z) (p : Page) :
  world (showWaveTransitionAd n p) = world p.
Proof. reflexivity. Qed.

Lemma Page_waveAdvance_world (b : Build) (p : Page) :
  world (Page_waveAdvance b p) = waveAdvance b (world p).
Proof.
  unfold Page_waveAdvance, waveAdvance. destruct b; cbv zeta.
  - reflexivity.
  - match goal with
    | |- context [if ?c then updateHealthBar ?q else _] =>
        set (p1 := if c then updateHealthBar q else q);
        assert (W : world p1 = world q)
          by (subst p1; destruct c;
              [apply world_updateHealthBar|reflexivity])
    end.
    cbn [world set_world gameState set_gameState spawnInterval
           set_spawnInterval wave].
    rewrite W.
    cbn [world set_world onGameState gameState set_gameState spawnInterval
           set_spawnInterval wave set_wave set_health].
    cbn [world set_world set_dom onDom onGameState gameState set_gameState
           wave set_wave set_health set_isPaused].
    destruct (shouldShowWaveAd (wave (gameState (world p)) + 1));
      reflexivity.
Qed.

Lemma Page_waveCheck_world (b : Build) (p : Page) :
  world (Page_waveCheck b p) = waveCheck b (world p).
Proof.
  unfold Page_waveCheck, waveCheck.
  destruct (Z.rem _ 5 =? 0); [apply Page_waveAdvance_world|reflexivity].
Qed.

Lemma Page_resolveHit_world (b : Build) (r : Robot) (h : Hit) (p : Page) :
  fst (Page_resolveHit b r h p) = fst (resolveHit b r h (world p))
  /\ world (snd (Page_resolveHit b r h p)) = snd (resolveHit b r h (world p)).
Proof.
  unfold Page_resolveHit, resolveHit. cbv zeta.
  destruct (strict_eq _ _); cbn [fst snd]; [|auto].
  split; [reflexivity|]. rewrite Page_waveCheck_world. reflexivity.
Qed.

Lemma Page_shootRobots_world (b : Build) (rc : Raycaster) (rs : list Robot)
  (p : Page) :
  fst (Page_shootRobots b rc rs p) = fst (shootRobots b rc rs (world p))
  /\ world (snd (Page_shootRobots b rc rs p))
     = snd (shootRobots b rc rs (world p)).
Proof.
  induction rs as [|r rs IH]; simpl; [auto|].
  destruct IH as (F & W).
  destruct (Page_shootRobots b rc rs p) as [rs1 p1].
  destruct (shootRobots b rc rs (world p)) as [rs2 w2].
  cbn [fst snd] in F, W. subst rs2 w2.
  destruct (dying r); [auto|].
  destruct (Robot_checkHit rc r) as [h|]; [|auto].
  destruct (Page_resolveHit_world b r h p) as (F & W).
  destruct (Page_resolveHit b r h p) as [r1 p2].
  destruct (resolveHit b r h (world p)) as [r2 w2].
  cbn [fst snd] in *. subst. auto.
Qed.

Lemma Page_onShoot_world (b : Build) (rc : Raycaster) (p : Page) :
  world (Page_onShoot b rc p) = onShoot b rc (world p).
Proof.
  unfold Page_onShoot, onShoot. destruct (canFire b _); [|reflexivity].
  destruct (Page_shootRobots_world b rc (robots (world p)) p) as (F & W).
  destruct (Page_shootRobots b rc _ p) as [rs1 p1].
  destruct (shootRobots b rc _ (world p)) as [rs2 w2].
  cbn [fst snd] in *. subst. reflexivity.
Qed.

Section Projection2.
Context {M : MathLib} {B : Browser}.

Lemma Page_robotPass_eq (b : Build) (dt : Q) (p : Page) :
  Page_robotPass b dt p
  = let u := Page_updateRobots b dt (robots (world p)) p in
    (set_world
       (set_robots (robotsLeft (snd u) (fst (fst u))) (world (snd (fst u))))
       (snd (fst u)), snd u).
Proof.
  unfold Page_robotPass.
  destruct (Page_updateRobots b dt (robots (world p)) p) as [[rs p1] [|]];
    reflexivity.
Qed.

Lemma Page_robotPass_world (b : Build) (dt : Q) (p : Page) :
  world (fst (Page_robotPass b dt p))
  = fst (robotPass b (adSession p) dt (world p))
  /\ snd (Page_robotPass b dt p) = snd (robotPass b (adSession p) dt (world p))
  /\ adSession (fst (Page_robotPass b dt p)) = adSession p.
Proof.
  rewrite Page_robotPass_eq, robotPass_eq. cbv zeta. cbn [fst snd].
  destruct (Page_updateRobots_world b dt (robots (world p)) p)
    as (F & W & C & A).
  rewrite F, W, C. cbn [world set_world adSession]. auto.
Qed.

Lemma Page_pickupPass_world (b : Build) (dt : Q) (p : Page) :
  world (Page_pickupPass b dt p) = pickupPass b dt (world p).
Proof.
  unfold Page_pickupPass, pickupPass. destruct b; [reflexivity|].
  destruct (Page_updatePickups_world dt (pickups (world p)) p) as (F & W).
  destruct (Page_updatePickups dt _ p) as [ks1 p1].
  destruct (updatePickups dt _ (world p)) as [ks2 w2].
  cbn [fst snd] in F, W. subst. reflexivity.
Qed.

Lemma world_refreshDisplay (b : Build) (rc : Raycaster) (p : Page) :
  world (refreshDisplay b rc p) = world p.
Proof.
  unfold refreshDisplay. cbv zeta.
  destruct b; [|rewrite world_updateThreatIndicator];
    apply world_updateQuestionDisplay.
Qed.

Lemma Page_animate_world (b : Build) (fuel : nat) (dt : Q) (rc : Raycaster)
  (p : Page) :
  option_map (fun x => (world (fst x), snd x)) (Page_animate b fuel dt rc p)
  = animate b (adSession p) fuel dt (world p).
Proof.
  unfold Page_animate, animate, frameRuns.
  destruct (match b with Enhanced => _ | Basic => _ end); [reflexivity|].
  cbn [negb andb].
  destruct (isRunning _); [|reflexivity].
  destruct (spawnTick _ _ _ _) as [w|]; [|reflexivity].
  cbv zeta.
  destruct (Page_robotPass_world b dt (set_world w p)) as (W & C & _).
  cbn [world set_world adSession] in W, C.
  destruct (Page_robotPass b dt (set_world w p)) as [p1 c1].
  destruct (robotPass b (adSession p) dt w) as [w1 c2].
  cbn [fst snd] in W, C. subst w1 c2.
  destruct c1; cbn [option_map fst snd]; [|reflexivity].
  rewrite world_refreshDisplay, Page_pickupPass_world. reflexivity.
Qed.

(** A frame delivered to the page is a frame of the simulation, run with
    the ad session the page has. *)
Lemma Page_animate_frame (b : Build) (fuel : nat) (dt : Q) (rc : Raycaster)
  (p p' : Page) :
  option_map fst (Page_animate b fuel dt rc p) = Some p' ->
  exists c,
    Page_animate b fuel dt rc p = Some (p', c)
    /\ animate b (adSession p) fuel dt (world p) = Some (world p', c).
Proof.
  intro H. pose proof (Page_animate_world b fuel dt rc p) as A.
  destruct (Page_animate b fuel dt rc p) as [[q c]|]; [|discriminate].
  inversion H. subst q. exists c. split; [reflexivity|].
  symmetry. exact A.
Qed.

(** A property of the page that every single update keeps, for robots
    of a given kind, is kept by the loop over such robots, however it
    ends. *)
Lemma Page_updateRobots_keeps (P : Page -> Prop) (K : Robot -> Prop)
  (b : Build) (dt : Q) :
  (forall r p, K r -> P p -> P (snd (fst (Page_Robot_update b dt r p)))) ->
  forall rs p,
    Forall K rs -> P p -> P (snd (fst (Page_updateRobots b dt rs p))).
Proof.
  intros St rs. induction rs as [|r rs IH]; intros p F H; [exact H|].
  rewrite Page_updateRobots_cons. cbv zeta.
  inversion F as [|? ? Fr Frs]; subst.
  pose proof (St r p Fr H) as H1.
  destruct (snd (Page_Robot_update b dt r p)); cbn [fst snd]; [|exact H1].
  apply IH; assumption.
Qed.

Lemma Page_updateRobots_all (P : Page -> Prop) (b : Build) (dt : Q) :
  (forall r p, P p -> P (snd (fst (Page_Robot_update b dt r p)))) ->
  forall rs p, P p -> P (snd (fst (Page_updateRobots b dt rs p))).
Proof.
  intros St rs p.
  apply (Page_updateRobots_keeps P (fun _ => True)); [auto|].
  apply Forall_forall. auto.
Qed.

(** The page a frame leaves: the page it found when the game is paused or
    not running; otherwise the page after the spawn block, the robot loop
    and the filter, and when the loop has returned also after the purge of
    the effects, the pickup pass and the refresh of the displays. *)
Lemma Page_animate_shape (b : Build) (fuel : nat) (dt : Q) (rc : Raycaster)
  (p p' : Page) (c : Completion) :
  Page_animate b fuel dt rc p = Some (p', c) ->
  (frameRuns b (gameState (world p)) = false /\ p' = p /\ c = Returns)
  \/ (frameRuns b (gameState (world p)) = true
      /\ exists w,
           spawnTick b fuel dt (updatePlayerMovement dt (world p)) = Some w
           /\ let u := Page_updateRobots b dt (robots w) (set_world w p) in
              let p2 :=
                set_world
                  (set_robots (robotsLeft c (fst (fst u)))
                     (world (snd (fst u)))) (snd (fst u)) in
              snd u = c
              /\ p' = match c with
                      | Returns =>
                          refreshDisplay b rc
                            (Page_pickupPass b dt
                               (set_world (purgeEffects dt (world p2)) p2))
                      | Throws => p2
                      end).
Proof.
  unfold Page_animate, frameRuns. intro S.
  destruct (match b with Enhanced => _ | Basic => _ end);
    [left; inversion S; auto|].
  cbn [negb andb].
  destruct (isRunning _); [|left; inversion S; auto].
  right. split; [reflexivity|].
  destruct (spawnTick _ _ _ _) as [w|]; [|discriminate].
  exists w. split; [reflexivity|]. cbv zeta in S |- *.
  rewrite Page_robotPass_eq in S. cbv zeta in S.
  cbn [world set_world] in S |- *.
  destruct (snd (Page_updateRobots b dt (robots w) (set_world w p)));
    inversion S; subst; split; reflexivity.
Qed.

(** A property of the page that does not look at the world is kept by a
    frame once the routines that write to the page keep it. *)
Lemma Page_animate_blind (P : Page -> Prop) (b : Build) (fuel : nat) (dt : Q)
  (rc : Raycaster) (p p' : Page) (c : Completion) :
  (forall w q, P q -> P (set_world w q)) ->
  (forall r q, P q -> P (snd (fst (Page_Robot_update b dt r q)))) ->
  (forall q, P q -> P (Page_pickupPass b dt q)) ->
  (forall q, P q -> P (refreshDisplay b rc q)) ->
  Page_animate b fuel dt rc p = Some (p', c) -> P p -> P p'.
Proof.
  intros W U K D S H.
  destruct (Page_animate_shape b fuel dt rc p p' c S)
    as [(_ & -> & _)|(_ & w & _ & S')]; [exact H|].
  cbv zeta in S'. destruct S' as (_ & ->).
  assert (H2 : P (set_world
                    (set_robots
                       (robotsLeft c
                          (fst (fst (Page_updateRobots b dt (robots w)
                                       (set_world w p)))))
                       (world (snd (fst (Page_updateRobots b dt (robots w)
                                           (set_world w p))))))
                    (snd (fst (Page_updateRobots b dt (robots w)
                                 (set_world w p))))))
    by (apply W, (Page_updateRobots_all P b dt U), W, H).
  destruct c; [|exact H2].
  apply D, K, W, H2.
Qed.

Lemma world_showGameScreen (p : Page) : world (showGameScreen p) = world p.
Proof. unfold showGameScreen. cbv zeta. destruct (isMobile _); reflexivity. Qed.

Lemma Page_startGame_world (b : Build) (fuel : nat) (p : Page) :
  option_map world (Page_startGame b fuel p) = startGame b fuel (world p).
Proof.
  unfold Page_startGame. cbv zeta.
  change (world (resetLook (showGameScreen p)))
    with (world (showGameScreen p)).
  rewrite world_showGameScreen.
  destruct (startGame b fuel (world p)) as [w|]; [|reflexivity].
  cbn [option_map]. f_equal.
  destruct b; unfold resetAds;
    cbn [world onDom set_dom set_adSession set_extraLifeOfferShown];
    rewrite world_updateHealthBar; reflexivity.
Qed.

End Projection2.

(** ** The books of a run *)

Lemma sameBooks_refl (w : World) : sameBooks w w.
Proof. repeat split; reflexivity. Qed.

Lemma sameBooks_trans (w1 w2 w3 : World) :
  sameBooks w1 w2 -> sameBooks w2 w3 -> sameBooks w1 w3.
Proof.
  unfold sameBooks. intros (A1 & A2 & A3 & A4 & A5) (B1 & B2 & B3 & B4 & B5).
  repeat split; congruence.
Qed.

Lemma runBooks_same (b : Build) (w w' : World) :
  sameBooks w w' -> runBooks b w -> runBooks b w'.
Proof.
  unfold sameBooks, runBooks. cbv zeta.
  intros (-> & -> & -> & -> & ->) H. exact H.
Qed.

Section Books.
Context {M : MathLib} {B : Browser}.

Lemma startGame_books (b : Build) (fuel : nat) (w w' : World) :
  startGame b fuel w = Some w' -> runBooks b w'.
Proof.
  intro H. unfold startGame in H. cbv zeta in H.
  apply spawnRobot_world in H. destruct H as (r & g & _ & ->).
  unfold runBooks. cbv zeta.
  destruct b; cbn; (repeat split; try lia; try reflexivity);
    exists 0; reflexivity.
Qed.

Lemma Math_max_down (f x i : Q) :
  (i == Math_max f x -> Math_max f (i - (2 # 10)) == Math_max f (x - (2 # 10)))%Q.
Proof.
  intro H.
  destruct (Math_max_cases f x) as [[? E]|[? E]]; rewrite E in H;
    destruct (Math_max_cases f (i - (2 # 10))) as [[? ->]|[? ->]];
    destruct (Math_max_cases f (x - (2 # 10))) as [[? ->]|[? ->]]; lra.
Qed.

(** A hit keeps the books: a correct one enters a kill, and a wave with
    every fifth; a wrong one only resets the combo. *)
Lemma resolveHit_books (b : Build) (r : Robot) (h : Hit) (w : World) :
  runBooks b w -> runBooks b (snd (resolveHit b r h w)).
Proof.
  unfold runBooks. cbv zeta. intros (K & W & C & S & D & I).
  destruct (strict_eq (hit_answer h) (correctAnswer r)) eqn:E.
  - destruct (resolveHit_correct b r h w E) as (_ & S1 & S2 & S3 & _).
    pose proof (resolveHit_wave b r h w E) as V. cbv zeta in V, S1, S2, S3.
    rewrite S1, S2, S3.
    destruct D as (q & D).
    assert (DV : (100 | score (gameState w) + 100 * combo (gameState w)))
      by (exists (q + combo (gameState w)); lia).
    destruct (Z.rem (kills (gameState w) + 1) 5 =? 0) eqn:R.
    + apply Z.eqb_eq in R. destruct V as (V1 & _ & V3). rewrite V1, V3.
      assert (R' : (kills (gameState w) + 1) mod 5 = 0)
        by (rewrite <- Z.rem_mod_nonneg; [exact R|lia|lia]).
      repeat split; try lia; try exact DV.
      * rewrite W. pose proof (Z.div_mod (kills (gameState w)) 5).
        pose proof (Z.div_mod (kills (gameState w) + 1) 5).
        pose proof (Z.mod_pos_bound (kills (gameState w)) 5). lia.
      * rewrite (Math_max_down _ _ _ I).
        replace (wave (gameState w) + 1 - 1) with (wave (gameState w) - 1 + 1)
          by lia.
        rewrite inject_Z_plus.
        destruct (Math_max_cases (spawnFloor b)
                    (2 - (2 # 10) * inject_Z (wave (gameState w) - 1)
                     - (2 # 10))) as [[? ->]|[? ->]];
          destruct (Math_max_cases (spawnFloor b)
                      (2 - (2 # 10)
                           * (inject_Z (wave (gameState w) - 1) + inject_Z 1)))
            as [[? ->]|[? ->]];
          change (inject_Z 1) with 1%Q in *; lra.
    + apply Z.eqb_neq in R. destruct V as (V1 & _ & V3). rewrite V1, V3.
      assert (R' : (kills (gameState w) + 1) mod 5 <> 0)
        by (rewrite <- Z.rem_mod_nonneg; [exact R|lia|lia]).
      repeat split; try lia; try exact DV; try exact I.
      rewrite W. pose proof (Z.div_mod (kills (gameState w)) 5).
      pose proof (Z.div_mod (kills (gameState w) + 1) 5).
      pose proof (Z.mod_pos_bound (kills (gameState w)) 5).
      pose proof (Z.mod_pos_bound (kills (gameState w) + 1) 5). lia.
  - destruct (resolveHit_wrong b r h w E) as (_ & G & V). rewrite G, V.
    cbn [kills wave combo score set_combo].
    repeat split; try lia; try assumption.
Qed.

Lemma onShoot_cases (b : Build) (rc : Raycaster) (w : World) :
  onShoot b rc w = w
  \/ exists r h rs,
       canFire b (gameState w) = true
       /\ firstLiveHit rc (robots w) = Some (r, h)
       /\ onShoot b rc w = set_robots rs (snd (resolveHit b r h w)).
Proof.
  destruct (canFire b (gameState w)) eqn:F; [|left; apply onShoot_held, F].
  destruct (firstLiveHit rc (robots w)) as [[r h]|] eqn:L.
  - right. pose proof L as L'.
    apply firstLiveHit_split in L'. destruct L' as (bf & af & E & HB & D & K).
    exists r, h, (bf ++ fst (resolveHit b r h w) :: af).
    split; [reflexivity|]. split; [reflexivity|].
    apply (onShoot_target b rc w bf af r h F E HB D K).
  - left. apply onShoot_miss, firstLiveHit_none, L.
Qed.

Lemma onShoot_books (b : Build) (rc : Raycaster) (w : World) :
  runBooks b w -> runBooks b (onShoot b rc w).
Proof.
  intro H. destruct (onShoot_cases b rc w) as [->|(r & h & rs & _ & _ & ->)];
    [exact H|].
  exact (resolveHit_books b r h w H).
Qed.

Lemma sameRun_refl (w : World) : sameRun w w.
Proof. repeat split; reflexivity. Qed.

Lemma sameRun_trans (w1 w2 w3 : World) :
  sameRun w1 w2 -> sameRun w2 w3 -> sameRun w1 w3.
Proof.
  intros (A & A1 & A2 & A3) (C & C1 & C2 & C3).
  split; [eapply sameBooks_trans; eassumption|]. repeat split; congruence.
Qed.

Lemma fold_left_preserves {A X : Type} (P : A -> Prop) (f : A -> X -> A)
  (l : list X) :
  (forall a x, P a -> P (f a x)) -> forall a, P a -> P (fold_left f l a).
Proof. intro H. induction l as [|x l IH]; simpl; auto. Qed.

Lemma attemptRevive_run (p : Page) : sameRun (world p) (world (attemptRevive p)).
Proof. unfold attemptRevive, showRewardedAd. cbv zeta. keeps. Qed.

Lemma claimExtraLife_run (p : Page) :
  sameRun (world p) (world (claimExtraLife p)).
Proof. unfold claimExtraLife, showRewardedAd. cbv zeta. keeps. Qed.

Lemma showFinalGameOver_run (p : Page) :
  sameRun (world p) (world (fst (showFinalGameOver p))).
Proof. keeps. Qed.

Lemma executeRevive_run (p : Page) :
  sameRun (world p) (world (executeRevive p)).
Proof.
  unfold executeRevive. cbv zeta.
  match goal with
  | |- context [updateHealthBar ?q] =>
      assert (W : world (updateHealthBar q) = world q)
        by apply world_updateHealthBar;
      set (p1 := updateHealthBar q) in *
  end.
  destruct (isMobile _);
    cbn [world onDom onGameState set_dom set_world]; rewrite W;
    repeat split; reflexivity.
Qed.

Lemma reviveAdOver_run (p : Page) : sameRun (world p) (world (reviveAdOver p)).
Proof.
  unfold reviveAdOver.
  destruct (showMockRewardedAd_over "revive" (adSession p)) as [s [[|c t]|]].
  - apply (executeRevive_run (set_adSession s p)).
  - apply sameRun_refl.
  - apply sameRun_refl.
Qed.

Lemma extraLifeAdOver_run (p : Page) :
  sameRun (world p) (world (extraLifeAdOver p)).
Proof.
  unfold extraLifeAdOver.
  destruct (showMockRewardedAd_over "extraLife" (adSession p)) as [s [r|]];
    [|apply sameRun_refl].
  cbv zeta. cbn [world set_extraLifeOfferShown onDom set_dom].
  rewrite world_updateHealthBar. repeat split; reflexivity.
Qed.

Lemma waveAdOver_run (p : Page) : sameRun (world p) (world (waveAdOver p)).
Proof. repeat split; reflexivity. Qed.

Lemma fire_run (t : Timer) (p : Page) : sameRun (world p) (world (fire t p)).
Proof.
  destruct t as [[|]| |]; simpl.
  - apply reviveAdOver_run.
  - apply extraLifeAdOver_run.
  - apply waveAdOver_run.
  - apply attemptRevive_run.
Qed.

Lemma togglePause_run (p : Page) : sameRun (world p) (world (togglePause p)).
Proof. unfold togglePause. cbv zeta. keeps. Qed.

Lemma setGameMode_run (m : Mode) (p : Page) :
  sameRun (world p) (world (setGameMode m p)).
Proof. unfold setGameMode. destruct m; repeat split; reflexivity. Qed.

Lemma onKeyDown_run (b : Build) (code : string) (p : Page) :
  sameRun (world p) (world (onKeyDown b code p)).
Proof. unfold onKeyDown. keeps. Qed.

Lemma onKeyUp_run (code : string) (p : Page) :
  sameRun (world p) (world (onKeyUp code p)).
Proof. repeat split; reflexivity. Qed.

Lemma turnCamera_run (y x : Q) (p : Page) :
  sameRun (world p) (world (turnCamera y x p)).
Proof. repeat split; reflexivity. Qed.

Lemma onMouseMove_run (b : Build) (x y : Q) (p : Page) :
  sameRun (world p) (world (onMouseMove b x y p)).
Proof.
  unfold onMouseMove. destruct (_ || _);
    [apply sameRun_refl|apply turnCamera_run].
Qed.

Lemma onTouchStart_run (b : Build) (ts : list Touch) (now : Z) (p : Page) :
  sameRun (world p) (world (onTouchStart b ts now p)).
Proof.
  unfold onTouchStart. destruct (inputOff _ _); [apply sameRun_refl|].
  apply (fold_left_preserves (fun q => sameRun (world p) (world q)));
    [|apply sameRun_refl].
  intros a x H. destruct (lookTouchId (look a)); exact H.
Qed.

Lemma onTouchMove_run (b : Build) (ts : list Touch) (p : Page) :
  sameRun (world p) (world (onTouchMove b ts p)).
Proof.
  unfold onTouchMove. destruct (inputOff _ _); [apply sameRun_refl|].
  apply (fold_left_preserves (fun q => sameRun (world p) (world q)));
    [|apply sameRun_refl].
  intros a x H. destruct (sameTouch x _); [|exact H].
  eapply sameRun_trans; [exact H|]. repeat split; reflexivity.
Qed.

Lemma updateJoystick_run (x y : Q) (p : Page) :
  sameRun (world p) (world (updateJoystick x y p)).
Proof. unfold updateJoystick. cbv zeta. keeps. Qed.

Lemma onJoystickStart_run (b : Build) (rect : Rect) (ts : list Touch)
  (p : Page) : sameRun (world p) (world (onJoystickStart b rect ts p)).
Proof.
  unfold onJoystickStart. destruct (inputOff _ _); [apply sameRun_refl|].
  cbv zeta. destruct ts as [|t ts]; [apply sameRun_refl|].
  destruct (joystickTouchId _); [apply sameRun_refl|].
  match goal with
  | |- sameRun _ (world (updateJoystick ?x ?y ?q)) =>
      apply (updateJoystick_run x y q)
  end.
Qed.

Lemma onJoystickMove_run (b : Build) (ts : list Touch) (p : Page) :
  sameRun (world p) (world (onJoystickMove b ts p)).
Proof.
  unfold onJoystickMove. destruct (_ || _); [apply sameRun_refl|].
  destruct (find _ ts); [apply updateJoystick_run|apply sameRun_refl].
Qed.

Lemma onJoystickEnd_run (b : Build) (ts all : list Touch) (p : Page) :
  sameRun (world p) (world (onJoystickEnd b ts all p)).
Proof.
  unfold onJoystickEnd. cbv zeta.
  destruct (existsb _ ts); destruct b; destruct all;
    repeat split; reflexivity.
Qed.

Lemma purgeEffects_fields (dt : Q) (w : World) :
  gameState (purgeEffects dt w) = gameState w
  /\ spawnInterval (purgeEffects dt w) = spawnInterval w
  /\ physics (purgeEffects dt w) = physics w
  /\ robots (purgeEffects dt w) = robots w
  /\ pickups (purgeEffects dt w) = pickups w
  /\ camera (purgeEffects dt w) = camera w.
Proof. repeat split; reflexivity. Qed.

(** What a frame that runs makes of the world, field by field: the
    player has moved, the spawn block has run, the robot loop has left
    its robots, game state and supply of draws, and when the frame runs to
    its end the effects are purged and the pickup pass has run. *)
Lemma animate_shape (b : Build) (ads : AdSession) (fuel : nat) (dt : Q)
  (w w' : World) (c : Completion) :
  frameRuns b (gameState w) = true ->
  animate b ads fuel dt w = Some (w', c) ->
  exists ph cm t sp g gs2 g2,
    let w1 :=
      set_rng g (set_robots (robots w ++ sp)
                   (set_spawnTimer t (set_physics ph (set_camera cm w)))) in
    let w2 :=
      set_rng g2 (set_gameState gs2
        (set_robots
           (robotsLeft c (fst (fst (updateRobots b ads dt (robots w1) w1))))
           w1)) in
    updatePlayerMovement dt w = set_physics ph (set_camera cm w)
    /\ spawnTick b fuel dt (updatePlayerMovement dt w) = Some w1
    /\ snd (updateRobots b ads dt (robots w1) w1) = c
    /\ snd (fst (updateRobots b ads dt (robots w1) w1))
       = set_rng g2 (set_gameState gs2 w1)
    /\ w' = match c with
            | Returns => pickupPass b dt (purgeEffects dt w2)
            | Throws => w2
            end.
Proof.
  intros F H.
  destruct (animate_runs b ads fuel dt w w' c F H) as (w1 & S & C & E).
  destruct (updatePlayerMovement_world dt w) as (ph & cm & U).
  pose proof S as S'. rewrite U in S'.
  apply spawnTick_world in S'. destruct S' as (t & sp & g & E1 & _).
  cbn [robots set_physics set_camera] in E1.
  destruct (updateRobots_world b ads dt (robots w1) w1) as (gs2 & g2 & E2).
  exists ph, cm, t, sp, g, gs2, g2. cbv zeta.
  rewrite <- E1.
  split; [exact U|]. split; [exact S|].
  rewrite robotPass_eq in C, E. cbv zeta in C, E. cbn [fst snd] in C, E.
  split; [exact C|]. split; [exact E2|].
  rewrite C, E2 in E. exact E.
Qed.

(** A frame leaves the books alone. *)
Lemma animate_books (b : Build) (ads : AdSession) (fuel : nat) (dt : Q)
  (w w' : World) (c : Completion) :
  animate b ads fuel dt w = Some (w', c) -> sameBooks w w'.
Proof.
  intro H. pose proof (animate_vitals b ads fuel dt w w' c H) as V.
  destruct V as (V1 & V2 & _ & V4 & V5 & _).
  unfold sameBooks. repeat split; try assumption.
  destruct (frameRuns b (gameState w)) eqn:F.
  - destruct (animate_shape b ads fuel dt w w' c F H)
      as (ph & cm & t & sp & g & gs2 & g2 & _ & _ & _ & _ & ->).
    destruct c; [|reflexivity].
    match goal with
    | |- context [pickupPass b dt ?x] =>
        destruct (pickupPass_world b dt x) as (gs1 & ps1 & ->)
    end.
    reflexivity.
  - rewrite (animate_idle b ads fuel dt w F) in H. inversion H. reflexivity.
Qed.

Lemma onTouchEnd_books (b : Build) (ts : list Touch) (now : Z) (rc : Raycaster)
  (p : Page) :
  runBooks b (world p) -> runBooks b (world (onTouchEnd b ts now rc p)).
Proof.
  unfold onTouchEnd.
  apply (fold_left_preserves (fun q => runBooks b (world q))).
  intros a x H. destruct (sameTouch x _); [|exact H].
  cbv zeta. cbn [world set_look].
  destruct (_ && _); [|exact H].
  rewrite Page_onShoot_world. apply onShoot_books, H.
Qed.

Lemma onCanvasClick_books (b : Build) (rc : Raycaster) (p : Page) :
  runBooks b (world p) -> runBooks b (world (onCanvasClick b rc p)).
Proof.
  intro H. unfold onCanvasClick. guards; try exact H.
  rewrite Page_onShoot_world. apply onShoot_books, H.
Qed.

Lemma step_books (b : Build) (fuel : nat) (e : Event) (p p' : Page) :
  step b fuel e p = Some p' ->
  runBooks b (world p) -> runBooks b (world p').
Proof.
  intros S H.
  assert (K : forall q, sameRun (world p) (world q) -> runBooks b (world q))
    by (intros q (R & _); exact (runBooks_same b _ _ R H)).
  destruct e; simpl in S.
  - destruct (Page_animate_frame b fuel dt rc p p' S) as (c & _ & A).
    apply animate_books in A.
    exact (runBooks_same b _ _ A H).
  - apply Some_inj in S. subst p'. apply K.
    destruct (_ && _);
      [eapply sameRun_trans; [|apply togglePause_run]|]; apply onKeyDown_run.
  - apply Some_inj in S. subst p'. apply K, onKeyUp_run.
  - apply Some_inj in S. subst p'.
    destruct (isMobile _); [exact H|apply onCanvasClick_books, H].
  - apply Some_inj in S. subst p'. apply K.
    destruct (isMobile _); [apply sameRun_refl|apply onMouseMove_run].
  - apply Some_inj in S. subst p'. apply K.
    destruct (isMobile _); repeat split; reflexivity.
  - apply Some_inj in S. subst p'. apply K.
    destruct (isMobile _); [apply onTouchStart_run|apply sameRun_refl].
  - apply Some_inj in S. subst p'. apply K.
    destruct (isMobile _); [apply onTouchMove_run|apply sameRun_refl].
  - apply Some_inj in S. subst p'.
    destruct (isMobile _); [apply onTouchEnd_books, H|exact H].
  - apply Some_inj in S. subst p'. apply K.
    destruct (isMobile _); [apply onJoystickStart_run|apply sameRun_refl].
  - apply Some_inj in S. subst p'. apply K.
    destruct (isMobile _); [apply onJoystickMove_run|apply sameRun_refl].
  - apply Some_inj in S. subst p'. apply K.
    destruct (isMobile _); [apply onJoystickEnd_run|apply sameRun_refl].
  - pose proof (Page_startGame_world b fuel p) as A. rewrite S in A.
    symmetry in A. exact (startGame_books b fuel _ _ A).
  - apply Some_inj in S. subst p'. apply K.
    destruct b; [apply sameRun_refl|apply setGameMode_run].
  - apply Some_inj in S. subst p'. apply K.
    destruct b; [apply sameRun_refl|apply togglePause_run].
  - apply Some_inj in S. subst p'. apply K.
    destruct b; [apply sameRun_refl|apply attemptRevive_run].
  - apply Some_inj in S. subst p'. apply K.
    destruct b; [apply sameRun_refl|apply showFinalGameOver_run].
  - apply Some_inj in S. subst p'. apply K.
    destruct b; [apply sameRun_refl|apply claimExtraLife_run].
  - destruct (nth_error (timers p) n) as [t|]; apply Some_inj in S; subst p';
      [|exact H].
    apply K. apply (fire_run t (set_timers _ p)).
Qed.

(** An invariant of every step is an invariant of every run. *)
Lemma run_preserves (P : Page -> Prop) (b : Build) (fuel : nat) :
  (forall e p p', step b fuel e p = Some p' -> P p -> P p') ->
  forall es p p', run b fuel es p = Some p' -> P p -> P p'.
Proof.
  intros H es. induction es as [|e es IH]; intros p p' R Hp; simpl in R.
  - inversion R. subst. exact Hp.
  - destruct (step b fuel e p) as [p1|] eqn:S; [|discriminate].
    exact (IH p1 p' R (H e p p1 S Hp)).
Qed.

(** X3.  The books of a run are sound at every moment.  After [startGame],
    whatever events follow (frames, shots, keys, touches, pause, ads,
    revive, restarts), in both builds: the wave is 1 + kills div 5, the
    combo lies between 1 and 10, the score is a multiple of 100 between
    100 and 1000 per kill, and the spawn interval is
    max(floor, 2 - 0.2 (wave - 1)) with the floor of the build. *)
Theorem X3_books_of_a_run (b : Build) (fuel : nat) (es : list Event)
  (p0 p p' : Page) :
  Page_startGame b fuel p0 = Some p ->
  run b fuel es p = Some p' ->
  runBooks b (world p').
Proof.
  intros S R.
  apply (run_preserves (fun q => runBooks b (world q)) b fuel
           (step_books b fuel) es p p' R).
  pose proof (Page_startGame_world b fuel p0) as A. rewrite S in A.
  symmetry in A. exact (startGame_books b fuel _ _ A).
Qed.

End Books.

(** ** Vertical physics *)

Section Vertical.
Context {M : MathLib} {B : Browser}.

Lemma updatePlayerMovement_physics (dt : Q) (w : World) :
  let vY := (velocityY (physics w) + gravity * dt)%Q in
  let pY := (playerY (physics w) + vY * dt)%Q in
  playerY (physics (updatePlayerMovement dt w))
  = (if Qle_bool pY 2 then 2%Q else pY)
  /\ velocityY (physics (updatePlayerMovement dt w))
     = (if Qle_bool pY 2 then 0%Q else vY)
  /\ isGrounded (physics (updatePlayerMovement dt w))
     = (if Qle_bool pY 2 then true else isGrounded (physics w))
  /\ vy (cam_position (camera (updatePlayerMovement dt w)))
     = (playerY (physics (updatePlayerMovement dt w))
        + currentBobOffset (physics (updatePlayerMovement dt w)))%Q.
Proof.
  cbv zeta. unfold updatePlayerMovement. cbv zeta.
  destruct (Qle_bool _ 2);
    destruct (if _ && _ then _ else _) as [[bobTime bob] side];
    repeat split; reflexivity.
Qed.

Lemma updatePlayerMovement_onGround (dt : Q) (w : World) :
  onGround w -> onGround (updatePlayerMovement dt w).
Proof.
  intros (P & V & G).
  destruct (updatePlayerMovement_physics dt w) as (E1 & E2 & E3 & _).
  cbv zeta in E1, E2, E3. rewrite P, V in E1, E2, E3.
  assert (C : Qle_bool (2 + (0 + gravity * dt) * dt) 2 = true).
  { apply Qle_bool_iff. unfold gravity.
    assert (0 <= dt * dt)%Q by nra. nra. }
  rewrite C in E1, E2, E3. repeat split; assumption.
Qed.

Lemma animate_physics (b : Build) (ads : AdSession) (fuel : nat) (dt : Q)
  (w w' : World) (c : Completion) :
  animate b ads fuel dt w = Some (w', c) ->
  physics w' = physics w \/ physics w' = physics (updatePlayerMovement dt w).
Proof.
  intro H. destruct (frameRuns b (gameState w)) eqn:F.
  - right.
    destruct (animate_shape b ads fuel dt w w' c F H)
      as (ph & cm & t & sp & g & gs2 & g2 & -> & _ & _ & _ & ->).
    destruct c; [|reflexivity].
    match goal with
    | |- context [pickupPass b dt ?x] =>
        destruct (pickupPass_world b dt x) as (gs1 & ps1 & ->)
    end.
    reflexivity.
  - left. rewrite (animate_idle b ads fuel dt w F) in H. inversion H.
    reflexivity.
Qed.

Lemma waveAdvance_physics (b : Build) (w : World) :
  physics (waveAdvance b w) = physics w.
Proof.
  unfold waveAdvance. cbv zeta. destruct b; [reflexivity|].
  match goal with |- context [if ?c then _ else _] => destruct c end;
    reflexivity.
Qed.

Lemma resolveHit_physics (b : Build) (r : Robot) (h : Hit) (w : World) :
  physics (snd (resolveHit b r h w)) = physics w.
Proof.
  destruct (strict_eq (hit_answer h) (correctAnswer r)) eqn:E.
  - rewrite (resolveHit_correct_eq b r h w E). cbn [snd].
    unfold waveCheck.
    match goal with
    | |- context [maybeDrop b ?r ?x] =>
        destruct (maybeDrop_world b r x) as (ps & g & ->)
    end.
    match goal with
    | |- context [createExplosion b ?pt ?n ?x] =>
        destruct (createExplosion_world b pt n x) as (es & g' & ->)
    end.
    match goal with |- context [if ?c then _ else _] => destruct c end;
      [rewrite waveAdvance_physics|]; reflexivity.
  - rewrite (resolveHit_wrong_eq b r h w E). cbn [snd].
    match goal with
    | |- context [createExplosion b ?pt ?n ?x] =>
        destruct (createExplosion_world b pt n x) as (es & g' & ->)
    end.
    reflexivity.
Qed.

Lemma onShoot_physics (b : Build) (rc : Raycaster) (w : World) :
  physics (onShoot b rc w) = physics w.
Proof.
  destruct (onShoot_cases b rc w) as [->|(r & h & rs & _ & _ & ->)];
    [reflexivity|].
  apply (resolveHit_physics b r h w).
Qed.

Lemma onGround_physics (w w' : World) :
  physics w' = physics w -> onGround w -> onGround w'.
Proof. unfold onGround. intros ->. auto. Qed.

Lemma step_onGround (b : Build) (fuel : nat) (e : Event) (p p' : Page) :
  step b fuel e p = Some p' -> onGround (world p) -> onGround (world p').
Proof.
  intros S H.
  assert (K : forall q, sameRun (world p) (world q) -> onGround (world q))
    by (intros q (_ & _ & R & _); exact (onGround_physics _ _ R H)).
  assert (F : forall ts now rc q,
             onGround (world q) -> onGround (world (onTouchEnd b ts now rc q))).
  { intros ts now rc. unfold onTouchEnd.
    apply (fold_left_preserves (fun q => onGround (world q))).
    intros a x Ha. destruct (sameTouch x _); [|exact Ha].
    cbv zeta. cbn [world set_look].
    destruct (_ && _); [|exact Ha].
    rewrite Page_onShoot_world.
    exact (onGround_physics _ _ (onShoot_physics b rc _) Ha). }
  destruct e; simpl in S;
    try (apply Some_inj in S; subst p').
  - destruct (Page_animate_frame b fuel dt rc p p' S) as (c & _ & A).
    apply animate_physics in A. destruct A as [A|A].
    + exact (onGround_physics _ _ A H).
    + apply (onGround_physics _ _ A), updatePlayerMovement_onGround, H.
  - apply K. destruct (_ && _);
      [eapply sameRun_trans; [|apply togglePause_run]|]; apply onKeyDown_run.
  - apply K, onKeyUp_run.
  - destruct (isMobile _); [exact H|]. unfold onCanvasClick. guards;
      try exact H.
    rewrite Page_onShoot_world.
    exact (onGround_physics _ _ (onShoot_physics b rc _) H).
  - apply K.
    destruct (isMobile _); [apply sameRun_refl|apply onMouseMove_run].
  - apply K. destruct (isMobile _); repeat split; reflexivity.
  - apply K.
    destruct (isMobile _); [apply onTouchStart_run|apply sameRun_refl].
  - apply K.
    destruct (isMobile _); [apply onTouchMove_run|apply sameRun_refl].
  - destruct (isMobile _); [apply F, H|exact H].
  - apply K.
    destruct (isMobile _); [apply onJoystickStart_run|apply sameRun_refl].
  - apply K.
    destruct (isMobile _); [apply onJoystickMove_run|apply sameRun_refl].
  - apply K.
    destruct (isMobile _); [apply onJoystickEnd_run|apply sameRun_refl].
  - pose proof (Page_startGame_world b fuel p) as A. rewrite S in A.
    symmetry in A. apply startGame_spec in A.
    destruct A as (_ & _ & _ & _ & _ & _ & _ & _ & A).
    unfold onGround. rewrite A. repeat split; reflexivity.
  - apply K. destruct b; [apply sameRun_refl|apply setGameMode_run].
  - apply K. destruct b; [apply sameRun_refl|apply togglePause_run].
  - apply K. destruct b; [apply sameRun_refl|apply attemptRevive_run].
  - apply K. destruct b; [apply sameRun_refl|apply showFinalGameOver_run].
  - apply K. destruct b; [apply sameRun_refl|apply claimExtraLife_run].
  - destruct (nth_error (timers p) n) as [t|]; apply Some_inj in S; subst p';
      [|exact H].
    apply K. apply (fire_run t (set_timers _ p)).
Qed.

(** X4.  The player never leaves the ground.  [onJumpButtonPress] is
    attached to no element, so from [startGame] on, whatever events
    follow, in both builds: the player's height is 2, the vertical
    velocity is 0 and [isGrounded] holds. *)
Theorem X4_never_off_the_ground (b : Build) (fuel : nat) (es : list Event)
  (p0 p p' : Page) :
  Page_startGame b fuel p0 = Some p ->
  run b fuel es p = Some p' ->
  onGround (world p').
Proof.
  intros S R.
  apply (run_preserves (fun q => onGround (world q)) b fuel
           (step_onGround b fuel) es p p' R).
  pose proof (Page_startGame_world b fuel p0) as A. rewrite S in A.
  symmetry in A. apply startGame_spec in A.
  destruct A as (_ & _ & _ & _ & _ & _ & _ & _ & A).
  unfold onGround. rewrite A. repeat split; reflexivity.
Qed.

Lemma updatePlayerMovement_inFlight (dt : Q) (w : World) :
  inFlight w -> inFlight (updatePlayerMovement dt w).
Proof.
  unfold inFlight. cbv zeta. intros ((P1 & P2) & G).
  destruct (updatePlayerMovement_physics dt w) as (E1 & E2 & E3 & _).
  cbv zeta in E1, E2, E3. rewrite E1, E2, E3. unfold gravity in *.
  set (v := velocityY (physics w)) in *. set (y := playerY (physics w)) in *.
  destruct (Qle_bool (y + (v + -25 * dt) * dt) 2) eqn:C.
  - split; [split; lra|]. intros _. split; reflexivity.
  - apply Qle_bool_false in C. split.
    + split; [lra|]. assert (0 <= dt * dt)%Q by nra. nra.
    + intro T. destruct (G T) as (Y & V). exfalso.
      assert (0 <= dt * dt)%Q by nra. rewrite Y, V in C. nra.
Qed.

Lemma onJumpButtonPress_inFlight (b : Build) (p : Page) :
  inFlight (world p) -> inFlight (world (onJumpButtonPress b p)).
Proof.
  unfold onJumpButtonPress. intro H.
  destruct (inputOff _ _); [exact H|]. cbv zeta.
  destruct (isGrounded (physics (world p))) eqn:G; [|exact H].
  destruct H as ((P1 & P2) & T). destruct (T G) as (Y & V).
  unfold inFlight. cbn. unfold jumpForce.
  split; [split; [exact P1|rewrite Y; lra]|discriminate].
Qed.

(** X5.  Jumping, were the button wired: from the ground, through any
    sequence of jump presses and movement frames of any length, the
    player's height stays between 2 and 4; the player is grounded only at
    height 2, and a press in mid-air changes nothing, so there is no
    double jump. *)
Theorem X5_jump_height (b : Build) (ms : list (option Q)) (p : Page) :
  onGround (world p) ->
  let q := hops b ms p in
  let ph := physics (world q) in
  (2 <= playerY ph /\ playerY ph <= 4)%Q
  /\ (isGrounded ph = true -> playerY ph == 2)%Q
  /\ (isGrounded ph = false -> onJumpButtonPress b q = q).
Proof.
  intros (Y & V & G). cbv zeta.
  assert (I : inFlight (world p)).
  { unfold inFlight. cbv zeta. rewrite Y, V.
    split; [split; lra|]. intros _. split; reflexivity. }
  clear Y V G. revert p I. induction ms as [|[dt|] ms IH]; intros p I.
  - destruct I as ((P1 & P2) & T). simpl. split; [split; [exact P1|]|split].
    + assert (0 <= velocityY (physics (world p))
                     * velocityY (physics (world p)))%Q by nra.
      lra.
    + intro E. apply (T E).
    + intro E. unfold onJumpButtonPress. rewrite E.
      destruct (inputOff _ _); reflexivity.
  - simpl. apply IH. apply updatePlayerMovement_inFlight, I.
  - simpl. apply IH. apply onJumpButtonPress_inFlight, I.
Qed.

End Vertical.

(** ** The heads-up display *)

Lemma sameHud_refl (p : Page) : sameHud p p.
Proof. repeat split; reflexivity. Qed.

Lemma sameHud_trans (p q r : Page) : sameHud p q -> sameHud q r -> sameHud p r.
Proof.
  intros (A1 & A2 & A3 & A4 & A5) (C1 & C2 & C3 & C4 & C5).
  repeat split; congruence.
Qed.

Lemma healthShown_ext (gs gs' : GameState) :
  health gs' = health gs -> maxHealth gs' = maxHealth gs ->
  healthShown gs' = healthShown gs.
Proof.
  intros H M. unfold healthShown, healthPercentage, healthPercent.
  rewrite H, M. reflexivity.
Qed.

Lemma hudInv_same (p q : Page) : sameHud p q -> hudInv p -> hudInv q.
Proof.
  intros (A1 & A2 & A3 & A4 & A5) (H1 & H2 & H3 & H4).
  unfold hudInv. cbv zeta. rewrite A1, A2, A3, A4, A5.
  rewrite (healthShown_ext _ _ A4 A5). auto.
Qed.

Ltac same_hud := unfold sameHud; guards; repeat split; reflexivity.

(** Writing the health bar brings it up to date and touches nothing else
    of the display. *)
Lemma updateHealthBar_shown (p : Page) :
  healthView (dom (updateHealthBar p))
  = healthShown (gameState (world p))
  /\ talliesView (dom (updateHealthBar p)) = talliesView (dom p).
Proof.
  unfold updateHealthBar, healthShown. cbv zeta.
  destruct (belowThirty (healthPercentage (gameState (world p))));
    split; reflexivity.
Qed.

Lemma updateHealthBar_hud (p : Page) :
  talliesView (dom p) = talliesShown (gameState (world p)) ->
  0 <= maxHealth (gameState (world p)) ->
  health (gameState (world p)) <= maxHealth (gameState (world p)) ->
  hudInv (updateHealthBar p).
Proof.
  intros T M H. destruct (updateHealthBar_shown p) as (S1 & S2).
  unfold hudInv. cbv zeta. rewrite world_updateHealthBar, S1, S2. auto.
Qed.

Lemma checkExtraLifeOffer_hud (p : Page) : sameHud p (checkExtraLifeOffer p).
Proof. unfold checkExtraLifeOffer. cbv zeta. same_hud. Qed.

Lemma showFinalGameOver_hud (p : Page) : sameHud p (fst (showFinalGameOver p)).
Proof. repeat split; reflexivity. Qed.

Lemma showReviveModal_hud (p : Page) : sameHud p (fst (showReviveModal p)).
Proof.
  unfold showReviveModal. destruct (negb _); [apply showFinalGameOver_hud|].
  cbv zeta. same_hud.
Qed.

Lemma Page_endGame_hud (b : Build) (p : Page) :
  sameHud p (fst (Page_endGame b p)).
Proof.
  destruct b; simpl.
  - same_hud.
  - destruct (negb _); [apply sameHud_refl|].
    eapply sameHud_trans; [|apply showReviveModal_hud].
    repeat split; reflexivity.
Qed.

Lemma attemptRevive_hud (p : Page) : sameHud p (attemptRevive p).
Proof. unfold attemptRevive, showRewardedAd. cbv zeta. same_hud. Qed.

Lemma claimExtraLife_hud (p : Page) : sameHud p (claimExtraLife p).
Proof. unfold claimExtraLife, showRewardedAd. cbv zeta. same_hud. Qed.

Lemma togglePause_hud (p : Page) : sameHud p (togglePause p).
Proof. unfold togglePause. cbv zeta. same_hud. Qed.

Lemma setGameMode_hud (m : Mode) (p : Page) : sameHud p (setGameMode m p).
Proof. destruct m; repeat split; reflexivity. Qed.

Lemma waveAdOver_hud (p : Page) : sameHud p (waveAdOver p).
Proof. repeat split; reflexivity. Qed.

Lemma showWaveTransitionAd_hud (n : Z) (p : Page) :
  sameHud p (showWaveTransitionAd n p).
Proof. repeat split; reflexivity. Qed.

Lemma onKeyDown_hud (b : Build) (code : string) (p : Page) :
  sameHud p (onKeyDown b code p).
Proof. unfold onKeyDown. same_hud. Qed.

Lemma onKeyUp_hud (code : string) (p : Page) : sameHud p (onKeyUp code p).
Proof. repeat split; reflexivity. Qed.

Lemma half_within (m : Z) : 0 <= m -> Math_floor (inject_Z m * (5 # 10)) <= m.
Proof.
  intro H. unfold Math_floor. rewrite Zle_Qle.
  apply Qle_trans with (y := (inject_Z m * (5 # 10))%Q); [apply Qfloor_le|].
  assert (0 <= inject_Z m)%Q
    by (change (inject_Z 0 <= inject_Z m)%Q; rewrite <- Zle_Qle; exact H).
  lra.
Qed.

Lemma executeRevive_hud (p : Page) : hudInv p -> hudInv (executeRevive p).
Proof.
  intros (T & _ & M & _). unfold executeRevive. cbv zeta.
  match goal with
  | |- context [updateHealthBar ?q] =>
      assert (U : hudInv (updateHealthBar q))
        by (apply updateHealthBar_hud;
            [exact T|exact M|apply half_within, M]);
      set (p3 := updateHealthBar q) in *
  end.
  apply (hudInv_same p3); [|exact U]. same_hud.
Qed.

Lemma extraLifeAdOver_hud (p : Page) : hudInv p -> hudInv (extraLifeAdOver p).
Proof.
  intros (T & V & M & H). unfold extraLifeAdOver.
  destruct (showMockRewardedAd_over "extraLife" (adSession p)) as [s [r|]];
    [|repeat split; assumption].
  cbv zeta.
  match goal with
  | |- context [updateHealthBar ?q] =>
      assert (U : hudInv (updateHealthBar q))
        by (apply updateHealthBar_hud; [exact T|exact M|cbn; lia]);
      set (p3 := updateHealthBar q) in *
  end.
  apply (hudInv_same p3); [|exact U]. same_hud.
Qed.

Lemma reviveAdOver_hud (p : Page) : hudInv p -> hudInv (reviveAdOver p).
Proof.
  intro H. unfold reviveAdOver.
  destruct (showMockRewardedAd_over "revive" (adSession p)) as [s [[|c t]|]].
  - apply executeRevive_hud. exact H.
  - exact H.
  - exact H.
Qed.

Lemma fire_hud (t : Timer) (p : Page) : hudInv p -> hudInv (fire t p).
Proof.
  intro H. destruct t as [[|]| |]; simpl.
  - apply reviveAdOver_hud, H.
  - apply extraLifeAdOver_hud, H.
  - exact (hudInv_same _ _ (waveAdOver_hud p) H).
  - exact (hudInv_same _ _ (attemptRevive_hud p) H).
Qed.

(** A wave advance keeps the display up to date. *)
Lemma Page_waveAdvance_hud (b : Build) (p : Page) :
  hudInv p -> hudInv (Page_waveAdvance b p).
Proof.
  intros (T & V & M & H). unfold Page_waveAdvance.
  set (p1 := onGameState (fun gs => set_wave (wave gs + 1) gs) p).
  set (p2 := onDom (set_textContent "wave"
                      (string_of_Z (wave (gameState (world p1))))) p1).
  assert (I2 : hudInv p2).
  { unfold hudInv, talliesView, talliesShown in *. cbv zeta.
    inversion T as [[T1 T2 T3]].
    subst p2 p1. cbn [world dom onDom onGameState set_dom set_world gameState
                        set_gameState score wave combo health maxHealth
                        set_wave textContent set_textContent].
    repeat split; try assumption.
    - change (String.eqb "score" "wave") with false.
      change (String.eqb "combo" "wave") with false.
      change (String.eqb "wave" "wave") with true.
      cbn [andb]. rewrite T1, T3. reflexivity. }
  clearbody p2. clear p1 T V M H. cbv zeta.
  assert (I3 : hudInv (match b with
                       | Enhanced =>
                           let healAmount := 20 in
                           let oldHealth := health (gameState (world p2)) in
                           let p0 :=
                             onGameState
                               (fun gs =>
                                  set_health
                                    (Z.min (maxHealth gs)
                                       (health gs + healAmount)) gs) p2 in
                           if oldHealth <? health (gameState (world p0))
                           then updateHealthBar p0 else p0
                       | Basic => p2
                       end)).
  { destruct b; [exact I2|]. cbv zeta.
    destruct I2 as (T & V & M & H).
    destruct (_ <? _) eqn:C.
    - apply updateHealthBar_hud; [exact T|exact M|cbn; lia].
    - apply Z.ltb_ge in C. cbn in C.
      assert (E : Z.min (maxHealth (gameState (world p2)))
                    (health (gameState (world p2)) + 20)
                  = health (gameState (world p2))) by lia.
      apply (hudInv_same p2); [|repeat split; assumption].
      repeat split; try reflexivity. exact E. }
  match goal with
  | H : hudInv ?q |- _ => set (p3 := q) in *; clearbody p3
  end.
  match goal with
  | |- hudInv (match b with Enhanced => if ?c then _ else _ | Basic => _ end) =>
      destruct b; [|destruct c]
  end;
    (eapply hudInv_same; [|exact I3]); same_hud.
Qed.

Lemma Page_waveCheck_hud (b : Build) (p : Page) :
  hudInv p -> hudInv (Page_waveCheck b p).
Proof.
  intro H. unfold Page_waveCheck.
  destruct (_ =? 0); [apply Page_waveAdvance_hud, H|exact H].
Qed.

(** ** Robots in play *)

Section RobotsInPlay.
Context {M : MathLib}.

Lemma Robot_attackPlayer_stats (b : Build) (ads : AdSession) (r : Robot)
  (w : World) :
  statsOf (fst (fst (Robot_attackPlayer b ads r w))) = statsOf r
  /\ alive (fst (fst (Robot_attackPlayer b ads r w))) = alive r
  /\ dying (fst (fst (Robot_attackPlayer b ads r w))) = dying r.
Proof.
  unfold Robot_attackPlayer.
  destruct (match b with Enhanced => _ | Basic => _ end); [auto|].
  cbv zeta.
  destruct (_ <=? 0); [destruct (endGame _ _ _); auto|].
  destruct (aroundPlayer (camera _) (rng _)) as [p g]. auto.
Qed.

Lemma Robot_update_stats (b : Build) (ads : AdSession) (dt : Q) (r : Robot)
  (w : World) :
  statsOf (fst (fst (Robot_update b ads dt r w))) = statsOf r
  /\ dying (fst (fst (Robot_update b ads dt r w))) = dying r
  /\ alive (fst (fst (Robot_update b ads dt r w)))
     = (if dying r && Qlt_bool 1 (dyingTimer r + dt) then false else alive r).
Proof.
  unfold Robot_update. destruct (dying r) eqn:D.
  - cbv zeta. cbn [dyingTimer set_dyingTimer andb].
    destruct (Qlt_bool 1 _); cbn [fst]; rewrite ?D; auto.
  - cbv zeta. cbn [andb].
    match goal with
    | |- context [if ?c then Robot_attackPlayer b ads ?x w else _] =>
        assert (E : statsOf x = statsOf r /\ alive x = alive r
                    /\ dying x = dying r)
          by (destruct (Qlt_bool 0 (attackCooldown r)); auto);
        destruct c;
        [destruct (Robot_attackPlayer_stats b ads x w) as (-> & -> & ->)|];
        cbn [fst]; destruct E as (E1 & E2 & E3);
        rewrite ?E1, ?E2, ?E3; auto
    end.
Qed.

Lemma sameRobot_refl (dt : Q) (r : Robot) : sameRobot dt r r.
Proof. unfold sameRobot. auto. Qed.

Lemma Robot_update_same (b : Build) (ads : AdSession) (dt : Q) (r : Robot)
  (w : World) :
  sameRobot dt r (fst (fst (Robot_update b ads dt r w))).
Proof.
  destruct (Robot_update_stats b ads dt r w) as (S & D & A).
  unfold sameRobot, expiring. split; [exact S|]. split; [exact D|].
  destruct (dying r && Qlt_bool 1 (dyingTimer r + dt)); auto.
Qed.

(** The robot loop, however it ends, robot by robot. *)
Lemma updateRobots_same (b : Build) (ads : AdSession) (dt : Q)
  (rs : list Robot) (w : World) :
  Forall2 (sameRobot dt) rs (fst (fst (updateRobots b ads dt rs w))).
Proof.
  apply updateRobots_each;
    [apply sameRobot_refl|intros; apply Robot_update_same].
Qed.

(** A robot loop that returns has updated every robot. *)
Lemma updateRobots_stats (b : Build) (ads : AdSession) (dt : Q)
  (rs : list Robot) (w : World) :
  snd (updateRobots b ads dt rs w) = Returns ->
  Forall2 (fun r r' =>
             statsOf r' = statsOf r /\ dying r' = dying r
             /\ alive r' = (if expiring dt r then false else alive r))
    rs (fst (fst (updateRobots b ads dt rs w))).
Proof.
  revert w. induction rs as [|r rs IH]; intro w; [constructor|].
  rewrite updateRobots_cons. cbv zeta.
  pose proof (Robot_update_stats b ads dt r w) as H.
  destruct (snd (Robot_update b ads dt r w)); cbn [fst snd];
    [|discriminate].
  intro C. constructor; [exact H|apply IH, C].
Qed.

Lemma sameRobot_stats (dt : Q) (rs rs' : list Robot) :
  Forall2 (sameRobot dt) rs rs' -> map statsOf rs' = map statsOf rs.
Proof.
  induction 1 as [|r r' rs rs' (S & _) _ IH]; simpl; [reflexivity|].
  rewrite S, IH. reflexivity.
Qed.

Lemma filter_alive_stats (dt : Q) (rs rs' : list Robot) :
  Forall2 (fun r r' =>
             statsOf r' = statsOf r /\ dying r' = dying r
             /\ alive r' = (if expiring dt r then false else alive r))
    rs rs' ->
  Forall (fun r => alive r = true) rs ->
  map statsOf (filter alive rs')
  = map statsOf (filter (fun r => negb (expiring dt r)) rs)
  /\ Forall (fun r => alive r = true) (filter alive rs').
Proof.
  induction 1 as [|r r' rs rs' (S & _ & A) _ IH]; intro F; simpl;
    [split; [reflexivity|constructor]|].
  inversion F as [|? ? Ar Fr]; subst. destruct (IH Fr) as (IH1 & IH2).
  rewrite A, Ar. destruct (expiring dt r); simpl.
  - auto.
  - rewrite S, IH1. split; [reflexivity|]. constructor; [|exact IH2].
    rewrite A, Ar. reflexivity.
Qed.

Lemma Robot_new_stats (b : Build) (fuel : nat) (ty : option RobotType)
  (gs : GameState) (cam : Camera) (g g' : Rng) (r : Robot) :
  Robot_new b fuel ty gs cam g = Some (r, g') ->
  robotSound b r
  /\ speed r = (baseSpeed r + inject_Z (wave gs) * waveSpeedFactor b)%Q
  /\ match ty with
     | Some t => rtype r = t
     | None => unit_draws g -> In (rtype r) (spawnTypes b (wave gs))
     end.
Proof.
  unfold Robot_new. intro H.
  destruct (match ty with Some t => _ | None => _ end) as [t g1] eqn:T.
  destruct (Robot_stats b t) as [[base dmg] sc] eqn:S.
  destruct (spawnPoint b cam g1) as [p g2].
  destruct (Math_random g2) as [x g3].
  apply generateQuestion_shape in H. destruct H as (q & c & a & ->).
  unfold robotSound. cbn. rewrite S.
  split; [reflexivity|]. split; [reflexivity|].
  destruct ty as [t'|].
  - inversion T. reflexivity.
  - intro U.
    destruct (randomIndex (Z.of_nat (List.length (spawnTypes b (wave gs)))) g)
      as [i g0] eqn:R.
    inversion T. subst t g1.
    assert (L : 0 < Z.of_nat (List.length (spawnTypes b (wave gs)))).
    { destruct b; simpl; [lia|]. unfold typePool.
      destruct (_ && _); [simpl; lia|].
      destruct (_ && _); [simpl; lia|].
      destruct (10 <=? wave gs); simpl; lia. }
    apply randomIndex_spec in R; [|exact U|exact L]. destruct R as (I & _).
    destruct (i <? 0) eqn:N; [apply Z.ltb_lt in N; lia|].
    apply nth_In. lia.
Qed.

Lemma robotSound_stats (b : Build) (r r' : Robot) :
  statsOf r' = statsOf r -> robotSound b r -> robotSound b r'.
Proof.
  unfold statsOf, robotSound. intros E H. inversion E. congruence.
Qed.

Lemma Forall_map_stats (b : Build) (l l' : list Robot) :
  map statsOf l' = map statsOf l ->
  Forall (robotSound b) l -> Forall (robotSound b) l'.
Proof.
  revert l'. induction l as [|r l IH]; intros [|r' l'] E F; simpl in E;
    try discriminate; [constructor|].
  assert (E1 : statsOf r' = statsOf r) by congruence.
  assert (E2 : map statsOf l' = map statsOf l) by congruence.
  inversion F as [|? ? Fr Fl]; subst.
  constructor; [exact (robotSound_stats b r r' E1 Fr)|auto].
Qed.

(** The robots a running frame leaves: those it found and the one it may
    have spawned, stats untouched; when the frame runs to its end, less
    the ones whose death animation has run out. *)
Lemma animate_robots (b : Build) (ads : AdSession) (fuel : nat) (dt : Q)
  (w w' : World) (c : Completion) :
  frameRuns b (gameState w) = true ->
  animate b ads fuel dt w = Some (w', c) ->
  exists spawned,
    (if Qle_bool (spawnInterval w) (spawnTimer w + dt)
     then exists r g,
            spawned = [r]
            /\ Robot_new b fuel None (gameState w)
                 (camera (updatePlayerMovement dt w)) (rng w) = Some (r, g)
     else spawned = [])
    /\ (exists rs,
          Forall2 (sameRobot dt) (robots w ++ spawned) rs
          /\ robots w' = robotsLeft c rs
          /\ (c = Returns ->
              Forall (fun r => alive r = true) (robots w) ->
              map statsOf (robots w')
              = map statsOf
                  (filter (fun r => negb (expiring dt r))
                     (robots w ++ spawned))))
    /\ spawnTimer w'
       = (if Qle_bool (spawnInterval w) (spawnTimer w + dt)
          then 0 else spawnTimer w + dt)%Q.
Proof.
  intros F H.
  destruct (animate_runs b ads fuel dt w w' c F H) as (w1 & S & C & ->).
  destruct (updatePlayerMovement_world dt w) as (ph & cm & E).
  assert (W1 : exists spawned t g,
             w1 = set_rng g (set_robots (robots w ++ spawned)
                               (set_spawnTimer t (updatePlayerMovement dt w)))
             /\ (if Qle_bool (spawnInterval w) (spawnTimer w + dt)
                 then (exists r,
                         spawned = [r]
                         /\ Robot_new b fuel None (gameState w)
                              (camera (updatePlayerMovement dt w)) (rng w)
                            = Some (r, g))
                      /\ t = 0%Q
                 else spawned = [] /\ t = (spawnTimer w + dt)%Q)).
  { unfold spawnTick in S. cbv zeta in S.
    rewrite E in S |- *.
    cbn [spawnInterval spawnTimer set_spawnTimer set_physics set_camera]
      in S.
    destruct (Qle_bool (spawnInterval w) (spawnTimer w + dt)).
    - destruct (spawnRobot _ _ _) as [w2|] eqn:SR; [|discriminate].
      apply spawnRobot_world in SR. destruct SR as (r & g & N & ->).
      inversion S. exists [r], 0%Q, g. split; [reflexivity|].
      split; [|reflexivity]. exists r. split; [reflexivity|exact N].
    - inversion S. exists [], (spawnTimer w + dt)%Q, (rng w).
      split; [|auto]. rewrite app_nil_r. destruct w; reflexivity. }
  destruct W1 as (spawned & t & g & -> & Sp).
  exists spawned.
  match type of C with
  | snd (robotPass b ads dt ?x) = _ =>
      destruct (robotPass_world b ads dt x) as (gs2 & g2 & E2);
      rewrite robotPass_eq in C; cbv zeta in C; cbn [fst snd] in C;
      pose proof (updateRobots_same b ads dt (robots x) x) as U;
      pose proof (updateRobots_stats b ads dt (robots x) x) as U'
  end.
  rewrite E2. rewrite robotPass_eq. cbv zeta. cbn [fst snd].
  cbn [robots set_robots set_rng] in U, U', C |- *.
  rewrite C in U' |- *.
  split; [|split].
  - destruct (Qle_bool _ _).
    + destruct Sp as ((r & -> & N) & _). exists r, g. auto.
    + apply Sp.
  - eexists. split; [exact U|]. split.
    + destruct c; [|reflexivity].
      match goal with
      | |- context [pickupPass b dt ?x] =>
          destruct (pickupPass_world b dt x) as (gs1 & ps1 & ->)
      end.
      reflexivity.
    + intros -> A.
      match goal with
      | |- context [pickupPass b dt ?x] =>
          destruct (pickupPass_world b dt x) as (gs1 & ps1 & ->)
      end.
      cbn [robots set_robots set_gameState set_pickups set_rng purgeEffects
             set_particles set_bullets robotsLeft].
      assert (A1 : Forall (fun r => alive r = true) (robots w ++ spawned)).
      { apply Forall_app. split; [exact A|].
        destruct (Qle_bool _ _).
        - destruct Sp as ((r & -> & N) & _). constructor; [|constructor].
          apply (Robot_new_fresh _ _ _ _ _ _ _ _ N).
        - destruct Sp as (-> & _). constructor. }
      apply (filter_alive_stats dt _ _ (U' eq_refl) A1).
  - destruct c.
    + match goal with
      | |- context [pickupPass b dt ?x] =>
          destruct (pickupPass_world b dt x) as (gs1 & ps1 & ->)
      end.
      cbn [spawnTimer set_robots set_gameState set_pickups set_rng
             purgeEffects set_particles set_bullets set_spawnTimer].
      destruct (Qle_bool _ _); apply Sp.
    + cbn [spawnTimer set_robots set_gameState set_rng set_spawnTimer].
      destruct (Qle_bool _ _); apply Sp.
Qed.

(** A frame that runs to its end leaves only robots that are alive. *)
Lemma animate_alive (b : Build) (ads : AdSession) (fuel : nat) (dt : Q)
  (w w' : World) :
  frameRuns b (gameState w) = true ->
  animate b ads fuel dt w = Some (w', Returns) ->
  Forall (fun r => alive r = true) (robots w').
Proof.
  intros F H.
  destruct (animate_robots b ads fuel dt w w' Returns F H)
    as (sp & _ & (rs & _ & -> & _) & _).
  simpl. apply Forall_forall. intros x Hx. apply filter_In in Hx. apply Hx.
Qed.

(** Whatever the stats decide and holds of the robots a frame finds, and
    of the one it spawns, holds of the robots it leaves. *)
Lemma animate_each (P : Robot -> Prop) (b : Build) (ads : AdSession)
  (fuel : nat) (dt : Q) (w w' : World) (c : Completion) :
  (forall r r', statsOf r' = statsOf r -> P r -> P r') ->
  animate b ads fuel dt w = Some (w', c) ->
  Forall P (robots w) ->
  (forall r g,
      Robot_new b fuel None (gameState w)
        (camera (updatePlayerMovement dt w)) (rng w) = Some (r, g) ->
      P r) ->
  Forall P (robots w').
Proof.
  intros St H A N.
  destruct (frameRuns b (gameState w)) eqn:F;
    [|rewrite (animate_idle b ads fuel dt w F) in H; inversion H; subst;
      exact A].
  destruct (animate_robots b ads fuel dt w w' c F H)
    as (sp & Sp & (rs & U & -> & _) & _).
  eapply incl_Forall; [apply robotsLeft_incl|].
  assert (A1 : Forall P (robots w ++ sp)).
  { apply Forall_app. split; [exact A|].
    destruct (Qle_bool _ _).
    - destruct Sp as (r & g & -> & Nr). constructor; [|constructor].
      exact (N r g Nr).
    - subst sp. constructor. }
  clear - St U A1. induction U as [|r r' l l' (S & _) _ IH]; [constructor|].
  inversion A1 as [|? ? Ar Al]; subst.
  constructor; [exact (St r r' S Ar)|exact (IH Al)].
Qed.

End RobotsInPlay.

Lemma spawnTypes_reached (b : Build) (w : Z) (t : RobotType) :
  In t (spawnTypes b w) -> reached b t w.
Proof.
  destruct b; simpl; [destruct t; exact (fun _ => I)|].
  unfold typePool.
  destruct ((3 <=? w) && (w <=? 5)) eqn:C1;
    [apply andb_true_iff in C1|
     destruct ((6 <=? w) && (w <=? 9)) eqn:C2;
     [apply andb_true_iff in C2|
      destruct (10 <=? w) eqn:C3; [apply Z.leb_le in C3|]]];
    destruct t; simpl; intuition (try discriminate; try lia).
Qed.

Lemma reached_later (b : Build) (t : RobotType) (w w' : Z) :
  w <= w' -> reached b t w -> reached b t w'.
Proof. destruct b, t; simpl; intros; try exact I; lia. Qed.

Section Fleet.
Context {M : MathLib} {B : Browser}.

(** A robot leaves its constructor alive, with the stats of its type, and
    of a type the wave allows. *)
Lemma Robot_new_fleet (b : Build) (fuel : nat) (gs : GameState) (cam : Camera)
  (g g' : Rng) (r : Robot) :
  Robot_new b fuel None gs cam g = Some (r, g') ->
  alive r = true /\ robotSound b r /\ reached b (rtype r) (wave gs).
Proof.
  intro H. split; [apply (Robot_new_fresh _ _ _ _ _ _ _ _ H)|].
  split; [apply (Robot_new_stats _ _ _ _ _ _ _ _ H)|].
  apply spawnTypes_reached.
  unfold Robot_new in H.
  destruct (randomIndex _ g) as [i g0].
  set (t := if i <? 0 then normal
            else nth (Z.to_nat i) (spawnTypes b (wave gs)) normal) in H.
  assert (T : In t (spawnTypes b (wave gs))).
  { assert (N : In normal (spawnTypes b (wave gs))).
    { destruct b; simpl; [auto|]. unfold typePool.
      destruct (_ && _); [simpl; auto|].
      destruct (_ && _); [simpl; auto|].
      destruct (10 <=? wave gs); simpl; auto. }
    subst t. destruct (i <? 0); [exact N|].
    destruct (nth_in_or_default (Z.to_nat i) (spawnTypes b (wave gs)) normal)
      as [Hin | ->]; [exact Hin|exact N]. }
  destruct (Robot_stats b t) as [[base dmg] sc].
  destruct (spawnPoint b cam g0) as [pt g2].
  destruct (Math_random g2) as [x g3].
  apply generateQuestion_shape in H. destruct H as (q & c & a & ->).
  exact T.
Qed.

Lemma resolveHit_fleet (b : Build) (r : Robot) (h : Hit) (w : World) :
  statsOf (fst (resolveHit b r h w)) = statsOf r
  /\ alive (fst (resolveHit b r h w)) = alive r
  /\ wave (gameState w) <= wave (gameState (snd (resolveHit b r h w))).
Proof.
  destruct (strict_eq (hit_answer h) (correctAnswer r)) eqn:C.
  - pose proof (resolveHit_wave b r h w C) as V. cbv zeta in V.
    rewrite (resolveHit_correct_eq b r h w C) in *. cbn [fst snd] in *.
    split; [reflexivity|]. split; [reflexivity|].
    destruct (_ =? 0); destruct V as (-> & _); lia.
  - destruct (resolveHit_wrong b r h w C) as (-> & -> & _).
    split; [reflexivity|]. split; [reflexivity|]. cbn. lia.
Qed.

Lemma onShoot_fleet (b : Build) (rc : Raycaster) (w : World) :
  fleetInv b w -> fleetInv b (onShoot b rc w).
Proof.
  intros (S & R).
  destruct (canFire b (gameState w)) eqn:F;
    [|rewrite (onShoot_held b rc w F); split; assumption].
  destruct (firstLiveHit rc (robots w)) as [[r h]|] eqn:L.
  - apply firstLiveHit_split in L. destruct L as (bf & af & E & HB & D & C).
    rewrite (onShoot_target b rc w bf af r h F E HB D C).
    destruct (resolveHit_fleet b r h w) as (E1 & E2 & E3).
    unfold fleetInv.
    cbn [robots set_robots gameState].
    replace (gameState (set_robots (bf ++ fst (resolveHit b r h w) :: af)
                          (snd (resolveHit b r h w))))
      with (gameState (snd (resolveHit b r h w)))
      by (destruct (snd (resolveHit b r h w)); reflexivity).
    rewrite E in S, R.
    apply Forall_app in S. destruct S as (S1 & S2).
    apply Forall_app in R. destruct R as (R1 & R2).
    inversion S2 as [|? ? S3 S4].
    inversion R2 as [|? ? R3 R4]. subst.
    assert (T : rtype (fst (resolveHit b r h w)) = rtype r)
      by (unfold statsOf in E1; congruence).
    assert (Later : forall l,
               Forall (fun x => reached b (rtype x) (wave (gameState w))) l ->
               Forall (fun x => reached b (rtype x)
                                  (wave (gameState (snd (resolveHit b r h w)))))
                 l).
    { intros l Hl. eapply Forall_impl; [|exact Hl].
      intros x Hx. exact (reached_later b _ _ _ E3 Hx). }
    split; apply Forall_app; split; auto; constructor; auto.
    + exact (robotSound_stats b r _ E1 S3).
    + rewrite T. exact (reached_later b _ _ _ E3 R3).
  - apply firstLiveHit_none in L. rewrite (onShoot_miss b rc w L).
    split; assumption.
Qed.

Lemma animate_fleet (b : Build) (ads : AdSession) (fuel : nat) (dt : Q)
  (w w' : World) (c : Completion) :
  animate b ads fuel dt w = Some (w', c) -> fleetInv b w -> fleetInv b w'.
Proof.
  intros H (S & R).
  pose proof (animate_vitals b ads fuel dt w w' c H) as (_ & V & _).
  unfold fleetInv. rewrite V.
  assert (G : Forall (fun r => robotSound b r
                               /\ reached b (rtype r) (wave (gameState w)))
                (robots w')).
  { apply (animate_each _ b ads fuel dt w w' c); [|exact H| |].
    - intros r r' E (E1 & E2). split; [exact (robotSound_stats b r r' E E1)|].
      replace (rtype r') with (rtype r)
        by (unfold statsOf in E; congruence).
      exact E2.
    - rewrite Forall_forall in *. intros x Hx. split; [apply S|apply R]; auto.
    - intros r g N.
      destruct (Robot_new_fleet b fuel _ _ _ _ _ N) as (_ & N1 & N2).
      split; assumption. }
  rewrite Forall_forall in G.
  split; apply Forall_forall; intros x Hx; apply (G x Hx).
Qed.

Lemma startGame_fleet (b : Build) (fuel : nat) (w w' : World) :
  startGame b fuel w = Some w' -> fleetInv b w'.
Proof.
  intro H. apply startGame_spec in H.
  destruct H as (G & (r & g & E & N & _) & _).
  destruct (Robot_new_fleet b fuel _ _ _ _ _ N) as (N1 & N2 & N3).
  unfold fleetInv. rewrite E. split; constructor; auto.
Qed.

Lemma fleetInv_same (b : Build) (w w' : World) :
  sameRun w w' -> fleetInv b w -> fleetInv b w'.
Proof.
  intros ((_ & V & _) & _ & _ & R) H. unfold fleetInv. rewrite R, V. exact H.
Qed.

Lemma step_fleet (b : Build) (fuel : nat) (e : Event) (p p' : Page) :
  step b fuel e p = Some p' -> fleetInv b (world p) -> fleetInv b (world p').
Proof.
  intros S H.
  assert (K : forall q, sameRun (world p) (world q) -> fleetInv b (world q))
    by (intros q R; exact (fleetInv_same b _ _ R H)).
  assert (F : forall ts now rc q,
             fleetInv b (world q) ->
             fleetInv b (world (onTouchEnd b ts now rc q))).
  { intros ts now rc. unfold onTouchEnd.
    apply (fold_left_preserves (fun q => fleetInv b (world q))).
    intros a x Ha. destruct (sameTouch x _); [|exact Ha].
    cbv zeta. cbn [world set_look].
    destruct (_ && _); [|exact Ha].
    rewrite Page_onShoot_world. apply onShoot_fleet, Ha. }
  destruct e; simpl in S;
    try (apply Some_inj in S; subst p').
  - destruct (Page_animate_frame b fuel dt rc p p' S) as (c & _ & A).
    exact (animate_fleet b _ fuel dt _ _ c A H).
  - apply K. destruct (_ && _);
      [eapply sameRun_trans; [|apply togglePause_run]|]; apply onKeyDown_run.
  - apply K, onKeyUp_run.
  - destruct (isMobile _); [exact H|]. unfold onCanvasClick. guards;
      try exact H.
    rewrite Page_onShoot_world. apply onShoot_fleet, H.
  - apply K.
    destruct (isMobile _); [apply sameRun_refl|apply onMouseMove_run].
  - apply K. destruct (isMobile _); repeat split; reflexivity.
  - apply K.
    destruct (isMobile _); [apply onTouchStart_run|apply sameRun_refl].
  - apply K.
    destruct (isMobile _); [apply onTouchMove_run|apply sameRun_refl].
  - destruct (isMobile _); [apply F, H|exact H].
  - apply K.
    destruct (isMobile _); [apply onJoystickStart_run|apply sameRun_refl].
  - apply K.
    destruct (isMobile _); [apply onJoystickMove_run|apply sameRun_refl].
  - apply K.
    destruct (isMobile _); [apply onJoystickEnd_run|apply sameRun_refl].
  - pose proof (Page_startGame_world b fuel p) as A. rewrite S in A.
    symmetry in A. exact (startGame_fleet b fuel _ _ A).
  - apply K. destruct b; [apply sameRun_refl|apply setGameMode_run].
  - apply K. destruct b; [apply sameRun_refl|apply togglePause_run].
  - apply K. destruct b; [apply sameRun_refl|apply attemptRevive_run].
  - apply K. destruct b; [apply sameRun_refl|apply showFinalGameOver_run].
  - apply K. destruct b; [apply sameRun_refl|apply claimExtraLife_run].
  - destruct (nth_error (timers p) n) as [t|]; apply Some_inj in S; subst p';
      [|exact H].
    apply K. apply (fire_run t (set_timers _ p)).
Qed.

End Fleet.

Lemma Page_resolveHit_hud (b : Build) (r : Robot) (h : Hit) (p : Page) :
  hudInv p -> hudInv (snd (Page_resolveHit b r h p)).
Proof.
  intros (T & V & M & H). unfold Page_resolveHit. cbv zeta.
  set (p1 := set_world
               (set_bullets
                  (bullets (world p) ++
                   [BulletTrail_new (cam_position (camera (world p)))
                      (hit_point h)]) (world p)) p).
  destruct (strict_eq _ _); cbn [snd].
  - apply Page_waveCheck_hud.
    set (p2 := set_world
                 (createExplosion b (hit_point h) 40
                    (world (onGameState tallyKill p1)))
                 (onGameState tallyKill p1)).
    assert (G : gameState (world p2) = tallyKill (gameState (world p))).
    { subst p2. cbn [world set_world].
      destruct (createExplosion_fields b (hit_point h) 40
                  (world (onGameState tallyKill p1))) as (-> & _).
      reflexivity. }
    assert (D : dom p2 = dom p) by reflexivity.
    set (p3 := onDom (set_textContent "combo" _)
                 (onDom (set_textContent "score" _) p2)).
    assert (I3 : hudInv p3).
    { unfold hudInv, talliesView, talliesShown, healthView in *. cbv zeta.
      inversion T as [[T1 T2 T3]]. inversion V as [[V1 V2 V3]].
      subst p3.
      cbn [world dom onDom set_dom set_world textContent style
             set_textContent].
      change (String.eqb "score" "combo") with false.
      change (String.eqb "score" "score") with true.
      change (String.eqb "wave" "combo") with false.
      change (String.eqb "wave" "score") with false.
      change (String.eqb "combo" "combo") with true.
      change (String.eqb "health-val" "combo") with false.
      change (String.eqb "health-val" "score") with false.
      cbn iota. rewrite D, G.
      rewrite (healthShown_ext (gameState (world p)) (tallyKill _))
        by reflexivity.
      rewrite T2.
      repeat split; try reflexivity; assumption. }
    clearbody p3.
    apply (hudInv_same p3); [|exact I3].
    destruct (maybeDrop_fields b (set_dying true r) (world p3)) as (E & _).
    unfold sameHud. cbn [world set_world dom]. rewrite E.
    repeat split; reflexivity.
  - set (p2 := set_world
                 (createExplosion b (hit_point h) 15
                    (world (onGameState (set_combo 1) p1)))
                 (onGameState (set_combo 1) p1)).
    assert (G : gameState (world p2) = set_combo 1 (gameState (world p))).
    { subst p2. cbn [world set_world].
      destruct (createExplosion_fields b (hit_point h) 15
                  (world (onGameState (set_combo 1) p1))) as (-> & _).
      reflexivity. }
    assert (D : dom p2 = dom p) by reflexivity.
    clearbody p2.
    unfold hudInv, talliesView, talliesShown, healthView in *. cbv zeta.
    inversion T as [[T1 T2 T3]]. inversion V as [[V1 V2 V3]].
    cbn [world dom onDom set_dom set_world textContent style set_textContent].
    change (String.eqb "score" "combo") with false.
    change (String.eqb "wave" "combo") with false.
    change (String.eqb "combo" "combo") with true.
    change (String.eqb "health-val" "combo") with false.
    cbn iota. rewrite D, G.
    rewrite (healthShown_ext (gameState (world p)) (set_combo 1 _))
      by reflexivity.
    rewrite T1, T2.
    repeat split; try reflexivity; assumption.
Qed.

Lemma Page_shootRobots_hud (b : Build) (rc : Raycaster) (rs : list Robot)
  (p : Page) :
  hudInv p -> hudInv (snd (Page_shootRobots b rc rs p)).
Proof.
  intro H. induction rs as [|r rs IH]; simpl; [exact H|].
  destruct (Page_shootRobots b rc rs p) as [rs1 p1].
  destruct (dying r); [exact IH|].
  destruct (Robot_checkHit rc r) as [h|]; [|exact IH].
  pose proof (Page_resolveHit_hud b r h p H) as R.
  destruct (Page_resolveHit b r h p) as [r1 p2]. exact R.
Qed.

Lemma Page_onShoot_hud (b : Build) (rc : Raycaster) (p : Page) :
  hudInv p -> hudInv (Page_onShoot b rc p).
Proof.
  intro H. unfold Page_onShoot. destruct (canFire b _); [|exact H].
  pose proof (Page_shootRobots_hud b rc (robots (world p)) p H) as R.
  destruct (Page_shootRobots b rc _ p) as [rs1 p1]. cbn [snd] in R.
  apply (hudInv_same p1); [|exact R]. repeat split; reflexivity.
Qed.

Section HudFrames.
Context {M : MathLib} {B : Browser}.

Lemma Page_attackPlayer_hud (b : Build) (r : Robot) (p : Page) :
  0 <= damage r -> hudInv p -> hudInv (snd (fst (Page_attackPlayer b r p))).
Proof.
  intros D (T & V & M0 & H). unfold Page_attackPlayer.
  destruct (match b with Enhanced => _ | Basic => _ end);
    [repeat split; assumption|].
  cbv zeta.
  change (damage (set_attackCooldown (15 # 10) r)) with (damage r).
  set (p1 := onGameState _ p).
  assert (I1 : hudInv (updateHealthBar p1))
    by (apply updateHealthBar_hud; [exact T|exact M0|cbn; lia]).
  set (p2 := match b with
             | Enhanced => checkExtraLifeOffer (updateHealthBar p1)
             | Basic => updateHealthBar p1
             end).
  assert (I2 : hudInv p2).
  { subst p2. destruct b; [exact I1|].
    exact (hudInv_same _ _ (checkExtraLifeOffer_hud _) I1). }
  clearbody p2. clear I1.
  destruct (_ <=? 0); cbn [snd].
  - pose proof (hudInv_same _ _ (Page_endGame_hud b p2) I2) as I3.
    destruct (Page_endGame b p2) as [p3 c3]. exact I3.
  - destruct (aroundPlayer _ _) as [pt g]. cbn [fst snd].
    apply (hudInv_same p2); [|exact I2]. repeat split; reflexivity.
Qed.

Lemma Page_Robot_update_hud (b : Build) (dt : Q) (r : Robot) (p : Page) :
  0 <= damage r -> hudInv p ->
  hudInv (snd (fst (Page_Robot_update b dt r p))).
Proof.
  intros D H. unfold Page_Robot_update. destruct (dying r); [exact H|].
  cbv zeta.
  match goal with
  | |- context [if ?c then Page_attackPlayer b ?x p else _] =>
      assert (E : damage x = damage r)
        by (destruct (Qlt_bool 0 (attackCooldown r)); reflexivity);
      destruct c;
      [apply Page_attackPlayer_hud; [rewrite E; exact D|exact H]|exact H]
  end.
Qed.

Lemma Page_updateRobots_hud (b : Build) (dt : Q) (rs : list Robot)
  (p : Page) :
  Forall (fun r => 0 <= damage r) rs -> hudInv p ->
  hudInv (snd (fst (Page_updateRobots b dt rs p))).
Proof.
  apply (Page_updateRobots_keeps hudInv (fun r => 0 <= damage r)).
  intros r q. apply Page_Robot_update_hud.
Qed.

Lemma Page_collectPickup_hud (k : HealthPickup) (p : Page) :
  hudInv p -> hudInv (snd (Page_collectPickup k p)).
Proof.
  intros (T & V & M0 & H). unfold Page_collectPickup.
  destruct (inReach _ k); [|repeat split; assumption].
  cbv zeta. cbn [snd].
  destruct (_ <? _) eqn:C.
  - apply updateHealthBar_hud; [exact T|exact M0|cbn; lia].
  - apply Z.ltb_ge in C. cbn in C.
    apply (hudInv_same p); [|repeat split; assumption].
    repeat split; try reflexivity. cbn. lia.
Qed.

Lemma Page_updatePickups_hud (dt : Q) (ks : list HealthPickup) (p : Page) :
  hudInv p -> hudInv (snd (Page_updatePickups dt ks p)).
Proof.
  revert p. induction ks as [|k ks IH]; intros p H; simpl; [exact H|].
  pose proof (Page_collectPickup_hud (HealthPickup_update dt k) p H) as R.
  destruct (Page_collectPickup _ p) as [k1 p1].
  specialize (IH p1 R).
  destruct (Page_updatePickups dt ks p1) as [ks1 p2]. exact IH.
Qed.

Lemma updateQuestionDisplay_hud (b : Build) (rc : Raycaster) (p : Page) :
  sameHud p (updateQuestionDisplay b rc p).
Proof.
  unfold updateQuestionDisplay. destruct (robots (world p));
    [repeat split; reflexivity|].
  destruct (aimedRobot rc _); [repeat split; reflexivity|].
  destruct b; [|repeat split; reflexivity].
  destruct (closestRobot _ _ _) as [[d r']|]; repeat split; reflexivity.
Qed.

Lemma updateThreatIndicator_hud (p : Page) :
  sameHud p (updateThreatIndicator p).
Proof.
  unfold updateThreatIndicator. cbv zeta.
  destruct (negb (Z.rem _ 10 =? 0)); [repeat split; reflexivity|].
  destruct (_ || _); [repeat split; reflexivity|].
  destruct (closestRobot _ _ _) as [[d r']|]; [|repeat split; reflexivity].
  destruct (Qlt_bool d MAX_DETECT_RANGE); repeat split; reflexivity.
Qed.

Lemma robotSound_damage (b : Build) (r : Robot) :
  robotSound b r -> 0 <= damage r.
Proof.
  unfold robotSound. intro H.
  assert (D : damage r = snd (fst (Robot_stats b (rtype r))))
    by (rewrite <- H; reflexivity).
  rewrite D. destruct b, (rtype r); simpl; lia.
Qed.

(** A frame keeps the display up to date. *)
Lemma Page_animate_hud (b : Build) (fuel : nat) (dt : Q) (rc : Raycaster)
  (p p' : Page) (c : Completion) :
  Page_animate b fuel dt rc p = Some (p', c) ->
  fleetInv b (world p) -> hudInv p -> hudInv p'.
Proof.
  intros S (FS & _) H.
  destruct (Page_animate_shape b fuel dt rc p p' c S)
    as [(_ & -> & _)|(_ & w & T & S')]; [exact H|].
  clear S. cbv zeta in S'. destruct S' as (_ & S).
  pose proof (spawnTick_gameState _ _ _ _ _ T) as G.
  rewrite updatePlayerMovement_gameState in G.
  apply spawnTick_world in T. destruct T as (t & rs & g & E & C).
  destruct (updatePlayerMovement_world dt (world p)) as (ph & cm & EM).
  assert (R : robots w = robots (world p) ++ rs)
    by (rewrite E, EM; reflexivity).
  assert (D : Forall (fun r => 0 <= damage r) (robots w)).
  { rewrite R. apply Forall_app. split.
    - eapply Forall_impl; [|exact FS]. apply robotSound_damage.
    - destruct C as [(-> & _)|(r & -> & N)]; constructor; [|constructor].
      apply (robotSound_damage b).
      apply (Robot_new_stats _ _ _ _ _ _ _ _ N). }
  assert (H1 : hudInv (set_world w p)).
  { apply (hudInv_same p); [|exact H].
    unfold sameHud. cbn [world dom set_world]. rewrite G.
    repeat split; reflexivity. }
  pose proof (Page_updateRobots_hud b dt (robots w) (set_world w p) D H1)
    as H2.
  set (u := Page_updateRobots b dt (robots w) (set_world w p)) in *.
  clearbody u.
  assert (H2' : hudInv (set_world
                          (set_robots (robotsLeft c (fst (fst u)))
                             (world (snd (fst u)))) (snd (fst u))))
    by (apply (hudInv_same (snd (fst u)));
        [repeat split; reflexivity|exact H2]).
  clear H2. rename H2' into H2.
  set (p2 := set_world _ (snd (fst u))) in *. clearbody p2.
  destruct c; [|subst p'; exact H2]. subst p'.
  assert (H3 : hudInv (set_world (purgeEffects dt (world p2)) p2))
    by (apply (hudInv_same p2); [repeat split; reflexivity|exact H2]).
  set (p3 := set_world (purgeEffects dt (world p2)) p2) in *. clearbody p3.
  assert (H4 : hudInv (Page_pickupPass b dt p3)).
  { unfold Page_pickupPass. destruct b; [exact H3|].
    pose proof (Page_updatePickups_hud dt (pickups (world p3)) p3 H3) as H4.
    destruct (Page_updatePickups dt _ p3) as [ps q]. cbn [snd] in H4.
    apply (hudInv_same q); [repeat split; reflexivity|exact H4]. }
  set (p4 := Page_pickupPass b dt p3) in *. clearbody p4.
  unfold refreshDisplay. cbv zeta. destruct b.
  - exact (hudInv_same _ _ (updateQuestionDisplay_hud Basic rc p4) H4).
  - eapply hudInv_same; [apply updateThreatIndicator_hud|].
    exact (hudInv_same _ _ (updateQuestionDisplay_hud Enhanced rc p4) H4).
Qed.

Lemma showGameScreen_dom (p : Page) :
  talliesView (dom (showGameScreen p)) = talliesView (dom p)
  /\ healthView (dom (showGameScreen p)) = healthView (dom p).
Proof.
  unfold showGameScreen. cbv zeta. destruct (isMobile _); split; reflexivity.
Qed.

Lemma Page_startGame_hud (b : Build) (fuel : nat) (p p' : Page) :
  Page_startGame b fuel p = Some p' ->
  0 <= maxHealth (gameState (world p)) -> hudInv p'.
Proof.
  unfold Page_startGame. cbv zeta. intros S M0.
  change (world (resetLook (showGameScreen p)))
    with (world (showGameScreen p)) in S.
  rewrite world_showGameScreen in S.
  destruct (startGame b fuel (world p)) as [w|] eqn:E; [|discriminate].
  apply startGame_spec in E. destruct E as (G & _).
  inversion S. clear S.
  match goal with
  | |- hudInv (match b with Enhanced => resetAds ?q | Basic => _ end) =>
      assert (U : hudInv q);
      [|destruct b; [exact U|apply (hudInv_same q);
                             [repeat split; reflexivity|exact U]]]
  end.
  apply updateHealthBar_hud.
  - unfold talliesView, talliesShown.
    cbn [world dom onDom set_dom set_world textContent set_textContent].
    rewrite G. reflexivity.
  - cbn [world onDom set_dom set_world]. rewrite G. exact M0.
  - cbn [world onDom set_dom set_world]. rewrite G. cbn. lia.
Qed.

Lemma hudPair_same (b : Build) (p q : Page) :
  sameHud p q -> sameRun (world p) (world q) ->
  fleetInv b (world p) /\ hudInv p -> fleetInv b (world q) /\ hudInv q.
Proof.
  intros Hh Hr (F & H). split.
  - exact (fleetInv_same b _ _ Hr F).
  - exact (hudInv_same _ _ Hh H).
Qed.

Lemma turnCamera_hud (y x : Q) (p : Page) : sameHud p (turnCamera y x p).
Proof. repeat split; reflexivity. Qed.

Lemma onMouseMove_hud (b : Build) (x y : Q) (p : Page) :
  sameHud p (onMouseMove b x y p).
Proof.
  unfold onMouseMove. destruct (_ || _);
    [apply sameHud_refl|apply turnCamera_hud].
Qed.

Lemma onTouchStart_hud (b : Build) (ts : list Touch) (now : Z) (p : Page) :
  sameHud p (onTouchStart b ts now p).
Proof.
  unfold onTouchStart. destruct (inputOff _ _); [apply sameHud_refl|].
  apply (fold_left_preserves (fun q => sameHud p q)); [|apply sameHud_refl].
  intros a x H. destruct (lookTouchId (look a)); exact H.
Qed.

Lemma onTouchMove_hud (b : Build) (ts : list Touch) (p : Page) :
  sameHud p (onTouchMove b ts p).
Proof.
  unfold onTouchMove. destruct (inputOff _ _); [apply sameHud_refl|].
  apply (fold_left_preserves (fun q => sameHud p q)); [|apply sameHud_refl].
  intros a x H. destruct (sameTouch x _); [|exact H].
  eapply sameHud_trans; [exact H|]. repeat split; reflexivity.
Qed.

Lemma updateJoystick_hud (x y : Q) (p : Page) :
  sameHud p (updateJoystick x y p).
Proof. unfold updateJoystick. cbv zeta. same_hud. Qed.

Lemma onJoystickStart_hud (b : Build) (rect : Rect) (ts : list Touch)
  (p : Page) : sameHud p (onJoystickStart b rect ts p).
Proof.
  unfold onJoystickStart. destruct (inputOff _ _); [apply sameHud_refl|].
  cbv zeta. destruct ts as [|t ts]; [repeat split; reflexivity|].
  destruct (joystickTouchId _); [repeat split; reflexivity|].
  match goal with
  | |- sameHud _ (updateJoystick ?x ?y ?q) =>
      apply (sameHud_trans p q); [repeat split; reflexivity|];
      apply (updateJoystick_hud x y q)
  end.
Qed.

Lemma onJoystickMove_hud (b : Build) (ts : list Touch) (p : Page) :
  sameHud p (onJoystickMove b ts p).
Proof.
  unfold onJoystickMove. destruct (_ || _); [apply sameHud_refl|].
  destruct (find _ ts); [apply updateJoystick_hud|apply sameHud_refl].
Qed.

Lemma onJoystickEnd_hud (b : Build) (ts all : list Touch) (p : Page) :
  sameHud p (onJoystickEnd b ts all p).
Proof.
  unfold onJoystickEnd. cbv zeta.
  destruct (existsb _ ts); destruct b; destruct all;
    repeat split; reflexivity.
Qed.

Lemma onTouchEnd_hud (b : Build) (ts : list Touch) (now : Z) (rc : Raycaster)
  (p : Page) :
  fleetInv b (world p) /\ hudInv p ->
  fleetInv b (world (onTouchEnd b ts now rc p))
  /\ hudInv (onTouchEnd b ts now rc p).
Proof.
  unfold onTouchEnd.
  apply (fold_left_preserves (fun q => fleetInv b (world q) /\ hudInv q)).
  intros a x (F & H). destruct (sameTouch x _); [|auto].
  cbv zeta.
  match goal with
  | |- context [if ?c then Page_onShoot b rc a else a] =>
      set (q := if c then Page_onShoot b rc a else a);
      assert (I : fleetInv b (world q) /\ hudInv q)
        by (subst q; destruct c;
            [split; [rewrite Page_onShoot_world; apply onShoot_fleet, F
                    |apply Page_onShoot_hud, H]|auto])
  end.
  clearbody q. destruct I as (F' & H').
  split; [exact F'|].
  apply (hudInv_same q); [repeat split; reflexivity|exact H'].
Qed.

Lemma step_hud (b : Build) (fuel : nat) (e : Event) (p p' : Page) :
  step b fuel e p = Some p' ->
  fleetInv b (world p) /\ hudInv p -> fleetInv b (world p') /\ hudInv p'.
Proof.
  intros S (F & H).
  assert (K : forall q, sameHud p q -> sameRun (world p) (world q) ->
                        fleetInv b (world q) /\ hudInv q)
    by (intros q Hh Hr; apply (hudPair_same b p q Hh Hr); auto).
  split; [exact (step_fleet b fuel e p p' S F)|].
  destruct e; simpl in S;
    try (apply Some_inj in S; subst p').
  - destruct (Page_animate_frame b fuel dt rc p p' S) as (c & S' & _).
    exact (Page_animate_hud b fuel dt rc p p' c S' F H).
  - destruct (_ && _).
    + apply (hudInv_same p); [|exact H].
      eapply sameHud_trans; [apply onKeyDown_hud|apply togglePause_hud].
    + exact (hudInv_same _ _ (onKeyDown_hud b code p) H).
  - exact (hudInv_same _ _ (onKeyUp_hud code p) H).
  - destruct (isMobile _); [exact H|]. unfold onCanvasClick. guards;
      try exact H.
    apply Page_onShoot_hud, H.
  - destruct (isMobile _); [exact H|].
    exact (hudInv_same _ _ (onMouseMove_hud b movementX movementY p) H).
  - destruct (isMobile _); [exact H|].
    apply (hudInv_same p); [repeat split; reflexivity|exact H].
  - destruct (isMobile _); [|exact H].
    exact (hudInv_same _ _ (onTouchStart_hud b changedTouches now p) H).
  - destruct (isMobile _); [|exact H].
    exact (hudInv_same _ _ (onTouchMove_hud b changedTouches p) H).
  - destruct (isMobile _); [|exact H].
    apply (onTouchEnd_hud b changedTouches now rc p). auto.
  - destruct (isMobile _); [|exact H].
    exact (hudInv_same _ _ (onJoystickStart_hud b rect changedTouches p) H).
  - destruct (isMobile _); [|exact H].
    exact (hudInv_same _ _ (onJoystickMove_hud b changedTouches p) H).
  - destruct (isMobile _); [|exact H].
    exact (hudInv_same _ _ (onJoystickEnd_hud b changedTouches touches p) H).
  - apply (Page_startGame_hud b fuel p p' S). apply H.
  - destruct b; [exact H|exact (hudInv_same _ _ (setGameMode_hud m p) H)].
  - destruct b; [exact H|exact (hudInv_same _ _ (togglePause_hud p) H)].
  - destruct b; [exact H|exact (hudInv_same _ _ (attemptRevive_hud p) H)].
  - destruct b; [exact H|exact (hudInv_same _ _ (showFinalGameOver_hud p) H)].
  - destruct b; [exact H|exact (hudInv_same _ _ (claimExtraLife_hud p) H)].
  - destruct (nth_error (timers p) n) as [t|]; apply Some_inj in S; subst p';
      [|exact H].
    apply fire_hud. apply (hudInv_same p); [repeat split; reflexivity|exact H].
Qed.

(** X7.  The heads-up display is never stale.  After [startGame] with a
    health cap that is not negative, whatever events follow, in both
    builds: the score, wave and combo fields read the current score, wave
    and "x" combo, the health bar's width and text read the percentage
    [updateHealthBar] computes from the current health and cap, in double
    precision as the script does (so 28 of 100 reads 29%), the low-health
    pulse is on exactly when that percentage is below 30, and health does
    not exceed [maxHealth]. *)
Theorem X7_display_up_to_date (b : Build) (fuel : nat) (es : list Event)
  (p0 p p' : Page) :
  0 <= maxHealth (gameState (world p0)) ->
  Page_startGame b fuel p0 = Some p ->
  run b fuel es p = Some p' ->
  let gs := gameState (world p') in
  let d := dom p' in
  let percentage := healthPercentage gs in
  textContent d "score" = string_of_Z (score gs)
  /\ textContent d "wave" = string_of_Z (wave gs)
  /\ textContent d "combo" = ("x" ++ string_of_Z (combo gs))%string
  /\ style d "health-fill" "width" = percentText percentage
  /\ textContent d "health-val" = percentText percentage
  /\ style d ".health-container" "animation"
     = (if belowThirty percentage then "pulse-red 1s infinite" else "none")
  /\ health gs <= maxHealth gs.
Proof.
  intros M0 S R.
  assert (I : fleetInv b (world p') /\ hudInv p').
  { apply (run_preserves (fun q => fleetInv b (world q) /\ hudInv q) b fuel
             (step_hud b fuel) es p p' R).
    split.
    - pose proof (Page_startGame_world b fuel p0) as A. rewrite S in A.
      symmetry in A. exact (startGame_fleet b fuel _ _ A).
    - exact (Page_startGame_hud b fuel p0 p S M0). }
  destruct I as (_ & T & V & _ & H). cbv zeta.
  unfold talliesView, talliesShown in T. unfold healthView, healthShown in V.
  cbv zeta in V.
  injection T as T1 T2 T3. injection V as V1 V2 V3.
  repeat split; assumption.
Qed.

End HudFrames.

(** ** Ads, revive and extra life *)

Lemma sameInner_refl (p : Page) : sameInner p p.
Proof. repeat split; reflexivity. Qed.

Lemma sameInner_trans (p q r : Page) :
  sameInner p q -> sameInner q r -> sameInner p r.
Proof.
  intros (A1 & A2 & A3) (C1 & C2 & C3). repeat split; congruence.
Qed.

Ltac same_inner := unfold sameInner; guards; repeat split; reflexivity.

Lemma updateHealthBar_inner (p : Page) : sameInner p (updateHealthBar p).
Proof. unfold updateHealthBar. cbv zeta. same_inner. Qed.

Lemma checkExtraLifeOffer_inner (p : Page) :
  sameInner p (checkExtraLifeOffer p).
Proof. unfold checkExtraLifeOffer. cbv zeta. same_inner. Qed.

Lemma showReviveModal_inner (p : Page) : sameInner p (fst (showReviveModal p)).
Proof. unfold showReviveModal. cbv zeta. same_inner. Qed.

Lemma Page_endGame_inner (b : Build) (p : Page) :
  sameInner p (fst (Page_endGame b p)).
Proof.
  destruct b; simpl.
  - same_inner.
  - destruct (negb _); [apply sameInner_refl|].
    eapply sameInner_trans; [|apply showReviveModal_inner].
    repeat split; reflexivity.
Qed.

Lemma Page_waveAdvance_inner (b : Build) (p : Page) :
  sameInner p (Page_waveAdvance b p).
Proof.
  unfold Page_waveAdvance. cbv zeta. destruct b.
  - repeat split; reflexivity.
  - match goal with
    | |- context [if ?c then updateHealthBar ?q else _] =>
        set (p1 := if c then updateHealthBar q else q);
        assert (W : sameInner p p1)
          by (subst p1; destruct c;
              [eapply sameInner_trans; [|apply updateHealthBar_inner]|];
              repeat split; reflexivity)
    end.
    clearbody p1.
    match goal with |- context [if ?c then _ else _] => destruct c end;
      (eapply sameInner_trans; [exact W|]); repeat split; reflexivity.
Qed.

Lemma Page_resolveHit_inner (b : Build) (r : Robot) (h : Hit) (p : Page) :
  sameInner p (snd (Page_resolveHit b r h p)).
Proof.
  unfold Page_resolveHit, Page_waveCheck. cbv zeta.
  destruct (strict_eq _ _); cbn [snd]; [|repeat split; reflexivity].
  match goal with |- context [if ?c then _ else _] => destruct c end;
    [|repeat split; reflexivity].
  eapply sameInner_trans; [|apply Page_waveAdvance_inner].
  repeat split; reflexivity.
Qed.

Lemma Page_shootRobots_inner (b : Build) (rc : Raycaster) (rs : list Robot)
  (p : Page) : sameInner p (snd (Page_shootRobots b rc rs p)).
Proof.
  induction rs as [|r rs IH]; simpl; [apply sameInner_refl|].
  destruct (Page_shootRobots b rc rs p) as [rs1 p1].
  destruct (dying r); [exact IH|].
  destruct (Robot_checkHit rc r) as [h|]; [|exact IH].
  pose proof (Page_resolveHit_inner b r h p) as R.
  destruct (Page_resolveHit b r h p) as [r1 p2]. exact R.
Qed.

Lemma Page_onShoot_inner (b : Build) (rc : Raycaster) (p : Page) :
  sameInner p (Page_onShoot b rc p).
Proof.
  unfold Page_onShoot. destruct (canFire b _); [|apply sameInner_refl].
  pose proof (Page_shootRobots_inner b rc (robots (world p)) p) as R.
  destruct (Page_shootRobots b rc _ p) as [rs1 p1]. cbn [snd] in R.
  eapply sameInner_trans; [exact R|]. repeat split; reflexivity.
Qed.

Section Inner.
Context {M : MathLib} {B : Browser}.

Lemma Page_attackPlayer_inner (b : Build) (r : Robot) (p : Page) :
  sameInner p (snd (fst (Page_attackPlayer b r p))).
Proof.
  unfold Page_attackPlayer.
  destruct (match b with Enhanced => _ | Basic => _ end);
    [apply sameInner_refl|].
  cbv zeta.
  set (p1 := onGameState _ p).
  set (p2 := match b with
             | Enhanced => checkExtraLifeOffer (updateHealthBar p1)
             | Basic => updateHealthBar p1
             end).
  assert (I2 : sameInner p p2).
  { subst p2. apply (sameInner_trans p (updateHealthBar p1)).
    - eapply sameInner_trans; [|apply updateHealthBar_inner].
      repeat split; reflexivity.
    - destruct b; [apply sameInner_refl|apply checkExtraLifeOffer_inner]. }
  clearbody p2.
  destruct (_ <=? 0); cbn [snd].
  - pose proof (Page_endGame_inner b p2) as I3.
    destruct (Page_endGame b p2) as [p3 c3].
    eapply sameInner_trans; [exact I2|exact I3].
  - destruct (aroundPlayer _ _) as [pt g]. cbn [fst snd].
    eapply sameInner_trans; [exact I2|]. repeat split; reflexivity.
Qed.

Lemma Page_Robot_update_inner (b : Build) (dt : Q) (r : Robot) (p : Page) :
  sameInner p (snd (fst (Page_Robot_update b dt r p))).
Proof.
  unfold Page_Robot_update. destruct (dying r); [apply sameInner_refl|].
  cbv zeta. destruct (_ && _); [|apply sameInner_refl].
  apply Page_attackPlayer_inner.
Qed.

Lemma Page_updateRobots_inner (b : Build) (dt : Q) (rs : list Robot)
  (p : Page) : sameInner p (snd (fst (Page_updateRobots b dt rs p))).
Proof.
  apply (Page_updateRobots_all (sameInner p)); [|apply sameInner_refl].
  intros r q H. eapply sameInner_trans; [exact H|].
  apply Page_Robot_update_inner.
Qed.

Lemma Page_updatePickups_inner (dt : Q) (ks : list HealthPickup) (p : Page) :
  sameInner p (snd (Page_updatePickups dt ks p)).
Proof.
  revert p. induction ks as [|k ks IH]; intro p; simpl;
    [apply sameInner_refl|].
  assert (R : sameInner p (snd (Page_collectPickup
                                  (HealthPickup_update dt k) p))).
  { unfold Page_collectPickup. destruct (inReach _ _);
      [|apply sameInner_refl].
    cbv zeta. cbn [snd].
    match goal with |- context [if ?c then _ else _] => destruct c end;
      [eapply sameInner_trans; [|apply updateHealthBar_inner]|];
      repeat split; reflexivity. }
  destruct (Page_collectPickup _ p) as [k1 p1].
  specialize (IH p1).
  destruct (Page_updatePickups dt ks p1) as [ks1 p2].
  eapply sameInner_trans; eassumption.
Qed.

Lemma refreshDisplay_inner (b : Build) (rc : Raycaster) (p : Page) :
  sameInner p (refreshDisplay b rc p).
Proof.
  assert (Q : forall b' q, sameInner q (updateQuestionDisplay b' rc q)).
  { intros b' q. unfold updateQuestionDisplay. destruct (robots (world q));
      [repeat split; reflexivity|].
    destruct (aimedRobot rc _); [repeat split; reflexivity|].
    destruct b'; [|repeat split; reflexivity].
    destruct (closestRobot _ _ _) as [[d r']|]; repeat split; reflexivity. }
  assert (T : forall q, sameInner q (updateThreatIndicator q)).
  { intro q. unfold updateThreatIndicator. cbv zeta.
    destruct (negb (Z.rem _ 10 =? 0)); [repeat split; reflexivity|].
    destruct (_ || _); [repeat split; reflexivity|].
    destruct (closestRobot _ _ _) as [[d r']|]; [|repeat split; reflexivity].
    destruct (Qlt_bool d MAX_DETECT_RANGE); repeat split; reflexivity. }
  unfold refreshDisplay. destruct b; [apply Q|].
  eapply sameInner_trans; [apply Q|apply T].
Qed.

Lemma Page_pickupPass_inner (b : Build) (dt : Q) (p : Page) :
  sameInner p (Page_pickupPass b dt p).
Proof.
  unfold Page_pickupPass. destruct b; [apply sameInner_refl|].
  pose proof (Page_updatePickups_inner dt (pickups (world p)) p) as R.
  destruct (Page_updatePickups dt _ p) as [ks q]. cbn [snd] in R.
  eapply sameInner_trans; [exact R|]. repeat split; reflexivity.
Qed.

Lemma Page_animate_inner (b : Build) (fuel : nat) (dt : Q) (rc : Raycaster)
  (p p' : Page) :
  option_map fst (Page_animate b fuel dt rc p) = Some p' -> sameInner p p'.
Proof.
  intro S. destruct (Page_animate_frame b fuel dt rc p p' S) as (c & S' & _).
  apply (Page_animate_blind (sameInner p) b fuel dt rc p p' c);
    [| | | |exact S'|apply sameInner_refl].
  - intros w q H. eapply sameInner_trans; [exact H|].
    repeat split; reflexivity.
  - intros r q H. eapply sameInner_trans; [exact H|].
    apply Page_Robot_update_inner.
  - intros q H. eapply sameInner_trans; [exact H|].
    apply Page_pickupPass_inner.
  - intros q H. eapply sameInner_trans; [exact H|].
    apply refreshDisplay_inner.
Qed.

End Inner.

(** ** Paused and stopped games *)

Section Held.
Context {M : MathLib} {B : Browser}.

Lemma Page_animate_held (b : Build) (fuel : nat) (dt : Q) (rc : Raycaster)
  (p : Page) :
  inputOff b (gameState (world p)) = true ->
  Page_animate b fuel dt rc p = Some (p, Returns).
Proof.
  unfold Page_animate, inputOff. intro H.
  destruct b.
  - destruct (isRunning _); [discriminate|reflexivity].
  - destruct (isPaused _); [reflexivity|].
    destruct (isRunning _); [discriminate|reflexivity].
Qed.

Lemma Page_onShoot_held (b : Build) (rc : Raycaster) (p : Page) :
  inputOff b (gameState (world p)) = true -> Page_onShoot b rc p = p.
Proof.
  unfold Page_onShoot, canFire, inputOff. intro H.
  destruct b; rewrite H; reflexivity.
Qed.

Lemma onTouchEnd_held (b : Build) (ts : list Touch) (now : Z)
  (rc : Raycaster) (p : Page) :
  inputOff b (gameState (world p)) = true ->
  world (onTouchEnd b ts now rc p) = world p
  /\ dom (onTouchEnd b ts now rc p) = dom p.
Proof.
  intro H. unfold onTouchEnd.
  apply (fold_left_preserves
           (fun q => world q = world p /\ dom q = dom p)); [|split; reflexivity].
  intros q t (W & D). destruct (sameTouch t _); [|split; assumption].
  cbv zeta.
  assert (O : forall c, (if c : bool then Page_onShoot b rc q else q) = q).
  { intros [|]; [|reflexivity]. apply Page_onShoot_held. rewrite W. exact H. }
  rewrite O. split; assumption.
Qed.

Lemma step_while_off (b : Build) (fuel : nat) (e : Event) (p : Page) :
  inputOff b (gameState (world p)) = true ->
  guarded e = true -> step b fuel e p = Some p.
Proof.
  intros H G. destruct e; try discriminate G; simpl.
  - rewrite (Page_animate_held b fuel dt rc p H). reflexivity.
  - unfold onKeyDown. rewrite H.
    simpl in G. apply negb_true_iff in G. rewrite G, andb_false_r.
    reflexivity.
  - unfold onCanvasClick. rewrite H. destruct (isMobile _); reflexivity.
  - unfold onMouseMove. rewrite H, orb_true_r.
    destruct (isMobile _); reflexivity.
  - unfold onTouchStart. rewrite H. destruct (isMobile _); reflexivity.
  - unfold onTouchMove. rewrite H. destruct (isMobile _); reflexivity.
  - unfold onJoystickStart. rewrite H. destruct (isMobile _); reflexivity.
  - unfold onJoystickMove. rewrite H. destruct (isMobile _); reflexivity.
Qed.

(** X8.  A paused or stopped game is frozen.  While the game is not running
    (or, in the enhanced build, is paused), a frame, a click on the canvas,
    a mouse move, a look touch going down or moving, a joystick touch going
    down or moving and any key but Escape going down leave the whole page
    as it is; and a look touch that ends fires no shot: the world and the
    document stay as they are. *)
Theorem X8_frozen_while_off (b : Build) (fuel : nat) (e : Event) (p : Page) :
  inputOff b (gameState (world p)) = true ->
  (guarded e = true -> step b fuel e p = Some p)
  /\ (forall ts now rc p',
        step b fuel (lookTouchend ts now rc) p = Some p' ->
        world p' = world p /\ dom p' = dom p).
Proof.
  intro H. split.
  - intro G. exact (step_while_off b fuel e p H G).
  - intros ts now rc p' S. simpl in S. apply Some_inj in S. subst p'.
    destruct (isMobile _); [|split; reflexivity].
    apply onTouchEnd_held, H.
Qed.

Lemma run_while_off (b : Build) (fuel : nat) (es : list Event) (p : Page) :
  inputOff b (gameState (world p)) = true ->
  Forall (fun e => guarded e = true) es -> run b fuel es p = Some p.
Proof.
  intros H F. induction F as [|e es G _ IH]; [reflexivity|].
  cbn [run]. rewrite (step_while_off b fuel e p H G). exact IH.
Qed.

Lemma run_app (b : Build) (fuel : nat) (es fs : list Event) (p q : Page) :
  run b fuel es p = Some q ->
  run b fuel (es ++ fs) p = run b fuel fs q.
Proof.
  revert p. induction es as [|e es IH]; intros p R; simpl in R |- *.
  - inversion R. reflexivity.
  - destruct (step b fuel e p) as [p1|]; [|discriminate]. exact (IH p1 R).
Qed.

(** X18.  Pausing is transparent.  In the enhanced build, in a game that
    is running and not paused: Escape, then any frames, canvas clicks,
    mouse moves, touches going down or moving and keys going down, then
    Escape again leave the world, the look and joystick state, the ad
    session, the timers, and the texts, styles and disabled flags of the
    document exactly as they were; of the classes only "hidden" of the
    pause menu may differ, and it is set. *)
Theorem X18_pause_is_transparent (fuel : nat) (es : list Event) (p : Page) :
  isRunning (gameState (world p)) = true ->
  isPaused (gameState (world p)) = false ->
  Forall (fun e => guarded e = true) es ->
  exists p',
    run Enhanced fuel (keydown "Escape" :: es ++ [keydown "Escape"]) p
    = Some p'
    /\ world p' = world p /\ look p' = look p /\ stick p' = stick p
    /\ adSession p' = adSession p /\ timers p' = timers p
    /\ textContent (dom p') = textContent (dom p)
    /\ style (dom p') = style (dom p)
    /\ disabled (dom p') = disabled (dom p)
    /\ forall el cls,
         classList (dom p') el cls
         = if String.eqb el "pause-menu" && String.eqb cls "hidden"
           then true else classList (dom p) el cls.
Proof.
  intros R P F.
  set (q := togglePause (onKeyDown Enhanced "Escape" p)).
  assert (Q : q = onDom (classList_remove "pause-menu" "hidden")
                    (onGameState (set_isPaused true) p)).
  { subst q. destruct p as [w l s a o t ts d].
    destruct w as [gs rs pk pa bu st si ca ph ke jx jy mo rg].
    cbn [world gameState] in R, P.
    unfold onKeyDown, inputOff, togglePause, onGameState, onDom.
    cbn [world gameState set_world set_keys set_gameState dom set_dom].
    rewrite R, P. cbn [negb orb].
    cbn [world gameState set_world set_keys set_gameState dom set_dom
         isRunning isPaused set_isPaused].
    rewrite R, P. cbn [negb]. reflexivity. }
  assert (O : inputOff Enhanced (gameState (world q)) = true)
    by (rewrite Q; cbn; rewrite R; reflexivity).
  assert (Rq : isRunning (gameState (world q)) = true)
    by (rewrite Q; exact R).
  assert (Pq : isPaused (gameState (world q)) = true)
    by (rewrite Q; reflexivity).
  assert (E : togglePause (onKeyDown Enhanced "Escape" q)
              = onDom (classList_add "pause-menu" "hidden")
                  (onGameState (set_isPaused false) q)).
  { unfold onKeyDown. rewrite O. unfold togglePause. rewrite Rq.
    cbn [negb]. cbv zeta.
    cbn [world onGameState set_world gameState set_gameState isPaused
         set_isPaused].
    rewrite Pq. cbn [negb]. unfold onGameState. rewrite Pq. reflexivity. }
  exists (togglePause (onKeyDown Enhanced "Escape" q)).
  split.
  - change (run Enhanced fuel (keydown "Escape" :: es ++ [keydown "Escape"])
              p)
      with (run Enhanced fuel (es ++ [keydown "Escape"]) q).
    rewrite (run_app Enhanced fuel es [keydown "Escape"] q q
               (run_while_off Enhanced fuel es q O F)).
    reflexivity.
  - rewrite E, Q. clear E Q O Rq Pq q.
    split.
    { destruct p as [w l s a o t ts d].
      destruct w as [gs rs pk pa bu st si ca ph ke jx jy mo rg].
      destruct gs as [sc wv hp mh cb kl rn pz md].
      cbn [world gameState isPaused] in P. subst pz. reflexivity. }
    repeat (split; [reflexivity|]).
    intros el cls.
    cbn [dom onDom set_dom onGameState set_world classList classList_add
         classList_remove classList_set].
    destruct (String.eqb el "pause-menu" && String.eqb cls "hidden");
      reflexivity.
Qed.

End Held.

(** ** The ad session and the pitch over a run *)

Section LookAndAds.
Context {M : MathLib} {B : Browser}.

Lemma aside_refl (p : Page) : aside p p.
Proof. split; reflexivity. Qed.

Lemma aside_trans (p q r : Page) : aside p q -> aside q r -> aside p r.
Proof. intros (A1 & A2) (C1 & C2). split; congruence. Qed.

Lemma sameInner_aside (p q : Page) : sameInner p q -> aside p q.
Proof. intros (A1 & A2 & _). split; assumption. Qed.

Ltac stays := unfold aside; guards; split; reflexivity.

Lemma onKeyDown_aside (b : Build) (code : string) (p : Page) :
  aside p (onKeyDown b code p).
Proof. unfold onKeyDown. stays. Qed.

Lemma togglePause_aside (p : Page) : aside p (togglePause p).
Proof. unfold togglePause. cbv zeta. stays. Qed.

Lemma setGameMode_aside (m : Mode) (p : Page) : aside p (setGameMode m p).
Proof.
  unfold setGameMode. cbv zeta.
  apply (fold_left_preserves (fun q => aside p q)); [|split; reflexivity].
  intros a x H. destruct (String.eqb _ _);
    (eapply aside_trans; [exact H|]); split; reflexivity.
Qed.

Lemma attemptRevive_aside (p : Page) : aside p (attemptRevive p).
Proof.
  unfold attemptRevive. cbv zeta.
  match goal with |- context [match ?c with adRefused => _ | adShown => _ end]
    => destruct c end; split; reflexivity.
Qed.

Lemma claimExtraLife_aside (p : Page) : aside p (claimExtraLife p).
Proof.
  unfold claimExtraLife. cbv zeta.
  match goal with |- context [match ?c with adRefused => _ | adShown => _ end]
    => destruct c end; split; reflexivity.
Qed.

Lemma showFinalGameOver_aside (p : Page) : aside p (fst (showFinalGameOver p)).
Proof. unfold showFinalGameOver. cbv zeta. stays. Qed.

Lemma updateJoystick_aside (x y : Q) (p : Page) :
  aside p (updateJoystick x y p).
Proof. unfold updateJoystick. cbv zeta. stays. Qed.

Lemma onJoystickStart_aside (b : Build) (rect : Rect) (ts : list Touch)
  (p : Page) : aside p (onJoystickStart b rect ts p).
Proof.
  unfold onJoystickStart. destruct (inputOff _ _); [apply aside_refl|].
  cbv zeta. destruct ts as [|t ts]; [split; reflexivity|].
  destruct (joystickTouchId _); [split; reflexivity|].
  match goal with
  | |- aside _ (updateJoystick ?x ?y ?q) =>
      eapply aside_trans; [|apply (updateJoystick_aside x y q)]
  end.
  split; reflexivity.
Qed.

Lemma onJoystickMove_aside (b : Build) (ts : list Touch) (p : Page) :
  aside p (onJoystickMove b ts p).
Proof.
  unfold onJoystickMove. destruct (_ || _); [apply aside_refl|].
  destruct (find _ ts); [apply updateJoystick_aside|apply aside_refl].
Qed.

Lemma onJoystickEnd_aside (b : Build) (ts all : list Touch) (p : Page) :
  aside p (onJoystickEnd b ts all p).
Proof.
  unfold onJoystickEnd. cbv zeta.
  destruct (existsb _ ts); destruct b; destruct all; split; reflexivity.
Qed.

Lemma executeRevive_look (p : Page) : look (executeRevive p) = look p.
Proof.
  unfold executeRevive. cbv zeta.
  match goal with |- context [if ?c then _ else _] => destruct c end;
    cbn [look onDom set_dom onGameState set_world];
    unfold updateHealthBar; cbv zeta; guards; reflexivity.
Qed.

Lemma fire_look (t : Timer) (p : Page) : look (fire t p) = look p.
Proof.
  destruct t as [[|]| |]; cbn [fire].
  - unfold reviveAdOver.
    destruct (showMockRewardedAd_over _ _) as [s [[|c n]|]];
      [rewrite executeRevive_look|..]; reflexivity.
  - unfold extraLifeAdOver.
    destruct (showMockRewardedAd_over _ _) as [s [r|]]; [|reflexivity].
    cbv zeta. cbn [look set_extraLifeOfferShown onDom set_dom].
    unfold updateHealthBar. cbv zeta. guards; reflexivity.
  - reflexivity.
  - apply attemptRevive_aside.
Qed.

Lemma showMockRewardedAd_over_adInv (type : string) (s : AdSession) :
  adInv s -> adInv (fst (showMockRewardedAd_over type s)).
Proof.
  unfold adInv, showMockRewardedAd_over, AD_CONFIG_reviveAdCount.
  intros (C & R & E & A). cbv zeta. cbn [currentReviveAdCount revivesUsed
    extraLivesUsed adsWatched].
  destruct (String.eqb type "revive").
  - destruct (2 <=? currentReviveAdCount s + 1) eqn:G;
      cbn [fst currentReviveAdCount revivesUsed extraLivesUsed adsWatched].
    + apply Z.leb_le in G. lia.
    + apply Z.leb_gt in G. lia.
  - destruct (String.eqb type "extraLife");
      cbn [fst currentReviveAdCount revivesUsed extraLivesUsed adsWatched];
      lia.
Qed.

Lemma executeRevive_session (p : Page) :
  adSession (executeRevive p) = adSession p.
Proof.
  unfold executeRevive. cbv zeta.
  match goal with |- context [if ?c then _ else _] => destruct c end;
    cbn [adSession onDom set_dom onGameState set_world];
    unfold updateHealthBar; cbv zeta; guards; reflexivity.
Qed.

Lemma fire_adInv (t : Timer) (p : Page) :
  adInv (adSession p) -> adInv (adSession (fire t p)).
Proof.
  intro H. destruct t as [[|]| |]; cbn [fire].
  - unfold reviveAdOver.
    pose proof (showMockRewardedAd_over_adInv "revive" _ H) as K.
    destruct (showMockRewardedAd_over _ _) as [s [[|c n]|]]; cbn [fst] in K;
      [rewrite executeRevive_session|..]; exact K.
  - unfold extraLifeAdOver.
    pose proof (showMockRewardedAd_over_adInv "extraLife" _ H) as K.
    destruct (showMockRewardedAd_over _ _) as [s [r|]]; cbn [fst] in K;
      [|exact K].
    cbv zeta. cbn [adSession set_extraLifeOfferShown onDom set_dom].
    unfold updateHealthBar. cbv zeta. guards; exact K.
  - unfold waveAdOver, showMockInterstitialAd_over. cbv zeta.
    cbn [adSession onGameState onDom set_dom set_world set_adSession].
    unfold adInv in *.
    cbn [currentReviveAdCount revivesUsed extraLivesUsed adsWatched]. lia.
  - destruct (attemptRevive_aside p) as (-> & _). exact H.
Qed.

Lemma turnCamera_session (y x : Q) (p : Page) :
  adSession (turnCamera y x p) = adSession p.
Proof. reflexivity. Qed.

Lemma clamp_range (lo hi x : Q) :
  (lo <= hi)%Q ->
  (lo <= Math_max lo (Math_min hi x) /\ Math_max lo (Math_min hi x) <= hi)%Q.
Proof.
  intro H. unfold Math_max, Math_min.
  destruct (Qle_bool hi x) eqn:A.
  - destruct (Qle_bool lo hi) eqn:C.
    + split; [exact H|apply Qle_refl].
    + split; [apply Qle_refl|exact H].
  - destruct (Qle_bool lo x) eqn:C.
    + apply Qle_bool_iff in C. split; [exact C|].
      destruct (Qlt_le_dec x hi) as [L|L]; [apply Qlt_le_weak, L|].
      apply Qle_bool_iff in L. congruence.
    + split; [apply Qle_refl|exact H].
Qed.

Lemma turnCamera_pitch (y x : Q) (p : Page) :
  (2 # 10 <= Math_PI)%Q -> pitchInRange (turnCamera y x p).
Proof.
  intro P. unfold pitchInRange, turnCamera. cbv zeta.
  cbn [look set_world set_look pitch].
  apply clamp_range. unfold Qdiv. change (/ 2)%Q with (1 # 2)%Q. lra.
Qed.

Lemma Page_startGame_pitch (b : Build) (fuel : nat) (p p' : Page) :
  Page_startGame b fuel p = Some p' -> pitch (look p') = 0%Q.
Proof.
  unfold Page_startGame. cbv zeta. intro S.
  destruct (startGame b fuel _) as [w|]; [|discriminate].
  apply Some_inj in S. subst p'.
  match goal with
  | |- pitch (look (match b with Enhanced => resetAds ?q | Basic => _ end))
       = _ =>
      assert (E : pitch (look q) = 0%Q);
      [|destruct b; exact E]
  end.
  match goal with
  | |- pitch (look (updateHealthBar ?q)) = _ =>
      destruct (updateHealthBar_inner q) as (_ & -> & _)
  end.
  reflexivity.
Qed.

Lemma look_handlers_session (b : Build) (p : Page) :
  (forall x y, adSession (onMouseMove b x y p) = adSession p)
  /\ (forall l, adSession (onPointerLockChange l p) = adSession p)
  /\ (forall ts now, adSession (onTouchStart b ts now p) = adSession p)
  /\ (forall ts, adSession (onTouchMove b ts p) = adSession p)
  /\ (forall ts now rc, adSession (onTouchEnd b ts now rc p) = adSession p)
  /\ (forall rc, adSession (onCanvasClick b rc p) = adSession p).
Proof.
  refine (conj _ (conj _ (conj _ (conj _ (conj _ _))))); intros.
  - unfold onMouseMove. destruct (_ || _); reflexivity.
  - reflexivity.
  - unfold onTouchStart. destruct (inputOff _ _); [reflexivity|].
    apply (fold_left_preserves (fun q => adSession q = adSession p));
      [|reflexivity].
    intros a t H. destruct (lookTouchId _); exact H.
  - unfold onTouchMove. destruct (inputOff _ _); [reflexivity|].
    apply (fold_left_preserves (fun q => adSession q = adSession p));
      [|reflexivity].
    intros a t H. destruct (sameTouch _ _); exact H.
  - unfold onTouchEnd.
    apply (fold_left_preserves (fun q => adSession q = adSession p));
      [|reflexivity].
    intros a t H. destruct (sameTouch _ _); [|exact H].
    cbv zeta. cbn [adSession set_look].
    destruct (_ && _); [|exact H].
    destruct (Page_onShoot_inner b rc a) as (-> & _). exact H.
  - unfold onCanvasClick. destruct (inputOff _ _); [reflexivity|].
    destruct (negb _); [reflexivity|].
    apply Page_onShoot_inner.
Qed.

Lemma Page_startGame_session (b : Build) (fuel : nat) (p p' : Page) :
  Page_startGame b fuel p = Some p' ->
  adSession p' = match b with
                 | Enhanced => resetSessionLimits
                 | Basic => adSession p
                 end.
Proof.
  unfold Page_startGame. cbv zeta. intro S.
  destruct (startGame b fuel _) as [w|]; [|discriminate].
  apply Some_inj in S. subst p'.
  destruct b; [|reflexivity].
  cbn [adSession onDom set_dom].
  destruct (updateHealthBar_inner
              (onDom (set_textContent "combo" "x1")
                 (onDom (set_textContent "wave" "1")
                    (onDom (set_textContent "score" "0")
                       (set_world w (resetLook (showGameScreen p)))))))
    as (-> & _).
  cbn [adSession onDom set_dom set_world resetLook set_look].
  unfold showGameScreen. cbv zeta. destruct (isMobile _); reflexivity.
Qed.

Lemma resetSessionLimits_adInv : adInv resetSessionLimits.
Proof.
  unfold adInv, resetSessionLimits, AD_CONFIG_reviveAdCount. simpl. lia.
Qed.

Lemma step_ads (b : Build) (fuel : nat) (e : Event) (p p' : Page) :
  step b fuel e p = Some p' ->
  adInv (adSession p) -> adInv (adSession p').
Proof.
  intros S H.
  assert (K : forall q, aside p q -> adInv (adSession q))
    by (intros q (-> & _); exact H).
  assert (L : forall q, adSession q = adSession p -> adInv (adSession q))
    by (intros q ->; exact H).
  destruct (look_handlers_session b p) as (L1 & L2 & L3 & L4 & L5 & L6).
  destruct e; simpl in S.
  - apply K, sameInner_aside, (Page_animate_inner b fuel dt rc p p' S).
  - apply Some_inj in S. subst p'. apply K.
    destruct (_ && _);
      [eapply aside_trans; [|apply togglePause_aside]|]; apply onKeyDown_aside.
  - apply Some_inj in S. subst p'. apply K. split; reflexivity.
  - apply Some_inj in S. subst p'. destruct (isMobile _); [exact H|].
    apply L, L6.
  - apply Some_inj in S. subst p'. destruct (isMobile _); [exact H|].
    apply L, L1.
  - apply Some_inj in S. subst p'. destruct (isMobile _); exact H.
  - apply Some_inj in S. subst p'. destruct (isMobile _); [|exact H].
    apply L, L3.
  - apply Some_inj in S. subst p'. destruct (isMobile _); [|exact H].
    apply L, L4.
  - apply Some_inj in S. subst p'. destruct (isMobile _); [|exact H].
    apply L, L5.
  - apply Some_inj in S. subst p'. destruct (isMobile _); [|exact H].
    apply K, onJoystickStart_aside.
  - apply Some_inj in S. subst p'. destruct (isMobile _); [|exact H].
    apply K, onJoystickMove_aside.
  - apply Some_inj in S. subst p'. destruct (isMobile _); [|exact H].
    apply K, onJoystickEnd_aside.
  - rewrite (Page_startGame_session b fuel p p' S).
    destruct b; [exact H|apply resetSessionLimits_adInv].
  - apply Some_inj in S. subst p'.
    destruct b; [exact H|apply K, setGameMode_aside].
  - apply Some_inj in S. subst p'.
    destruct b; [exact H|apply K, togglePause_aside].
  - apply Some_inj in S. subst p'.
    destruct b; [exact H|apply K, attemptRevive_aside].
  - apply Some_inj in S. subst p'.
    destruct b; [exact H|apply K, showFinalGameOver_aside].
  - apply Some_inj in S. subst p'.
    destruct b; [exact H|apply K, claimExtraLife_aside].
  - destruct (nth_error _ _) as [t|]; apply Some_inj in S; subst p';
      [|exact H].
    apply fire_adInv. exact H.
Qed.

(** X9.  The ad session adds up.  In the enhanced build, after [startGame]
    and whatever events follow, the revive progress is 0 or 1, and twice
    the revives granted plus the revive progress plus the extra lives
    granted is at most the number of ads watched to the end: no revive and
    no extra life is granted without its ads having been watched. *)
Theorem X9_rewards_are_paid_for (fuel : nat) (es : list Event)
  (p0 p p' : Page) :
  Page_startGame Enhanced fuel p0 = Some p ->
  run Enhanced fuel es p = Some p' ->
  adInv (adSession p').
Proof.
  intros S R.
  apply (run_preserves (fun q => adInv (adSession q)) Enhanced fuel
           (step_ads Enhanced fuel) es p p' R).
  rewrite (Page_startGame_session Enhanced fuel p0 p S).
  apply resetSessionLimits_adInv.
Qed.

Lemma step_pitch (b : Build) (fuel : nat) (e : Event) (p p' : Page) :
  (2 # 10 <= Math_PI)%Q ->
  step b fuel e p = Some p' -> pitchInRange p -> pitchInRange p'.
Proof.
  intros PI S H.
  assert (L : forall q, look q = look p -> pitchInRange q)
    by (intros q E; unfold pitchInRange; rewrite E; exact H).
  assert (K : forall q, aside p q -> pitchInRange q)
    by (intros q (_ & E); exact (L q E)).
  assert (G : forall q, pitch (look q) = pitch (look p) -> pitchInRange q)
    by (intros q E; unfold pitchInRange; rewrite E; exact H).
  destruct e; simpl in S.
  - apply K, sameInner_aside, (Page_animate_inner b fuel dt rc p p' S).
  - apply Some_inj in S. subst p'. apply K.
    destruct (_ && _);
      [eapply aside_trans; [|apply togglePause_aside]|]; apply onKeyDown_aside.
  - apply Some_inj in S. subst p'. apply K. split; reflexivity.
  - apply Some_inj in S. subst p'. destruct (isMobile _); [exact H|].
    unfold onCanvasClick. destruct (inputOff _ _); [exact H|].
    destruct (negb _); [exact H|].
    apply K, sameInner_aside, Page_onShoot_inner.
  - apply Some_inj in S. subst p'. destruct (isMobile _); [exact H|].
    unfold onMouseMove. destruct (_ || _); [exact H|].
    apply turnCamera_pitch, PI.
  - apply Some_inj in S. subst p'. destruct (isMobile _); [exact H|].
    apply G. reflexivity.
  - apply Some_inj in S. subst p'. destruct (isMobile _); [|exact H].
    unfold onTouchStart. destruct (inputOff _ _); [exact H|].
    apply (fold_left_preserves pitchInRange); [|exact H].
    intros a t Ha. destruct (lookTouchId _); exact Ha.
  - apply Some_inj in S. subst p'. destruct (isMobile _); [|exact H].
    unfold onTouchMove. destruct (inputOff _ _); [exact H|].
    apply (fold_left_preserves pitchInRange); [|exact H].
    intros a t Ha. destruct (sameTouch _ _); [|exact Ha].
    cbv zeta.
    match goal with
    | |- pitchInRange (set_look _ (turnCamera ?y ?x ?q)) =>
        exact (turnCamera_pitch y x q PI)
    end.
  - apply Some_inj in S. subst p'. destruct (isMobile _); [|exact H].
    unfold onTouchEnd.
    apply (fold_left_preserves pitchInRange); [|exact H].
    intros a t Ha. destruct (sameTouch _ _); [|exact Ha].
    cbv zeta. unfold pitchInRange. cbn [look set_look pitch].
    destruct (_ && _); [|exact Ha].
    destruct (Page_onShoot_inner b rc a) as (_ & -> & _). exact Ha.
  - apply Some_inj in S. subst p'. destruct (isMobile _); [|exact H].
    apply K, onJoystickStart_aside.
  - apply Some_inj in S. subst p'. destruct (isMobile _); [|exact H].
    apply K, onJoystickMove_aside.
  - apply Some_inj in S. subst p'. destruct (isMobile _); [|exact H].
    apply K, onJoystickEnd_aside.
  - apply Page_startGame_pitch in S. unfold pitchInRange. rewrite S.
    unfold Qdiv. change (/ 2)%Q with (1 # 2)%Q. lra.
  - apply Some_inj in S. subst p'.
    destruct b; [exact H|apply K, setGameMode_aside].
  - apply Some_inj in S. subst p'.
    destruct b; [exact H|apply K, togglePause_aside].
  - apply Some_inj in S. subst p'.
    destruct b; [exact H|apply K, attemptRevive_aside].
  - apply Some_inj in S. subst p'.
    destruct b; [exact H|apply K, showFinalGameOver_aside].
  - apply Some_inj in S. subst p'.
    destruct b; [exact H|apply K, claimExtraLife_aside].
  - destruct (nth_error _ _) as [t|]; apply Some_inj in S; subst p';
      [|exact H].
    apply L. rewrite fire_look. reflexivity.
Qed.

(** X10.  The view never tips over.  Provided pi is at least 0.2, after
    [startGame] and whatever events follow, in both builds, the pitch lies
    between -pi/2 + 0.1 and pi/2 - 0.1. *)
Theorem X10_pitch_stays_in_range (b : Build) (fuel : nat) (es : list Event)
  (p0 p p' : Page) :
  (2 # 10 <= Math_PI)%Q ->
  Page_startGame b fuel p0 = Some p ->
  run b fuel es p = Some p' ->
  pitchInRange p'.
Proof.
  intros PI S R.
  apply (run_preserves pitchInRange b fuel
           (fun e q q' => step_pitch b fuel e q q' PI) es p p' R).
  apply Page_startGame_pitch in S. unfold pitchInRange. rewrite S.
  unfold Qdiv. change (/ 2)%Q with (1 # 2)%Q. lra.
Qed.

End LookAndAds.

(** ** Revive and extra life from click to reward *)

Lemma nth_error_snoc {A : Type} (l : list A) (x : A) :
  nth_error (l ++ [x])%list (List.length l) = Some x.
Proof. induction l as [|a l IH]; simpl; [reflexivity|exact IH]. Qed.

Lemma removeNth_snoc {A : Type} (l : list A) (x : A) :
  removeNth (List.length l) (l ++ [x])%list = l.
Proof. induction l as [|a l IH]; simpl; [reflexivity|]. rewrite IH. reflexivity. Qed.

Section Rewards.
Context {M : MathLib} {B : Browser}.

Lemma timeout_last (b : Build) (fuel : nat) (t : Timer) (p q : Page) :
  timers q = (timers p ++ [t])%list ->
  step b fuel (timeout (List.length (timers p))) q
  = Some (fire t (set_timers (timers p) q)).
Proof.
  intro E. simpl. rewrite E, nth_error_snoc, removeNth_snoc. reflexivity.
Qed.

Lemma attemptRevive_shown (p : Page) :
  revivesUsed (adSession p) = 0 ->
  attemptRevive p
  = setTimeout (rewardedAdOver forRevive)
      (onDom (set_textContent "revive-btn" "Loading...")
         (onDom (set_disabled "revive-btn" true) p)).
Proof.
  intro R. unfold attemptRevive, showRewardedAd, canShowAd. cbv zeta.
  cbn [adSession onDom set_dom].
  change (String.eqb "revive" "revive") with true. cbv iota.
  rewrite R. reflexivity.
Qed.

Lemma attemptRevive_refused (p : Page) :
  1 <= revivesUsed (adSession p) -> timers (attemptRevive p) = timers p.
Proof.
  intro R. unfold attemptRevive, showRewardedAd, canShowAd. cbv zeta.
  cbn [adSession onDom set_dom].
  change (String.eqb "revive" "revive") with true. cbv iota.
  unfold AD_CONFIG_maxRevives.
  destruct (revivesUsed (adSession p) <? 1) eqn:E;
    [apply Z.ltb_lt in E; lia|reflexivity].
Qed.

Lemma reviveAdOver_first (p : Page) :
  currentReviveAdCount (adSession p) = 0 ->
  world (reviveAdOver p) = world p
  /\ classList (dom (reviveAdOver p)) = classList (dom p)
  /\ timers (reviveAdOver p) = (timers p ++ [nextReviveAd])%list
  /\ adSession (reviveAdOver p)
     = mkAdSession (revivesUsed (adSession p)) (extraLivesUsed (adSession p))
         (adsWatched (adSession p) + 1) 1.
Proof.
  intro C. unfold reviveAdOver, showMockRewardedAd_over. cbv zeta.
  change (String.eqb "revive" "revive") with true. cbv iota.
  cbn [currentReviveAdCount revivesUsed extraLivesUsed adsWatched].
  rewrite C. change (AD_CONFIG_reviveAdCount <=? 0 + 1) with false.
  cbv iota. repeat split.
Qed.

Lemma reviveAdOver_second (p : Page) :
  currentReviveAdCount (adSession p) = 1 ->
  reviveAdOver p
  = executeRevive
      (set_adSession
         (mkAdSession (revivesUsed (adSession p) + 1)
            (extraLivesUsed (adSession p)) (adsWatched (adSession p) + 1) 0)
         p).
Proof.
  intro C. unfold reviveAdOver, showMockRewardedAd_over. cbv zeta.
  change (String.eqb "revive" "revive") with true. cbv iota.
  cbn [currentReviveAdCount revivesUsed extraLivesUsed adsWatched].
  rewrite C. change (AD_CONFIG_reviveAdCount <=? 1 + 1) with true.
  reflexivity.
Qed.

Lemma executeRevive_result (p : Page) :
  let q := executeRevive p in
  health (gameState (world q))
  = Math_floor (inject_Z (maxHealth (gameState (world p))) * (5 # 10))
  /\ isRunning (gameState (world q)) = true
  /\ classList (dom q) "revive-modal" "show" = false
  /\ robots (world q) = robots (world p)
  /\ score (gameState (world q)) = score (gameState (world p))
  /\ adSession q = adSession p /\ timers q = timers p.
Proof.
  unfold executeRevive. cbv zeta.
  match goal with |- context [if ?c then _ else _] => destruct c end;
    cbn [world dom adSession timers onDom set_dom onGameState set_world];
    rewrite !world_updateHealthBar;
    cbn [world dom adSession timers onDom set_dom onGameState set_world
         gameState set_gameState health set_health isRunning set_isRunning
         robots score];
    (split; [reflexivity|]); (split; [reflexivity|]);
    (split; [|split; [reflexivity|split; [reflexivity|]]]).
  all: unfold updateHealthBar; cbv zeta; guards; try (split; reflexivity).
  all: reflexivity.
Qed.

(** X11.  Two ads buy one revive.  In the enhanced build, with no revive
    used and no revive ad counted yet: a click on the revive button and the
    end of the ad it starts change nothing in the game or in the classes of
    the document (one ad is not enough); the follow-up ad the script then starts on its
    own, once over, hides the revive modal and puts the player back in a
    running game with half of the maximum health, rounded down, robots and
    score as they were.  From then on the revive is used up: a further
    click starts no ad, and the next death goes straight to the game-over
    screen. *)
Theorem X11_two_ads_buy_one_revive (fuel : nat) (p : Page) :
  revivesUsed (adSession p) = 0 ->
  currentReviveAdCount (adSession p) = 0 ->
  let n := List.length (timers p) in
  exists p1 p',
    run Enhanced fuel [reviveClick; timeout n] p = Some p1
    /\ world p1 = world p
    /\ classList (dom p1) = classList (dom p)
    /\ run Enhanced fuel [timeout n; timeout n] p1 = Some p'
    /\ health (gameState (world p'))
       = Math_floor (inject_Z (maxHealth (gameState (world p))) * (5 # 10))
    /\ isRunning (gameState (world p')) = true
    /\ classList (dom p') "revive-modal" "show" = false
    /\ robots (world p') = robots (world p)
    /\ score (gameState (world p')) = score (gameState (world p))
    /\ timers p' = timers p
    /\ revivesUsed (adSession p') = 1
    /\ timers (attemptRevive p') = timers p'
    /\ showReviveModal p' = showFinalGameOver p'.
Proof.
  intros R C n. subst n.
  set (q1 := onDom (set_textContent "revive-btn" "Loading...")
               (onDom (set_disabled "revive-btn" true) p)).
  set (q2 := set_timers (timers p) (setTimeout (rewardedAdOver forRevive) q1)).
  assert (S1 : run Enhanced fuel
                 [reviveClick; timeout (List.length (timers p))] p
               = Some (reviveAdOver q2)).
  { cbn [run]. change (step Enhanced fuel reviveClick p)
      with (Some (attemptRevive p)).
    rewrite (attemptRevive_shown p R). fold q1.
    rewrite (timeout_last Enhanced fuel (rewardedAdOver forRevive) p
               (setTimeout (rewardedAdOver forRevive) q1) eq_refl).
    reflexivity. }
  destruct (reviveAdOver_first q2 C) as (W1 & D1 & T1 & A1).
  set (p1 := reviveAdOver q2) in *. clearbody p1.
  change (timers q2) with (timers p) in T1.
  change (adSession q2) with (adSession p) in A1.
  set (q3 := set_timers (timers p) p1).
  set (q4 := onDom (set_textContent "revive-btn" "Loading...")
               (onDom (set_disabled "revive-btn" true) q3)).
  set (q5 := set_timers (timers p) (setTimeout (rewardedAdOver forRevive) q4)).
  assert (R3 : revivesUsed (adSession q3) = 0)
    by (change (adSession q3) with (adSession p1); rewrite A1; exact R).
  assert (C5 : currentReviveAdCount (adSession q5) = 1)
    by (change (adSession q5) with (adSession p1); rewrite A1; reflexivity).
  assert (S2 : run Enhanced fuel
                 [timeout (List.length (timers p));
                  timeout (List.length (timers p))] p1
               = Some (reviveAdOver q5)).
  { cbn [run].
    rewrite (timeout_last Enhanced fuel nextReviveAd p p1 T1).
    change (fire nextReviveAd (set_timers (timers p) p1))
      with (attemptRevive q3).
    rewrite (attemptRevive_shown q3 R3). fold q4.
    change (List.length (timers p)) with (List.length (timers q3)).
    rewrite (timeout_last Enhanced fuel (rewardedAdOver forRevive) q3
               (setTimeout (rewardedAdOver forRevive) q4) eq_refl).
    reflexivity. }
  rewrite (reviveAdOver_second q5 C5) in S2.
  match type of S2 with _ = Some (executeRevive ?x) => set (q6 := x) in * end.
  destruct (executeRevive_result q6) as (H1 & H2 & H3 & H4 & H5 & H6 & H7).
  set (p' := executeRevive q6) in *. clearbody p'.
  change (world q6) with (world p1) in H1, H4, H5.
  rewrite W1 in H1, H4, H5.
  change (timers q6) with (timers p) in H7.
  assert (U : revivesUsed (adSession p') = 1).
  { rewrite H6. subst q6. cbn [adSession set_adSession revivesUsed].
    change (adSession q5) with (adSession p1). rewrite A1.
    cbn [revivesUsed]. rewrite R. reflexivity. }
  exists p1, p'.
  split; [exact S1|]. split; [exact W1|]. split; [exact D1|].
  split; [exact S2|]. split; [exact H1|]. split; [exact H2|].
  split; [exact H3|]. split; [exact H4|]. split; [exact H5|].
  split; [exact H7|]. split; [exact U|].
  split; [apply attemptRevive_refused; lia|].
  unfold showReviveModal, canShowAd.
  change (String.eqb "revive" "revive") with true. cbv iota.
  rewrite U. reflexivity.
Qed.

Lemma claimExtraLife_shown (p : Page) :
  extraLivesUsed (adSession p) = 0 ->
  claimExtraLife p
  = setTimeout (rewardedAdOver forExtraLife)
      (onDom (classList_remove "extra-life-btn" "show") p).
Proof.
  intro R. unfold claimExtraLife, showRewardedAd, canShowAd. cbv zeta.
  cbn [adSession onDom set_dom].
  change (String.eqb "extraLife" "revive") with false.
  change (String.eqb "extraLife" "extraLife") with true. cbv iota.
  rewrite R. reflexivity.
Qed.

Lemma claimExtraLife_refused (p : Page) :
  1 <= extraLivesUsed (adSession p) -> timers (claimExtraLife p) = timers p.
Proof.
  intro R. unfold claimExtraLife, showRewardedAd, canShowAd. cbv zeta.
  cbn [adSession onDom set_dom].
  change (String.eqb "extraLife" "revive") with false.
  change (String.eqb "extraLife" "extraLife") with true. cbv iota.
  unfold AD_CONFIG_maxExtraLives.
  destruct (extraLivesUsed (adSession p) <? 1) eqn:E;
    [apply Z.ltb_lt in E; lia|reflexivity].
Qed.

Lemma checkExtraLifeOffer_spent (p : Page) :
  1 <= extraLivesUsed (adSession p) -> checkExtraLifeOffer p = p.
Proof.
  intro R. unfold checkExtraLifeOffer, canShowAd. cbv zeta.
  change (String.eqb "extraLife" "revive") with false.
  change (String.eqb "extraLife" "extraLife") with true. cbv iota.
  unfold AD_CONFIG_maxExtraLives.
  destruct (extraLivesUsed (adSession p) <? 1) eqn:E;
    [apply Z.ltb_lt in E; lia|].
  rewrite andb_false_r. reflexivity.
Qed.

Lemma extraLifeAdOver_result (p : Page) :
  let q := extraLifeAdOver p in
  let gs := gameState (world p) in
  gameState (world q) = set_health (Z.min (maxHealth gs) (health gs + 50)) gs
  /\ robots (world q) = robots (world p)
  /\ classList (dom q) "extra-life-btn" "hidden" = true
  /\ classList (dom q) "extra-life-btn" "show"
     = classList (dom p) "extra-life-btn" "show"
  /\ extraLivesUsed (adSession q) = extraLivesUsed (adSession p) + 1
  /\ timers q = timers p.
Proof.
  unfold extraLifeAdOver, showMockRewardedAd_over. cbv zeta.
  change (String.eqb "extraLife" "revive") with false.
  change (String.eqb "extraLife" "extraLife") with true. cbv iota.
  cbn [world dom adSession timers set_extraLifeOfferShown onDom set_dom].
  rewrite world_updateHealthBar.
  cbn [world onGameState set_world set_adSession gameState set_gameState
       robots].
  split; [reflexivity|]. split; [reflexivity|].
  unfold updateHealthBar. cbv zeta.
  match goal with |- context [if ?c then _ else _] => destruct c end;
    repeat split.
Qed.

(** X12.  One ad buys one extra life.  In the enhanced build, with no
    extra life used yet, a click on the extra-life button followed by the
    end of the ad it starts adds 50 to the health, capped at the maximum
    health, leaves the rest of the game state and the robots as they were,
    and hides the button.  From then on the extra life is used up: the
    offer is never made again and a further click starts no ad. *)
Theorem X12_one_ad_buys_one_extra_life (fuel : nat) (p : Page) :
  extraLivesUsed (adSession p) = 0 ->
  let gs := gameState (world p) in
  exists p',
    run Enhanced fuel [extraLifeClick; timeout (List.length (timers p))] p
    = Some p'
    /\ gameState (world p')
       = set_health (Z.min (maxHealth gs) (health gs + 50)) gs
    /\ robots (world p') = robots (world p)
    /\ classList (dom p') "extra-life-btn" "hidden" = true
    /\ classList (dom p') "extra-life-btn" "show" = false
    /\ extraLivesUsed (adSession p') = 1
    /\ timers p' = timers p
    /\ (forall q, adSession q = adSession p' -> checkExtraLifeOffer q = q)
    /\ timers (claimExtraLife p') = timers p'.
Proof.
  intros R gs. subst gs.
  set (q1 := onDom (classList_remove "extra-life-btn" "show") p).
  set (q2 := set_timers (timers p)
               (setTimeout (rewardedAdOver forExtraLife) q1)).
  assert (S1 : run Enhanced fuel
                 [extraLifeClick; timeout (List.length (timers p))] p
               = Some (extraLifeAdOver q2)).
  { cbn [run]. change (step Enhanced fuel extraLifeClick p)
      with (Some (claimExtraLife p)).
    rewrite (claimExtraLife_shown p R). fold q1.
    rewrite (timeout_last Enhanced fuel (rewardedAdOver forExtraLife) p
               (setTimeout (rewardedAdOver forExtraLife) q1) eq_refl).
    reflexivity. }
  destruct (extraLifeAdOver_result q2) as (H1 & H2 & H3 & H4 & H5 & H6).
  set (p' := extraLifeAdOver q2) in *. clearbody p'.
  change (world q2) with (world p) in H1, H2.
  change (adSession q2) with (adSession p) in H5.
  change (timers q2) with (timers p) in H6.
  change (classList (dom q2) "extra-life-btn" "show") with false in H4.
  rewrite R in H5.
  exists p'.
  split; [exact S1|]. split; [exact H1|]. split; [exact H2|].
  split; [exact H3|]. split; [exact H4|]. split; [exact H5|].
  split; [exact H6|].
  split.
  - intros q E. apply checkExtraLifeOffer_spent. rewrite E, H5. lia.
  - apply claimExtraLife_refused. rewrite H5. lia.
Qed.

End Rewards.

(** ** The question on display *)

Lemma aimedRobot_firstLiveHit (rc : Raycaster) (rs : list Robot) (r : Robot)
  (h : Hit) :
  firstLiveHit rc rs = Some (r, h) -> aimedRobot rc rs = Some r.
Proof.
  induction rs as [|x l IH]; simpl; [discriminate|].
  destruct (dying x); [exact IH|].
  unfold Robot_checkHit. destruct (rc x) as [|i rest]; [exact IH|].
  destruct (firstTagged _) as [[pt v]|]; intro E; inversion E; reflexivity.
Qed.

Section Target.
Context {M : MathLib} {B : Browser}.

(** X13.  The question on display is the target's.  In both builds, when
    the ray from the screen centre would make a shot land on a robot, the
    question display refreshed with that ray shows that robot's question,
    and a shot fired with that ray is resolved against that same robot. *)
Theorem X13_question_shown_is_the_targets (b : Build) (rc : Raycaster)
  (p : Page) (r : Robot) (h : Hit) :
  firstLiveHit rc (robots (world p)) = Some (r, h) ->
  canFire b (gameState (world p)) = true ->
  textContent (dom (updateQuestionDisplay b rc p)) "current-question"
  = question r
  /\ exists before after,
       robots (world p) = (before ++ r :: after)%list
       /\ world (Page_onShoot b rc p)
          = set_robots
              (before ++ fst (resolveHit b r h (world p)) :: after)%list
              (snd (resolveHit b r h (world p))).
Proof.
  intros L F. split.
  - unfold updateQuestionDisplay.
    rewrite (aimedRobot_firstLiveHit rc _ r h L).
    destruct (robots (world p)); [discriminate L|reflexivity].
  - destruct (firstLiveHit_split rc _ r h L) as (bf & af & E & HB & D & K).
    exists bf, af. split; [exact E|].
    rewrite Page_onShoot_world.
    exact (onShoot_target b rc (world p) bf af r h F E HB D K).
Qed.

End Target.

(** ** Pooled questions *)

Lemma unlockedPool_by_wave (easy medium hard : list QData) (w : Z)
  (q : QData) :
  In q (unlockedPool easy medium hard w) ->
  In q easy \/ (4 <= w /\ In q medium) \/ (8 <= w /\ In q hard).
Proof.
  unfold unlockedPool. cbv zeta.
  destruct (4 <=? w) eqn:A; destruct (8 <=? w) eqn:C;
    try apply Z.leb_le in A; try apply Z.leb_le in C;
    rewrite ?in_app_iff; intuition.
Qed.

Lemma pickFromPool_entry (pool : list QData) (this r : Robot) (g g1 : Rng)
  (res : Generated) :
  pickFromPool pool this g = Some (r, res, g1) ->
  exists q,
    In q pool /\ question r = qd_q q /\ correctAnswer r = VStr (qd_a q)
    /\ res = mkGenerated (VStr (qd_a q)) (map VStr (qd_w q))
    /\ source g1 = source g.
Proof.
  unfold pickFromPool. intro H.
  destruct (randomIndex _ g) as [i g0] eqn:R.
  apply randomIndex_source in R.
  destruct (i <? 0); [discriminate|].
  destruct (nth_error pool (Z.to_nat i)) as [q|] eqn:N; [|discriminate].
  inversion H. subst. exists q.
  split; [exact (nth_error_In _ _ N)|]. repeat split. exact R.
Qed.

(** X14.  A pooled question keeps its own answers and suits the wave.  In
    the quiz and english modes of the enhanced build, under draws in
    [0, 1), the robot's question, its correct answer and its three zone
    values all come from one entry of the mode's pools: the zones hold
    that entry's answer and its two wrong answers, in some order.  The
    entry is an easy one, or a medium one from wave 4 on, or a hard one
    from wave 8 on. *)
Theorem X14_pooled_question_keeps_its_answers (fuel : nat) (gs : GameState)
  (this r : Robot) (g g' : Rng) :
  unit_draws g ->
  mode gs <> math ->
  generateQuestion Enhanced fuel gs this g = Some (r, g') ->
  exists q w1 w2,
    (let '(easy, medium, hard) := poolsOf (mode gs) in
     In q easy \/ (4 <= wave gs /\ In q medium)
     \/ (8 <= wave gs /\ In q hard))
    /\ question r = qd_q q
    /\ correctAnswer r = VStr (qd_a q)
    /\ qd_w q = [w1; w2]
    /\ Permutation [VStr (qd_a q); VStr w1; VStr w2] (zones r).
Proof.
  intros U NM H. simpl in H. unfold Robot_generateQuestion in H.
  assert (K : forall easy medium hard,
             forallb entryOk (easy ++ medium ++ hard) = true ->
             match pickFromPool (unlockedPool easy medium hard (wave gs))
                     this g with
             | Some (this, result, g) => Some (bindZones result this g)
             | None => None
             end = Some (r, g') ->
             exists q w1 w2,
               (In q easy \/ (4 <= wave gs /\ In q medium)
                \/ (8 <= wave gs /\ In q hard))
               /\ question r = qd_q q
               /\ correctAnswer r = VStr (qd_a q)
               /\ qd_w q = [w1; w2]
               /\ Permutation [VStr (qd_a q); VStr w1; VStr w2] (zones r)).
  { intros easy medium hard OK E.
    destruct (pickFromPool _ this g) as [[[r1 res] g1]|] eqn:Pk;
      [|discriminate].
    apply pickFromPool_entry in Pk.
    destruct Pk as (q & I & Q & C & -> & S).
    pose proof (unlockedPool_incl _ _ _ _ _ I) as I'.
    rewrite forallb_forall in OK. specialize (OK q I').
    apply entryOk_spec in OK. destruct OK as (w1 & w2 & W & _).
    apply unlockedPool_by_wave in I.
    assert (U1 : unit_draws g1)
      by (eapply unit_draws_source; [exact S|exact U]).
    rewrite W in E. cbn [map] in E.
    pose proof (bindZones_spec (VStr (qd_a q)) (VStr w1) (VStr w2) r1 g1 U1)
      as (P & CA & QA).
    cbv zeta in P, CA, QA. apply Some_inj in E. rewrite E in P, CA, QA.
    cbn [fst] in P, CA, QA.
    exists q, w1, w2. split; [exact I|]. split; [congruence|].
    split; [congruence|]. split; [exact W|exact P]. }
  destruct (mode gs); [contradiction NM; reflexivity| |].
  - exact (K _ _ _ quiz_pools_sound H).
  - exact (K _ _ _ english_pools_sound H).
Qed.

(** ** The death screens *)

Lemma sameOver_refl (p : Page) : sameOver p p.
Proof. repeat split; reflexivity. Qed.

Lemma sameOver_trans (p q r : Page) :
  sameOver p q -> sameOver q r -> sameOver p r.
Proof.
  intros (A1 & A2 & A3 & A4) (C1 & C2 & C3 & C4). repeat split; congruence.
Qed.

Lemma overInv_same (b : Build) (p q : Page) :
  sameOver p q -> overInv b p -> overInv b q.
Proof.
  intros (R & F & V & S) H Rq. rewrite R in Rq.
  unfold screensView in S.
  assert (S1 : classList (dom q) "revive-modal" "show"
               = classList (dom p) "revive-modal" "show") by congruence.
  assert (S2 : classList (dom q) "gameover-screen" "show"
               = classList (dom p) "gameover-screen" "show") by congruence.
  rewrite S1, S2, V, F. exact (H Rq).
Qed.

Lemma overInv_running (b : Build) (p : Page) :
  isRunning (gameState (world p)) = true -> overInv b p.
Proof. intros R F. congruence. Qed.

Ltac same_over := unfold sameOver; guards; repeat split; reflexivity.

Lemma updateHealthBar_screen (p : Page) : sameOver p (updateHealthBar p).
Proof. unfold updateHealthBar. cbv zeta. same_over. Qed.

Lemma checkExtraLifeOffer_screen (p : Page) :
  sameOver p (checkExtraLifeOffer p).
Proof. unfold checkExtraLifeOffer. cbv zeta. same_over. Qed.

Lemma showFinalGameOver_screen (b : Build) (p : Page) :
  overInv b (fst (showFinalGameOver p)).
Proof. intros _. right. split; reflexivity. Qed.

Lemma showReviveModal_screen (p : Page) : overInv Enhanced (fst (showReviveModal p)).
Proof.
  unfold showReviveModal. destruct (negb _);
    [apply showFinalGameOver_screen|].
  cbv zeta. intros _. left. split; [reflexivity|].
  destruct (isMobile _); reflexivity.
Qed.

Lemma Page_endGame_screen (b : Build) (p : Page) :
  overInv b p -> overInv b (fst (Page_endGame b p)).
Proof.
  intro H. destruct b; simpl.
  - intros _. right. destruct (isMobile _); split; reflexivity.
  - destruct (negb _); [exact H|apply showReviveModal_screen].
Qed.

Lemma attemptRevive_screen (p : Page) : sameOver p (attemptRevive p).
Proof.
  unfold attemptRevive. cbv zeta.
  match goal with |- context [match ?c with adRefused => _ | adShown => _ end]
    => destruct c end; repeat split; reflexivity.
Qed.

Lemma claimExtraLife_screen (p : Page) : sameOver p (claimExtraLife p).
Proof.
  unfold claimExtraLife. cbv zeta.
  match goal with |- context [match ?c with adRefused => _ | adShown => _ end]
    => destruct c end; repeat split; reflexivity.
Qed.

Lemma togglePause_screen (p : Page) : sameOver p (togglePause p).
Proof. unfold togglePause. cbv zeta. same_over. Qed.

Lemma setGameMode_screen (m : Mode) (p : Page) : sameOver p (setGameMode m p).
Proof.
  unfold setGameMode. cbv zeta.
  apply (fold_left_preserves (fun q => sameOver p q));
    [|repeat split; reflexivity].
  intros a x H. eapply sameOver_trans; [exact H|].
  destruct x, m; repeat split; reflexivity.
Qed.

Lemma waveAdOver_screen (p : Page) : sameOver p (waveAdOver p).
Proof. repeat split; reflexivity. Qed.

Lemma extraLifeAdOver_screen (p : Page) : sameOver p (extraLifeAdOver p).
Proof.
  unfold extraLifeAdOver.
  destruct (showMockRewardedAd_over _ _) as [s [r|]];
    [|repeat split; reflexivity].
  cbv zeta.
  match goal with
  | |- sameOver p (set_extraLifeOfferShown false (onDom ?f (updateHealthBar ?q)))
    => apply (sameOver_trans p (updateHealthBar q));
       [apply (sameOver_trans p q);
        [repeat split; reflexivity|apply updateHealthBar_screen]
       |repeat split; reflexivity]
  end.
Qed.

Lemma executeRevive_running (p : Page) :
  isRunning (gameState (world (executeRevive p))) = true.
Proof.
  unfold executeRevive. cbv zeta.
  match goal with |- context [if ?c then _ else _] => destruct c end;
    reflexivity.
Qed.

Lemma fire_screen (b : Build) (t : Timer) (p : Page) :
  overInv b p -> overInv b (fire t p).
Proof.
  intro H. destruct t as [[|]| |]; cbn [fire].
  - unfold reviveAdOver.
    destruct (showMockRewardedAd_over _ _) as [s [[|c n]|]].
    + apply overInv_running, executeRevive_running.
    + apply (overInv_same b p); [repeat split; reflexivity|exact H].
    + apply (overInv_same b p); [repeat split; reflexivity|exact H].
  - exact (overInv_same b _ _ (extraLifeAdOver_screen p) H).
  - exact (overInv_same b _ _ (waveAdOver_screen p) H).
  - exact (overInv_same b _ _ (attemptRevive_screen p) H).
Qed.

Lemma resolveHit_isRunning (b : Build) (r : Robot) (h : Hit) (w : World) :
  isRunning (gameState (snd (resolveHit b r h w))) = isRunning (gameState w).
Proof.
  destruct (strict_eq (hit_answer h) (correctAnswer r)) eqn:C.
  - rewrite (resolveHit_correct_eq b r h w C). cbn [snd].
    destruct (waveCheck_tally b
                (maybeDrop b (set_dying true r)
                   (createExplosion b (hit_point h) 40
                      (set_gameState (tallyKill (gameState w))
                         (set_bullets
                            (bullets w ++
                             [BulletTrail_new (cam_position (camera w))
                                (hit_point h)]) w)))))
      as (_ & _ & _ & _ & -> & _).
    destruct (beforeWaveCheck b (set_dying true r) (hit_point h)
                (bullets w ++
                 [BulletTrail_new (cam_position (camera w)) (hit_point h)]) w)
      as (-> & _).
    reflexivity.
  - rewrite (resolveHit_wrong_eq b r h w C). cbn [snd].
    match goal with
    | |- context [createExplosion b ?pt ?n ?x] =>
        destruct (createExplosion_fields b pt n x) as (-> & _)
    end.
    reflexivity.
Qed.

Lemma onShoot_isRunning (b : Build) (rc : Raycaster) (w : World) :
  isRunning (gameState (onShoot b rc w)) = isRunning (gameState w).
Proof.
  destruct (onShoot_cases b rc w) as [->|(r & h & rs & _ & _ & ->)];
    [reflexivity|].
  exact (resolveHit_isRunning b r h w).
Qed.

Lemma Page_onShoot_screen (b : Build) (rc : Raycaster) (p : Page) :
  overInv b p -> overInv b (Page_onShoot b rc p).
Proof.
  intro H. destruct (isRunning (gameState (world p))) eqn:R.
  - apply overInv_running. rewrite Page_onShoot_world, onShoot_isRunning.
    exact R.
  - unfold Page_onShoot, canFire. rewrite R. destruct b; exact H.
Qed.

Section Screens.
Context {M : MathLib} {B : Browser}.

Lemma Page_attackPlayer_screen (b : Build) (r : Robot) (p : Page) :
  overInv b p -> overInv b (snd (fst (Page_attackPlayer b r p))).
Proof.
  intro H. unfold Page_attackPlayer.
  destruct (match b with Enhanced => _ | Basic => _ end); [exact H|].
  cbv zeta.
  set (p1 := onGameState _ p).
  set (p2 := match b with
             | Enhanced => checkExtraLifeOffer (updateHealthBar p1)
             | Basic => updateHealthBar p1
             end).
  assert (I2 : sameOver p p2).
  { subst p2. apply (sameOver_trans p (updateHealthBar p1)).
    - eapply sameOver_trans; [|apply updateHealthBar_screen].
      repeat split; reflexivity.
    - destruct b; [apply sameOver_refl|apply checkExtraLifeOffer_screen]. }
  apply (overInv_same b p p2 I2) in H.
  clearbody p2.
  destruct (_ <=? 0).
  - pose proof (Page_endGame_screen b p2 H) as E.
    destruct (Page_endGame b p2) as [p3 c]. exact E.
  - destruct (aroundPlayer _ _) as [pt g]. cbn [fst snd].
    apply (overInv_same b p2); [repeat split; reflexivity|exact H].
Qed.

Lemma Page_Robot_update_screen (b : Build) (dt : Q) (r : Robot) (p : Page) :
  overInv b p -> overInv b (snd (fst (Page_Robot_update b dt r p))).
Proof.
  intro H. unfold Page_Robot_update. destruct (dying r); [exact H|].
  cbv zeta. destruct (_ && _); [|exact H].
  apply Page_attackPlayer_screen, H.
Qed.

Lemma Page_updateRobots_screen (b : Build) (dt : Q) (rs : list Robot)
  (p : Page) :
  overInv b p -> overInv b (snd (fst (Page_updateRobots b dt rs p))).
Proof.
  apply (Page_updateRobots_all (overInv b) b dt).
  intros r q. apply Page_Robot_update_screen.
Qed.

Lemma Page_updatePickups_screen (dt : Q) (ks : list HealthPickup) (p : Page) :
  sameOver p (snd (Page_updatePickups dt ks p)).
Proof.
  revert p. induction ks as [|k ks IH]; intro p; simpl;
    [apply sameOver_refl|].
  assert (R : sameOver p (snd (Page_collectPickup
                                 (HealthPickup_update dt k) p))).
  { unfold Page_collectPickup. destruct (inReach _ _);
      [|apply sameOver_refl].
    cbv zeta. cbn [snd].
    match goal with |- context [if ?c then _ else _] => destruct c end;
      [eapply sameOver_trans; [|apply updateHealthBar_screen]|];
      repeat split; reflexivity. }
  destruct (Page_collectPickup _ p) as [k1 p1].
  specialize (IH p1).
  destruct (Page_updatePickups dt ks p1) as [ks1 p2].
  eapply sameOver_trans; eassumption.
Qed.

Lemma refreshDisplay_screen (b : Build) (rc : Raycaster) (p : Page) :
  sameOver p (refreshDisplay b rc p).
Proof.
  assert (Q : forall b' q, sameOver q (updateQuestionDisplay b' rc q)).
  { intros b' q. unfold updateQuestionDisplay. destruct (robots (world q));
      [repeat split; reflexivity|].
    destruct (aimedRobot rc _); [repeat split; reflexivity|].
    destruct b'; [|repeat split; reflexivity].
    destruct (closestRobot _ _ _) as [[d r']|]; repeat split; reflexivity. }
  assert (T : forall q, sameOver q (updateThreatIndicator q)).
  { intro q. unfold updateThreatIndicator. cbv zeta.
    destruct (negb (Z.rem _ 10 =? 0)); [repeat split; reflexivity|].
    destruct (_ || _); [repeat split; reflexivity|].
    destruct (closestRobot _ _ _) as [[d r']|]; [|repeat split; reflexivity].
    destruct (Qlt_bool d MAX_DETECT_RANGE); repeat split; reflexivity. }
  unfold refreshDisplay. destruct b; [apply Q|].
  eapply sameOver_trans; [apply Q|apply T].
Qed.

Lemma Page_animate_screen (b : Build) (fuel : nat) (dt : Q) (rc : Raycaster)
  (p p' : Page) :
  option_map fst (Page_animate b fuel dt rc p) = Some p' ->
  overInv b p -> overInv b p'.
Proof.
  intros S H.
  destruct (Page_animate_frame b fuel dt rc p p' S) as (c & S' & _).
  destruct (Page_animate_shape b fuel dt rc p p' c S')
    as [(_ & -> & _)|(Fr & w & ST & A)]; [exact H|].
  cbv zeta in A. destruct A as (_ & ->).
  assert (G : gameState w = gameState (world p)).
  { apply spawnTick_gameState in ST. rewrite ST.
    apply updatePlayerMovement_gameState. }
  assert (H0 : overInv b (set_world w p)).
  { apply overInv_running. cbn [world set_world]. rewrite G.
    unfold frameRuns in Fr. apply andb_prop in Fr. apply Fr. }
  pose proof (Page_updateRobots_screen b dt (robots w) (set_world w p) H0)
    as R1.
  set (p1 := snd (fst (Page_updateRobots b dt (robots w) (set_world w p))))
    in *.
  set (rs1 := fst (fst (Page_updateRobots b dt (robots w) (set_world w p))))
    in *.
  clearbody p1 rs1.
  assert (R2 : overInv b
                 (set_world (set_robots (robotsLeft c rs1) (world p1)) p1))
    by (apply (overInv_same b p1); [repeat split; reflexivity|exact R1]).
  destruct c; [|exact R2].
  apply (overInv_same b _ _ (refreshDisplay_screen b rc _)).
  set (p2 := set_world (set_robots (robotsLeft Returns rs1) (world p1)) p1)
    in *.
  assert (R3 : overInv b (set_world (purgeEffects dt (world p2)) p2)).
  { apply (overInv_same b p2); [|exact R2].
    unfold sameOver. cbn [world set_world dom].
    destruct (purgeEffects_fields dt (world p2)) as (E & _).
    rewrite E. repeat split; reflexivity. }
  set (p3 := set_world (purgeEffects dt (world p2)) p2) in *.
  clearbody p3. unfold Page_pickupPass.
  destruct b; [exact R3|].
  pose proof (Page_updatePickups_screen dt (pickups (world p3)) p3) as R4.
  destruct (Page_updatePickups dt _ p3) as [ks q]. cbn [snd] in R4.
  apply (overInv_same Enhanced p3); [|exact R3].
  eapply sameOver_trans; [exact R4|]. repeat split; reflexivity.
Qed.

End Screens.

Section ScreensOverARun.
Context {M : MathLib} {B : Browser}.

Lemma updateJoystick_screen (x y : Q) (p : Page) :
  sameOver p (updateJoystick x y p).
Proof. unfold updateJoystick. cbv zeta. same_over. Qed.

Lemma input_handlers_screen (b : Build) (p : Page) :
  (forall code, sameOver p (onKeyDown b code p))
  /\ (forall code, sameOver p (onKeyUp code p))
  /\ (forall x y, sameOver p (onMouseMove b x y p))
  /\ (forall ts now, sameOver p (onTouchStart b ts now p))
  /\ (forall ts, sameOver p (onTouchMove b ts p))
  /\ (forall rect ts, sameOver p (onJoystickStart b rect ts p))
  /\ (forall ts, sameOver p (onJoystickMove b ts p))
  /\ (forall ts all, sameOver p (onJoystickEnd b ts all p)).
Proof.
  refine (conj _ (conj _ (conj _ (conj _ (conj _ (conj _ (conj _ _)))))));
    intros.
  - unfold onKeyDown. same_over.
  - repeat split; reflexivity.
  - unfold onMouseMove. destruct (_ || _); repeat split; reflexivity.
  - unfold onTouchStart. destruct (inputOff _ _); [apply sameOver_refl|].
    apply (fold_left_preserves (fun q => sameOver p q));
      [|apply sameOver_refl].
    intros a t H. destruct (lookTouchId _); [exact H|].
    eapply sameOver_trans; [exact H|]. repeat split; reflexivity.
  - unfold onTouchMove. destruct (inputOff _ _); [apply sameOver_refl|].
    apply (fold_left_preserves (fun q => sameOver p q));
      [|apply sameOver_refl].
    intros a t H. destruct (sameTouch _ _); [|exact H].
    eapply sameOver_trans; [exact H|]. repeat split; reflexivity.
  - unfold onJoystickStart. destruct (inputOff _ _); [apply sameOver_refl|].
    cbv zeta. destruct ts as [|t ts]; [repeat split; reflexivity|].
    destruct (joystickTouchId _); [repeat split; reflexivity|].
    match goal with
    | |- sameOver _ (updateJoystick ?x ?y ?q) =>
        eapply sameOver_trans; [|apply (updateJoystick_screen x y q)]
    end.
    repeat split; reflexivity.
  - unfold onJoystickMove. destruct (_ || _); [apply sameOver_refl|].
    destruct (find _ ts); [apply updateJoystick_screen|apply sameOver_refl].
  - unfold onJoystickEnd. cbv zeta.
    destruct (existsb _ ts); destruct b; destruct all;
      repeat split; reflexivity.
Qed.

Lemma onTouchEnd_screen (b : Build) (ts : list Touch) (now : Z)
  (rc : Raycaster) (p : Page) :
  overInv b p -> overInv b (onTouchEnd b ts now rc p).
Proof.
  intro H. unfold onTouchEnd.
  apply (fold_left_preserves (overInv b)); [|exact H].
  intros a t Ha. destruct (sameTouch _ _); [|exact Ha].
  cbv zeta.
  match goal with
  | |- overInv b (set_look _ ?q) =>
      apply (overInv_same b q); [repeat split; reflexivity|]
  end.
  destruct (_ && _); [apply Page_onShoot_screen, Ha|exact Ha].
Qed.

Lemma Page_startGame_running (b : Build) (fuel : nat) (p p' : Page) :
  Page_startGame b fuel p = Some p' ->
  isRunning (gameState (world p')) = true.
Proof.
  intro S. pose proof (Page_startGame_world b fuel p) as A. rewrite S in A.
  symmetry in A. apply startGame_spec in A.
  destruct A as (G & _). rewrite G. reflexivity.
Qed.

Lemma step_screen (b : Build) (fuel : nat) (e : Event) (p p' : Page) :
  step b fuel e p = Some p' -> overInv b p -> overInv b p'.
Proof.
  intros S H.
  assert (K : forall q, sameOver p q -> overInv b q)
    by (intros q E; exact (overInv_same b p q E H)).
  destruct (input_handlers_screen b p)
    as (L1 & L2 & L3 & L4 & L5 & L6 & L7 & L8).
  destruct e; simpl in S.
  - exact (Page_animate_screen b fuel dt rc p p' S H).
  - apply Some_inj in S. subst p'. apply K.
    destruct (_ && _);
      [eapply sameOver_trans; [|apply togglePause_screen]|]; apply L1.
  - apply Some_inj in S. subst p'. apply K, L2.
  - apply Some_inj in S. subst p'. destruct (isMobile _); [exact H|].
    unfold onCanvasClick. destruct (inputOff _ _); [exact H|].
    destruct (negb _); [exact H|]. apply Page_onShoot_screen, H.
  - apply Some_inj in S. subst p'. destruct (isMobile _); [exact H|].
    apply K, L3.
  - apply Some_inj in S. subst p'. destruct (isMobile _); [exact H|].
    apply K. repeat split; reflexivity.
  - apply Some_inj in S. subst p'. destruct (isMobile _); [|exact H].
    apply K, L4.
  - apply Some_inj in S. subst p'. destruct (isMobile _); [|exact H].
    apply K, L5.
  - apply Some_inj in S. subst p'. destruct (isMobile _); [|exact H].
    apply onTouchEnd_screen, H.
  - apply Some_inj in S. subst p'. destruct (isMobile _); [|exact H].
    apply K, L6.
  - apply Some_inj in S. subst p'. destruct (isMobile _); [|exact H].
    apply K, L7.
  - apply Some_inj in S. subst p'. destruct (isMobile _); [|exact H].
    apply K, L8.
  - apply overInv_running, (Page_startGame_running b fuel p p' S).
  - apply Some_inj in S. subst p'.
    destruct b; [exact H|apply K, setGameMode_screen].
  - apply Some_inj in S. subst p'.
    destruct b; [exact H|apply K, togglePause_screen].
  - apply Some_inj in S. subst p'.
    destruct b; [exact H|apply K, attemptRevive_screen].
  - apply Some_inj in S. subst p'.
    destruct b; [exact H|apply showFinalGameOver_screen].
  - apply Some_inj in S. subst p'.
    destruct b; [exact H|apply K, claimExtraLife_screen].
  - destruct (nth_error _ _) as [t|]; apply Some_inj in S; subst p';
      [|exact H].
    apply fire_screen.
    apply (overInv_same b p); [repeat split; reflexivity|exact H].
Qed.

(** X15.  A stopped game shows a death screen.  After [startGame],
    whatever events follow, whenever the game is not running: in the
    enhanced build the revive modal is up, or else (in both builds) the
    game-over screen is up and its three fields read the score, wave and
    kills the game state holds. *)
Theorem X15_stopped_game_shows_its_end (b : Build) (fuel : nat)
  (es : list Event) (p0 p p' : Page) :
  Page_startGame b fuel p0 = Some p ->
  run b fuel es p = Some p' ->
  isRunning (gameState (world p')) = false ->
  (b = Enhanced /\ classList (dom p') "revive-modal" "show" = true)
  \/ (classList (dom p') "gameover-screen" "show" = true
      /\ textContent (dom p') "final-score"
         = string_of_Z (score (gameState (world p')))
      /\ textContent (dom p') "final-waves"
         = string_of_Z (wave (gameState (world p')))
      /\ textContent (dom p') "final-kills"
         = string_of_Z (kills (gameState (world p')))).
Proof.
  intros S R F.
  assert (I : overInv b p').
  { apply (run_preserves (overInv b) b fuel (step_screen b fuel) es p p' R).
    apply overInv_running, (Page_startGame_running b fuel p0 p S). }
  destruct (I F) as [L|(G & V)]; [left; exact L|right].
  unfold finalsView, finalsShown in V.
  split; [exact G|]. repeat split; congruence.
Qed.

End ScreensOverARun.

(** ** One frame of robots *)

Section FrameTraffic.
Context {M : MathLib}.

(** The basic build has no frame that is cut short. *)
Lemma animate_basic (ads : AdSession) (fuel : nat) (dt : Q) (w w' : World)
  (c : Completion) :
  animate Basic ads fuel dt w = Some (w', c) -> c = Returns.
Proof.
  intro H. destruct (frameRuns Basic (gameState w)) eqn:F.
  - destruct (animate_runs Basic ads fuel dt w w' c F H) as (w1 & _ & C & _).
    rewrite robotPass_eq in C. cbv zeta in C. cbn [fst snd] in C.
    rewrite updateRobots_basic in C. auto.
  - rewrite (animate_idle Basic ads fuel dt w F) in H. inversion H.
    reflexivity.
Qed.

(** X16.  What a frame does to the robots.  In a frame that runs, with
    every robot in the list alive, the robots afterwards are, read by
    their type, base speed, damage, scale and speed: the robots before, in
    order, followed by the robot spawned in this frame if the spawn timer
    has reached the spawn interval (the timer then restarts from 0) and by
    nothing otherwise (the timer then grows by the frame length).  When
    the frame runs to its end, the robots whose death animation has lasted
    more than a second by the end of the frame have left the list, and
    every robot in it is alive.  When the frame is cut short, which is
    the frame of the enhanced build in which an attack ends the run with
    no revive left, [robots.filter] is not reached and no robot leaves the
    list.  So no robot changes type or stats, and a robot that is not
    dying is never removed. *)
Theorem X16_one_frame_of_robots (b : Build) (ads : AdSession) (fuel : nat)
  (dt : Q) (w w' : World) (c : Completion) :
  frameRuns b (gameState w) = true ->
  animate b ads fuel dt w = Some (w', c) ->
  Forall (fun r => alive r = true) (robots w) ->
  exists spawned,
    map statsOf (robots w')
    = (map statsOf
         match c with
         | Returns => filter (fun r => negb (expiring dt r)) (robots w)
         | Throws => robots w
         end
       ++ map statsOf spawned)%list
    /\ Forall (fun r => dying r = false) spawned
    /\ (if Qle_bool (spawnInterval w) (spawnTimer w + dt)
        then List.length spawned = 1%nat /\ spawnTimer w' = 0%Q
        else spawned = [] /\ spawnTimer w' = (spawnTimer w + dt)%Q)
    /\ (c = Throws
        <-> b = Enhanced /\ canShowAd "revive" ads = false
            /\ isRunning (gameState w') = false)
    /\ (c = Returns -> Forall (fun r => alive r = true) (robots w')).
Proof.
  intros F H A.
  destruct (animate_robots b ads fuel dt w w' c F H)
    as (spawned & C & (rs & U & E & St) & T).
  exists spawned.
  assert (D : Forall (fun r => dying r = false) spawned).
  { destruct (Qle_bool _ _).
    - destruct C as (r & g & -> & N). constructor; [|constructor].
      apply (Robot_new_fresh _ _ _ _ _ _ _ _ N).
    - subst spawned. constructor. }
  split; [|split; [exact D|split; [|split]]].
  - destruct c.
    + rewrite (St eq_refl A), filter_app, map_app. f_equal. f_equal.
      clear - D. induction D as [|r l Dr _ IH]; [reflexivity|].
      simpl. unfold expiring at 1. rewrite Dr. simpl. rewrite IH.
      reflexivity.
    + rewrite E. cbn [robotsLeft].
      rewrite (sameRobot_stats dt _ _ U), map_app. reflexivity.
  - destruct (Qle_bool _ _).
    + destruct C as (r & g & -> & _). split; [reflexivity|exact T].
    + split; [exact C|exact T].
  - destruct b.
    + apply animate_basic in H. subst c.
      split; [discriminate|]. intros (N & _). discriminate.
    + destruct (animate_cut ads fuel dt w w' c F H) as (K1 & K2).
      split; [intro K; split; [reflexivity|exact (K1 K)]|].
      intros (_ & K). exact (K2 K).
  - intros ->. exact (animate_alive b ads fuel dt w w' F H).
Qed.

End FrameTraffic.

(** ** Effects in flight *)

Lemma shuffle_from_source (i : nat) (l : list Value) (g : Rng) :
  source (snd (shuffle_from i l g)) = source g.
Proof.
  revert l g. induction i as [|i IH]; intros l g; [reflexivity|].
  cbn [shuffle_from].
  destruct (randomIndex (Z.of_nat (S i) + 1) g) as [j g1] eqn:R.
  apply randomIndex_source in R. rewrite IH. exact R.
Qed.

Lemma bindZones_source (res : Generated) (r : Robot) (g : Rng) :
  source (snd (bindZones res r g)) = source g.
Proof.
  unfold bindZones. cbv zeta.
  pose proof (shuffle_from_source
                (List.length (answer res :: wrongAnswers res) - 1)
                (answer res :: wrongAnswers res) g) as S.
  destruct (shuffle_from _ _ g) as [l g1]. exact S.
Qed.

Lemma wrongAnswers_loop_source (fuel : nat) (ans : Z) :
  forall (acc : list Z) (g : Rng) (res : list Z) (g' : Rng),
    wrongAnswers_loop fuel ans acc g = Some (res, g') ->
    source g' = source g.
Proof.
  induction fuel as [|fuel IH]; intros acc g res g' H;
    cbn [wrongAnswers_loop] in H;
    destruct (List.length acc <? 2)%nat; try discriminate;
    try (inversion H; reflexivity).
  pose proof (drawWrong_source ans g) as S.
  destruct (drawWrong ans g) as [wrong g1]. cbn [snd] in S.
  destruct (_ && _); apply IH in H; congruence.
Qed.

Lemma generateQuestion_source (b : Build) (fuel : nat) (gs : GameState)
  (this r : Robot) (g g' : Rng) :
  generateQuestion b fuel gs this g = Some (r, g') -> source g' = source g.
Proof.
  assert (P : forall pool, 
             match pickFromPool pool this g with
             | Some (this, result, g) => Some (bindZones result this g)
             | None => None
             end = Some (r, g') -> source g' = source g).
  { intros pool H.
    destruct (pickFromPool pool this g) as [[[r1 res] g1]|] eqn:Pk;
      [|discriminate].
    apply pickFromPool_entry in Pk. destruct Pk as (q & _ & _ & _ & _ & S).
    apply Some_inj in H. pose proof (bindZones_source res r1 g1) as Z.
    rewrite H in Z. cbn [snd] in Z. congruence. }
  intro H. destruct b; simpl in H.
  - unfold Robot_generateMathQuestion in H. cbv zeta in H.
    destruct (randomIndex _ g) as [i g1] eqn:R1.
    apply randomIndex_source in R1.
    destruct (i <? 0); [discriminate|].
    destruct (nth_error _ (Z.to_nat i)) as [o|]; [|discriminate].
    destruct (basic_operands o g1) as [[[x y] ans] g2] eqn:R2.
    apply basic_operands_source in R2.
    destruct (wrongAnswers_loop fuel ans [] g2) as [[wrongs g3]|] eqn:L;
      [|discriminate].
    apply wrongAnswers_loop_source in L.
    apply Some_inj in H.
    match type of H with
    | bindZones ?res ?t g3 = _ =>
        pose proof (bindZones_source res t g3) as Z
    end.
    rewrite H in Z. cbn [snd] in Z. congruence.
  - unfold Robot_generateQuestion in H. destruct (mode gs).
    + unfold MathGenerator_generate in H.
      destruct (MathGenerator_difficulty (wave gs)) as [ops maxNum].
      destruct (randomIndex _ g) as [i g1] eqn:R1.
      apply randomIndex_source in R1.
      destruct (i <? 0); [discriminate|].
      destruct (nth_error ops (Z.to_nat i)) as [o|]; [|discriminate].
      destruct (MathGenerator_operands o maxNum g1) as [[[x y] ans] g2] eqn:R2.
      apply MathGenerator_operands_source in R2.
      destruct (wrongAnswers_loop fuel ans [] g2) as [[wrongs g3]|] eqn:L;
        [|discriminate].
      apply wrongAnswers_loop_source in L.
      apply Some_inj in H.
      match type of H with
      | bindZones ?res ?t g3 = _ =>
          pose proof (bindZones_source res t g3) as Z
      end.
      rewrite H in Z. cbn [snd] in Z. congruence.
    + exact (P _ H).
    + exact (P _ H).
Qed.

Lemma sameFx_refl (w : World) : sameFx w w.
Proof. repeat split; reflexivity. Qed.

Lemma sameFx_trans (w1 w2 w3 : World) :
  sameFx w1 w2 -> sameFx w2 w3 -> sameFx w1 w3.
Proof.
  intros (A1 & A2 & A3) (C1 & C2 & C3). repeat split; congruence.
Qed.

Lemma fxInv_same (w w' : World) : sameFx w w' -> fxInv w -> fxInv w'.
Proof.
  intros (P & Bl & S) (H1 & H2 & H3). unfold fxInv. rewrite P, Bl.
  split; [exact H1|]. split; [exact H2|].
  exact (unit_draws_source _ _ S H3).
Qed.

Lemma createParticles_ok (n : nat) (p : Vec3) :
  forall (acc : list ExplosionParticle) (g : Rng),
    unit_draws g -> Forall particleOk acc ->
    Forall particleOk (fst (createParticles n p acc g))
    /\ source (snd (createParticles n p acc g)) = source g.
Proof.
  induction n as [|n IH]; intros acc g U F; [split; [exact F|reflexivity]|].
  cbn [createParticles]. unfold ExplosionParticle_new, Math_random.
  cbn [source cursor].
  match goal with
  | |- context [createParticles n p (acc ++ [?e]) ?g1] =>
      destruct (IH (acc ++ [e]) g1) as (I1 & I2)
  end.
  - exact (unit_draws_source _ g eq_refl U).
  - apply Forall_app. split; [exact F|]. constructor; [|constructor].
    unfold particleOk. cbn [ep_life ep_decay].
    destruct (U (S (S (S (cursor g))))) as (L & H).
    repeat split; lra.
  - split; [exact I1|exact I2].
Qed.

Lemma createExplosion_fx (b : Build) (p : Vec3) (n : Z) (w : World) :
  fxInv w -> fxInv (createExplosion b p n w).
Proof.
  intros (P & Bl & U). unfold createExplosion. cbv zeta.
  match goal with
  | |- context [createParticles ?k p (particles w) (rng w)] =>
      destruct (createParticles_ok k p (particles w) (rng w) U P) as (I1 & I2);
      destruct (createParticles k p (particles w) (rng w)) as [ps g]
  end.
  cbn [fst snd] in I1, I2. unfold fxInv.
  split; [exact I1|]. split; [exact Bl|].
  exact (unit_draws_source _ _ I2 U).
Qed.

Lemma maybeDrop_fx (b : Build) (r : Robot) (w : World) :
  sameFx w (maybeDrop b r w).
Proof.
  destruct b; simpl; [apply sameFx_refl|].
  unfold dropPickup, Math_random, HealthPickup_new, Math_random.
  cbn [source cursor].
  destruct (Qlt_bool _ _); repeat split; reflexivity.
Qed.

Lemma waveCheck_fx (b : Build) (w : World) : sameFx w (waveCheck b w).
Proof.
  unfold waveCheck, waveAdvance. cbv zeta.
  destruct (_ =? 0); [|apply sameFx_refl].
  destruct b; [repeat split; reflexivity|].
  match goal with |- context [if ?c then _ else _] => destruct c end;
    repeat split; reflexivity.
Qed.

Lemma bullets_snoc_ok (bs : list BulletTrail) (s e : Vec3) :
  Forall bulletOk bs -> Forall bulletOk (bs ++ [BulletTrail_new s e]).
Proof.
  intro F. apply Forall_app. split; [exact F|].
  constructor; [|constructor]. unfold bulletOk. simpl. split; lra.
Qed.

Lemma resolveHit_fx (b : Build) (r : Robot) (h : Hit) (w : World) :
  fxInv w -> fxInv (snd (resolveHit b r h w)).
Proof.
  intros (P & Bl & U).
  assert (I0 : forall gs,
             fxInv (set_gameState gs
                      (set_bullets
                         (bullets w ++
                          [BulletTrail_new (cam_position (camera w))
                             (hit_point h)]) w))).
  { intro gs. split; [exact P|]. split; [|exact U].
    apply bullets_snoc_ok, Bl. }
  destruct (strict_eq (hit_answer h) (correctAnswer r)) eqn:C.
  - rewrite (resolveHit_correct_eq b r h w C). cbn [snd].
    eapply fxInv_same; [apply waveCheck_fx|].
    eapply fxInv_same; [apply maybeDrop_fx|].
    apply createExplosion_fx, I0.
  - rewrite (resolveHit_wrong_eq b r h w C). cbn [snd].
    apply createExplosion_fx, I0.
Qed.

Lemma onShoot_fx (b : Build) (rc : Raycaster) (w : World) :
  fxInv w -> fxInv (onShoot b rc w).
Proof.
  intro H. destruct (onShoot_cases b rc w) as [->|(r & h & rs & _ & _ & ->)];
    [exact H|].
  apply (fxInv_same (snd (resolveHit b r h w)));
    [repeat split; reflexivity|apply resolveHit_fx, H].
Qed.

Lemma purgeEffects_fx (dt : Q) (w : World) :
  (0 <= dt)%Q -> fxInv w -> fxInv (purgeEffects dt w).
Proof.
  intros D (P & Bl & U). unfold purgeEffects, fxInv. cbv zeta.
  cbn [particles bullets rng set_particles set_bullets].
  split; [|split; [|exact U]].
  - apply Forall_forall. intros e I. apply filter_In in I.
    destruct I as (I & L). apply in_map_iff in I.
    destruct I as (e0 & <- & I0).
    rewrite Forall_forall in P. specialize (P e0 I0).
    destruct P as (P1 & P2 & P3 & P4).
    unfold Qlt_bool in L. apply negb_true_iff in L.
    assert (L' : (0 < ep_life (ExplosionParticle_update dt e0))%Q).
    { destruct (Qlt_le_dec 0 (ep_life (ExplosionParticle_update dt e0)))
        as [Y|N]; [exact Y|].
      apply Qle_bool_iff in N. congruence. }
    unfold particleOk. split; [exact L'|].
    unfold ExplosionParticle_update. cbv zeta. cbn [ep_life ep_decay].
    split; [nra|]. split; assumption.
  - apply Forall_forall. intros t I. apply filter_In in I.
    destruct I as (I & L). apply in_map_iff in I.
    destruct I as (t0 & <- & I0).
    rewrite Forall_forall in Bl. specialize (Bl t0 I0).
    destruct Bl as (B1 & B2).
    unfold Qlt_bool in L. apply negb_true_iff in L.
    assert (L' : (0 < bt_life (BulletTrail_update dt t0))%Q).
    { destruct (Qlt_le_dec 0 (bt_life (BulletTrail_update dt t0)))
        as [Y|N]; [exact Y|].
      apply Qle_bool_iff in N. congruence. }
    unfold bulletOk. split; [exact L'|].
    unfold BulletTrail_update. cbn [bt_life]. lra.
Qed.

Section EffectsInFlight.
Context {M : MathLib}.

Lemma Robot_new_source (b : Build) (fuel : nat) (ty : option RobotType)
  (gs : GameState) (cam : Camera) (g g' : Rng) (r : Robot) :
  Robot_new b fuel ty gs cam g = Some (r, g') -> source g' = source g.
Proof.
  intro H. apply Robot_new_question in H.
  destruct H as (this & g1 & S & Q).
  apply generateQuestion_source in Q. congruence.
Qed.

Lemma Robot_attackPlayer_fx (b : Build) (ads : AdSession) (r : Robot)
  (w : World) :
  sameFx w (snd (fst (Robot_attackPlayer b ads r w))).
Proof.
  unfold Robot_attackPlayer.
  destruct (match b with Enhanced => _ | Basic => _ end);
    [apply sameFx_refl|].
  cbv zeta. destruct (_ <=? 0).
  - destruct (endGame b ads _) as [gs c]. repeat split; reflexivity.
  - unfold aroundPlayer, Math_random. repeat split; reflexivity.
Qed.

Lemma Robot_update_fx (b : Build) (ads : AdSession) (dt : Q) (r : Robot)
  (w : World) :
  sameFx w (snd (fst (Robot_update b ads dt r w))).
Proof.
  unfold Robot_update. destruct (dying r); [apply sameFx_refl|].
  cbv zeta. destruct (_ && _); [apply Robot_attackPlayer_fx|apply sameFx_refl].
Qed.

Lemma updateRobots_fx (b : Build) (ads : AdSession) (dt : Q)
  (rs : list Robot) (w : World) :
  sameFx w (snd (fst (updateRobots b ads dt rs w))).
Proof.
  apply (updateRobots_keeps (sameFx w)); [|apply sameFx_refl].
  intros r w1 H. eapply sameFx_trans; [exact H|apply Robot_update_fx].
Qed.

Lemma animate_fx (b : Build) (ads : AdSession) (fuel : nat) (dt : Q)
  (w w' : World) (c : Completion) :
  (0 <= dt)%Q ->
  animate b ads fuel dt w = Some (w', c) -> fxInv w -> fxInv w'.
Proof.
  intros D H I.
  destruct (frameRuns b (gameState w)) eqn:F;
    [|rewrite (animate_idle b ads fuel dt w F) in H; inversion H; subst;
      exact I].
  destruct (animate_runs b ads fuel dt w w' c F H) as (w1 & S & _ & ->).
  assert (I1 : fxInv w1).
  { apply spawnTick_world in S. destruct S as (t & rs & g & -> & C).
    destruct (updatePlayerMovement_world dt w) as (ph & cm & E).
    rewrite E in C |- *.
    apply (fxInv_same w); [|exact I].
    unfold sameFx. cbn [particles bullets rng set_rng set_robots
      set_spawnTimer set_physics set_camera].
    split; [reflexivity|]. split; [reflexivity|].
    destruct C as [(_ & ->)|(r & _ & N)]; [reflexivity|].
    apply Robot_new_source in N. exact N. }
  clear S I.
  assert (I2 : fxInv (fst (robotPass b ads dt w1))).
  { apply (fxInv_same w1); [|exact I1].
    rewrite robotPass_eq. cbv zeta. cbn [fst].
    eapply sameFx_trans; [apply (updateRobots_fx b ads dt (robots w1) w1)|].
    repeat split; reflexivity. }
  destruct c; [|exact I2].
  destruct (pickupPass_world b dt
              (purgeEffects dt (fst (robotPass b ads dt w1))))
    as (gs1 & ps1 & ->).
  apply (fxInv_same (purgeEffects dt (fst (robotPass b ads dt w1))));
    [repeat split; reflexivity|].
  apply purgeEffects_fx; [exact D|exact I2].
Qed.

Lemma startGame_fx (b : Build) (fuel : nat) (w w' : World) :
  unit_draws (rng w) -> startGame b fuel w = Some w' -> fxInv w'.
Proof.
  intros U H. apply startGame_spec in H.
  destruct H as (_ & (r & g & _ & N & R) & _ & P & Bl & _).
  unfold fxInv. rewrite P, Bl, R.
  split; [constructor|]. split; [constructor|].
  apply Robot_new_source in N. exact (unit_draws_source _ _ N U).
Qed.

End EffectsInFlight.

Section EffectsOverARun.
Context {M : MathLib} {B : Browser}.

Ltac same_fx := unfold sameFx; guards; repeat split; reflexivity.

Lemma updateHealthBar_fx (p : Page) :
  sameFx (world p) (world (updateHealthBar p)).
Proof. rewrite world_updateHealthBar. apply sameFx_refl. Qed.

Lemma fire_fx (t : Timer) (p : Page) : sameFx (world p) (world (fire t p)).
Proof.
  destruct t as [[|]| |]; cbn [fire].
  - unfold reviveAdOver.
    destruct (showMockRewardedAd_over _ _) as [s [[|c n]|]];
      [|repeat split; reflexivity..].
    unfold executeRevive. cbv zeta.
    match goal with |- context [if ?c then _ else _] => destruct c end;
      cbn [world onDom set_dom onGameState set_world];
      rewrite world_updateHealthBar; repeat split; reflexivity.
  - unfold extraLifeAdOver.
    destruct (showMockRewardedAd_over _ _) as [s [r|]];
      [|repeat split; reflexivity].
    cbv zeta. cbn [world set_extraLifeOfferShown onDom set_dom].
    rewrite world_updateHealthBar. repeat split; reflexivity.
  - repeat split; reflexivity.
  - unfold attemptRevive. cbv zeta.
    match goal with
    | |- context [match ?c with adRefused => _ | adShown => _ end] =>
        destruct c
    end; repeat split; reflexivity.
Qed.

Lemma handlers_fx (b : Build) (p : Page) :
  (forall code, sameFx (world p) (world (onKeyDown b code p)))
  /\ (forall x y, sameFx (world p) (world (onMouseMove b x y p)))
  /\ (forall ts now, sameFx (world p) (world (onTouchStart b ts now p)))
  /\ (forall ts, sameFx (world p) (world (onTouchMove b ts p)))
  /\ (forall rect ts, sameFx (world p) (world (onJoystickStart b rect ts p)))
  /\ (forall ts, sameFx (world p) (world (onJoystickMove b ts p)))
  /\ (forall ts all, sameFx (world p) (world (onJoystickEnd b ts all p)))
  /\ (forall m, sameFx (world p) (world (setGameMode m p)))
  /\ sameFx (world p) (world (togglePause p))
  /\ sameFx (world p) (world (attemptRevive p))
  /\ sameFx (world p) (world (fst (showFinalGameOver p)))
  /\ sameFx (world p) (world (claimExtraLife p)).
Proof.
  assert (J : forall x y q, sameFx (world q) (world (updateJoystick x y q)))
    by (intros x y q; unfold updateJoystick; cbv zeta; same_fx).
  refine (conj _ (conj _ (conj _ (conj _ (conj _ (conj _ (conj _ (conj _
            (conj _ (conj _ (conj _ _))))))))))); intros.
  - unfold onKeyDown. same_fx.
  - unfold onMouseMove. destruct (_ || _); repeat split; reflexivity.
  - unfold onTouchStart. destruct (inputOff _ _); [apply sameFx_refl|].
    apply (fold_left_preserves (fun q => sameFx (world p) (world q)));
      [|apply sameFx_refl].
    intros a t H. destruct (lookTouchId _); exact H.
  - unfold onTouchMove. destruct (inputOff _ _); [apply sameFx_refl|].
    apply (fold_left_preserves (fun q => sameFx (world p) (world q)));
      [|apply sameFx_refl].
    intros a t H. destruct (sameTouch _ _); [|exact H].
    eapply sameFx_trans; [exact H|]. repeat split; reflexivity.
  - unfold onJoystickStart. destruct (inputOff _ _); [apply sameFx_refl|].
    cbv zeta. destruct ts as [|t ts]; [apply sameFx_refl|].
    destruct (joystickTouchId _); [apply sameFx_refl|].
    match goal with
    | |- sameFx _ (world (updateJoystick ?x ?y ?q)) => apply (J x y q)
    end.
  - unfold onJoystickMove. destruct (_ || _); [apply sameFx_refl|].
    destruct (find _ ts); [apply J|apply sameFx_refl].
  - unfold onJoystickEnd. cbv zeta.
    destruct (existsb _ ts); destruct b; destruct all;
      repeat split; reflexivity.
  - unfold setGameMode. cbv zeta.
    apply (fold_left_preserves (fun q => sameFx (world p) (world q)));
      [|repeat split; reflexivity].
    intros a x H. destruct (String.eqb _ _); exact H.
  - unfold togglePause. cbv zeta. same_fx.
  - unfold attemptRevive. cbv zeta.
    match goal with
    | |- context [match ?c with adRefused => _ | adShown => _ end] =>
        destruct c
    end; repeat split; reflexivity.
  - repeat split; reflexivity.
  - unfold claimExtraLife. cbv zeta.
    match goal with
    | |- context [match ?c with adRefused => _ | adShown => _ end] =>
        destruct c
    end; repeat split; reflexivity.
Qed.

Lemma step_fx (b : Build) (fuel : nat) (e : Event) (p p' : Page) :
  clockForward e ->
  step b fuel e p = Some p' -> fxInv (world p) -> fxInv (world p').
Proof.
  intros C S H.
  assert (K : forall q, sameFx (world p) (world q) -> fxInv (world q))
    by (intros q E; exact (fxInv_same _ _ E H)).
  destruct (handlers_fx b p)
    as (L1 & L2 & L3 & L4 & L5 & L6 & L7 & L8 & L9 & L10 & L11 & L12).
  destruct e; simpl in S.
  - destruct (Page_animate_frame b fuel dt rc p p' S) as (c & _ & A).
    exact (animate_fx b (adSession p) fuel dt _ _ c C A H).
  - apply Some_inj in S. subst p'. destruct (_ && _); [|apply K, L1].
    apply (fxInv_same (world (onKeyDown b code p))); [|apply K, L1].
    destruct (handlers_fx b (onKeyDown b code p))
      as (_ & _ & _ & _ & _ & _ & _ & _ & T & _). exact T.
  - apply Some_inj in S. subst p'. apply K. repeat split; reflexivity.
  - apply Some_inj in S. subst p'. destruct (isMobile _); [exact H|].
    unfold onCanvasClick. destruct (inputOff _ _); [exact H|].
    destruct (negb _); [exact H|].
    rewrite Page_onShoot_world. apply onShoot_fx, H.
  - apply Some_inj in S. subst p'. destruct (isMobile _); [exact H|].
    apply K, L2.
  - apply Some_inj in S. subst p'. destruct (isMobile _); exact H.
  - apply Some_inj in S. subst p'. destruct (isMobile _); [|exact H].
    apply K, L3.
  - apply Some_inj in S. subst p'. destruct (isMobile _); [|exact H].
    apply K, L4.
  - apply Some_inj in S. subst p'. destruct (isMobile _); [|exact H].
    unfold onTouchEnd.
    apply (fold_left_preserves (fun q => fxInv (world q))); [|exact H].
    intros a t Ha. destruct (sameTouch _ _); [|exact Ha].
    cbv zeta. cbn [world set_look].
    destruct (_ && _); [|exact Ha].
    rewrite Page_onShoot_world. apply onShoot_fx, Ha.
  - apply Some_inj in S. subst p'. destruct (isMobile _); [|exact H].
    apply K, L5.
  - apply Some_inj in S. subst p'. destruct (isMobile _); [|exact H].
    apply K, L6.
  - apply Some_inj in S. subst p'. destruct (isMobile _); [|exact H].
    apply K, L7.
  - pose proof (Page_startGame_world b fuel p) as A. rewrite S in A.
    symmetry in A. destruct H as (_ & _ & U).
    exact (startGame_fx b fuel _ _ U A).
  - apply Some_inj in S. subst p'. destruct b; [exact H|apply K, L8].
  - apply Some_inj in S. subst p'. destruct b; [exact H|apply K, L9].
  - apply Some_inj in S. subst p'. destruct b; [exact H|apply K, L10].
  - apply Some_inj in S. subst p'. destruct b; [exact H|apply K, L11].
  - apply Some_inj in S. subst p'. destruct b; [exact H|apply K, L12].
  - destruct (nth_error _ _) as [t|]; apply Some_inj in S; subst p';
      [|exact H].
    apply K.
    exact (fire_fx t (set_timers (removeNth n (timers p)) p)).
Qed.

Lemma run_preserves_when (E : Event -> Prop) (P : Page -> Prop) (b : Build)
  (fuel : nat) :
  (forall e p p', E e -> step b fuel e p = Some p' -> P p -> P p') ->
  forall es p p', Forall E es -> run b fuel es p = Some p' -> P p -> P p'.
Proof.
  intros H es. induction es as [|e es IH]; intros p p' F R Hp; simpl in R.
  - inversion R. subst. exact Hp.
  - inversion F as [|? ? Fe Fes]; subst.
    destruct (step b fuel e p) as [p1|] eqn:S; [|discriminate].
    exact (IH p1 p' Fes R (H e p p1 Fe S Hp)).
Qed.

(** X17.  Effects are on their way out.  With draws in [0, 1) and a clock
    that never runs backwards, after [startGame] and whatever events
    follow, in both builds: every explosion particle in flight has a life
    in (0, 1] and fades at a rate of at least 1.5 and less than 2.5 per
    second, and every bullet trail has a life in (0, 0.2]. *)
Theorem X17_effects_are_on_their_way_out (b : Build) (fuel : nat)
  (es : list Event) (p0 p p' : Page) :
  unit_draws (rng (world p0)) ->
  Forall clockForward es ->
  Page_startGame b fuel p0 = Some p ->
  run b fuel es p = Some p' ->
  Forall (fun e => (0 < ep_life e /\ ep_life e <= 1
                    /\ 15 # 10 <= ep_decay e /\ ep_decay e < 25 # 10)%Q)
    (particles (world p'))
  /\ Forall (fun t => (0 < bt_life t /\ bt_life t <= 2 # 10)%Q)
       (bullets (world p')).
Proof.
  intros U F S R.
  assert (I : fxInv (world p')).
  { apply (run_preserves_when clockForward (fun q => fxInv (world q)) b fuel
             (step_fx b fuel) es p p' F R).
    pose proof (Page_startGame_world b fuel p0) as A. rewrite S in A.
    symmetry in A. exact (startGame_fx b fuel _ _ U A). }
  destruct I as (I1 & I2 & _). split; [exact I1|exact I2].
Qed.

End EffectsOverARun.

(** ** The pace of the robots *)

Lemma paceOk_stats (b : Build) (w : Z) (r r' : Robot) :
  statsOf r' = statsOf r -> paceOk b w r -> paceOk b w r'.
Proof.
  unfold statsOf, paceOk. intros E (k & K & S). inversion E.
  exists k. split; [exact K|]. congruence.
Qed.

Lemma paceOk_later (b : Build) (w w' : Z) (r : Robot) :
  w <= w' -> paceOk b w r -> paceOk b w' r.
Proof. intros L (k & K & S). exists k. split; [lia|exact S]. Qed.

Section Pace.
Context {M : MathLib} {B : Browser}.

(** An invariant of the world that the handlers of the page cannot
    disturb is an invariant of every step as soon as shots, frames and
    [startGame] respect it. *)
Lemma step_world_invariant (I : World -> Prop) (b : Build) (fuel : nat) :
  (forall w w', sameRun w w' -> I w -> I w') ->
  (forall rc w, I w -> I (onShoot b rc w)) ->
  (forall ads dt w w' c,
      animate b ads fuel dt w = Some (w', c) -> I w -> I w') ->
  (forall w w', startGame b fuel w = Some w' -> I w') ->
  forall e p p', step b fuel e p = Some p' -> I (world p) -> I (world p').
Proof.
  intros Same Shot Frame Start e p p' S H.
  assert (K : forall q, sameRun (world p) (world q) -> I (world q))
    by (intros q R; exact (Same _ _ R H)).
  assert (F : forall ts now rc q,
             I (world q) -> I (world (onTouchEnd b ts now rc q))).
  { intros ts now rc. unfold onTouchEnd.
    apply (fold_left_preserves (fun q => I (world q))).
    intros a x Ha. destruct (sameTouch x _); [|exact Ha].
    cbv zeta. cbn [world set_look].
    destruct (_ && _); [|exact Ha].
    rewrite Page_onShoot_world. apply Shot, Ha. }
  destruct e; simpl in S;
    try (apply Some_inj in S; subst p').
  - destruct (Page_animate_frame b fuel dt rc p p' S) as (c & _ & A).
    exact (Frame (adSession p) dt _ _ c A H).
  - apply K. destruct (_ && _);
      [eapply sameRun_trans; [|apply togglePause_run]|]; apply onKeyDown_run.
  - apply K, onKeyUp_run.
  - destruct (isMobile _); [exact H|]. unfold onCanvasClick. guards;
      try exact H.
    rewrite Page_onShoot_world. apply Shot, H.
  - apply K.
    destruct (isMobile _); [apply sameRun_refl|apply onMouseMove_run].
  - apply K. destruct (isMobile _); repeat split; reflexivity.
  - apply K.
    destruct (isMobile _); [apply onTouchStart_run|apply sameRun_refl].
  - apply K.
    destruct (isMobile _); [apply onTouchMove_run|apply sameRun_refl].
  - destruct (isMobile _); [apply F, H|exact H].
  - apply K.
    destruct (isMobile _); [apply onJoystickStart_run|apply sameRun_refl].
  - apply K.
    destruct (isMobile _); [apply onJoystickMove_run|apply sameRun_refl].
  - apply K.
    destruct (isMobile _); [apply onJoystickEnd_run|apply sameRun_refl].
  - pose proof (Page_startGame_world b fuel p) as A. rewrite S in A.
    symmetry in A. exact (Start _ _ A).
  - apply K. destruct b; [apply sameRun_refl|apply setGameMode_run].
  - apply K. destruct b; [apply sameRun_refl|apply togglePause_run].
  - apply K. destruct b; [apply sameRun_refl|apply attemptRevive_run].
  - apply K. destruct b; [apply sameRun_refl|apply showFinalGameOver_run].
  - apply K. destruct b; [apply sameRun_refl|apply claimExtraLife_run].
  - destruct (nth_error (timers p) n) as [t|]; apply Some_inj in S; subst p';
      [|exact H].
    apply K. apply (fire_run t (set_timers _ p)).
Qed.

Lemma paceInv_same (b : Build) (w w' : World) :
  sameRun w w' -> paceInv b w -> paceInv b w'.
Proof.
  intros ((_ & V & _) & _ & _ & R) H. unfold paceInv. rewrite R, V. exact H.
Qed.

Lemma onShoot_pace (b : Build) (rc : Raycaster) (w : World) :
  paceInv b w -> paceInv b (onShoot b rc w).
Proof.
  intros (W & S).
  destruct (canFire b (gameState w)) eqn:F;
    [|rewrite (onShoot_held b rc w F); split; assumption].
  destruct (firstLiveHit rc (robots w)) as [[r h]|] eqn:L.
  - apply firstLiveHit_split in L. destruct L as (bf & af & E & HB & D & C).
    rewrite (onShoot_target b rc w bf af r h F E HB D C).
    destruct (resolveHit_fleet b r h w) as (E1 & E2 & E3).
    unfold paceInv.
    cbn [robots set_robots gameState].
    replace (gameState (set_robots (bf ++ fst (resolveHit b r h w) :: af)
                          (snd (resolveHit b r h w))))
      with (gameState (snd (resolveHit b r h w)))
      by (destruct (snd (resolveHit b r h w)); reflexivity).
    rewrite E in S.
    apply Forall_app in S. destruct S as (S1 & S2).
    inversion S2 as [|? ? S3 S4]. subst.
    assert (Later : forall l,
               Forall (paceOk b (wave (gameState w))) l ->
               Forall (paceOk b (wave (gameState (snd (resolveHit b r h w)))))
                 l).
    { intros l Hl. eapply Forall_impl; [|exact Hl].
      intros x Hx. exact (paceOk_later b _ _ x E3 Hx). }
    split; [lia|]. apply Forall_app; split; auto; constructor; auto.
    apply (paceOk_stats b _ r _ E1). exact (paceOk_later b _ _ r E3 S3).
  - apply firstLiveHit_none in L. rewrite (onShoot_miss b rc w L).
    split; assumption.
Qed.

Lemma Forall_map_pace (b : Build) (k : Z) (l l' : list Robot) :
  map statsOf l' = map statsOf l ->
  Forall (paceOk b k) l -> Forall (paceOk b k) l'.
Proof.
  revert l'. induction l as [|r l IH]; intros [|r' l'] E F; simpl in E;
    try discriminate; [constructor|].
  assert (E1 : statsOf r' = statsOf r) by congruence.
  assert (E2 : map statsOf l' = map statsOf l) by congruence.
  inversion F as [|? ? Fr Fl]; subst.
  constructor; [exact (paceOk_stats b k r r' E1 Fr)|auto].
Qed.

Lemma Robot_new_pace (b : Build) (fuel : nat) (gs : GameState) (cam : Camera)
  (g g' : Rng) (r : Robot) :
  1 <= wave gs ->
  Robot_new b fuel None gs cam g = Some (r, g') -> paceOk b (wave gs) r.
Proof.
  intros W N. destruct (Robot_new_stats _ _ _ _ _ _ _ _ N) as (_ & S & _).
  exists (wave gs). split; [lia|exact S].
Qed.

Lemma animate_pace (b : Build) (ads : AdSession) (fuel : nat) (dt : Q)
  (w w' : World) (c : Completion) :
  animate b ads fuel dt w = Some (w', c) -> paceInv b w -> paceInv b w'.
Proof.
  intros H (W & S).
  pose proof (animate_vitals b ads fuel dt w w' c H) as (_ & V & _).
  unfold paceInv. rewrite V. split; [exact W|].
  apply (animate_each (paceOk b (wave (gameState w))) b ads fuel dt w w' c);
    [apply paceOk_stats|exact H|exact S|].
  intros r g N. exact (Robot_new_pace b fuel _ _ _ _ _ W N).
Qed.

Lemma startGame_pace (b : Build) (fuel : nat) (w w' : World) :
  startGame b fuel w = Some w' -> paceInv b w'.
Proof.
  intro H. apply startGame_spec in H.
  destruct H as (G & (r & g & E & N & _) & _).
  assert (W : wave (gameState w') = 1) by (rewrite G; reflexivity).
  assert (W1 : 1 <= wave (gameState w')) by lia.
  pose proof (Robot_new_pace b fuel _ _ _ _ _ W1 N) as P.
  unfold paceInv. rewrite E. repeat split; try constructor; auto.
Qed.

(** X19.  Robots move at the pace of their wave.  After [startGame],
    whatever events follow, in both builds, every robot in play moves at
    the base speed of its type plus the wave factor of the build (0.2
    basic, 0.1 enhanced) times a wave between 1 and the current wave, the
    wave it was built in: no robot is faster than the current wave
    allows. *)
Theorem X19_robots_keep_the_pace_of_their_wave (b : Build) (fuel : nat)
  (es : list Event) (p0 p p' : Page) :
  Page_startGame b fuel p0 = Some p ->
  run b fuel es p = Some p' ->
  Forall (fun r =>
            exists k,
              1 <= k <= wave (gameState (world p'))
              /\ speed r
                 = (fst (fst (Robot_stats b (rtype r)))
                    + inject_Z k * waveSpeedFactor b)%Q)
    (robots (world p')).
Proof.
  intros S R.
  assert (I : paceInv b (world p') /\ fleetInv b (world p')).
  { apply (run_preserves
             (fun q => paceInv b (world q) /\ fleetInv b (world q)) b fuel)
      with (es := es) (p := p); [|exact R|].
    - intros e q q' St (P & Fl). split.
      + exact (step_world_invariant (paceInv b) b fuel (paceInv_same b)
                 (onShoot_pace b)
                 (fun ads dt w w' c => animate_pace b ads fuel dt w w' c)
                 (startGame_pace b fuel) e q q' St P).
      + exact (step_fleet b fuel e q q' St Fl).
    - pose proof (Page_startGame_world b fuel p0) as A. rewrite S in A.
      symmetry in A.
      split; [exact (startGame_pace b fuel _ _ A)
             |exact (startGame_fleet b fuel _ _ A)]. }
  destruct I as ((_ & P) & (Snd & _)).
  rewrite Forall_forall in *. intros r Hr.
  destruct (P r Hr) as (k & K & E). exists k. split; [exact K|].
  rewrite E. specialize (Snd r Hr). unfold robotSound in Snd.
  rewrite <- Snd. reflexivity.
Qed.

End Pace.

(** ** The robots in the list *)

Lemma showMockRewardedAd_over_spent (type : string) (s : AdSession) :
  canShowAd "revive" s = false ->
  canShowAd "revive" (fst (showMockRewardedAd_over type s)) = false.
Proof.
  change (canShowAd "revive" s) with (revivesUsed s <? AD_CONFIG_maxRevives).
  intro H. apply Z.ltb_ge in H.
  assert (G : revivesUsed s
              <= revivesUsed (fst (showMockRewardedAd_over type s))).
  { unfold showMockRewardedAd_over. cbv zeta.
    cbn [currentReviveAdCount revivesUsed extraLivesUsed adsWatched].
    destruct (String.eqb type "revive").
    - destruct (_ <=? _); cbn [fst revivesUsed]; lia.
    - destruct (String.eqb type "extraLife"); cbn [fst revivesUsed]; lia. }
  change (canShowAd "revive" (fst (showMockRewardedAd_over type s)))
    with (revivesUsed (fst (showMockRewardedAd_over type s))
          <? AD_CONFIG_maxRevives).
  apply Z.ltb_ge. lia.
Qed.

Lemma standing_same (b : Build) (ads : AdSession) (dt : Q) (r r' : Robot) :
  b = Enhanced -> canShowAd "revive" ads = false ->
  sameRobot dt r r' -> standing b ads r -> standing b ads r'.
Proof.
  intros Eb N (_ & D & A) [H|(_ & _ & H)].
  - destruct A as [A|(X & _)]; [left; congruence|].
    right. unfold expiring in X. apply andb_prop in X.
    destruct X as (X & _). repeat split; congruence.
  - right. repeat split; congruence.
Qed.

Section Ranks.
Context {M : MathLib} {B : Browser}.

(** A revive that is used up stays used up until the next [startGame]. *)
Lemma fire_spent (t : Timer) (p : Page) :
  canShowAd "revive" (adSession p) = false ->
  canShowAd "revive" (adSession (fire t p)) = false.
Proof.
  intro H. destruct t as [[|]| |]; cbn [fire].
  - unfold reviveAdOver.
    pose proof (showMockRewardedAd_over_spent "revive" _ H) as K.
    destruct (showMockRewardedAd_over _ _) as [s [[|c n]|]]; cbn [fst] in K;
      [rewrite executeRevive_session|..]; exact K.
  - unfold extraLifeAdOver.
    pose proof (showMockRewardedAd_over_spent "extraLife" _ H) as K.
    destruct (showMockRewardedAd_over _ _) as [s [r|]]; cbn [fst] in K;
      [|exact K].
    cbv zeta. cbn [adSession set_extraLifeOfferShown onDom set_dom].
    unfold updateHealthBar. cbv zeta. guards; exact K.
  - exact H.
  - destruct (attemptRevive_aside p) as (-> & _). exact H.
Qed.

Lemma ranksInv_pass (b : Build) (p q : Page) :
  (canShowAd "revive" (adSession p) = false ->
   canShowAd "revive" (adSession q) = false) ->
  robots (world q) = robots (world p) ->
  ranksInv b p -> ranksInv b q.
Proof.
  intros N R H. unfold ranksInv. rewrite R.
  eapply Forall_impl; [|exact H].
  intros r [A|(Eb & C & D)]; [left; exact A|right; auto].
Qed.

Lemma ranksInv_same (b : Build) (p q : Page) :
  adSession q = adSession p -> sameRun (world p) (world q) ->
  ranksInv b p -> ranksInv b q.
Proof.
  intros E (_ & _ & _ & R). apply ranksInv_pass; [rewrite E; auto|exact R].
Qed.

Lemma onShoot_ranks (b : Build) (ads : AdSession) (rc : Raycaster)
  (w : World) :
  Forall (standing b ads) (robots w) ->
  Forall (standing b ads) (robots (onShoot b rc w)).
Proof.
  intro S.
  destruct (canFire b (gameState w)) eqn:F;
    [|rewrite (onShoot_held b rc w F); exact S].
  destruct (firstLiveHit rc (robots w)) as [[r h]|] eqn:L.
  - apply firstLiveHit_split in L. destruct L as (bf & af & E & HB & D & C).
    rewrite (onShoot_target b rc w bf af r h F E HB D C).
    destruct (resolveHit_fleet b r h w) as (_ & E2 & _).
    cbn [robots set_robots]. rewrite E in S.
    apply Forall_app in S. destruct S as (S1 & S2).
    inversion S2 as [|? ? S3 S4]. subst.
    apply Forall_app. split; [exact S1|]. constructor; [|exact S4].
    left. rewrite E2. destruct S3 as [A|(_ & _ & K)]; congruence.
  - apply firstLiveHit_none in L. rewrite (onShoot_miss b rc w L). exact S.
Qed.

Lemma Page_onShoot_ranks (b : Build) (rc : Raycaster) (p : Page) :
  ranksInv b p -> ranksInv b (Page_onShoot b rc p).
Proof.
  intro H. unfold ranksInv.
  destruct (Page_onShoot_inner b rc p) as (-> & _).
  rewrite Page_onShoot_world. apply onShoot_ranks, H.
Qed.

(** A frame that runs to its end leaves robots that are alive; a frame
    that is cut short leaves the robots it found, the dying ones among
    them maybe no longer alive, and has found the revive used up. *)
Lemma animate_ranks (b : Build) (ads : AdSession) (fuel : nat) (dt : Q)
  (w w' : World) (c : Completion) :
  animate b ads fuel dt w = Some (w', c) ->
  Forall (standing b ads) (robots w) -> Forall (standing b ads) (robots w').
Proof.
  intros H S.
  destruct (frameRuns b (gameState w)) eqn:F;
    [|rewrite (animate_idle b ads fuel dt w F) in H; inversion H; subst;
      exact S].
  destruct c.
  - eapply Forall_impl; [|exact (animate_alive b ads fuel dt w w' F H)].
    intros r A. left. exact A.
  - destruct b; [apply animate_basic in H; discriminate|].
    destruct (animate_cut ads fuel dt w w' Throws F H) as (K & _).
    destruct (K eq_refl) as (N & _).
    destruct (animate_robots Enhanced ads fuel dt w w' Throws F H)
      as (sp & Sp & (rs & U & -> & _) & _).
    assert (S1 : Forall (standing Enhanced ads) (robots w ++ sp)).
    { apply Forall_app. split; [exact S|].
      destruct (Qle_bool _ _).
      - destruct Sp as (r & g & -> & Nr). constructor; [|constructor].
        left. apply (Robot_new_fresh _ _ _ _ _ _ _ _ Nr).
      - subst sp. constructor. }
    cbn [robotsLeft]. clear - U S1 N.
    induction U as [|r r' l l' Hr _ IH]; [constructor|].
    inversion S1 as [|? ? Sr Sl]; subst.
    constructor;
      [exact (standing_same Enhanced ads dt r r' eq_refl N Hr Sr)
      |exact (IH Sl)].
Qed.

Lemma Page_startGame_ranks (b : Build) (fuel : nat) (p p' : Page) :
  Page_startGame b fuel p = Some p' -> ranksInv b p'.
Proof.
  intro S. pose proof (Page_startGame_world b fuel p) as A. rewrite S in A.
  symmetry in A. cbn [option_map] in A. apply startGame_spec in A.
  destruct A as (_ & (r & g & E & N & _) & _).
  unfold ranksInv. rewrite E. constructor; [|constructor].
  left. apply (Robot_new_fresh _ _ _ _ _ _ _ _ N).
Qed.

Lemma step_ranks (b : Build) (fuel : nat) (e : Event) (p p' : Page) :
  step b fuel e p = Some p' -> ranksInv b p -> ranksInv b p'.
Proof.
  intros S H.
  assert (K : forall q,
             aside p q -> sameRun (world p) (world q) -> ranksInv b q)
    by (intros q (E & _) R; exact (ranksInv_same b p q E R H)).
  assert (L : forall q,
             adSession q = adSession p -> sameRun (world p) (world q) ->
             ranksInv b q)
    by (intros q E R; exact (ranksInv_same b p q E R H)).
  assert (F : forall ts now rc q,
             ranksInv b q -> ranksInv b (onTouchEnd b ts now rc q)).
  { intros ts now rc. unfold onTouchEnd.
    apply (fold_left_preserves (ranksInv b)).
    intros a x Ha. destruct (sameTouch x _); [|exact Ha].
    cbv zeta. destruct (_ && _); [|exact Ha].
    apply Page_onShoot_ranks. exact Ha. }
  destruct (look_handlers_session b p) as (L1 & L2 & L3 & L4 & L5 & L6).
  destruct e; simpl in S;
    try (apply Some_inj in S; subst p').
  - destruct (Page_animate_frame b fuel dt rc p p' S) as (c & _ & A).
    destruct (Page_animate_inner b fuel dt rc p p' S) as (E & _).
    unfold ranksInv. rewrite E.
    exact (animate_ranks b (adSession p) fuel dt _ _ c A H).
  - destruct (_ && _).
    + apply K;
        [eapply aside_trans; [|apply togglePause_aside]; apply onKeyDown_aside
        |eapply sameRun_trans; [|apply togglePause_run]; apply onKeyDown_run].
    + apply K; [apply onKeyDown_aside|apply onKeyDown_run].
  - apply K; [split; reflexivity|apply onKeyUp_run].
  - destruct (isMobile _); [exact H|]. unfold onCanvasClick. guards;
      try exact H.
    apply Page_onShoot_ranks, H.
  - destruct (isMobile _); [exact H|].
    apply L; [apply L1|apply onMouseMove_run].
  - destruct (isMobile _); [exact H|].
    apply L; [apply L2|repeat split; reflexivity].
  - destruct (isMobile _); [|exact H].
    apply L; [apply L3|apply onTouchStart_run].
  - destruct (isMobile _); [|exact H].
    apply L; [apply L4|apply onTouchMove_run].
  - destruct (isMobile _); [apply F, H|exact H].
  - destruct (isMobile _); [|exact H].
    apply K; [apply onJoystickStart_aside|apply onJoystickStart_run].
  - destruct (isMobile _); [|exact H].
    apply K; [apply onJoystickMove_aside|apply onJoystickMove_run].
  - destruct (isMobile _); [|exact H].
    apply K; [apply onJoystickEnd_aside|apply onJoystickEnd_run].
  - exact (Page_startGame_ranks b fuel p p' S).
  - destruct b; [exact H|].
    apply K; [apply setGameMode_aside|apply setGameMode_run].
  - destruct b; [exact H|].
    apply K; [apply togglePause_aside|apply togglePause_run].
  - destruct b; [exact H|].
    apply K; [apply attemptRevive_aside|apply attemptRevive_run].
  - destruct b; [exact H|].
    apply K; [apply showFinalGameOver_aside|apply showFinalGameOver_run].
  - destruct b; [exact H|].
    apply K; [apply claimExtraLife_aside|apply claimExtraLife_run].
  - destruct (nth_error (timers p) n) as [t|]; apply Some_inj in S; subst p';
      [|exact H].
    apply (ranksInv_pass b (set_timers (removeNth n (timers p)) p)).
    + apply fire_spent.
    + destruct (fire_run t (set_timers (removeNth n (timers p)) p))
        as (_ & _ & _ & R). exact R.
    + exact H.
Qed.

(** X6.  The robots in play.  After [startGame], whatever events follow,
    every robot in the list carries the base speed, damage and scale of
    its type (so its damage is 10, 12 or 25), and is of a type the run has
    reached: in the enhanced build a fast robot is in play only from wave
    3 on, a heavy one only from wave 6 on.  In the basic build every
    robot in the list is alive.  In the enhanced build every robot in the
    list is alive as long as a revive is left; once the revive is used
    up, a robot in the list is alive or dying: the frame in which an
    attack ends the run with no revive left is cut short before
    [robots.filter], so the robots whose death animation ran out in that
    frame stay in the list, no longer alive. *)
Theorem X6_robots_in_play (b : Build) (fuel : nat) (es : list Event)
  (p0 p p' : Page) :
  Page_startGame b fuel p0 = Some p ->
  run b fuel es p = Some p' ->
  Forall (fun r =>
            (baseSpeed r, damage r, scale r) = Robot_stats b (rtype r)
            /\ reached b (rtype r) (wave (gameState (world p')))
            /\ (alive r = true
                \/ (b = Enhanced
                    /\ canShowAd "revive" (adSession p') = false
                    /\ dying r = true)))
    (robots (world p')).
Proof.
  intros S R.
  assert (F : fleetInv b (world p')).
  { apply (run_preserves (fun q => fleetInv b (world q)) b fuel
             (step_fleet b fuel) es p p' R).
    pose proof (Page_startGame_world b fuel p0) as A. rewrite S in A.
    symmetry in A. exact (startGame_fleet b fuel _ _ A). }
  assert (K : ranksInv b p')
    by exact (run_preserves (ranksInv b) b fuel (step_ranks b fuel) es p p' R
                (Page_startGame_ranks b fuel p0 p S)).
  destruct F as (F1 & F2). unfold ranksInv in K.
  rewrite Forall_forall in *.
  intros r Hr. split; [exact (F1 r Hr)|]. split; [exact (F2 r Hr)|].
  exact (K r Hr).
Qed.

End Ranks.

(** ** The properties at work on the sample pages *)

Lemma startedPage_starts (b : Build) :
  @Page_startGame sampleMath b 10 (loadedPage b)
  = Some (startedPage b).
Proof.
  unfold startedPage.
  destruct (@Page_startGame sampleMath b 10 (loadedPage b))
    as [p|] eqn:E; [reflexivity|].
  destruct b; vm_compute in E; discriminate.
Defined.

Lemma playedPage_plays (b : Build) :
  @run sampleMath sampleBrowser b 10 sampleSession (startedPage b)
  = Some (playedPage b).
Proof.
  unfold playedPage.
  destruct (@run sampleMath sampleBrowser b 10 sampleSession (startedPage b))
    as [p|] eqn:E; [reflexivity|].
  destruct b; vm_compute in E; discriminate.
Defined.

Lemma X1_witness :
  unit_draws sampleDraws
  /\ askedMode Enhanced (initialGameState Enhanced) = math
  /\ exists r g',
       generateQuestion Enhanced 10 (initialGameState Enhanced) sampleRobot
         sampleDraws = Some (r, g')
       /\ exists o x y ans,
            In o (operationsAt Enhanced (wave (initialGameState Enhanced)))
            /\ question r = mathQuestion o x y
            /\ correctAnswer r = VNum ans
            /\ evalOp o x y = Some ans.
Proof.
  split; [exact sampleDraws_unit|]. split; [reflexivity|].
  destruct (generateQuestion Enhanced 10 (initialGameState Enhanced)
              sampleRobot sampleDraws) as [[r g']|] eqn:E;
    [|vm_compute in E; discriminate].
  exists r, g'. split; [reflexivity|].
  exact (X1_sum_answer_is_true Enhanced 10 (initialGameState Enhanced)
           sampleRobot r sampleDraws g' sampleDraws_unit eq_refl E).
Defined.

Lemma X2_witness :
  unit_draws sampleDraws
  /\ askedMode Basic (initialGameState Basic) = math
  /\ exists r g',
       generateQuestion Basic 10 (initialGameState Basic) sampleRobot
         sampleDraws = Some (r, g')
       /\ exists ans,
            correctAnswer r = VNum ans
            /\ 1 <= ans <= answerCap Basic
            /\ Forall (fun v => exists n, v = VNum n /\ 1 <= n
                                          /\ ans - 5 <= n <= ans + 4)
                 (zones r).
Proof.
  split; [exact sampleDraws_unit|]. split; [reflexivity|].
  destruct (generateQuestion Basic 10 (initialGameState Basic)
              sampleRobot sampleDraws) as [[r g']|] eqn:E;
    [|vm_compute in E; discriminate].
  exists r, g'. split; [reflexivity|].
  exact (X2_sum_values_near Basic 10 (initialGameState Basic)
           sampleRobot r sampleDraws g' sampleDraws_unit eq_refl E).
Defined.

Lemma X3_witness :
  @Page_startGame sampleMath Enhanced 10 (loadedPage Enhanced)
  = Some (startedPage Enhanced)
  /\ @run sampleMath sampleBrowser Enhanced 10 sampleSession
       (startedPage Enhanced) = Some (playedPage Enhanced)
  /\ runBooks Enhanced (world (playedPage Enhanced)).
Proof.
  split; [exact (startedPage_starts Enhanced)|].
  split; [exact (playedPage_plays Enhanced)|].
  exact (@X3_books_of_a_run sampleMath sampleBrowser Enhanced 10
           sampleSession (loadedPage Enhanced) (startedPage Enhanced)
           (playedPage Enhanced) (startedPage_starts Enhanced)
           (playedPage_plays Enhanced)).
Defined.

Lemma X4_witness :
  @Page_startGame sampleMath Basic 10 (loadedPage Basic)
  = Some (startedPage Basic)
  /\ @run sampleMath sampleBrowser Basic 10 sampleSession
       (startedPage Basic) = Some (playedPage Basic)
  /\ onGround (world (playedPage Basic)).
Proof.
  split; [exact (startedPage_starts Basic)|].
  split; [exact (playedPage_plays Basic)|].
  exact (@X4_never_off_the_ground sampleMath sampleBrowser Basic 10
           sampleSession (loadedPage Basic) (startedPage Basic)
           (playedPage Basic) (startedPage_starts Basic)
           (playedPage_plays Basic)).
Defined.

Lemma X5_witness :
  onGround (world squadPage)
  /\ let q := @hops sampleMath Enhanced sampleHops squadPage in
     let ph := physics (world q) in
     (2 <= playerY ph /\ playerY ph <= 4)%Q
     /\ (isGrounded ph = true -> playerY ph == 2)%Q
     /\ (isGrounded ph = false -> onJumpButtonPress Enhanced q = q).
Proof.
  assert (G : onGround (world squadPage)) by (repeat split; reflexivity).
  split; [exact G|].
  exact (@X5_jump_height sampleMath Enhanced sampleHops squadPage G).
Defined.

Lemma arenaStart_starts :
  @Page_startGame sampleMath Enhanced 10 arenaPage = Some arenaStart.
Proof.
  unfold arenaStart.
  destruct (@Page_startGame sampleMath Enhanced 10 arenaPage)
    as [p|] eqn:E; [reflexivity|].
  vm_compute in E. discriminate.
Defined.

Lemma bruisedPage_plays :
  @run sampleMath sampleBrowser Enhanced 10 roughSession arenaStart
  = Some bruisedPage.
Proof.
  unfold bruisedPage.
  destruct (@run sampleMath sampleBrowser Enhanced 10 roughSession arenaStart)
    as [p|] eqn:E; [reflexivity|].
  vm_compute in E. discriminate.
Defined.

Lemma fallenPage_plays :
  @run sampleMath sampleBrowser Enhanced 10 fatalSession arenaStart
  = Some fallenPage.
Proof.
  unfold fallenPage.
  destruct (@run sampleMath sampleBrowser Enhanced 10 fatalSession arenaStart)
    as [p|] eqn:E; [reflexivity|].
  vm_compute in E. discriminate.
Defined.

Lemma X6_witness :
  @Page_startGame sampleMath Enhanced 10 arenaPage = Some arenaStart
  /\ @run sampleMath sampleBrowser Enhanced 10 fatalSession arenaStart
     = Some fallenPage
  /\ Forall (fun r =>
               (baseSpeed r, damage r, scale r)
               = Robot_stats Enhanced (rtype r)
               /\ reached Enhanced (rtype r)
                    (wave (gameState (world fallenPage)))
               /\ (alive r = true
                   \/ (Enhanced = Enhanced
                       /\ canShowAd "revive" (adSession fallenPage) = false
                       /\ dying r = true)))
       (robots (world fallenPage))
  /\ map alive (robots (world fallenPage))
     = [false; true; true; true; true; true]
  /\ map dying (robots (world fallenPage))
     = [true; false; false; false; false; false]
  /\ health (gameState (world fallenPage)) = -10
  /\ isRunning (gameState (world fallenPage)) = false.
Proof.
  split; [exact arenaStart_starts|].
  split; [exact fallenPage_plays|].
  split;
    [exact (@X6_robots_in_play sampleMath sampleBrowser Enhanced 10
              fatalSession arenaPage arenaStart fallenPage
              arenaStart_starts fallenPage_plays)|].
  vm_compute. repeat split; reflexivity.
Defined.

Lemma X7_witness :
  0 <= maxHealth (gameState (world arenaPage))
  /\ @Page_startGame sampleMath Enhanced 10 arenaPage = Some arenaStart
  /\ @run sampleMath sampleBrowser Enhanced 10 roughSession arenaStart
     = Some bruisedPage
  /\ (let gs := gameState (world bruisedPage) in
      let d := dom bruisedPage in
      let percentage := healthPercentage gs in
      textContent d "score" = string_of_Z (score gs)
      /\ textContent d "wave" = string_of_Z (wave gs)
      /\ textContent d "combo" = ("x" ++ string_of_Z (combo gs))%string
      /\ style d "health-fill" "width" = percentText percentage
      /\ textContent d "health-val" = percentText percentage
      /\ style d ".health-container" "animation"
         = (if belowThirty percentage
            then "pulse-red 1s infinite" else "none")
      /\ health gs <= maxHealth gs)
  /\ health (gameState (world bruisedPage)) = 28
  /\ maxHealth (gameState (world bruisedPage)) = 100
  /\ healthPercentage (gameState (world bruisedPage)) = Some 29
  /\ textContent (dom bruisedPage) "health-val" = "29%"
  /\ textContent (dom bruisedPage) "score" = "600".
Proof.
  assert (M0 : 0 <= maxHealth (gameState (world arenaPage)))
    by (simpl; lia).
  split; [exact M0|].
  split; [exact arenaStart_starts|].
  split; [exact bruisedPage_plays|].
  split;
    [exact (@X7_display_up_to_date sampleMath sampleBrowser Enhanced 10
              roughSession arenaPage arenaStart bruisedPage M0
              arenaStart_starts bruisedPage_plays)|].
  vm_compute. repeat split; reflexivity.
Defined.

Lemma X8_witness :
  inputOff Enhanced (gameState (world (loadedPage Enhanced))) = true
  /\ (guarded (keydown "KeyW") = true ->
      @step sampleMath sampleBrowser Enhanced 10 (keydown "KeyW")
        (loadedPage Enhanced) = Some (loadedPage Enhanced))
  /\ (forall ts now rc p',
        @step sampleMath sampleBrowser Enhanced 10 (lookTouchend ts now rc)
          (loadedPage Enhanced) = Some p' ->
        world p' = world (loadedPage Enhanced)
        /\ dom p' = dom (loadedPage Enhanced)).
Proof.
  split; [reflexivity|].
  exact (@X8_frozen_while_off sampleMath sampleBrowser Enhanced 10
           (keydown "KeyW") (loadedPage Enhanced) eq_refl).
Defined.

Lemma X9_witness :
  @Page_startGame sampleMath Enhanced 10 arenaPage = Some arenaStart
  /\ @run sampleMath sampleBrowser Enhanced 10 fatalSession arenaStart
     = Some fallenPage
  /\ adInv (adSession fallenPage)
  /\ adSession fallenPage = mkAdSession 1 1 3 0.
Proof.
  split; [exact arenaStart_starts|].
  split; [exact fallenPage_plays|].
  split;
    [exact (@X9_rewards_are_paid_for sampleMath sampleBrowser 10
              fatalSession arenaPage arenaStart fallenPage
              arenaStart_starts fallenPage_plays)|].
  vm_compute. reflexivity.
Defined.

Lemma X10_witness :
  (2 # 10 <= @Math_PI sampleMath)%Q
  /\ @Page_startGame sampleMath Enhanced 10
       (loadedPage Enhanced) = Some (startedPage Enhanced)
  /\ @run sampleMath sampleBrowser Enhanced 10 sampleSession
       (startedPage Enhanced) = Some (playedPage Enhanced)
  /\ @pitchInRange sampleMath (playedPage Enhanced).
Proof.
  assert (PI : (2 # 10 <= @Math_PI sampleMath)%Q)
    by (unfold Qle; simpl; lia).
  split; [exact PI|].
  split; [exact (startedPage_starts Enhanced)|].
  split; [exact (playedPage_plays Enhanced)|].
  exact (@X10_pitch_stays_in_range sampleMath sampleBrowser Enhanced 10
           sampleSession (loadedPage Enhanced) (startedPage Enhanced)
           (playedPage Enhanced) PI (startedPage_starts Enhanced)
           (playedPage_plays Enhanced)).
Defined.

Lemma X11_witness :
  revivesUsed (adSession squadPage) = 0
  /\ currentReviveAdCount (adSession squadPage) = 0
  /\ exists p1 p',
       @run sampleMath sampleBrowser Enhanced 10 [reviveClick; timeout 0]
         squadPage = Some p1
       /\ world p1 = world squadPage
       /\ classList (dom p1) = classList (dom squadPage)
       /\ @run sampleMath sampleBrowser Enhanced 10 [timeout 0; timeout 0] p1
          = Some p'
       /\ health (gameState (world p'))
          = Math_floor
              (inject_Z (maxHealth (gameState (world squadPage))) * (5 # 10))
       /\ isRunning (gameState (world p')) = true
       /\ classList (dom p') "revive-modal" "show" = false
       /\ robots (world p') = robots (world squadPage)
       /\ score (gameState (world p')) = score (gameState (world squadPage))
       /\ timers p' = timers squadPage
       /\ revivesUsed (adSession p') = 1
       /\ timers (attemptRevive p') = timers p'
       /\ showReviveModal p' = showFinalGameOver p'.
Proof.
  split; [reflexivity|]. split; [reflexivity|].
  exact (@X11_two_ads_buy_one_revive sampleMath sampleBrowser 10 squadPage
           eq_refl eq_refl).
Defined.

Lemma X12_witness :
  extraLivesUsed (adSession squadPage) = 0
  /\ let gs := gameState (world squadPage) in
     exists p',
       @run sampleMath sampleBrowser Enhanced 10 [extraLifeClick; timeout 0]
         squadPage = Some p'
       /\ gameState (world p')
          = set_health (Z.min (maxHealth gs) (health gs + 50)) gs
       /\ robots (world p') = robots (world squadPage)
       /\ classList (dom p') "extra-life-btn" "hidden" = true
       /\ classList (dom p') "extra-life-btn" "show" = false
       /\ extraLivesUsed (adSession p') = 1
       /\ timers p' = timers squadPage
       /\ (forall q, adSession q = adSession p' -> checkExtraLifeOffer q = q)
       /\ timers (claimExtraLife p') = timers p'.
Proof.
  split; [reflexivity|].
  exact (@X12_one_ad_buys_one_extra_life sampleMath sampleBrowser 10
           squadPage eq_refl).
Defined.

Lemma X13_witness :
  firstLiveHit (rayAt part_chest) (robots (world squadPage))
  = Some (sampleRobot, chestHit)
  /\ canFire Enhanced (gameState (world squadPage)) = true
  /\ textContent
       (dom (@updateQuestionDisplay sampleMath Enhanced (rayAt part_chest) squadPage))
       "current-question" = question sampleRobot
  /\ exists before after,
       robots (world squadPage) = (before ++ sampleRobot :: after)%list
       /\ world (Page_onShoot Enhanced (rayAt part_chest) squadPage)
          = set_robots
              (before
               ++ fst (resolveHit Enhanced sampleRobot chestHit
                         (world squadPage)) :: after)%list
              (snd (resolveHit Enhanced sampleRobot chestHit
                      (world squadPage))).
Proof.
  split; [reflexivity|]. split; [reflexivity|].
  exact (@X13_question_shown_is_the_targets sampleMath Enhanced
           (rayAt part_chest) squadPage sampleRobot chestHit eq_refl eq_refl).
Defined.

Lemma X14_witness :
  unit_draws sampleDraws
  /\ mode quizState <> math
  /\ exists r g',
       generateQuestion Enhanced 10 quizState sampleRobot sampleDraws
       = Some (r, g')
       /\ exists q w1 w2,
            (let '(easy, medium, hard) := poolsOf (mode quizState) in
             In q easy \/ (4 <= wave quizState /\ In q medium)
             \/ (8 <= wave quizState /\ In q hard))
            /\ question r = qd_q q
            /\ correctAnswer r = VStr (qd_a q)
            /\ qd_w q = [w1; w2]
            /\ Permutation [VStr (qd_a q); VStr w1; VStr w2] (zones r).
Proof.
  assert (NM : mode quizState <> math) by discriminate.
  split; [exact sampleDraws_unit|]. split; [exact NM|].
  destruct (generateQuestion Enhanced 10 quizState sampleRobot sampleDraws)
    as [[r g']|] eqn:E; [|vm_compute in E; discriminate].
  exists r, g'. split; [reflexivity|].
  exact (X14_pooled_question_keeps_its_answers 10 quizState sampleRobot r
           sampleDraws g' sampleDraws_unit NM E).
Defined.

Lemma quitPage_plays :
  @run sampleMath sampleBrowser Enhanced 10 quitSession (startedPage Enhanced)
  = Some quitPage.
Proof.
  unfold quitPage.
  destruct (@run sampleMath sampleBrowser Enhanced 10 quitSession
              (startedPage Enhanced)) as [p|] eqn:E; [reflexivity|].
  vm_compute in E. discriminate.
Defined.

Lemma X15_witness :
  @Page_startGame sampleMath Enhanced 10 (loadedPage Enhanced)
  = Some (startedPage Enhanced)
  /\ @run sampleMath sampleBrowser Enhanced 10 quitSession
       (startedPage Enhanced) = Some quitPage
  /\ isRunning (gameState (world quitPage)) = false
  /\ ((Enhanced = Enhanced
       /\ classList (dom quitPage) "revive-modal" "show" = true)
      \/ (classList (dom quitPage) "gameover-screen" "show" = true
          /\ textContent (dom quitPage) "final-score"
             = string_of_Z (score (gameState (world quitPage)))
          /\ textContent (dom quitPage) "final-waves"
             = string_of_Z (wave (gameState (world quitPage)))
          /\ textContent (dom quitPage) "final-kills"
             = string_of_Z (kills (gameState (world quitPage))))).
Proof.
  assert (F : isRunning (gameState (world quitPage)) = false)
    by (vm_compute; reflexivity).
  split; [exact (startedPage_starts Enhanced)|].
  split; [exact quitPage_plays|]. split; [exact F|].
  exact (@X15_stopped_game_shows_its_end sampleMath sampleBrowser Enhanced 10
           quitSession (loadedPage Enhanced) (startedPage Enhanced) quitPage
           (startedPage_starts Enhanced) quitPage_plays F).
Defined.

Lemma X16_witness :
  (frameRuns Enhanced (gameState busyWorld) = true
   /\ Forall (fun r => alive r = true) (robots busyWorld)
   /\ exists w',
        @animate sampleMath Enhanced resetSessionLimits 10 (1 # 60) busyWorld
        = Some (w', Returns)
        /\ exists spawned,
             map statsOf (robots w')
             = (map statsOf
                  (filter (fun r => negb (expiring (1 # 60) r))
                     (robots busyWorld))
                ++ map statsOf spawned)%list
             /\ Forall (fun r => dying r = false) spawned
             /\ (if Qle_bool (spawnInterval busyWorld)
                      (spawnTimer busyWorld + (1 # 60))
                 then List.length spawned = 1%nat /\ spawnTimer w' = 0%Q
                 else spawned = []
                      /\ spawnTimer w'
                         = (spawnTimer busyWorld + (1 # 60))%Q)
             /\ (Returns = Throws
                 <-> Enhanced = Enhanced
                     /\ canShowAd "revive" resetSessionLimits = false
                     /\ isRunning (gameState w') = false)
             /\ (Returns = Returns ->
                 Forall (fun r => alive r = true) (robots w')))
  /\ (frameRuns Enhanced (gameState lastStand) = true
      /\ Forall (fun r => alive r = true) (robots lastStand)
      /\ exists w',
           @animate sampleMath Enhanced spentSession 10 (1 # 60) lastStand
           = Some (w', Throws)
           /\ exists spawned,
                map statsOf (robots w')
                = (map statsOf (robots lastStand)
                   ++ map statsOf spawned)%list
                /\ Forall (fun r => dying r = false) spawned
                /\ (if Qle_bool (spawnInterval lastStand)
                         (spawnTimer lastStand + (1 # 60))
                    then List.length spawned = 1%nat /\ spawnTimer w' = 0%Q
                    else spawned = []
                         /\ spawnTimer w'
                            = (spawnTimer lastStand + (1 # 60))%Q)
                /\ (Throws = Throws
                    <-> Enhanced = Enhanced
                        /\ canShowAd "revive" spentSession = false
                        /\ isRunning (gameState w') = false)
                /\ (Throws = Returns ->
                    Forall (fun r => alive r = true) (robots w')))
  /\ Qle_bool (spawnInterval busyWorld) (spawnTimer busyWorld + (1 # 60))
     = true
  /\ map (expiring (1 # 60)) (robots busyWorld) = [true; false]
  /\ map (expiring (1 # 60)) (robots lastStand) = [true; false; false].
Proof.
  assert (A1 : Forall (fun r => alive r = true) (robots busyWorld))
    by (repeat constructor).
  assert (A2 : Forall (fun r => alive r = true) (robots lastStand))
    by (repeat constructor).
  split; [|split; [|vm_compute; repeat split; reflexivity]].
  - split; [reflexivity|]. split; [exact A1|].
    destruct (@animate sampleMath Enhanced resetSessionLimits 10 (1 # 60)
                busyWorld) as [[w' [|]]|] eqn:E;
      try (vm_compute in E; discriminate).
    exists w'. split; [reflexivity|].
    exact (@X16_one_frame_of_robots sampleMath Enhanced resetSessionLimits 10
             (1 # 60) busyWorld w' Returns eq_refl E A1).
  - split; [reflexivity|]. split; [exact A2|].
    destruct (@animate sampleMath Enhanced spentSession 10 (1 # 60)
                lastStand) as [[w' [|]]|] eqn:E;
      try (vm_compute in E; discriminate).
    exists w'. split; [reflexivity|].
    exact (@X16_one_frame_of_robots sampleMath Enhanced spentSession 10
             (1 # 60) lastStand w' Throws eq_refl E A2).
Defined.

Lemma X17_witness :
  unit_draws (rng (world (loadedPage Enhanced)))
  /\ Forall clockForward sampleSession
  /\ @Page_startGame sampleMath Enhanced 10 (loadedPage Enhanced)
     = Some (startedPage Enhanced)
  /\ @run sampleMath sampleBrowser Enhanced 10 sampleSession
       (startedPage Enhanced) = Some (playedPage Enhanced)
  /\ Forall (fun e => (0 < ep_life e /\ ep_life e <= 1
                       /\ 15 # 10 <= ep_decay e /\ ep_decay e < 25 # 10)%Q)
       (particles (world (playedPage Enhanced)))
  /\ Forall (fun t => (0 < bt_life t /\ bt_life t <= 2 # 10)%Q)
       (bullets (world (playedPage Enhanced))).
Proof.
  assert (F : Forall clockForward sampleSession)
    by (repeat constructor; discriminate).
  split; [exact sampleDraws_unit|]. split; [exact F|].
  split; [exact (startedPage_starts Enhanced)|].
  split; [exact (playedPage_plays Enhanced)|].
  exact (@X17_effects_are_on_their_way_out sampleMath sampleBrowser Enhanced
           10 sampleSession (loadedPage Enhanced) (startedPage Enhanced)
           (playedPage Enhanced) sampleDraws_unit F
           (startedPage_starts Enhanced) (playedPage_plays Enhanced)).
Defined.

Lemma X18_witness :
  isRunning (gameState (world squadPage)) = true
  /\ isPaused (gameState (world squadPage)) = false
  /\ Forall (fun e => guarded e = true) pausedEvents
  /\ exists p',
       @run sampleMath sampleBrowser Enhanced 10
         (keydown "Escape" :: pausedEvents ++ [keydown "Escape"]) squadPage
       = Some p'
       /\ world p' = world squadPage /\ look p' = look squadPage
       /\ stick p' = stick squadPage
       /\ adSession p' = adSession squadPage /\ timers p' = timers squadPage
       /\ textContent (dom p') = textContent (dom squadPage)
       /\ style (dom p') = style (dom squadPage)
       /\ disabled (dom p') = disabled (dom squadPage)
       /\ forall el cls,
            classList (dom p') el cls
            = if String.eqb el "pause-menu" && String.eqb cls "hidden"
              then true else classList (dom squadPage) el cls.
Proof.
  assert (F : Forall (fun e => guarded e = true) pausedEvents)
    by (repeat constructor).
  split; [reflexivity|]. split; [reflexivity|]. split; [exact F|].
  exact (@X18_pause_is_transparent sampleMath sampleBrowser 10 pausedEvents
           squadPage eq_refl eq_refl F).
Defined.

Lemma X19_witness :
  @Page_startGame sampleMath Enhanced 10 (loadedPage Enhanced)
  = Some (startedPage Enhanced)
  /\ @run sampleMath sampleBrowser Enhanced 10 sampleSession
       (startedPage Enhanced) = Some (playedPage Enhanced)
  /\ Forall (fun r =>
               exists k,
                 1 <= k <= wave (gameState (world (playedPage Enhanced)))
                 /\ speed r
                    = (fst (fst (Robot_stats Enhanced (rtype r)))
                       + inject_Z k * waveSpeedFactor Enhanced)%Q)
       (robots (world (playedPage Enhanced))).
Proof.
  split; [exact (startedPage_starts Enhanced)|].
  split; [exact (playedPage_plays Enhanced)|].
  exact (@X19_robots_keep_the_pace_of_their_wave sampleMath sampleBrowser
           Enhanced 10 sampleSession (loadedPage Enhanced)
           (startedPage Enhanced) (playedPage Enhanced)
           (startedPage_starts Enhanced) (playedPage_plays Enhanced)).
Defined.
